(** * Bishops: four-player chess rule engine

    A shallow embedding of the rule engine of
    [Bishops_Golden_backup_20251113.py]: the 12x12 board with its cached king
    positions, pseudo-legal move generation, check detection, the
    simulate/undo pair, the legality filter, the corner sanctuary, the
    turn/priority update, the duel seeding and the two AI policies.

    Conventions.
    - Python integers are [Z]; list indices are converted with [Z.to_nat]
      only after the bounds test the source performs.
    - A [Piece] object is owned by the one cell that references it; the
      in-place mutation of a piece is the update of that cell.  The field
      [pid] stands for the identity of the Python object.
    - The module-level [gs] (read through [globals().get('gs')]) is an
      [option GameState.t] argument: [None] when the global is absent.
    - [Board.find_king] refreshes the king cache, so every function calling
      it returns the board next to its result.
    - Python floats are the binary64 numbers of [PrimFloat].  The clock
      ([pygame.time.get_ticks], [time.perf_counter]) and the random
      generator are arguments: what they answer during one call. *)

From Stdlib Require Import Floats.PrimFloat Floats.FloatOps Floats.SpecFloat.
From Stdlib Require Import ZArith List Bool Ascii Lia Sorting.Sorted.
From stdpp Require Import base option list gmap strings pretty.
Import ListNotations.
Local Open Scope Z_scope.
#[local] Set Warnings "-inexact-float".

(** ** Constants (lines 46, 98-100, 274-302) *)

Definition BOARD_SIZE : Z := 12.
Definition CH_MIN : Z := 2.
Definition CH_MAX : Z := 9.

Inductive PColor := WHITE | GREY | BLACK | PINK.

#[global] Instance PColor_eq_dec : EqDecision PColor.
Proof. solve_decision. Defined.

Definition PColor_value (c : PColor) : Z :=
  match c with WHITE => 0 | GREY => 1 | BLACK => 2 | PINK => 3 end.

Definition TURN_ORDER : list PColor := [WHITE; GREY; BLACK; PINK].

(** [col in colors] *)
Definition color_in (col : PColor) (l : list PColor) : bool :=
  List.existsb (fun x => bool_decide (x = col)) l.

(** The strings 'K','Q','R','B','N','P' of [Piece.kind]. *)
Inductive Kind := King | Queen | Rook | Bishop | Knight | Pawn.

#[global] Instance Kind_eq_dec : EqDecision Kind.
Proof. solve_decision. Defined.

Definition kind_letter (k : Kind) : string :=
  match k with
  | King => "K" | Queen => "Q" | Rook => "R"
  | Bishop => "B" | Knight => "N" | Pawn => "P"
  end.

(** PIECE_VALUES = {'Q':9, 'R':5, 'B':3, 'N':3, 'P':1, 'K':0} *)
Definition PIECE_VALUES (k : Kind) : Z :=
  match k with
  | Queen => 9 | Rook => 5 | Bishop => 3 | Knight => 3 | Pawn => 1 | King => 0
  end.

Definition piece_value (k : Kind) : Z := PIECE_VALUES k.

Definition Square : Type := Z * Z.

#[global] Instance Square_eq_dec : EqDecision Square.
Proof. solve_decision. Defined.

(** ** Per-seat dictionaries

    [{PColor.WHITE: .., PColor.GREY: .., PColor.BLACK: .., PColor.PINK: ..}]:
    every dictionary keyed by seat is created with its four keys and no key
    is ever removed. *)
Module PerSeat.
Record t (A : Type) := Build { white : A; grey : A; black : A; pink : A }.
Arguments Build {A}.
Arguments white {A}. Arguments grey {A}.
Arguments black {A}. Arguments pink {A}.

Definition get {A} (d : t A) (c : PColor) : A :=
  match c with
  | WHITE => white d | GREY => grey d | BLACK => black d | PINK => pink d
  end.

Definition set {A} (d : t A) (c : PColor) (v : A) : t A :=
  match c with
  | WHITE => Build v (grey d) (black d) (pink d)
  | GREY => Build (white d) v (black d) (pink d)
  | BLACK => Build (white d) (grey d) v (pink d)
  | PINK => Build (white d) (grey d) (black d) v
  end.

Definition all {A} (v : A) : t A := Build v v v v.

Definition map {A B} (f : A -> B) (d : t A) : t B :=
  Build (f (white d)) (f (grey d)) (f (black d)) (f (pink d)).

End PerSeat.

(** ** Pieces (class Piece, line 962)

    [tint_override] is never assigned anything but [None] and is left out. *)
Module Piece.
Record t := Build { pid : nat; kind : Kind; color : PColor; has_moved : bool }.

(** [Piece(kind, color)]: a new object, never moved. *)
Definition new (id : nat) (k : Kind) (c : PColor) : t := Build id k c false.

Definition set_kind (p : t) (k : Kind) : t :=
  Build (pid p) k (color p) (has_moved p).
Definition set_has_moved (p : t) (b : bool) : t :=
  Build (pid p) (kind p) (color p) b.

#[global] Instance eq_dec : EqDecision t.
Proof. solve_decision. Defined.
End Piece.

Definition is_kind (k : Kind) (p : Piece.t) : bool :=
  bool_decide (Piece.kind p = k).
Definition is_Some_b {A} (o : option A) : bool :=
  match o with Some _ => true | None => false end.
Definition option_list {A} (o : option A) : list A :=
  match o with Some x => [x] | None => [] end.

Definition is_color (c : PColor) (p : Piece.t) : bool :=
  bool_decide (Piece.color p = c).

(** ** Ranges *)

(** [range(lo, lo + n)] *)
Definition zrange (lo : Z) (n : nat) : list Z :=
  List.map (fun i => lo + Z.of_nat i) (List.seq 0 n).

(** [for r in range(BOARD_SIZE): for c in range(BOARD_SIZE)] *)
Definition all_squares : list Square :=
  List.flat_map (fun r => List.map (fun c => (r, c)) (zrange 0 12)) (zrange 0 12).

(** [for rr in range(CH_MIN, CH_MAX+1): for cc in range(CH_MIN, CH_MAX+1)] *)
Definition arena_squares : list Square :=
  List.flat_map (fun r => List.map (fun c => (r, c)) (zrange CH_MIN 8)) (zrange CH_MIN 8).

(** ** The board (class Board, line 976) *)
Module Board.
Abbreviation Grid := (list (list (option Piece.t))).

Record t := Build {
  grid : Grid;
  king_positions : PerSeat.t (option Square)
}.

Definition in_bounds (r c : Z) : bool :=
  (0 <=? r) && (r <? BOARD_SIZE) && (0 <=? c) && (c <? BOARD_SIZE).

(** [self.grid[r][c]] for indices already known to be in range. *)
Definition grid_get (g : Grid) (r c : Z) : option Piece.t :=
  match g !! Z.to_nat r with
  | Some row => match row !! Z.to_nat c with Some cell => cell | None => None end
  | None => None
  end.

(** [self.grid[r][c] = p] *)
Definition grid_set (g : Grid) (r c : Z) (p : option Piece.t) : Grid :=
  match g !! Z.to_nat r with
  | Some row => <[Z.to_nat r := <[Z.to_nat c := p]> row]> g
  | None => g
  end.

Definition get (b : t) (r c : Z) : option Piece.t :=
  if in_bounds r c then grid_get (grid b) r c else None.

(** The cache part of [set]: a king written at (r,c) is recorded for its
    colour; anything else clears every entry that points at (r,c). *)
Definition cache_after_set (kp : PerSeat.t (option Square)) (r c : Z)
    (p : option Piece.t) : PerSeat.t (option Square) :=
  match p with
  | Some pc =>
      if is_kind King pc then PerSeat.set kp (Piece.color pc) (Some (r, c))
      else PerSeat.map (fun pos => if bool_decide (pos = Some (r, c)) then None else pos) kp
  | None =>
      PerSeat.map (fun pos => if bool_decide (pos = Some (r, c)) then None else pos) kp
  end.

Definition set (b : t) (r c : Z) (p : option Piece.t) : t :=
  if in_bounds r c then
    Build (grid_set (grid b) r c p) (cache_after_set (king_positions b) r c p)
  else b.

Definition is_king_of (color : PColor) (p : option Piece.t) : bool :=
  match p with
  | Some pc => is_color color pc && is_kind King pc
  | None => false
  end.

Definition set_cache (b : t) (color : PColor) (pos : option Square) : t :=
  Build (grid b) (PerSeat.set (king_positions b) color pos).

(** The fallback scan of [find_king], in row-major order. *)
Definition scan_king (b : t) (color : PColor) : option Square :=
  List.find (fun '(r, c) => is_king_of color (get b r c)) all_squares.

Definition find_king (b : t) (color : PColor) : option Square * t :=
  let scan :=
    match scan_king b color with
    | Some pos => (Some pos, set_cache b color (Some pos))
    | None => (None, set_cache b color None)
    end in
  match PerSeat.get (king_positions b) color with
  | Some pos =>
      if is_king_of color (get b (fst pos) (snd pos)) then (Some pos, b) else scan
  | None => scan
  end.

(** [[col for col in TURN_ORDER if self.find_king(col) is not None]],
    restricted to the colours of [cols]. *)
Fixpoint alive_among (b : t) (cols : list PColor) : list PColor * t :=
  match cols with
  | [] => ([], b)
  | col :: rest =>
      let '(kp, b1) := find_king b col in
      let '(l, b2) := alive_among b1 rest in
      (match kp with Some _ => col :: l | None => l end, b2)
  end.

Definition alive_colors (b : t) : list PColor * t := alive_among b TURN_ORDER.
End Board.

(** ** Corners and the arena (lines 532-568, 672, 12729) *)

(** The dictionary [CORNER_RECTS], in its insertion order. *)
Definition CORNER_RECTS : list (PColor * Square) :=
  [(GREY, (0, 0)); (BLACK, (0, 10)); (WHITE, (10, 0)); (PINK, (10, 10))].

(** [CORNER_RECTS[color]] *)
Definition corner_rect (color : PColor) : Square :=
  match color with
  | GREY => (0, 0) | BLACK => (0, 10) | WHITE => (10, 0) | PINK => (10, 10)
  end.

Definition king_home_cells (color : PColor) : list Square :=
  let '(r0, c0) := corner_rect color in
  [(r0, c0); (r0, c0 + 1); (r0 + 1, c0); (r0 + 1, c0 + 1)].

Definition corner_owner_at (r c : Z) : option PColor :=
  match List.find (fun '(_, (r0, c0)) =>
          (r0 <=? r) && (r <=? r0 + 1) && (c0 <=? c) && (c <=? c0 + 1))
        CORNER_RECTS with
  | Some (col, _) => Some col
  | None => None
  end.

Definition in_chess_area (r c : Z) : bool :=
  (CH_MIN <=? r) && (r <=? CH_MAX) && (CH_MIN <=? c) && (c <=? CH_MAX).

Definition _in8 (r c : Z) : bool :=
  (CH_MIN <=? r) && (r <=? CH_MAX) && (CH_MIN <=? c) && (c <=? CH_MAX).

Definition is_edge_pawn_square (r c : Z) (col : PColor) : bool :=
  if color_in col [WHITE; BLACK]
  then bool_decide (c = CH_MIN) || bool_decide (c = CH_MAX)
  else bool_decide (r = CH_MIN) || bool_decide (r = CH_MAX).

Definition dist_to_chess (r c : Z) : Z :=
  if in_chess_area r c then 0
  else
    let dr := if r <? CH_MIN then CH_MIN - r
              else if r >? CH_MAX then r - CH_MAX else 0 in
    let dc := if c <? CH_MIN then CH_MIN - c
              else if c >? CH_MAX then c - CH_MAX else 0 in
    dr + dc.

(** [_pieces_of_kind]: reads [board.grid] directly, row by row. *)
Definition _pieces_of_kind (b : Board.t) (color : PColor) (kind : Kind)
    : list (Z * Z * Piece.t) :=
  List.flat_map (fun '(rr, cc) =>
      match Board.grid_get (Board.grid b) rr cc with
      | Some piece =>
          if is_color color piece && is_kind kind piece
          then [(rr, cc, piece)] else []
      | None => []
      end) all_squares.

(** ** The python-chess position of the duel

    [chess.Board] belongs to the external library python-chess.  A board is
    recorded as the FEN it was built from, the moves played on it since and
    the number of those moves still on its move stack; what a position
    means (legal moves, check, ...) is the parameter [ChessLib] below. *)
Module ChessBoard.
Record EngineMove := Move {
  from_square : Z;
  to_square : Z;
  promotion : option Kind
}.

Record t := Build { start_fen : string; played : list EngineMove; stack : nat }.

#[global] Instance EngineMove_eq_dec : EqDecision EngineMove.
Proof. solve_decision. Defined.

(** [chess.Board(fen)] *)
Definition of_fen (fen : string) : t := Build fen [] 0.

(** [cb.push(mv)] *)
Definition push (cb : t) (mv : EngineMove) : t :=
  Build (start_fen cb) (played cb ++ [mv]) (S (stack cb)).

(** [cb.pop()], for a board whose move stack is not empty. *)
Definition pop (cb : t) : t :=
  Build (start_fen cb) (removelast (played cb)) (Nat.pred (stack cb)).

(** [cb.copy(stack=False)]: the same position with an empty move stack. *)
Definition copy_nostack (cb : t) : t := Build (start_fen cb) (played cb) 0.
End ChessBoard.

(** ** Game state (class GameState, line 5994)

    The fields that only feed the user interface (names, banners, sound and
    flash timers) are left out. *)

(** An entry of [gs.recent_moves]: [(color, sr, sc, er, ec)]. *)
Definition RecentMove : Type := option PColor * Z * Z * Z * Z.

Module GameState.
Record t := Build {
  post_move_delay_until : Z;
  freeze_advance : bool;
  two_stage_pause : bool;
  elim_flash_color : option PColor;
  hold_at_start : bool;
  waiting_ready : bool;
  two_stage_active : bool;
  final_a : option PColor;
  final_b : option PColor;
  entered : PerSeat.t bool;
  reduced_applied : PerSeat.t bool;
  grace_active : bool;
  grace_turns_remaining : Z;
  chess_lock : bool;
  half_moves : Z;
  corner_immune : PerSeat.t bool;
  corner_promoted : PerSeat.t bool;
  corner_evict_pending : PerSeat.t bool;
  corner_in_corner : PerSeat.t bool;
  pawn_dir : PerSeat.t Z;
  duel_white_origin : PColor;
  duel_black_origin : PColor;
  recent_moves : list RecentMove;
  pos_counts : gmap Z Z;
  player_is_ai : PerSeat.t bool;
  _draw_by_repetition : bool;
  white_duel_boost : bool;
  turn_counter : Z;
  turn_i : option Z;
  chess_board : option ChessBoard.t;
  long_game_over : bool;
  phase : option string;
  _duel_started : bool;
  _duel_turn_reset : bool;
  _tp_consolidated_done : bool;
  _reset_moves_for_duel : bool;
  duel_strong_side : option PColor;
  duel_depth_bonus : PerSeat.t Z;
  duel_time_bonus : PerSeat.t Z;
  duel_eval_bias : PerSeat.t Z;
  _finalists_prep_started : bool;
  _finalists_a : option PColor;
  _finalists_b : option PColor;
  _flash_until : option Z;
  _teleport_after : Z;
  _duel_cleared_board : bool;
  _duel_delay_until : Z
}.

(** [GameState()] (the dynamic attributes start absent or at the default
    their readers pass to [getattr]). *)
Definition init : t :=
  Build 0 false false None false false false None None (PerSeat.all false)
    (PerSeat.all false) false 0 false 0 (PerSeat.all false) (PerSeat.all false)
    (PerSeat.all false) (PerSeat.all false) (PerSeat.Build (-1) 1 1 (-1)) WHITE
    BLACK [] ∅ (PerSeat.all false) false true 0 None None false None false false
    false false None (PerSeat.all 0) (PerSeat.all 0) (PerSeat.all 0) false None
    None (Some 0) 0 false 0.

(** Attribute assignment [g.field = v], one setter per field. *)
Definition set_post_move_delay_until (v : Z) (g : t) : t :=
  Build v (freeze_advance g) (two_stage_pause g) (elim_flash_color g) (hold_at_start
    g) (waiting_ready g) (two_stage_active g) (final_a g) (final_b g) (entered g)
    (reduced_applied g) (grace_active g) (grace_turns_remaining g) (chess_lock g)
    (half_moves g) (corner_immune g) (corner_promoted g) (corner_evict_pending g)
    (corner_in_corner g) (pawn_dir g) (duel_white_origin g) (duel_black_origin g)
    (recent_moves g) (pos_counts g) (player_is_ai g) (_draw_by_repetition g)
    (white_duel_boost g) (turn_counter g) (turn_i g) (chess_board g)
    (long_game_over g) (phase g) (_duel_started g) (_duel_turn_reset g)
    (_tp_consolidated_done g) (_reset_moves_for_duel g) (duel_strong_side g)
    (duel_depth_bonus g) (duel_time_bonus g) (duel_eval_bias g)
    (_finalists_prep_started g) (_finalists_a g) (_finalists_b g) (_flash_until g)
    (_teleport_after g) (_duel_cleared_board g) (_duel_delay_until g).
Definition set_freeze_advance (v : bool) (g : t) : t :=
  Build (post_move_delay_until g) v (two_stage_pause g) (elim_flash_color g)
    (hold_at_start g) (waiting_ready g) (two_stage_active g) (final_a g) (final_b
    g) (entered g) (reduced_applied g) (grace_active g) (grace_turns_remaining g)
    (chess_lock g) (half_moves g) (corner_immune g) (corner_promoted g)
    (corner_evict_pending g) (corner_in_corner g) (pawn_dir g) (duel_white_origin
    g) (duel_black_origin g) (recent_moves g) (pos_counts g) (player_is_ai g)
    (_draw_by_repetition g) (white_duel_boost g) (turn_counter g) (turn_i g)
    (chess_board g) (long_game_over g) (phase g) (_duel_started g)
    (_duel_turn_reset g) (_tp_consolidated_done g) (_reset_moves_for_duel g)
    (duel_strong_side g) (duel_depth_bonus g) (duel_time_bonus g) (duel_eval_bias
    g) (_finalists_prep_started g) (_finalists_a g) (_finalists_b g) (_flash_until
    g) (_teleport_after g) (_duel_cleared_board g) (_duel_delay_until g).
Definition set_two_stage_pause (v : bool) (g : t) : t :=
  Build (post_move_delay_until g) (freeze_advance g) v (elim_flash_color g)
    (hold_at_start g) (waiting_ready g) (two_stage_active g) (final_a g) (final_b
    g) (entered g) (reduced_applied g) (grace_active g) (grace_turns_remaining g)
    (chess_lock g) (half_moves g) (corner_immune g) (corner_promoted g)
    (corner_evict_pending g) (corner_in_corner g) (pawn_dir g) (duel_white_origin
    g) (duel_black_origin g) (recent_moves g) (pos_counts g) (player_is_ai g)
    (_draw_by_repetition g) (white_duel_boost g) (turn_counter g) (turn_i g)
    (chess_board g) (long_game_over g) (phase g) (_duel_started g)
    (_duel_turn_reset g) (_tp_consolidated_done g) (_reset_moves_for_duel g)
    (duel_strong_side g) (duel_depth_bonus g) (duel_time_bonus g) (duel_eval_bias
    g) (_finalists_prep_started g) (_finalists_a g) (_finalists_b g) (_flash_until
    g) (_teleport_after g) (_duel_cleared_board g) (_duel_delay_until g).
Definition set_elim_flash_color (v : option PColor) (g : t) : t :=
  Build (post_move_delay_until g) (freeze_advance g) (two_stage_pause g) v
    (hold_at_start g) (waiting_ready g) (two_stage_active g) (final_a g) (final_b
    g) (entered g) (reduced_applied g) (grace_active g) (grace_turns_remaining g)
    (chess_lock g) (half_moves g) (corner_immune g) (corner_promoted g)
    (corner_evict_pending g) (corner_in_corner g) (pawn_dir g) (duel_white_origin
    g) (duel_black_origin g) (recent_moves g) (pos_counts g) (player_is_ai g)
    (_draw_by_repetition g) (white_duel_boost g) (turn_counter g) (turn_i g)
    (chess_board g) (long_game_over g) (phase g) (_duel_started g)
    (_duel_turn_reset g) (_tp_consolidated_done g) (_reset_moves_for_duel g)
    (duel_strong_side g) (duel_depth_bonus g) (duel_time_bonus g) (duel_eval_bias
    g) (_finalists_prep_started g) (_finalists_a g) (_finalists_b g) (_flash_until
    g) (_teleport_after g) (_duel_cleared_board g) (_duel_delay_until g).
Definition set_hold_at_start (v : bool) (g : t) : t :=
  Build (post_move_delay_until g) (freeze_advance g) (two_stage_pause g)
    (elim_flash_color g) v (waiting_ready g) (two_stage_active g) (final_a g)
    (final_b g) (entered g) (reduced_applied g) (grace_active g)
    (grace_turns_remaining g) (chess_lock g) (half_moves g) (corner_immune g)
    (corner_promoted g) (corner_evict_pending g) (corner_in_corner g) (pawn_dir g)
    (duel_white_origin g) (duel_black_origin g) (recent_moves g) (pos_counts g)
    (player_is_ai g) (_draw_by_repetition g) (white_duel_boost g) (turn_counter g)
    (turn_i g) (chess_board g) (long_game_over g) (phase g) (_duel_started g)
    (_duel_turn_reset g) (_tp_consolidated_done g) (_reset_moves_for_duel g)
    (duel_strong_side g) (duel_depth_bonus g) (duel_time_bonus g) (duel_eval_bias
    g) (_finalists_prep_started g) (_finalists_a g) (_finalists_b g) (_flash_until
    g) (_teleport_after g) (_duel_cleared_board g) (_duel_delay_until g).
Definition set_waiting_ready (v : bool) (g : t) : t :=
  Build (post_move_delay_until g) (freeze_advance g) (two_stage_pause g)
    (elim_flash_color g) (hold_at_start g) v (two_stage_active g) (final_a g)
    (final_b g) (entered g) (reduced_applied g) (grace_active g)
    (grace_turns_remaining g) (chess_lock g) (half_moves g) (corner_immune g)
    (corner_promoted g) (corner_evict_pending g) (corner_in_corner g) (pawn_dir g)
    (duel_white_origin g) (duel_black_origin g) (recent_moves g) (pos_counts g)
    (player_is_ai g) (_draw_by_repetition g) (white_duel_boost g) (turn_counter g)
    (turn_i g) (chess_board g) (long_game_over g) (phase g) (_duel_started g)
    (_duel_turn_reset g) (_tp_consolidated_done g) (_reset_moves_for_duel g)
    (duel_strong_side g) (duel_depth_bonus g) (duel_time_bonus g) (duel_eval_bias
    g) (_finalists_prep_started g) (_finalists_a g) (_finalists_b g) (_flash_until
    g) (_teleport_after g) (_duel_cleared_board g) (_duel_delay_until g).
Definition set_two_stage_active (v : bool) (g : t) : t :=
  Build (post_move_delay_until g) (freeze_advance g) (two_stage_pause g)
    (elim_flash_color g) (hold_at_start g) (waiting_ready g) v (final_a g)
    (final_b g) (entered g) (reduced_applied g) (grace_active g)
    (grace_turns_remaining g) (chess_lock g) (half_moves g) (corner_immune g)
    (corner_promoted g) (corner_evict_pending g) (corner_in_corner g) (pawn_dir g)
    (duel_white_origin g) (duel_black_origin g) (recent_moves g) (pos_counts g)
    (player_is_ai g) (_draw_by_repetition g) (white_duel_boost g) (turn_counter g)
    (turn_i g) (chess_board g) (long_game_over g) (phase g) (_duel_started g)
    (_duel_turn_reset g) (_tp_consolidated_done g) (_reset_moves_for_duel g)
    (duel_strong_side g) (duel_depth_bonus g) (duel_time_bonus g) (duel_eval_bias
    g) (_finalists_prep_started g) (_finalists_a g) (_finalists_b g) (_flash_until
    g) (_teleport_after g) (_duel_cleared_board g) (_duel_delay_until g).
Definition set_final_a (v : option PColor) (g : t) : t :=
  Build (post_move_delay_until g) (freeze_advance g) (two_stage_pause g)
    (elim_flash_color g) (hold_at_start g) (waiting_ready g) (two_stage_active g)
    v (final_b g) (entered g) (reduced_applied g) (grace_active g)
    (grace_turns_remaining g) (chess_lock g) (half_moves g) (corner_immune g)
    (corner_promoted g) (corner_evict_pending g) (corner_in_corner g) (pawn_dir g)
    (duel_white_origin g) (duel_black_origin g) (recent_moves g) (pos_counts g)
    (player_is_ai g) (_draw_by_repetition g) (white_duel_boost g) (turn_counter g)
    (turn_i g) (chess_board g) (long_game_over g) (phase g) (_duel_started g)
    (_duel_turn_reset g) (_tp_consolidated_done g) (_reset_moves_for_duel g)
    (duel_strong_side g) (duel_depth_bonus g) (duel_time_bonus g) (duel_eval_bias
    g) (_finalists_prep_started g) (_finalists_a g) (_finalists_b g) (_flash_until
    g) (_teleport_after g) (_duel_cleared_board g) (_duel_delay_until g).
Definition set_final_b (v : option PColor) (g : t) : t :=
  Build (post_move_delay_until g) (freeze_advance g) (two_stage_pause g)
    (elim_flash_color g) (hold_at_start g) (waiting_ready g) (two_stage_active g)
    (final_a g) v (entered g) (reduced_applied g) (grace_active g)
    (grace_turns_remaining g) (chess_lock g) (half_moves g) (corner_immune g)
    (corner_promoted g) (corner_evict_pending g) (corner_in_corner g) (pawn_dir g)
    (duel_white_origin g) (duel_black_origin g) (recent_moves g) (pos_counts g)
    (player_is_ai g) (_draw_by_repetition g) (white_duel_boost g) (turn_counter g)
    (turn_i g) (chess_board g) (long_game_over g) (phase g) (_duel_started g)
    (_duel_turn_reset g) (_tp_consolidated_done g) (_reset_moves_for_duel g)
    (duel_strong_side g) (duel_depth_bonus g) (duel_time_bonus g) (duel_eval_bias
    g) (_finalists_prep_started g) (_finalists_a g) (_finalists_b g) (_flash_until
    g) (_teleport_after g) (_duel_cleared_board g) (_duel_delay_until g).
Definition set_entered (v : PerSeat.t bool) (g : t) : t :=
  Build (post_move_delay_until g) (freeze_advance g) (two_stage_pause g)
    (elim_flash_color g) (hold_at_start g) (waiting_ready g) (two_stage_active g)
    (final_a g) (final_b g) v (reduced_applied g) (grace_active g)
    (grace_turns_remaining g) (chess_lock g) (half_moves g) (corner_immune g)
    (corner_promoted g) (corner_evict_pending g) (corner_in_corner g) (pawn_dir g)
    (duel_white_origin g) (duel_black_origin g) (recent_moves g) (pos_counts g)
    (player_is_ai g) (_draw_by_repetition g) (white_duel_boost g) (turn_counter g)
    (turn_i g) (chess_board g) (long_game_over g) (phase g) (_duel_started g)
    (_duel_turn_reset g) (_tp_consolidated_done g) (_reset_moves_for_duel g)
    (duel_strong_side g) (duel_depth_bonus g) (duel_time_bonus g) (duel_eval_bias
    g) (_finalists_prep_started g) (_finalists_a g) (_finalists_b g) (_flash_until
    g) (_teleport_after g) (_duel_cleared_board g) (_duel_delay_until g).
Definition set_reduced_applied (v : PerSeat.t bool) (g : t) : t :=
  Build (post_move_delay_until g) (freeze_advance g) (two_stage_pause g)
    (elim_flash_color g) (hold_at_start g) (waiting_ready g) (two_stage_active g)
    (final_a g) (final_b g) (entered g) v (grace_active g) (grace_turns_remaining
    g) (chess_lock g) (half_moves g) (corner_immune g) (corner_promoted g)
    (corner_evict_pending g) (corner_in_corner g) (pawn_dir g) (duel_white_origin
    g) (duel_black_origin g) (recent_moves g) (pos_counts g) (player_is_ai g)
    (_draw_by_repetition g) (white_duel_boost g) (turn_counter g) (turn_i g)
    (chess_board g) (long_game_over g) (phase g) (_duel_started g)
    (_duel_turn_reset g) (_tp_consolidated_done g) (_reset_moves_for_duel g)
    (duel_strong_side g) (duel_depth_bonus g) (duel_time_bonus g) (duel_eval_bias
    g) (_finalists_prep_started g) (_finalists_a g) (_finalists_b g) (_flash_until
    g) (_teleport_after g) (_duel_cleared_board g) (_duel_delay_until g).
Definition set_grace_active (v : bool) (g : t) : t :=
  Build (post_move_delay_until g) (freeze_advance g) (two_stage_pause g)
    (elim_flash_color g) (hold_at_start g) (waiting_ready g) (two_stage_active g)
    (final_a g) (final_b g) (entered g) (reduced_applied g) v
    (grace_turns_remaining g) (chess_lock g) (half_moves g) (corner_immune g)
    (corner_promoted g) (corner_evict_pending g) (corner_in_corner g) (pawn_dir g)
    (duel_white_origin g) (duel_black_origin g) (recent_moves g) (pos_counts g)
    (player_is_ai g) (_draw_by_repetition g) (white_duel_boost g) (turn_counter g)
    (turn_i g) (chess_board g) (long_game_over g) (phase g) (_duel_started g)
    (_duel_turn_reset g) (_tp_consolidated_done g) (_reset_moves_for_duel g)
    (duel_strong_side g) (duel_depth_bonus g) (duel_time_bonus g) (duel_eval_bias
    g) (_finalists_prep_started g) (_finalists_a g) (_finalists_b g) (_flash_until
    g) (_teleport_after g) (_duel_cleared_board g) (_duel_delay_until g).
Definition set_grace_turns_remaining (v : Z) (g : t) : t :=
  Build (post_move_delay_until g) (freeze_advance g) (two_stage_pause g)
    (elim_flash_color g) (hold_at_start g) (waiting_ready g) (two_stage_active g)
    (final_a g) (final_b g) (entered g) (reduced_applied g) (grace_active g) v
    (chess_lock g) (half_moves g) (corner_immune g) (corner_promoted g)
    (corner_evict_pending g) (corner_in_corner g) (pawn_dir g) (duel_white_origin
    g) (duel_black_origin g) (recent_moves g) (pos_counts g) (player_is_ai g)
    (_draw_by_repetition g) (white_duel_boost g) (turn_counter g) (turn_i g)
    (chess_board g) (long_game_over g) (phase g) (_duel_started g)
    (_duel_turn_reset g) (_tp_consolidated_done g) (_reset_moves_for_duel g)
    (duel_strong_side g) (duel_depth_bonus g) (duel_time_bonus g) (duel_eval_bias
    g) (_finalists_prep_started g) (_finalists_a g) (_finalists_b g) (_flash_until
    g) (_teleport_after g) (_duel_cleared_board g) (_duel_delay_until g).
Definition set_chess_lock (v : bool) (g : t) : t :=
  Build (post_move_delay_until g) (freeze_advance g) (two_stage_pause g)
    (elim_flash_color g) (hold_at_start g) (waiting_ready g) (two_stage_active g)
    (final_a g) (final_b g) (entered g) (reduced_applied g) (grace_active g)
    (grace_turns_remaining g) v (half_moves g) (corner_immune g) (corner_promoted
    g) (corner_evict_pending g) (corner_in_corner g) (pawn_dir g)
    (duel_white_origin g) (duel_black_origin g) (recent_moves g) (pos_counts g)
    (player_is_ai g) (_draw_by_repetition g) (white_duel_boost g) (turn_counter g)
    (turn_i g) (chess_board g) (long_game_over g) (phase g) (_duel_started g)
    (_duel_turn_reset g) (_tp_consolidated_done g) (_reset_moves_for_duel g)
    (duel_strong_side g) (duel_depth_bonus g) (duel_time_bonus g) (duel_eval_bias
    g) (_finalists_prep_started g) (_finalists_a g) (_finalists_b g) (_flash_until
    g) (_teleport_after g) (_duel_cleared_board g) (_duel_delay_until g).
Definition set_half_moves (v : Z) (g : t) : t :=
  Build (post_move_delay_until g) (freeze_advance g) (two_stage_pause g)
    (elim_flash_color g) (hold_at_start g) (waiting_ready g) (two_stage_active g)
    (final_a g) (final_b g) (entered g) (reduced_applied g) (grace_active g)
    (grace_turns_remaining g) (chess_lock g) v (corner_immune g) (corner_promoted
    g) (corner_evict_pending g) (corner_in_corner g) (pawn_dir g)
    (duel_white_origin g) (duel_black_origin g) (recent_moves g) (pos_counts g)
    (player_is_ai g) (_draw_by_repetition g) (white_duel_boost g) (turn_counter g)
    (turn_i g) (chess_board g) (long_game_over g) (phase g) (_duel_started g)
    (_duel_turn_reset g) (_tp_consolidated_done g) (_reset_moves_for_duel g)
    (duel_strong_side g) (duel_depth_bonus g) (duel_time_bonus g) (duel_eval_bias
    g) (_finalists_prep_started g) (_finalists_a g) (_finalists_b g) (_flash_until
    g) (_teleport_after g) (_duel_cleared_board g) (_duel_delay_until g).
Definition set_corner_immune (v : PerSeat.t bool) (g : t) : t :=
  Build (post_move_delay_until g) (freeze_advance g) (two_stage_pause g)
    (elim_flash_color g) (hold_at_start g) (waiting_ready g) (two_stage_active g)
    (final_a g) (final_b g) (entered g) (reduced_applied g) (grace_active g)
    (grace_turns_remaining g) (chess_lock g) (half_moves g) v (corner_promoted g)
    (corner_evict_pending g) (corner_in_corner g) (pawn_dir g) (duel_white_origin
    g) (duel_black_origin g) (recent_moves g) (pos_counts g) (player_is_ai g)
    (_draw_by_repetition g) (white_duel_boost g) (turn_counter g) (turn_i g)
    (chess_board g) (long_game_over g) (phase g) (_duel_started g)
    (_duel_turn_reset g) (_tp_consolidated_done g) (_reset_moves_for_duel g)
    (duel_strong_side g) (duel_depth_bonus g) (duel_time_bonus g) (duel_eval_bias
    g) (_finalists_prep_started g) (_finalists_a g) (_finalists_b g) (_flash_until
    g) (_teleport_after g) (_duel_cleared_board g) (_duel_delay_until g).
Definition set_corner_promoted (v : PerSeat.t bool) (g : t) : t :=
  Build (post_move_delay_until g) (freeze_advance g) (two_stage_pause g)
    (elim_flash_color g) (hold_at_start g) (waiting_ready g) (two_stage_active g)
    (final_a g) (final_b g) (entered g) (reduced_applied g) (grace_active g)
    (grace_turns_remaining g) (chess_lock g) (half_moves g) (corner_immune g) v
    (corner_evict_pending g) (corner_in_corner g) (pawn_dir g) (duel_white_origin
    g) (duel_black_origin g) (recent_moves g) (pos_counts g) (player_is_ai g)
    (_draw_by_repetition g) (white_duel_boost g) (turn_counter g) (turn_i g)
    (chess_board g) (long_game_over g) (phase g) (_duel_started g)
    (_duel_turn_reset g) (_tp_consolidated_done g) (_reset_moves_for_duel g)
    (duel_strong_side g) (duel_depth_bonus g) (duel_time_bonus g) (duel_eval_bias
    g) (_finalists_prep_started g) (_finalists_a g) (_finalists_b g) (_flash_until
    g) (_teleport_after g) (_duel_cleared_board g) (_duel_delay_until g).
Definition set_corner_evict_pending (v : PerSeat.t bool) (g : t) : t :=
  Build (post_move_delay_until g) (freeze_advance g) (two_stage_pause g)
    (elim_flash_color g) (hold_at_start g) (waiting_ready g) (two_stage_active g)
    (final_a g) (final_b g) (entered g) (reduced_applied g) (grace_active g)
    (grace_turns_remaining g) (chess_lock g) (half_moves g) (corner_immune g)
    (corner_promoted g) v (corner_in_corner g) (pawn_dir g) (duel_white_origin g)
    (duel_black_origin g) (recent_moves g) (pos_counts g) (player_is_ai g)
    (_draw_by_repetition g) (white_duel_boost g) (turn_counter g) (turn_i g)
    (chess_board g) (long_game_over g) (phase g) (_duel_started g)
    (_duel_turn_reset g) (_tp_consolidated_done g) (_reset_moves_for_duel g)
    (duel_strong_side g) (duel_depth_bonus g) (duel_time_bonus g) (duel_eval_bias
    g) (_finalists_prep_started g) (_finalists_a g) (_finalists_b g) (_flash_until
    g) (_teleport_after g) (_duel_cleared_board g) (_duel_delay_until g).
Definition set_corner_in_corner (v : PerSeat.t bool) (g : t) : t :=
  Build (post_move_delay_until g) (freeze_advance g) (two_stage_pause g)
    (elim_flash_color g) (hold_at_start g) (waiting_ready g) (two_stage_active g)
    (final_a g) (final_b g) (entered g) (reduced_applied g) (grace_active g)
    (grace_turns_remaining g) (chess_lock g) (half_moves g) (corner_immune g)
    (corner_promoted g) (corner_evict_pending g) v (pawn_dir g) (duel_white_origin
    g) (duel_black_origin g) (recent_moves g) (pos_counts g) (player_is_ai g)
    (_draw_by_repetition g) (white_duel_boost g) (turn_counter g) (turn_i g)
    (chess_board g) (long_game_over g) (phase g) (_duel_started g)
    (_duel_turn_reset g) (_tp_consolidated_done g) (_reset_moves_for_duel g)
    (duel_strong_side g) (duel_depth_bonus g) (duel_time_bonus g) (duel_eval_bias
    g) (_finalists_prep_started g) (_finalists_a g) (_finalists_b g) (_flash_until
    g) (_teleport_after g) (_duel_cleared_board g) (_duel_delay_until g).
Definition set_pawn_dir (v : PerSeat.t Z) (g : t) : t :=
  Build (post_move_delay_until g) (freeze_advance g) (two_stage_pause g)
    (elim_flash_color g) (hold_at_start g) (waiting_ready g) (two_stage_active g)
    (final_a g) (final_b g) (entered g) (reduced_applied g) (grace_active g)
    (grace_turns_remaining g) (chess_lock g) (half_moves g) (corner_immune g)
    (corner_promoted g) (corner_evict_pending g) (corner_in_corner g) v
    (duel_white_origin g) (duel_black_origin g) (recent_moves g) (pos_counts g)
    (player_is_ai g) (_draw_by_repetition g) (white_duel_boost g) (turn_counter g)
    (turn_i g) (chess_board g) (long_game_over g) (phase g) (_duel_started g)
    (_duel_turn_reset g) (_tp_consolidated_done g) (_reset_moves_for_duel g)
    (duel_strong_side g) (duel_depth_bonus g) (duel_time_bonus g) (duel_eval_bias
    g) (_finalists_prep_started g) (_finalists_a g) (_finalists_b g) (_flash_until
    g) (_teleport_after g) (_duel_cleared_board g) (_duel_delay_until g).
Definition set_duel_white_origin (v : PColor) (g : t) : t :=
  Build (post_move_delay_until g) (freeze_advance g) (two_stage_pause g)
    (elim_flash_color g) (hold_at_start g) (waiting_ready g) (two_stage_active g)
    (final_a g) (final_b g) (entered g) (reduced_applied g) (grace_active g)
    (grace_turns_remaining g) (chess_lock g) (half_moves g) (corner_immune g)
    (corner_promoted g) (corner_evict_pending g) (corner_in_corner g) (pawn_dir g)
    v (duel_black_origin g) (recent_moves g) (pos_counts g) (player_is_ai g)
    (_draw_by_repetition g) (white_duel_boost g) (turn_counter g) (turn_i g)
    (chess_board g) (long_game_over g) (phase g) (_duel_started g)
    (_duel_turn_reset g) (_tp_consolidated_done g) (_reset_moves_for_duel g)
    (duel_strong_side g) (duel_depth_bonus g) (duel_time_bonus g) (duel_eval_bias
    g) (_finalists_prep_started g) (_finalists_a g) (_finalists_b g) (_flash_until
    g) (_teleport_after g) (_duel_cleared_board g) (_duel_delay_until g).
Definition set_duel_black_origin (v : PColor) (g : t) : t :=
  Build (post_move_delay_until g) (freeze_advance g) (two_stage_pause g)
    (elim_flash_color g) (hold_at_start g) (waiting_ready g) (two_stage_active g)
    (final_a g) (final_b g) (entered g) (reduced_applied g) (grace_active g)
    (grace_turns_remaining g) (chess_lock g) (half_moves g) (corner_immune g)
    (corner_promoted g) (corner_evict_pending g) (corner_in_corner g) (pawn_dir g)
    (duel_white_origin g) v (recent_moves g) (pos_counts g) (player_is_ai g)
    (_draw_by_repetition g) (white_duel_boost g) (turn_counter g) (turn_i g)
    (chess_board g) (long_game_over g) (phase g) (_duel_started g)
    (_duel_turn_reset g) (_tp_consolidated_done g) (_reset_moves_for_duel g)
    (duel_strong_side g) (duel_depth_bonus g) (duel_time_bonus g) (duel_eval_bias
    g) (_finalists_prep_started g) (_finalists_a g) (_finalists_b g) (_flash_until
    g) (_teleport_after g) (_duel_cleared_board g) (_duel_delay_until g).
Definition set_recent_moves (v : list RecentMove) (g : t) : t :=
  Build (post_move_delay_until g) (freeze_advance g) (two_stage_pause g)
    (elim_flash_color g) (hold_at_start g) (waiting_ready g) (two_stage_active g)
    (final_a g) (final_b g) (entered g) (reduced_applied g) (grace_active g)
    (grace_turns_remaining g) (chess_lock g) (half_moves g) (corner_immune g)
    (corner_promoted g) (corner_evict_pending g) (corner_in_corner g) (pawn_dir g)
    (duel_white_origin g) (duel_black_origin g) v (pos_counts g) (player_is_ai g)
    (_draw_by_repetition g) (white_duel_boost g) (turn_counter g) (turn_i g)
    (chess_board g) (long_game_over g) (phase g) (_duel_started g)
    (_duel_turn_reset g) (_tp_consolidated_done g) (_reset_moves_for_duel g)
    (duel_strong_side g) (duel_depth_bonus g) (duel_time_bonus g) (duel_eval_bias
    g) (_finalists_prep_started g) (_finalists_a g) (_finalists_b g) (_flash_until
    g) (_teleport_after g) (_duel_cleared_board g) (_duel_delay_until g).
Definition set_pos_counts (v : gmap Z Z) (g : t) : t :=
  Build (post_move_delay_until g) (freeze_advance g) (two_stage_pause g)
    (elim_flash_color g) (hold_at_start g) (waiting_ready g) (two_stage_active g)
    (final_a g) (final_b g) (entered g) (reduced_applied g) (grace_active g)
    (grace_turns_remaining g) (chess_lock g) (half_moves g) (corner_immune g)
    (corner_promoted g) (corner_evict_pending g) (corner_in_corner g) (pawn_dir g)
    (duel_white_origin g) (duel_black_origin g) (recent_moves g) v (player_is_ai
    g) (_draw_by_repetition g) (white_duel_boost g) (turn_counter g) (turn_i g)
    (chess_board g) (long_game_over g) (phase g) (_duel_started g)
    (_duel_turn_reset g) (_tp_consolidated_done g) (_reset_moves_for_duel g)
    (duel_strong_side g) (duel_depth_bonus g) (duel_time_bonus g) (duel_eval_bias
    g) (_finalists_prep_started g) (_finalists_a g) (_finalists_b g) (_flash_until
    g) (_teleport_after g) (_duel_cleared_board g) (_duel_delay_until g).
Definition set_player_is_ai (v : PerSeat.t bool) (g : t) : t :=
  Build (post_move_delay_until g) (freeze_advance g) (two_stage_pause g)
    (elim_flash_color g) (hold_at_start g) (waiting_ready g) (two_stage_active g)
    (final_a g) (final_b g) (entered g) (reduced_applied g) (grace_active g)
    (grace_turns_remaining g) (chess_lock g) (half_moves g) (corner_immune g)
    (corner_promoted g) (corner_evict_pending g) (corner_in_corner g) (pawn_dir g)
    (duel_white_origin g) (duel_black_origin g) (recent_moves g) (pos_counts g) v
    (_draw_by_repetition g) (white_duel_boost g) (turn_counter g) (turn_i g)
    (chess_board g) (long_game_over g) (phase g) (_duel_started g)
    (_duel_turn_reset g) (_tp_consolidated_done g) (_reset_moves_for_duel g)
    (duel_strong_side g) (duel_depth_bonus g) (duel_time_bonus g) (duel_eval_bias
    g) (_finalists_prep_started g) (_finalists_a g) (_finalists_b g) (_flash_until
    g) (_teleport_after g) (_duel_cleared_board g) (_duel_delay_until g).
Definition set__draw_by_repetition (v : bool) (g : t) : t :=
  Build (post_move_delay_until g) (freeze_advance g) (two_stage_pause g)
    (elim_flash_color g) (hold_at_start g) (waiting_ready g) (two_stage_active g)
    (final_a g) (final_b g) (entered g) (reduced_applied g) (grace_active g)
    (grace_turns_remaining g) (chess_lock g) (half_moves g) (corner_immune g)
    (corner_promoted g) (corner_evict_pending g) (corner_in_corner g) (pawn_dir g)
    (duel_white_origin g) (duel_black_origin g) (recent_moves g) (pos_counts g)
    (player_is_ai g) v (white_duel_boost g) (turn_counter g) (turn_i g)
    (chess_board g) (long_game_over g) (phase g) (_duel_started g)
    (_duel_turn_reset g) (_tp_consolidated_done g) (_reset_moves_for_duel g)
    (duel_strong_side g) (duel_depth_bonus g) (duel_time_bonus g) (duel_eval_bias
    g) (_finalists_prep_started g) (_finalists_a g) (_finalists_b g) (_flash_until
    g) (_teleport_after g) (_duel_cleared_board g) (_duel_delay_until g).
Definition set_white_duel_boost (v : bool) (g : t) : t :=
  Build (post_move_delay_until g) (freeze_advance g) (two_stage_pause g)
    (elim_flash_color g) (hold_at_start g) (waiting_ready g) (two_stage_active g)
    (final_a g) (final_b g) (entered g) (reduced_applied g) (grace_active g)
    (grace_turns_remaining g) (chess_lock g) (half_moves g) (corner_immune g)
    (corner_promoted g) (corner_evict_pending g) (corner_in_corner g) (pawn_dir g)
    (duel_white_origin g) (duel_black_origin g) (recent_moves g) (pos_counts g)
    (player_is_ai g) (_draw_by_repetition g) v (turn_counter g) (turn_i g)
    (chess_board g) (long_game_over g) (phase g) (_duel_started g)
    (_duel_turn_reset g) (_tp_consolidated_done g) (_reset_moves_for_duel g)
    (duel_strong_side g) (duel_depth_bonus g) (duel_time_bonus g) (duel_eval_bias
    g) (_finalists_prep_started g) (_finalists_a g) (_finalists_b g) (_flash_until
    g) (_teleport_after g) (_duel_cleared_board g) (_duel_delay_until g).
Definition set_turn_counter (v : Z) (g : t) : t :=
  Build (post_move_delay_until g) (freeze_advance g) (two_stage_pause g)
    (elim_flash_color g) (hold_at_start g) (waiting_ready g) (two_stage_active g)
    (final_a g) (final_b g) (entered g) (reduced_applied g) (grace_active g)
    (grace_turns_remaining g) (chess_lock g) (half_moves g) (corner_immune g)
    (corner_promoted g) (corner_evict_pending g) (corner_in_corner g) (pawn_dir g)
    (duel_white_origin g) (duel_black_origin g) (recent_moves g) (pos_counts g)
    (player_is_ai g) (_draw_by_repetition g) (white_duel_boost g) v (turn_i g)
    (chess_board g) (long_game_over g) (phase g) (_duel_started g)
    (_duel_turn_reset g) (_tp_consolidated_done g) (_reset_moves_for_duel g)
    (duel_strong_side g) (duel_depth_bonus g) (duel_time_bonus g) (duel_eval_bias
    g) (_finalists_prep_started g) (_finalists_a g) (_finalists_b g) (_flash_until
    g) (_teleport_after g) (_duel_cleared_board g) (_duel_delay_until g).
Definition set_turn_i (v : option Z) (g : t) : t :=
  Build (post_move_delay_until g) (freeze_advance g) (two_stage_pause g)
    (elim_flash_color g) (hold_at_start g) (waiting_ready g) (two_stage_active g)
    (final_a g) (final_b g) (entered g) (reduced_applied g) (grace_active g)
    (grace_turns_remaining g) (chess_lock g) (half_moves g) (corner_immune g)
    (corner_promoted g) (corner_evict_pending g) (corner_in_corner g) (pawn_dir g)
    (duel_white_origin g) (duel_black_origin g) (recent_moves g) (pos_counts g)
    (player_is_ai g) (_draw_by_repetition g) (white_duel_boost g) (turn_counter g)
    v (chess_board g) (long_game_over g) (phase g) (_duel_started g)
    (_duel_turn_reset g) (_tp_consolidated_done g) (_reset_moves_for_duel g)
    (duel_strong_side g) (duel_depth_bonus g) (duel_time_bonus g) (duel_eval_bias
    g) (_finalists_prep_started g) (_finalists_a g) (_finalists_b g) (_flash_until
    g) (_teleport_after g) (_duel_cleared_board g) (_duel_delay_until g).
Definition set_chess_board (v : option ChessBoard.t) (g : t) : t :=
  Build (post_move_delay_until g) (freeze_advance g) (two_stage_pause g)
    (elim_flash_color g) (hold_at_start g) (waiting_ready g) (two_stage_active g)
    (final_a g) (final_b g) (entered g) (reduced_applied g) (grace_active g)
    (grace_turns_remaining g) (chess_lock g) (half_moves g) (corner_immune g)
    (corner_promoted g) (corner_evict_pending g) (corner_in_corner g) (pawn_dir g)
    (duel_white_origin g) (duel_black_origin g) (recent_moves g) (pos_counts g)
    (player_is_ai g) (_draw_by_repetition g) (white_duel_boost g) (turn_counter g)
    (turn_i g) v (long_game_over g) (phase g) (_duel_started g) (_duel_turn_reset
    g) (_tp_consolidated_done g) (_reset_moves_for_duel g) (duel_strong_side g)
    (duel_depth_bonus g) (duel_time_bonus g) (duel_eval_bias g)
    (_finalists_prep_started g) (_finalists_a g) (_finalists_b g) (_flash_until g)
    (_teleport_after g) (_duel_cleared_board g) (_duel_delay_until g).
Definition set_long_game_over (v : bool) (g : t) : t :=
  Build (post_move_delay_until g) (freeze_advance g) (two_stage_pause g)
    (elim_flash_color g) (hold_at_start g) (waiting_ready g) (two_stage_active g)
    (final_a g) (final_b g) (entered g) (reduced_applied g) (grace_active g)
    (grace_turns_remaining g) (chess_lock g) (half_moves g) (corner_immune g)
    (corner_promoted g) (corner_evict_pending g) (corner_in_corner g) (pawn_dir g)
    (duel_white_origin g) (duel_black_origin g) (recent_moves g) (pos_counts g)
    (player_is_ai g) (_draw_by_repetition g) (white_duel_boost g) (turn_counter g)
    (turn_i g) (chess_board g) v (phase g) (_duel_started g) (_duel_turn_reset g)
    (_tp_consolidated_done g) (_reset_moves_for_duel g) (duel_strong_side g)
    (duel_depth_bonus g) (duel_time_bonus g) (duel_eval_bias g)
    (_finalists_prep_started g) (_finalists_a g) (_finalists_b g) (_flash_until g)
    (_teleport_after g) (_duel_cleared_board g) (_duel_delay_until g).
Definition set_phase (v : option string) (g : t) : t :=
  Build (post_move_delay_until g) (freeze_advance g) (two_stage_pause g)
    (elim_flash_color g) (hold_at_start g) (waiting_ready g) (two_stage_active g)
    (final_a g) (final_b g) (entered g) (reduced_applied g) (grace_active g)
    (grace_turns_remaining g) (chess_lock g) (half_moves g) (corner_immune g)
    (corner_promoted g) (corner_evict_pending g) (corner_in_corner g) (pawn_dir g)
    (duel_white_origin g) (duel_black_origin g) (recent_moves g) (pos_counts g)
    (player_is_ai g) (_draw_by_repetition g) (white_duel_boost g) (turn_counter g)
    (turn_i g) (chess_board g) (long_game_over g) v (_duel_started g)
    (_duel_turn_reset g) (_tp_consolidated_done g) (_reset_moves_for_duel g)
    (duel_strong_side g) (duel_depth_bonus g) (duel_time_bonus g) (duel_eval_bias
    g) (_finalists_prep_started g) (_finalists_a g) (_finalists_b g) (_flash_until
    g) (_teleport_after g) (_duel_cleared_board g) (_duel_delay_until g).
Definition set__duel_started (v : bool) (g : t) : t :=
  Build (post_move_delay_until g) (freeze_advance g) (two_stage_pause g)
    (elim_flash_color g) (hold_at_start g) (waiting_ready g) (two_stage_active g)
    (final_a g) (final_b g) (entered g) (reduced_applied g) (grace_active g)
    (grace_turns_remaining g) (chess_lock g) (half_moves g) (corner_immune g)
    (corner_promoted g) (corner_evict_pending g) (corner_in_corner g) (pawn_dir g)
    (duel_white_origin g) (duel_black_origin g) (recent_moves g) (pos_counts g)
    (player_is_ai g) (_draw_by_repetition g) (white_duel_boost g) (turn_counter g)
    (turn_i g) (chess_board g) (long_game_over g) (phase g) v (_duel_turn_reset g)
    (_tp_consolidated_done g) (_reset_moves_for_duel g) (duel_strong_side g)
    (duel_depth_bonus g) (duel_time_bonus g) (duel_eval_bias g)
    (_finalists_prep_started g) (_finalists_a g) (_finalists_b g) (_flash_until g)
    (_teleport_after g) (_duel_cleared_board g) (_duel_delay_until g).
Definition set__duel_turn_reset (v : bool) (g : t) : t :=
  Build (post_move_delay_until g) (freeze_advance g) (two_stage_pause g)
    (elim_flash_color g) (hold_at_start g) (waiting_ready g) (two_stage_active g)
    (final_a g) (final_b g) (entered g) (reduced_applied g) (grace_active g)
    (grace_turns_remaining g) (chess_lock g) (half_moves g) (corner_immune g)
    (corner_promoted g) (corner_evict_pending g) (corner_in_corner g) (pawn_dir g)
    (duel_white_origin g) (duel_black_origin g) (recent_moves g) (pos_counts g)
    (player_is_ai g) (_draw_by_repetition g) (white_duel_boost g) (turn_counter g)
    (turn_i g) (chess_board g) (long_game_over g) (phase g) (_duel_started g) v
    (_tp_consolidated_done g) (_reset_moves_for_duel g) (duel_strong_side g)
    (duel_depth_bonus g) (duel_time_bonus g) (duel_eval_bias g)
    (_finalists_prep_started g) (_finalists_a g) (_finalists_b g) (_flash_until g)
    (_teleport_after g) (_duel_cleared_board g) (_duel_delay_until g).
Definition set__tp_consolidated_done (v : bool) (g : t) : t :=
  Build (post_move_delay_until g) (freeze_advance g) (two_stage_pause g)
    (elim_flash_color g) (hold_at_start g) (waiting_ready g) (two_stage_active g)
    (final_a g) (final_b g) (entered g) (reduced_applied g) (grace_active g)
    (grace_turns_remaining g) (chess_lock g) (half_moves g) (corner_immune g)
    (corner_promoted g) (corner_evict_pending g) (corner_in_corner g) (pawn_dir g)
    (duel_white_origin g) (duel_black_origin g) (recent_moves g) (pos_counts g)
    (player_is_ai g) (_draw_by_repetition g) (white_duel_boost g) (turn_counter g)
    (turn_i g) (chess_board g) (long_game_over g) (phase g) (_duel_started g)
    (_duel_turn_reset g) v (_reset_moves_for_duel g) (duel_strong_side g)
    (duel_depth_bonus g) (duel_time_bonus g) (duel_eval_bias g)
    (_finalists_prep_started g) (_finalists_a g) (_finalists_b g) (_flash_until g)
    (_teleport_after g) (_duel_cleared_board g) (_duel_delay_until g).
Definition set__reset_moves_for_duel (v : bool) (g : t) : t :=
  Build (post_move_delay_until g) (freeze_advance g) (two_stage_pause g)
    (elim_flash_color g) (hold_at_start g) (waiting_ready g) (two_stage_active g)
    (final_a g) (final_b g) (entered g) (reduced_applied g) (grace_active g)
    (grace_turns_remaining g) (chess_lock g) (half_moves g) (corner_immune g)
    (corner_promoted g) (corner_evict_pending g) (corner_in_corner g) (pawn_dir g)
    (duel_white_origin g) (duel_black_origin g) (recent_moves g) (pos_counts g)
    (player_is_ai g) (_draw_by_repetition g) (white_duel_boost g) (turn_counter g)
    (turn_i g) (chess_board g) (long_game_over g) (phase g) (_duel_started g)
    (_duel_turn_reset g) (_tp_consolidated_done g) v (duel_strong_side g)
    (duel_depth_bonus g) (duel_time_bonus g) (duel_eval_bias g)
    (_finalists_prep_started g) (_finalists_a g) (_finalists_b g) (_flash_until g)
    (_teleport_after g) (_duel_cleared_board g) (_duel_delay_until g).
Definition set_duel_strong_side (v : option PColor) (g : t) : t :=
  Build (post_move_delay_until g) (freeze_advance g) (two_stage_pause g)
    (elim_flash_color g) (hold_at_start g) (waiting_ready g) (two_stage_active g)
    (final_a g) (final_b g) (entered g) (reduced_applied g) (grace_active g)
    (grace_turns_remaining g) (chess_lock g) (half_moves g) (corner_immune g)
    (corner_promoted g) (corner_evict_pending g) (corner_in_corner g) (pawn_dir g)
    (duel_white_origin g) (duel_black_origin g) (recent_moves g) (pos_counts g)
    (player_is_ai g) (_draw_by_repetition g) (white_duel_boost g) (turn_counter g)
    (turn_i g) (chess_board g) (long_game_over g) (phase g) (_duel_started g)
    (_duel_turn_reset g) (_tp_consolidated_done g) (_reset_moves_for_duel g) v
    (duel_depth_bonus g) (duel_time_bonus g) (duel_eval_bias g)
    (_finalists_prep_started g) (_finalists_a g) (_finalists_b g) (_flash_until g)
    (_teleport_after g) (_duel_cleared_board g) (_duel_delay_until g).
Definition set_duel_depth_bonus (v : PerSeat.t Z) (g : t) : t :=
  Build (post_move_delay_until g) (freeze_advance g) (two_stage_pause g)
    (elim_flash_color g) (hold_at_start g) (waiting_ready g) (two_stage_active g)
    (final_a g) (final_b g) (entered g) (reduced_applied g) (grace_active g)
    (grace_turns_remaining g) (chess_lock g) (half_moves g) (corner_immune g)
    (corner_promoted g) (corner_evict_pending g) (corner_in_corner g) (pawn_dir g)
    (duel_white_origin g) (duel_black_origin g) (recent_moves g) (pos_counts g)
    (player_is_ai g) (_draw_by_repetition g) (white_duel_boost g) (turn_counter g)
    (turn_i g) (chess_board g) (long_game_over g) (phase g) (_duel_started g)
    (_duel_turn_reset g) (_tp_consolidated_done g) (_reset_moves_for_duel g)
    (duel_strong_side g) v (duel_time_bonus g) (duel_eval_bias g)
    (_finalists_prep_started g) (_finalists_a g) (_finalists_b g) (_flash_until g)
    (_teleport_after g) (_duel_cleared_board g) (_duel_delay_until g).
Definition set_duel_time_bonus (v : PerSeat.t Z) (g : t) : t :=
  Build (post_move_delay_until g) (freeze_advance g) (two_stage_pause g)
    (elim_flash_color g) (hold_at_start g) (waiting_ready g) (two_stage_active g)
    (final_a g) (final_b g) (entered g) (reduced_applied g) (grace_active g)
    (grace_turns_remaining g) (chess_lock g) (half_moves g) (corner_immune g)
    (corner_promoted g) (corner_evict_pending g) (corner_in_corner g) (pawn_dir g)
    (duel_white_origin g) (duel_black_origin g) (recent_moves g) (pos_counts g)
    (player_is_ai g) (_draw_by_repetition g) (white_duel_boost g) (turn_counter g)
    (turn_i g) (chess_board g) (long_game_over g) (phase g) (_duel_started g)
    (_duel_turn_reset g) (_tp_consolidated_done g) (_reset_moves_for_duel g)
    (duel_strong_side g) (duel_depth_bonus g) v (duel_eval_bias g)
    (_finalists_prep_started g) (_finalists_a g) (_finalists_b g) (_flash_until g)
    (_teleport_after g) (_duel_cleared_board g) (_duel_delay_until g).
Definition set_duel_eval_bias (v : PerSeat.t Z) (g : t) : t :=
  Build (post_move_delay_until g) (freeze_advance g) (two_stage_pause g)
    (elim_flash_color g) (hold_at_start g) (waiting_ready g) (two_stage_active g)
    (final_a g) (final_b g) (entered g) (reduced_applied g) (grace_active g)
    (grace_turns_remaining g) (chess_lock g) (half_moves g) (corner_immune g)
    (corner_promoted g) (corner_evict_pending g) (corner_in_corner g) (pawn_dir g)
    (duel_white_origin g) (duel_black_origin g) (recent_moves g) (pos_counts g)
    (player_is_ai g) (_draw_by_repetition g) (white_duel_boost g) (turn_counter g)
    (turn_i g) (chess_board g) (long_game_over g) (phase g) (_duel_started g)
    (_duel_turn_reset g) (_tp_consolidated_done g) (_reset_moves_for_duel g)
    (duel_strong_side g) (duel_depth_bonus g) (duel_time_bonus g) v
    (_finalists_prep_started g) (_finalists_a g) (_finalists_b g) (_flash_until g)
    (_teleport_after g) (_duel_cleared_board g) (_duel_delay_until g).
Definition set__finalists_prep_started (v : bool) (g : t) : t :=
  Build (post_move_delay_until g) (freeze_advance g) (two_stage_pause g)
    (elim_flash_color g) (hold_at_start g) (waiting_ready g) (two_stage_active g)
    (final_a g) (final_b g) (entered g) (reduced_applied g) (grace_active g)
    (grace_turns_remaining g) (chess_lock g) (half_moves g) (corner_immune g)
    (corner_promoted g) (corner_evict_pending g) (corner_in_corner g) (pawn_dir g)
    (duel_white_origin g) (duel_black_origin g) (recent_moves g) (pos_counts g)
    (player_is_ai g) (_draw_by_repetition g) (white_duel_boost g) (turn_counter g)
    (turn_i g) (chess_board g) (long_game_over g) (phase g) (_duel_started g)
    (_duel_turn_reset g) (_tp_consolidated_done g) (_reset_moves_for_duel g)
    (duel_strong_side g) (duel_depth_bonus g) (duel_time_bonus g) (duel_eval_bias
    g) v (_finalists_a g) (_finalists_b g) (_flash_until g) (_teleport_after g)
    (_duel_cleared_board g) (_duel_delay_until g).
Definition set__finalists_a (v : option PColor) (g : t) : t :=
  Build (post_move_delay_until g) (freeze_advance g) (two_stage_pause g)
    (elim_flash_color g) (hold_at_start g) (waiting_ready g) (two_stage_active g)
    (final_a g) (final_b g) (entered g) (reduced_applied g) (grace_active g)
    (grace_turns_remaining g) (chess_lock g) (half_moves g) (corner_immune g)
    (corner_promoted g) (corner_evict_pending g) (corner_in_corner g) (pawn_dir g)
    (duel_white_origin g) (duel_black_origin g) (recent_moves g) (pos_counts g)
    (player_is_ai g) (_draw_by_repetition g) (white_duel_boost g) (turn_counter g)
    (turn_i g) (chess_board g) (long_game_over g) (phase g) (_duel_started g)
    (_duel_turn_reset g) (_tp_consolidated_done g) (_reset_moves_for_duel g)
    (duel_strong_side g) (duel_depth_bonus g) (duel_time_bonus g) (duel_eval_bias
    g) (_finalists_prep_started g) v (_finalists_b g) (_flash_until g)
    (_teleport_after g) (_duel_cleared_board g) (_duel_delay_until g).
Definition set__finalists_b (v : option PColor) (g : t) : t :=
  Build (post_move_delay_until g) (freeze_advance g) (two_stage_pause g)
    (elim_flash_color g) (hold_at_start g) (waiting_ready g) (two_stage_active g)
    (final_a g) (final_b g) (entered g) (reduced_applied g) (grace_active g)
    (grace_turns_remaining g) (chess_lock g) (half_moves g) (corner_immune g)
    (corner_promoted g) (corner_evict_pending g) (corner_in_corner g) (pawn_dir g)
    (duel_white_origin g) (duel_black_origin g) (recent_moves g) (pos_counts g)
    (player_is_ai g) (_draw_by_repetition g) (white_duel_boost g) (turn_counter g)
    (turn_i g) (chess_board g) (long_game_over g) (phase g) (_duel_started g)
    (_duel_turn_reset g) (_tp_consolidated_done g) (_reset_moves_for_duel g)
    (duel_strong_side g) (duel_depth_bonus g) (duel_time_bonus g) (duel_eval_bias
    g) (_finalists_prep_started g) (_finalists_a g) v (_flash_until g)
    (_teleport_after g) (_duel_cleared_board g) (_duel_delay_until g).
Definition set__flash_until (v : option Z) (g : t) : t :=
  Build (post_move_delay_until g) (freeze_advance g) (two_stage_pause g)
    (elim_flash_color g) (hold_at_start g) (waiting_ready g) (two_stage_active g)
    (final_a g) (final_b g) (entered g) (reduced_applied g) (grace_active g)
    (grace_turns_remaining g) (chess_lock g) (half_moves g) (corner_immune g)
    (corner_promoted g) (corner_evict_pending g) (corner_in_corner g) (pawn_dir g)
    (duel_white_origin g) (duel_black_origin g) (recent_moves g) (pos_counts g)
    (player_is_ai g) (_draw_by_repetition g) (white_duel_boost g) (turn_counter g)
    (turn_i g) (chess_board g) (long_game_over g) (phase g) (_duel_started g)
    (_duel_turn_reset g) (_tp_consolidated_done g) (_reset_moves_for_duel g)
    (duel_strong_side g) (duel_depth_bonus g) (duel_time_bonus g) (duel_eval_bias
    g) (_finalists_prep_started g) (_finalists_a g) (_finalists_b g) v
    (_teleport_after g) (_duel_cleared_board g) (_duel_delay_until g).
Definition set__teleport_after (v : Z) (g : t) : t :=
  Build (post_move_delay_until g) (freeze_advance g) (two_stage_pause g)
    (elim_flash_color g) (hold_at_start g) (waiting_ready g) (two_stage_active g)
    (final_a g) (final_b g) (entered g) (reduced_applied g) (grace_active g)
    (grace_turns_remaining g) (chess_lock g) (half_moves g) (corner_immune g)
    (corner_promoted g) (corner_evict_pending g) (corner_in_corner g) (pawn_dir g)
    (duel_white_origin g) (duel_black_origin g) (recent_moves g) (pos_counts g)
    (player_is_ai g) (_draw_by_repetition g) (white_duel_boost g) (turn_counter g)
    (turn_i g) (chess_board g) (long_game_over g) (phase g) (_duel_started g)
    (_duel_turn_reset g) (_tp_consolidated_done g) (_reset_moves_for_duel g)
    (duel_strong_side g) (duel_depth_bonus g) (duel_time_bonus g) (duel_eval_bias
    g) (_finalists_prep_started g) (_finalists_a g) (_finalists_b g) (_flash_until
    g) v (_duel_cleared_board g) (_duel_delay_until g).
Definition set__duel_cleared_board (v : bool) (g : t) : t :=
  Build (post_move_delay_until g) (freeze_advance g) (two_stage_pause g)
    (elim_flash_color g) (hold_at_start g) (waiting_ready g) (two_stage_active g)
    (final_a g) (final_b g) (entered g) (reduced_applied g) (grace_active g)
    (grace_turns_remaining g) (chess_lock g) (half_moves g) (corner_immune g)
    (corner_promoted g) (corner_evict_pending g) (corner_in_corner g) (pawn_dir g)
    (duel_white_origin g) (duel_black_origin g) (recent_moves g) (pos_counts g)
    (player_is_ai g) (_draw_by_repetition g) (white_duel_boost g) (turn_counter g)
    (turn_i g) (chess_board g) (long_game_over g) (phase g) (_duel_started g)
    (_duel_turn_reset g) (_tp_consolidated_done g) (_reset_moves_for_duel g)
    (duel_strong_side g) (duel_depth_bonus g) (duel_time_bonus g) (duel_eval_bias
    g) (_finalists_prep_started g) (_finalists_a g) (_finalists_b g) (_flash_until
    g) (_teleport_after g) v (_duel_delay_until g).
Definition set__duel_delay_until (v : Z) (g : t) : t :=
  Build (post_move_delay_until g) (freeze_advance g) (two_stage_pause g)
    (elim_flash_color g) (hold_at_start g) (waiting_ready g) (two_stage_active g)
    (final_a g) (final_b g) (entered g) (reduced_applied g) (grace_active g)
    (grace_turns_remaining g) (chess_lock g) (half_moves g) (corner_immune g)
    (corner_promoted g) (corner_evict_pending g) (corner_in_corner g) (pawn_dir g)
    (duel_white_origin g) (duel_black_origin g) (recent_moves g) (pos_counts g)
    (player_is_ai g) (_draw_by_repetition g) (white_duel_boost g) (turn_counter g)
    (turn_i g) (chess_board g) (long_game_over g) (phase g) (_duel_started g)
    (_duel_turn_reset g) (_tp_consolidated_done g) (_reset_moves_for_duel g)
    (duel_strong_side g) (duel_depth_bonus g) (duel_time_bonus g) (duel_eval_bias
    g) (_finalists_prep_started g) (_finalists_a g) (_finalists_b g) (_flash_until
    g) (_teleport_after g) (_duel_cleared_board g) v.
End GameState.

(** ** Check detection (lines 1740-1944) *)

(** [default_dir] and the lookup of [gs.pawn_dir] shared by [gen_moves] and
    [is_square_attacked]. *)
Definition default_dir (col : PColor) : Z :=
  match col with WHITE => -1 | BLACK => 1 | GREY => 1 | PINK => -1 end.

Definition pawn_dir_for (gs : option GameState.t) (col : PColor) : Z :=
  match gs with
  | Some g => PerSeat.get (GameState.pawn_dir g) col
  | None => default_dir col
  end.

(** The capture vectors of a pawn of colour [col] whose direction is [pd]. *)
Definition pawn_caps (col : PColor) (pd : Z) : list (Z * Z) :=
  if color_in col [WHITE; BLACK] then
    if pd =? -1 then [(-1, -1); (-1, 1)] else [(1, -1); (1, 1)]
  else
    if pd =? 1 then [(-1, 1); (1, 1)] else [(-1, -1); (1, -1)].

Definition KNIGHT_OFFSETS : list (Z * Z) :=
  [(2, 1); (2, -1); (-2, 1); (-2, -1); (1, 2); (1, -2); (-1, 2); (-1, -2)].
Definition ROOK_DIRS : list (Z * Z) := [(1, 0); (-1, 0); (0, 1); (0, -1)].
Definition BISHOP_DIRS : list (Z * Z) := [(1, 1); (1, -1); (-1, 1); (-1, -1)].
Definition QUEEN_DIRS : list (Z * Z) := ROOK_DIRS ++ BISHOP_DIRS.

(** [for dr in (-1,0,1): for dc in (-1,0,1): if dr==0 and dc==0: continue] *)
Definition KING_STEPS : list (Z * Z) :=
  [(-1, -1); (-1, 0); (-1, 1); (0, -1); (0, 1); (1, -1); (1, 0); (1, 1)].

Definition no_corner (r c : Z) : bool :=
  match corner_owner_at r c with Some _ => false | None => true end.

(** The pawn loop of [is_square_attacked] for one attacking colour. *)
Definition pawn_attacks (gs : option GameState.t) (b : Board.t) (r c : Z)
    (col : PColor) : bool :=
  let pd := pawn_dir_for gs col in
  if color_in col [WHITE; BLACK] then
    List.existsb (fun '(dr, dc) =>
        let rr := r + dr in let cc := c + dc in
        Board.in_bounds rr cc &&
        match Board.get b rr cc with
        | Some p => is_color col p && is_kind Pawn p && no_corner r c
                    && (Z.abs (cc - c) =? 1)
        | None => false
        end)
      (if pd =? -1 then [(-1, -1); (-1, 1)] else [(1, -1); (1, 1)])
  else
    List.existsb (fun '(dr, dc) =>
        let rr := r + dr in let cc := c + dc in
        Board.in_bounds rr cc &&
        match Board.get b rr cc with
        | Some p => is_color col p && is_kind Pawn p && no_corner r c
                    && (Z.abs (rr - r) =? 1)
        | None => false
        end)
      (if pd =? 1 then [(-1, 1); (1, 1)] else [(-1, -1); (1, -1)]).

(** One ray of the sliding loops: walk from (rr,cc) by (dr,dc) while in
    bounds; stop at a corner square or at the first occupant, which attacks
    when it is of an attacking colour and of a kind accepted by [hits].
    [fuel] bounds the number of iterations of the [while]. *)
Fixpoint ray_attacked (fuel : nat) (b : Board.t) (attackers : list PColor)
    (hits : Piece.t -> bool) (rr cc dr dc : Z) : bool :=
  match fuel with
  | O => false
  | S fuel' =>
      if Board.in_bounds rr cc then
        if no_corner rr cc then
          match Board.get b rr cc with
          | Some p => color_in (Piece.color p) attackers && hits p
          | None => ray_attacked fuel' b attackers hits (rr + dr) (cc + dc) dr dc
          end
        else false
      else false
  end.

(** Twelve iterations leave the board from any square. *)
Definition RAY_FUEL : nat := 12.

Definition is_square_attacked (gs : option GameState.t) (b : Board.t)
    (r c : Z) (attackers : list PColor) : bool :=
  (* Pawn attacks *)
  List.existsb (pawn_attacks gs b r c) attackers
  (* Knights *)
  || List.existsb (fun '(dr, dc) =>
        let rr := r + dr in let cc := c + dc in
        Board.in_bounds rr cc && no_corner r c &&
        match Board.get b rr cc with
        | Some p => color_in (Piece.color p) attackers && is_kind Knight p
        | None => false
        end) KNIGHT_OFFSETS
  (* Sliding (rook/queen) *)
  || List.existsb (fun '(dr, dc) =>
        ray_attacked RAY_FUEL b attackers
          (fun p => is_kind Rook p || is_kind Queen p) (r + dr) (c + dc) dr dc)
      ROOK_DIRS
  (* Sliding (bishop/queen) *)
  || List.existsb (fun '(dr, dc) =>
        ray_attacked RAY_FUEL b attackers
          (fun p => is_kind Bishop p || is_kind Queen p) (r + dr) (c + dc) dr dc)
      BISHOP_DIRS
  (* Kings (adjacent) *)
  || List.existsb (fun '(dr, dc) =>
        let rr := r + dr in let cc := c + dc in
        Board.in_bounds rr cc && no_corner r c &&
        match Board.get b rr cc with
        | Some p => color_in (Piece.color p) attackers && is_kind King p
        | None => false
        end) KING_STEPS.

Definition square_attacked_by_colors := is_square_attacked.

(** The attacker list of [king_in_check]: a colour with a cached king
    position is taken as alive without a look at the grid; otherwise
    [find_king] is asked (and refreshes the cache). *)
Fixpoint attackers_of (b : Board.t) (color : PColor) (cols : list PColor)
    : list PColor * Board.t :=
  match cols with
  | [] => ([], b)
  | col :: rest =>
      if bool_decide (col = color) then attackers_of b color rest
      else
        match PerSeat.get (Board.king_positions b) col with
        | Some _ =>
            let '(l, b') := attackers_of b color rest in (col :: l, b')
        | None =>
            let '(kp, b1) := Board.find_king b col in
            let '(l, b2) := attackers_of b1 color rest in
            (match kp with Some _ => col :: l | None => l end, b2)
        end
  end.

Definition king_in_check (gs : option GameState.t) (b : Board.t)
    (color : PColor) : bool * Board.t :=
  let '(kp, b1) := Board.find_king b color in
  match kp with
  | None => (false, b1)
  | Some (r, c) =>
      if match gs with
         | Some g => PerSeat.get (GameState.corner_immune g) color
         | None => false
         end
      then (false, b1)
      else
        let '(attackers, b2) := attackers_of b1 color TURN_ORDER in
        (is_square_attacked gs b2 r c attackers, b2)
  end.

(** ** Pseudo-legal move generation (lines 1264-1626) *)

Definition capturable (color : PColor) (tgt : Piece.t) : bool :=
  negb (is_color color tgt) && negb (is_kind King tgt).

(** [owner is not None and owner != color] *)
Definition foreign_corner (color : PColor) (owner : option PColor) : bool :=
  match owner with
  | Some col => negb (bool_decide (col = color))
  | None => false
  end.

(** One direction of [add_slide_moves]. *)
Fixpoint slide_from (fuel : nat) (b : Board.t) (piece : Piece.t)
    (nr nc dr dc : Z) : list Square :=
  match fuel with
  | O => []
  | S fuel' =>
      if Board.in_bounds nr nc then
        if no_corner nr nc then
          match Board.get b nr nc with
          | Some tgt =>
              if capturable (Piece.color piece) tgt then [(nr, nc)] else []
          | None => (nr, nc) :: slide_from fuel' b piece (nr + dr) (nc + dc) dr dc
          end
        else []
      else []
  end.

Definition add_slide_moves (b : Board.t) (r c : Z) (piece : Piece.t)
    (dirs : list (Z * Z)) (out : list Square) : list Square :=
  out ++ List.flat_map (fun '(dr, dc) =>
           slide_from RAY_FUEL b piece (r + dr) (c + dc) dr dc) dirs.

(** The search for the first piece from (r,c) in direction (dr,dc), used by
    the castling code of [gen_moves] and of [board_do_move]. *)
Fixpoint first_piece_from (fuel : nat) (b : Board.t) (r c dr dc : Z)
    : option (Z * Z * Piece.t) :=
  match fuel with
  | O => None
  | S fuel' =>
      if Board.in_bounds r c then
        match Board.get b r c with
        | Some q => Some (r, c, q)
        | None => first_piece_from fuel' b (r + dr) (c + dc) dr dc
        end
      else None
  end.

(** [[col for col in TURN_ORDER if col != color and
      board.find_king(col) is not None]] *)
Fixpoint others_alive (b : Board.t) (color : PColor) (cols : list PColor)
    : list PColor * Board.t :=
  match cols with
  | [] => ([], b)
  | col :: rest =>
      if bool_decide (col = color) then others_alive b color rest
      else
        let '(kp, b1) := Board.find_king b col in
        let '(l, b2) := others_alive b1 color rest in
        (match kp with Some _ => col :: l | None => l end, b2)
  end.

(** The nested [_castle_dir] of [gen_moves]. *)
Definition _castle_dir (gs : option GameState.t) (b : Board.t)
    (color : PColor) (r c : Z) (drc : Z * Z) : option Square * Board.t :=
  let '(dr, dc) := drc in
  let k1r := r + dr in let k1c := c + dc in
  let k2r := r + 2 * dr in let k2c := c + 2 * dc in
  if negb (Board.in_bounds k1r k1c && Board.in_bounds k2r k2c) then (None, b)
  else if is_Some_b (Board.get b k1r k1c) || is_Some_b (Board.get b k2r k2c)
  then (None, b)
  else
    match first_piece_from RAY_FUEL b (r + 3 * dr) (c + 3 * dc) dr dc with
    | None => (None, b)
    | Some (rr, rc, rq) =>
        if negb (is_color color rq && is_kind Rook rq && negb (Piece.has_moved rq))
        then (None, b)
        else
          let '(attackers, b1) := others_alive b color TURN_ORDER in
          let '(chk, b2) := king_in_check gs b1 color in
          if chk then (None, b2)
          else if is_square_attacked gs b2 k1r k1c attackers then (None, b2)
          else if is_square_attacked gs b2 k2r k2c attackers then (None, b2)
          else
            if foreign_corner color (corner_owner_at k1r k1c)
               || foreign_corner color (corner_owner_at k2r k2c)
            then (None, b2)
            else (Some (k2r, k2c), b2)
    end.

(** The home axis of a colour and its two castling directions
    [(side_dir, corner_dir)]. *)
Definition castle_axis (color : PColor) (r c : Z) : bool * ((Z * Z) * (Z * Z)) :=
  match color with
  | WHITE => (bool_decide (r = 11), ((0, 1), (0, -1)))
  | BLACK => (bool_decide (r = 0), ((0, -1), (0, 1)))
  | GREY => (bool_decide (c = 0), ((1, 0), (-1, 0)))
  | PINK => (bool_decide (c = 11), ((-1, 0), (1, 0)))
  end.

Definition gs_chess_lock (gs : option GameState.t) : bool :=
  match gs with Some g => GameState.chess_lock g | None => false end.

Definition king_moves (gs : option GameState.t) (b : Board.t) (p : Piece.t)
    (r c : Z) : list Square * Board.t :=
  let color := Piece.color p in
  let steps :=
    List.flat_map (fun '(dr, dc) =>
        let nr := r + dr in let nc := c + dc in
        if negb (Board.in_bounds nr nc) then []
        else if foreign_corner color (corner_owner_at nr nc) then []
        else
          match Board.get b nr nc with
          | Some tgt => if capturable color tgt then [(nr, nc)] else []
          | None => [(nr, nc)]
          end) KING_STEPS in
  (* Short-game castling *)
  let '(moves, b2) :=
    if negb (gs_chess_lock gs) && negb (Piece.has_moved p) then
      let '(on_home, (side_dir, corner_dir)) := castle_axis color r c in
      if on_home then
        let '(d1, b1) := _castle_dir gs b color r c side_dir in
        let '(d2, b2) := _castle_dir gs b1 color r c corner_dir in
        (steps ++ option_list d1 ++ option_list d2, b2)
      else (steps, b)
    else (steps, b) in
  (* forced evacuation of the corner *)
  let evict :=
    match gs with
    | Some g => PerSeat.get (GameState.corner_evict_pending g) color
    | None => false
    end in
  if evict && bool_decide (corner_owner_at r c = Some color) then
    let exit_moves :=
      List.filter (fun '(nr, nc) =>
          negb (bool_decide (corner_owner_at nr nc = Some color))) moves in
    match exit_moves with
    | [] => (moves, b2)
    | _ => (exit_moves, b2)
    end
  else (moves, b2).

Definition pawn_moves (gs : option GameState.t) (b : Board.t) (p : Piece.t)
    (r c : Z) : list Square :=
  let color := Piece.color p in
  let pd := pawn_dir_for gs color in
  let fwd := if color_in color [WHITE; BLACK] then (pd, 0) else (0, pd) in
  let caps := pawn_caps color pd in
  let nr := r + fst fwd in let nc := c + snd fwd in
  let free r c :=
    Board.in_bounds r c && no_corner r c && negb (is_Some_b (Board.get b r c)) in
  let forward :=
    if free nr nc then
      let nr2 := nr + fst fwd in let nc2 := nc + snd fwd in
      (nr, nc) :: (if negb (Piece.has_moved p) && free nr2 nc2
                   then [(nr2, nc2)] else [])
    else [] in
  let is_first_round :=
    match gs with Some g => GameState.half_moves g <? 4 | None => false end in
  forward ++
  List.flat_map (fun '(dr, dc) =>
      let ar := r + dr in let ac := c + dc in
      if Board.in_bounds ar ac && no_corner ar ac then
        match Board.get b ar ac with
        | Some tgt =>
            if capturable color tgt then
              if is_first_round && is_kind Pawn tgt then
                if is_edge_pawn_square r c color
                   && is_edge_pawn_square ar ac (Piece.color tgt)
                then [] else [(ar, ac)]
              else [(ar, ac)]
            else []
        | None => []
        end
      else []) caps.

Definition knight_moves (b : Board.t) (p : Piece.t) (r c : Z) : list Square :=
  List.flat_map (fun '(dr, dc) =>
      let nr := r + dr in let nc := c + dc in
      if Board.in_bounds nr nc then
        if no_corner nr nc then
          match Board.get b nr nc with
          | Some tgt => if capturable (Piece.color p) tgt then [(nr, nc)] else []
          | None => [(nr, nc)]
          end
        else []
      else []) KNIGHT_OFFSETS.

Definition gen_moves (gs : option GameState.t) (b : Board.t) (r c : Z)
    : list Square * Board.t :=
  match Board.get b r c with
  | None => ([], b)
  | Some p =>
      match Piece.kind p with
      | Knight => (knight_moves b p r c, b)
      | King => king_moves gs b p r c
      | Rook => (add_slide_moves b r c p ROOK_DIRS [], b)
      | Bishop => (add_slide_moves b r c p BISHOP_DIRS [], b)
      | Queen => (add_slide_moves b r c p QUEEN_DIRS [], b)
      | Pawn => (pawn_moves gs b p r c, b)
      end
  end.

(** ** Applying and undoing a move (lines 1962-2214) *)

(** The [effects] dictionary; its only key here is 'promoted'. *)
Definition Effects : Type := gmap string bool.

Definition promoted_flag (e : Effects) : bool :=
  match e !! "promoted" with Some v => v | None => false end.

(** The tuple [(cap, prev_has, prev_kind, effects)] returned by
    [board_do_move] and taken back by [board_undo_move]. *)
Record MoveRecord := MkMove {
  captured : option Piece.t;
  prev_has_moved : bool;
  prev_kind : option Kind;
  effects : Effects
}.

Inductive PyError := ValueError | AttributeError.

(** In-place mutation of the piece object [pid] through the one cell (r,c)
    that can reference it: the cell is updated when it holds that object.
    [Board.set] is not involved, so the cache is left alone. *)
Definition mutate_piece (b : Board.t) (r c : Z) (pid : nat)
    (f : Piece.t -> Piece.t) : Board.t :=
  if Board.in_bounds r c then
    match Board.grid_get (Board.grid b) r c with
    | Some p =>
        if bool_decide (Piece.pid p = pid)
        then Board.Build (Board.grid_set (Board.grid b) r c (Some (f p)))
                         (Board.king_positions b)
        else b
    | None => b
    end
  else b.

(** The far line on which a pawn of each colour is promoted. *)
Definition promotes_at (color : PColor) (er ec : Z) : bool :=
  match color with
  | WHITE => bool_decide (er = CH_MIN)
  | BLACK => bool_decide (er = CH_MAX)
  | GREY => bool_decide (ec = CH_MAX)
  | PINK => bool_decide (ec = CH_MIN)
  end.

(** [deque(maxlen=64).append] *)
Definition deque_append {A} (l : list A) (x : A) : list A :=
  let l' := l ++ [x] in
  if (64 <? Z.of_nat (length l')) then List.tl l' else l'.

(** [TURN_ORDER.index(col)] *)
Definition turn_index (col : PColor) : Z := PColor_value col.

(** [perform_two_stage_migration] (line 2947) *)
Definition purge_outside (b : Board.t) : Board.t :=
  List.fold_left (fun b '(rr, cc) =>
      match Board.get b rr cc with
      | Some p =>
          if negb (is_kind King p) && negb (in_chess_area rr cc)
          then Board.set b rr cc None else b
      | None => b
      end) all_squares b.

Definition perform_two_stage_migration (b : Board.t) (g : GameState.t)
    (a c : PColor) : Board.t * GameState.t :=
  let b' := purge_outside b in
  if ((turn_index a + 2) mod 4 =? turn_index c) then (b', g)
  else
    let pd := GameState.pawn_dir g in
    let pd1 := PerSeat.set pd a (- PerSeat.get pd a) in
    let pd2 := PerSeat.set pd1 c (- PerSeat.get pd1 c) in
    (b', GameState.set_pawn_dir pd2 g).

(** [activate_two_stage_if_needed] (line 2824) *)
Definition activate_two_stage_if_needed (b : Board.t) (g : GameState.t)
    : bool * Board.t * GameState.t :=
  let '(alive, b1) := Board.alive_colors b in
  match alive with
  | [a; c] =>
      if GameState.two_stage_active g then (true, b1, g)
      else
        let g1 := GameState.set_two_stage_active true g in
        let g2 := GameState.set_final_b (Some c) (GameState.set_final_a (Some a) g1) in
        let '(b2, g3) := perform_two_stage_migration b1 g2 a c in
        (true, b2, g3)
  | _ => (false, b1, g)
  end.

Section Engine.

(** [lambda s: int(hashlib.sha1(s.encode('utf-8')).hexdigest()[:16], 16)]:
    hashlib is outside the repository. *)
Variable sha1_key : string -> Z.

(** [GameState._position_key] (line 6125) *)
Definition position_string (g : GameState.t) (b : Board.t) : string :=
  let cells :=
    List.flat_map (fun '(r, c) =>
        match Board.get b r c with
        | Some p =>
            [pretty r +:+ "," +:+ pretty c +:+ "," +:+ kind_letter (Piece.kind p)
             +:+ "," +:+ pretty (PColor_value (Piece.color p)) +:+ ","
             +:+ (if Piece.has_moved p then "1" else "0") +:+ ";"]
        | None => []
        end) all_squares in
  String.concat "" cells
  +:+ "two_stage:" +:+ (if GameState.two_stage_active g then "1" else "0") +:+ ";"
  +:+ "pawn_dir:"
  +:+ String.concat ","
        (List.map (fun col => pretty (PerSeat.get (GameState.pawn_dir g) col))
           TURN_ORDER) +:+ ";"
  +:+ "turnpar:" +:+ pretty (GameState.turn_counter g mod 2) +:+ ";".

Definition _position_key (g : GameState.t) (b : Board.t) : Z :=
  sha1_key (position_string g b).

(** The repetition block of [board_do_move] (lines 2141-2171). *)
Definition count_position (g : GameState.t) (b : Board.t) : GameState.t :=
  let key := _position_key g b in
  let prev := match GameState.pos_counts g !! key with Some n => n | None => 0 end in
  let g1 := GameState.set_pos_counts (<[key := prev + 1]> (GameState.pos_counts g)) g in
  if (3 <=? prev + 1) then
    GameState.set__draw_by_repetition true
      (GameState.set_elim_flash_color None
         (GameState.set_post_move_delay_until 0
            (GameState.set_freeze_advance true g1)))
  else g1.

(** The castling block of [board_do_move] (lines 2055-2113): a king that
    moved two squares along a line drags the first piece beyond, when it is
    a rook of its colour, to the square it passed over. *)
Definition castle_rook (b : Board.t) (mover : Piece.t) (sr sc er ec : Z)
    : Board.t :=
  let horiz := bool_decide (sr = er) && (Z.abs (ec - sc) =? 2) in
  let vert := bool_decide (sc = ec) && (Z.abs (er - sr) =? 2) in
  if horiz || vert then
    let dr := if horiz then 0 else if er >? sr then 1 else -1 in
    let dc := if vert then 0 else if ec >? sc then 1 else -1 in
    match first_piece_from RAY_FUEL b (sr + 3 * dr) (sc + 3 * dc) dr dc with
    | Some (r_sr, r_sc, rq) =>
        if is_kind Rook rq && is_color (Piece.color mover) rq then
          let r_er := sr + dr in let r_ec := sc + dc in
          let b1 := Board.set b r_sr r_sc None in
          let b2 := Board.set b1 r_er r_ec (Some rq) in
          mutate_piece b2 r_er r_ec (Piece.pid rq)
            (fun p => Piece.set_has_moved p true)
        else b
    | None => b
    end
  else b.

(** Lines 1996-2051: the mover leaves its square, lands on the destination,
    is marked as moved and, if it is a pawn on its promotion line, becomes a
    queen.  Returns the board, the [effects] and the mover as it now is. *)
Definition relocate (b : Board.t) (sr sc er ec : Z)
    : Board.t * Effects * option Piece.t :=
  let mover := Board.get b sr sc in
  let b1 := Board.set b sr sc None in
  match mover with
  | Some m =>
      let b2 := Board.set b1 er ec (Some m) in
      let b3 := mutate_piece b2 er ec (Piece.pid m)
                  (fun p => Piece.set_has_moved p true) in
      if is_kind Pawn m && promotes_at (Piece.color m) er ec then
        (mutate_piece b3 er ec (Piece.pid m) (fun p => Piece.set_kind p Queen),
         ({["promoted" := true]} : Effects),
         Some (Piece.set_kind (Piece.set_has_moved m true) Queen))
      else (b3, (∅ : Effects), Some (Piece.set_has_moved m true))
  | None => (b1, (∅ : Effects), None)
  end.

(** The board of a real move once the pieces are settled (lines 1996-2113):
    [relocate], then the rook of a castling king. *)
Definition settle (b : Board.t) (sr sc er ec : Z) : Board.t :=
  let '(b2, _, mover_now) := relocate b sr sc er ec in
  match mover_now with
  | Some m => if is_kind King m then castle_rook b2 m sr sc er ec else b2
  | None => b2
  end.

(** Lines 2119-2187: the bookkeeping of a real move on [gs]. *)
Definition record_move (g : GameState.t) (b : Board.t) (mover : option Piece.t)
    (sr sc er ec : Z) : Board.t * GameState.t :=
  let g1 := GameState.set_half_moves (GameState.half_moves g + 1) g in
  let g2 :=
    GameState.set_recent_moves
      (deque_append (GameState.recent_moves g1)
         (match mover with Some m => Some (Piece.color m) | None => None end,
          sr, sc, er, ec)) g1 in
  let g3 := count_position g2 b in
  let '(_, b4, g4) := activate_two_stage_if_needed b g3 in
  (b4, g4).

Definition board_do_move (gs : option GameState.t) (b : Board.t)
    (sr sc er ec : Z) (simulate : bool)
    : (PyError + MoveRecord) * Board.t * option GameState.t :=
  let mover := Board.get b sr sc in
  let cap := Board.get b er ec in
  let prev_has := match mover with Some m => Piece.has_moved m | None => false end in
  let prev_kind := match mover with Some m => Some (Piece.kind m) | None => None end in
  if gs_chess_lock gs && (negb (_in8 sr sc) || negb (_in8 er ec)) then
    if simulate then (inr (MkMove None false None ∅), b, gs)
    else (inl ValueError, b, gs)
  else
    let '(b2, effects, _) := relocate b sr sc er ec in
    let result := MkMove cap prev_has prev_kind effects in
    if simulate then (inr result, b2, gs)
    else
      let b3 := settle b sr sc er ec in
      (* log(f"[CAPTURE] {mover.color.name} ...") *)
      if is_Some_b cap && negb (is_Some_b mover) then (inl AttributeError, b3, gs)
      else
        match gs with
        | None => (inr result, b3, None)
        | Some g =>
            let '(b4, g4) := record_move g b3 mover sr sc er ec in
            (inr result, b4, Some g4)
        end.

Definition board_undo_move (b : Board.t) (sr sc er ec : Z) (m : MoveRecord)
    : Board.t :=
  let mover := Board.get b er ec in
  let b1 := Board.set b sr sc mover in
  let b2 := Board.set b1 er ec (captured m) in
  match mover with
  | Some mv =>
      let b3 := mutate_piece b2 sr sc (Piece.pid mv)
                  (fun p => Piece.set_has_moved p (prev_has_moved m)) in
      if promoted_flag (effects m) then
        mutate_piece b3 sr sc (Piece.pid mv) (fun p => Piece.set_kind p Pawn)
      else
        match prev_kind m with
        | Some k => mutate_piece b3 sr sc (Piece.pid mv) (fun p => Piece.set_kind p k)
        | None => b3
        end
  | None => b2
  end.

(** ** The legality filter (lines 2222-2292) *)

Definition Move4 : Type := Z * Z * Z * Z.

(** The body of the loop of [legal_moves_for_piece]; [board_do_move] with
    [simulate=True] never raises. *)
Fixpoint filter_legal (gs : option GameState.t) (b : Board.t) (color : PColor)
    (r c : Z) (pseudo : list Square) : list Move4 * Board.t :=
  match pseudo with
  | [] => ([], b)
  | (er, ec) :: rest =>
      match board_do_move gs b r c er ec true with
      | (inr m, b1, _) =>
          let '(illegal, b2) := king_in_check gs b1 color in
          let b3 := board_undo_move b2 r c er ec m in
          let '(out, b4) := filter_legal gs b3 color r c rest in
          (if illegal then out else (r, c, er, ec) :: out, b4)
      | (inl _, b1, _) => ([], b1)
      end
  end.

Definition legal_moves_for_piece (gs : option GameState.t) (b : Board.t)
    (r c : Z) : list Move4 * Board.t :=
  match Board.get b r c with
  | None => ([], b)
  | Some p =>
      let '(pseudo, b1) := gen_moves gs b r c in
      filter_legal gs b1 (Piece.color p) r c pseudo
  end.

End Engine.

(** ** The starting position ([Board.__init__] and [_setup], line 978)

    [fresh] is the identity of the first [Piece] object the call creates;
    the sixty-four pieces are numbered in the order of their creation. *)

Definition back_std : list Kind :=
  [Rook; Knight; Bishop; Queen; King; Bishop; Knight; Rook].

Definition empty_grid : Board.Grid := replicate 12 (replicate 12 None).

(** [enumerate(l)] *)
Definition enumerate {A} (l : list A) : list (Z * A) :=
  List.combine (zrange 0 (length l)) l.

(** One side of [_setup]: the back rank, then the eight pawns, written into
    [self.grid] directly. *)
Definition setup_side (fresh : nat) (col : PColor) (back_at pawn_at : Z -> Square)
    (g : Board.Grid) : Board.Grid :=
  let g1 :=
    List.fold_left (fun g '(i, k) =>
        let '(r, c) := back_at i in
        Board.grid_set g r c (Some (Piece.new (fresh + Z.to_nat i) k col)))
      (enumerate back_std) g in
  List.fold_left (fun g i =>
      let '(r, c) := pawn_at i in
      Board.grid_set g r c (Some (Piece.new (fresh + 8 + Z.to_nat i) Pawn col)))
    (zrange 0 8) g1.

Definition setup_grid (fresh : nat) : Board.Grid :=
  let g1 := setup_side fresh WHITE (fun i => (11, i + 2)) (fun i => (10, i + 2)) empty_grid in
  let g2 := setup_side (fresh + 16) BLACK (fun i => (0, i + 2)) (fun i => (1, i + 2)) g1 in
  let g3 := setup_side (fresh + 32) GREY (fun i => (i + 2, 0)) (fun i => (i + 2, 1)) g2 in
  setup_side (fresh + 48) PINK (fun i => (i + 2, 11)) (fun i => (i + 2, 10)) g3.

Definition Board_init (fresh : nat) : Board.t :=
  List.fold_left (fun b col =>
      let '(kp, b') := Board.find_king b col in Board.set_cache b' col kp)
    TURN_ORDER (Board.Build (setup_grid fresh) (PerSeat.all None)).

(** ** The corner sanctuary (lines 617-667) *)

Definition _update_corner_state (b : Board.t) (g : GameState.t) (color : PColor)
    : Board.t * GameState.t :=
  let '(kp, b1) := Board.find_king b color in
  let in_corner :=
    match kp with
    | Some (r, c) => bool_decide (corner_owner_at r c = Some color)
    | None => false
    end in
  let g1 := GameState.set_corner_in_corner
              (PerSeat.set (GameState.corner_in_corner g) color in_corner) g in
  let queens := Z.of_nat (length (_pieces_of_kind b1 color Queen)) in
  let has_three_or_more := 3 <=? queens in
  let immunity := in_corner && has_three_or_more in
  let g2 := GameState.set_corner_immune
              (PerSeat.set (GameState.corner_immune g1) color immunity) g1 in
  let evict :=
    in_corner && PerSeat.get (GameState.corner_promoted g2) color && (queens <=? 1) in
  (b1, GameState.set_corner_evict_pending
         (PerSeat.set (GameState.corner_evict_pending g2) color evict) g2).

(** [for _, _, piece in bishops: piece.kind = 'Q'] *)
Definition promote_bishops (b : Board.t) (color : PColor) : Board.t :=
  List.fold_left (fun b '(rr, cc, piece) =>
      mutate_piece b rr cc (Piece.pid piece) (fun p => Piece.set_kind p Queen))
    (_pieces_of_kind b color Bishop) b.

Definition _handle_corner_entry (b : Board.t) (g : GameState.t) (color : PColor)
    : Board.t * GameState.t :=
  if negb (PerSeat.get (GameState.corner_promoted g) color) then
    let b1 := promote_bishops b color in
    let g1 := GameState.set_corner_promoted
                (PerSeat.set (GameState.corner_promoted g) color true) g in
    _update_corner_state b1 g1 color
  else _update_corner_state b g color.

(** ** Turn order (lines 6599-6609, 6834-6850, 2808-2820) *)

(** [TURN_ORDER[i]] for an index already reduced modulo four. *)
Definition turn_order_at (i : Z) : PColor :=
  match i with 0 => WHITE | 1 => GREY | 2 => BLACK | _ => PINK end.

(** The [for _ in range(span)] loop of [_advance_turn_index]. *)
Fixpoint advance_loop (n : nat) (alive : list PColor) (idx : Z) : Z :=
  match n with
  | O => idx mod 4
  | S n' =>
      if color_in (turn_order_at (idx mod 4)) alive then idx mod 4
      else advance_loop n' alive ((idx + 1) mod 4)
  end.

Definition _advance_turn_index (b : Board.t) (idx : Z) : Z * Board.t :=
  let '(alive, b1) := Board.alive_colors b in
  match alive with
  | [] => (idx, b1)
  | _ => (advance_loop 4 alive idx, b1)
  end.

Definition clockwise_from (color : PColor) (candidates : list PColor)
    : option PColor :=
  match candidates with
  | [] => None
  | first :: _ =>
      let idx := turn_index color in
      match List.find (fun nxt => color_in nxt candidates)
              (List.map (fun i => turn_order_at ((idx + i) mod 4)) [1; 2; 3; 4]) with
      | Some nxt => Some nxt
      | None => Some first
      end
  end.

(** [[col for col in cols if col != skip and king_in_check(board, col)]]:
    the victims loop of the main loop. *)
Fixpoint check_victims (gs : option GameState.t) (b : Board.t) (skip : PColor)
    (cols : list PColor) : list PColor * Board.t :=
  match cols with
  | [] => ([], b)
  | col :: rest =>
      if bool_decide (col = skip) then check_victims gs b skip rest
      else
        let '(chk, b1) := king_in_check gs b col in
        let '(l, b2) := check_victims gs b1 skip rest in
        (if chk then col :: l else l, b2)
  end.

(** The locals [turn_i] and [forced_turn] of [main]. *)
Record TurnCursor := MkCursor { cur_turn_i : Z; forced_turn : option PColor }.

(** [(TURN_ORDER[turn_i] if forced_turn is None else forced_turn)] *)
Definition active_seat (t : TurnCursor) : PColor :=
  match forced_turn t with
  | None => turn_order_at (cur_turn_i t)
  | Some f => f
  end.

(** The turn update after a drag-and-drop move (lines 8601-8627; the same
    text stands at lines 9452-9476).  [prev_forced_turn] was copied from
    [forced_turn] before the move and [forced_turn] is not assigned in
    between.  The active seat is recomputed from [turn_i] after [turn_i]
    has been advanced. *)
Definition turn_update_drag (gs : option GameState.t) (b : Board.t)
    (t : TurnCursor) : TurnCursor * Board.t :=
  let prev_forced_turn := forced_turn t in
  let '(turn_i', b1) :=
    match prev_forced_turn with
    | None => _advance_turn_index b (cur_turn_i t + 1)
    | Some _ => _advance_turn_index b (turn_index (active_seat t) + 1)
    end in
  let t1 := MkCursor turn_i' (forced_turn t) in
  let '(alive, b2) := Board.alive_colors b1 in
  let '(victims, b3) := check_victims gs b2 (active_seat t1) alive in
  let forced' :=
    match victims with
    | [] => None
    | _ => clockwise_from (active_seat t1) victims
    end in
  (MkCursor turn_i' forced', b3).

(** The turn update after a click move or an AI move (lines 10132-10160 and
    10742-10770): [active_color] was computed before the move. *)
Definition turn_update_click (gs : option GameState.t) (b : Board.t)
    (t : TurnCursor) : TurnCursor * Board.t :=
  let active_color := active_seat t in
  let prev_forced_turn := forced_turn t in
  let '(turn_i', b1) :=
    match prev_forced_turn with
    | None => _advance_turn_index b (cur_turn_i t + 1)
    | Some _ => ((turn_index active_color + 1) mod 4, b)
    end in
  let '(alive, b2) := Board.alive_colors b1 in
  let '(victims, b3) := check_victims gs b2 active_color alive in
  let forced' :=
    match victims with
    | [] => None
    | _ => clockwise_from active_color victims
    end in
  (MkCursor turn_i' forced', b3).

(** [_alive_next_color] *)
Definition _alive_next_color (b : Board.t) (color : PColor) : PColor * Board.t :=
  let idx := turn_index color in
  let fix go (l : list Z) (b : Board.t) : PColor * Board.t :=
    match l with
    | [] => (color, b)
    | i :: rest =>
        let nxt := turn_order_at ((idx + i) mod 4) in
        let '(kp, b1) := Board.find_king b nxt in
        match kp with Some _ => (nxt, b1) | None => go rest b1 end
    end in
  go [1; 2; 3; 4] b.

(** ** The duel transition (lines 12701-13414) *)

#[global] Program Instance PColor_countable : Countable PColor :=
  inj_countable' (fun c => Z.to_nat (PColor_value c))
    (fun n => turn_order_at (Z.of_nat n)) _.
Next Obligation. by intros []. Qed.

(** [_resolve_duel_seats]: the remap dictionary and the two origins.  An
    Enum member is truthy, so [white_origin or PColor.WHITE] is
    [white_origin] whenever it was assigned. *)
Definition _resolve_duel_seats (color_a color_b : PColor)
    : gmap PColor PColor * PColor * PColor :=
  let finalists0 := color_a in
  let finalists1 := color_b in
  let pair := [color_a; color_b] in
  let '(white_origin, black_origin) :=
    if color_in WHITE pair then
      let other := if bool_decide (finalists1 = WHITE) then finalists0 else finalists1 in
      let other := if bool_decide (other = WHITE) then finalists0 else other in
      (WHITE, other)
    else if color_in BLACK pair then
      let other := if bool_decide (finalists1 = BLACK) then finalists0 else finalists1 in
      let other := if bool_decide (other = BLACK) then finalists0 else other in
      (other, BLACK)
    else if color_in GREY pair && color_in PINK pair then (PINK, GREY)
    else (finalists0, finalists1) in
  let remap : gmap PColor PColor := <[white_origin := WHITE]> ∅ in
  let remap := <[black_origin := BLACK]> remap in
  (remap, white_origin, black_origin).

Definition _alive_by_kings (b : Board.t) : list PColor * Board.t :=
  Board.alive_among b [WHITE; GREY; BLACK; PINK].

Definition _alive_effective (b : Board.t) (state : GameState.t)
    : list PColor * Board.t :=
  let '(alive, b1) := Board.alive_colors b in
  (List.filter (fun c => negb (bool_decide (Some c = GameState.elim_flash_color state)))
     alive, b1).

Definition _purge_outside_8x8 (b : Board.t) : Z * Board.t :=
  List.fold_left (fun '(removed, b) '(rr, cc) =>
      match Board.get b rr cc with
      | Some p =>
          if negb (_in8 rr cc) && negb (is_kind King p)
          then (removed + 1, Board.set b rr cc None) else (removed, b)
      | None => (removed, b)
      end) all_squares (0, b).

Definition DUEL_STRONG_TIME_BONUS_MS : Z := 2000.
Definition DUEL_STRONG_DEPTH_BONUS : Z := 1.
Definition DUEL_EVAL_STRONG_BIAS : Z := 30.
Definition DUEL_BASE_DEPTH : Z := 3.
Definition DUEL_MAX_DEPTH : Z := 6.
Definition MATE_SCORE : Z := 100000.

Definition DUEL_START_FEN : string :=
  "rnbqkbnr/pppppppp/8/8/8/8/PPPPPPPP/RNBQKBNR w KQkq - 0 1".

(** The two bonus dictionaries of [_enter_duel_kqbb] have the keys WHITE and
    BLACK only; their readers use [.get(color, 0)]. *)
Definition strong_bonus (strong : PColor) (v : Z) : PerSeat.t Z :=
  PerSeat.Build (if bool_decide (strong = WHITE) then v else 0) 0
                (if bool_decide (strong = BLACK) then v else 0) 0.

(** The board part of [_enter_duel_kqbb]: both clearing loops, then the
    thirty-two [put] calls. *)
Definition seed_duel_board (fresh : nat) (bd : Board.t) : Board.t :=
  let bd1 := List.fold_left (fun b '(rr, cc) => Board.set b rr cc None) arena_squares bd in
  let bd2 :=
    List.fold_left (fun b '(rr, cc) =>
        if negb (_in8 rr cc) then Board.set b rr cc None else b) all_squares bd1 in
  let put (b : Board.t) (rc : Square) (id : nat) (kind : Kind) (col : PColor) :=
    Board.set b (fst rc) (snd rc) (Some (Piece.new id kind col)) in
  let bd3 :=
    List.fold_left (fun b '(idx, kind) =>
        put b (CH_MAX, CH_MIN + idx) (fresh + Z.to_nat idx)%nat kind WHITE)
      (enumerate back_std) bd2 in
  let bd4 :=
    List.fold_left (fun b idx =>
        put b (CH_MAX - 1, CH_MIN + idx) (fresh + 8 + Z.to_nat idx)%nat Pawn WHITE)
      (zrange 0 8) bd3 in
  let bd5 :=
    List.fold_left (fun b '(idx, kind) =>
        put b (CH_MIN, CH_MIN + idx) (fresh + 16 + Z.to_nat idx)%nat kind BLACK)
      (enumerate back_std) bd4 in
  List.fold_left (fun b idx =>
      put b (CH_MIN + 1, CH_MIN + idx) (fresh + 24 + Z.to_nat idx)%nat Pawn BLACK)
    (zrange 0 8) bd5.

(** [_enter_duel_kqbb].  [_CHESS_OK] tells whether python-chess was
    imported, [strong] is the outcome of [random.choice([WHITE, BLACK])],
    [ticks] the reading of [pygame.time.get_ticks()] ([None] when pygame
    cannot be imported) and [fresh] the identity of the first new piece. *)
Definition _enter_duel_kqbb (_CHESS_OK : bool) (strong : PColor)
    (ticks : option Z) (fresh : nat) (bd : Board.t) (state : GameState.t)
    : Board.t * GameState.t :=
  let bd' := seed_duel_board fresh bd in
  let both (d : PerSeat.t bool) (v : bool) := PerSeat.set (PerSeat.set d WHITE v) BLACK v in
  let s := GameState.set_two_stage_active true state in
  let s := GameState.set_final_b (Some BLACK) (GameState.set_final_a (Some WHITE) s) in
  let s := GameState.set_turn_counter 0 s in
  let s := GameState.set__reset_moves_for_duel true s in
  let s := GameState.set_entered (both (GameState.entered s) true) s in
  let s := GameState.set_reduced_applied (both (GameState.reduced_applied s) true) s in
  let s := GameState.set_chess_lock true s in
  let s := GameState.set_grace_turns_remaining 0 (GameState.set_grace_active false s) in
  let s := GameState.set_player_is_ai (both (GameState.player_is_ai s) false) s in
  let s := GameState.set_waiting_ready false (GameState.set_hold_at_start false s) in
  let s := GameState.set_phase (Some "duel") (GameState.set_long_game_over true s) in
  let s := match GameState.turn_i s with
           | Some _ => GameState.set_turn_i (Some (turn_index WHITE)) s
           | None => s
           end in
  let s := GameState.set_half_moves 0 s in
  let s := GameState.set_chess_board
             (if _CHESS_OK then Some (ChessBoard.of_fen DUEL_START_FEN) else None) s in
  let s := GameState.set__duel_turn_reset true (GameState.set__duel_started true s) in
  let s := GameState.set_duel_strong_side (Some strong) s in
  let s := GameState.set_duel_depth_bonus (strong_bonus strong DUEL_STRONG_DEPTH_BONUS) s in
  let s := GameState.set_duel_time_bonus (strong_bonus strong DUEL_STRONG_TIME_BONUS_MS) s in
  let s := GameState.set_duel_eval_bias (strong_bonus strong DUEL_EVAL_STRONG_BIAS) s in
  let s := GameState.set_two_stage_pause true (GameState.set_freeze_advance true s) in
  let s := match ticks with
           | Some now => GameState.set__duel_delay_until (now + 1200) s
           | None => s
           end in
  (bd', s).

(** [_activate_two_player_if_needed] with [DUEL_TELEPORT_ON_TWO = True]; the
    legacy branch under [not DUEL_TELEPORT_ON_TWO] cannot run.  [ticks] is
    the first clock reading of the call and [later] the second one, taken
    in the branch that clears the board or seeds the duel.  With the flash
    started and [_flash_until] reset to [None] the comparison of the source
    raises; no caller leaves the state that way and the model returns. *)
Definition _activate_two_player_if_needed (_CHESS_OK : bool) (strong : PColor)
    (ticks later : option Z) (fresh : nat) (bd : Board.t) (state : GameState.t)
    : Board.t * GameState.t :=
  if GameState._tp_consolidated_done state then (snd (_purge_outside_8x8 bd), state)
  else
    let '(kings_alive, bd1) := _alive_by_kings bd in
    let '(ab, bd2) :=
      match kings_alive with
      | [a; b] => (Some (a, b), bd1)
      | _ =>
          let '(eff, bd2) := _alive_effective bd1 state in
          (match eff with [a; b] => Some (a, b) | _ => None end, bd2)
      end in
    let ab :=
      match ab with
      | Some _ => ab
      | None =>
          if GameState._finalists_prep_started state then
            match GameState._finalists_a state, GameState._finalists_b state with
            | Some a, Some b => Some (a, b)
            | _, _ => None
            end
          else None
      end in
    match ab with
    | None => (bd2, state)
    | Some (a, b) =>
        if negb (GameState._duel_started state) then
          let now_ticks := match ticks with Some n => n | None => 0 end in
          if negb (GameState._finalists_prep_started state) then
            let s := GameState.set__finalists_b (Some b)
                       (GameState.set__finalists_a (Some a) state) in
            let s := GameState.set_two_stage_pause true (GameState.set_freeze_advance true s) in
            let s := GameState.set_grace_turns_remaining 0 (GameState.set_grace_active false s) in
            let s := GameState.set__flash_until (Some (now_ticks + 3000)) s in
            (bd2, GameState.set__finalists_prep_started true s)
          else if match GameState._flash_until state with
                  | Some fu => fu <=? now_ticks
                  | None => false
                  end
          then
            if negb (GameState._duel_cleared_board state) then
              let bd3 :=
                List.fold_left (fun b '(rr, cc) =>
                    match Board.get b rr cc with
                    | Some _ => Board.set b rr cc None
                    | None => b
                    end) all_squares bd2 in
              let s := GameState.set__duel_cleared_board true state in
              let s := GameState.set__teleport_after
                         (match later with Some n => n | None => now_ticks end + 1000) s in
              (bd3, GameState.set_two_stage_pause true (GameState.set_freeze_advance true s))
            else if negb (GameState._teleport_after state =? 0)
                    && (now_ticks <? GameState._teleport_after state)
            then (bd2, GameState.set_two_stage_pause true
                         (GameState.set_freeze_advance true state))
            else
              let '(_, white_origin, black_origin) := _resolve_duel_seats a b in
              let s := GameState.set_duel_black_origin black_origin
                         (GameState.set_duel_white_origin white_origin state) in
              let '(bd3, s) := _enter_duel_kqbb _CHESS_OK strong later fresh bd2 s in
              let s := GameState.set__duel_turn_reset true
                         (GameState.set__tp_consolidated_done true s) in
              let s := GameState.set__finalists_prep_started false s in
              let s := GameState.set__flash_until None s in
              let s := GameState.set__teleport_after 0 s in
              (bd3, GameState.set__duel_cleared_board false s)
          else (bd2, state)
        else (bd2, state)
    end.

(** The turn part of [_prepare_forced_duel_reset] (line 6811), run by the
    main loop when [gs._duel_turn_reset] is set. *)
Definition _prepare_forced_duel_reset (b : Board.t) : TurnCursor * Board.t :=
  let '(turn_i, b1) := _advance_turn_index b (turn_index WHITE) in
  (MkCursor turn_i None, b1).

(** ** The duel-mode rules installed over the originals (lines 12495-13846)

    At import time the module rebinds [legal_moves_for_piece] and
    [board_do_move] to wrappers and keeps the originals as [_ORIG_LEGAL] and
    [_ORIG_DO].  Here the originals keep their names and the wrappers carry
    the suffix [_override].  With [simulate=True] the wrapper of
    [board_do_move] is [_ORIG_DO] itself, which is what the legality filter
    above calls. *)

(** The part of python-chess the engine consults about a board.  A piece
    is its upper-case symbol and its colour ([true] for White). *)
Record ChessLib := MkChessLib {
  cb_turn : ChessBoard.t -> bool;
  cb_legal_moves : ChessBoard.t -> list ChessBoard.EngineMove;
  cb_piece_map : ChessBoard.t -> list (Z * (Kind * bool));
  cb_piece_at : ChessBoard.t -> Z -> option (Kind * bool);
  cb_has_kingside_castling_rights : ChessBoard.t -> bool -> bool;
  cb_has_queenside_castling_rights : ChessBoard.t -> bool -> bool;
  cb_is_check : ChessBoard.t -> bool;
  cb_is_game_over : ChessBoard.t -> bool;
  cb_is_checkmate : ChessBoard.t -> bool;
  cb_is_stalemate : ChessBoard.t -> bool;
  cb_is_insufficient_material : ChessBoard.t -> bool;
  cb_can_claim_fifty_moves : ChessBoard.t -> bool;
  cb_can_claim_threefold_repetition : ChessBoard.t -> bool;
  cb_is_capture : ChessBoard.t -> ChessBoard.EngineMove -> bool;
  cb_is_en_passant : ChessBoard.t -> ChessBoard.EngineMove -> bool;
  cb_gives_check : ChessBoard.t -> ChessBoard.EngineMove -> bool;
  cb_is_castling : ChessBoard.t -> ChessBoard.EngineMove -> bool
}.

(** [chess.square(file, rank)], [chess.square_file], [chess.square_rank]. *)
Definition chess_square (file_idx rank_idx : Z) : Z := rank_idx * 8 + file_idx.
Definition chess_square_file (sq : Z) : Z := Z.land sq 7.
Definition chess_square_rank (sq : Z) : Z := Z.shiftr sq 3.

Definition _rc_to_sq (_CHESS_OK : bool) (r c : Z) : option Z :=
  if negb (in_chess_area r c) || negb _CHESS_OK then None
  else Some (chess_square (c - CH_MIN) (CH_MAX - r)).

Definition _sq_to_rc (_CHESS_OK : bool) (sq : Z) : option Square :=
  if negb _CHESS_OK then None
  else Some (CH_MAX - chess_square_rank sq, CH_MIN + chess_square_file sq).

Section DuelRules.

Variable sha1_key : string -> Z.
Variable _CHESS_OK : bool.
Variable lib : ChessLib.

(** [any own piece outside the 8x8] *)
Definition has_outside (b : Board.t) (color : PColor) : bool :=
  List.existsb (fun '(rr, cc) =>
      match Board.get b rr cc with
      | Some q => is_color color q && negb (_in8 rr cc)
      | None => false
      end) all_squares.

(** The wrapper of line 13448 ([ENABLE_MIGRATION = False]).  It raises when
    the engine branch reads [p.color] on an empty square. *)
Definition legal_moves_for_piece_override (gs : option GameState.t)
    (b : Board.t) (r c : Z) (active_color : option PColor)
    : (PyError + list Move4) * Board.t :=
  let p := Board.get b r c in
  match (match active_color with
         | Some col => Some col
         | None => match p with Some pc => Some (Piece.color pc) | None => None end
         end) with
  | None => (inr [], b)
  | Some active_color =>
      match (if _CHESS_OK then
               match gs with
               | Some g => if GameState.chess_lock g then GameState.chess_board g else None
               | None => None
               end
             else None) with
      | Some CB =>
          if match p with
             | Some pc => negb (is_kind King pc) && has_outside b active_color
             | None => false
             end
          then (inr [], b)
          else
            match _rc_to_sq _CHESS_OK r c with
            | None =>
                (* a king outside the 8x8: the list comprehension unpacks the
                   4-tuples of the original filter as pairs, so the branch
                   yields nothing whatever the original returned *)
                match p with
                | Some pc =>
                    if is_kind King pc && negb (_in8 r c)
                    then (inr [], snd (legal_moves_for_piece sha1_key gs b r c))
                    else (inr [], b)
                | None => (inr [], b)
                end
            | Some sq_from =>
                match p with
                | None => (inl AttributeError, b)
                | Some pc =>
                    if negb (Bool.eqb (is_color WHITE pc) (cb_turn lib CB))
                    then (inr [], b)
                    else
                      (inr (List.flat_map (fun mv =>
                              if bool_decide (ChessBoard.from_square mv = sq_from) then
                                match _sq_to_rc _CHESS_OK (ChessBoard.to_square mv) with
                                | Some (er, ec) => [(r, c, er, ec)]
                                | None => []
                                end
                              else []) (cb_legal_moves lib CB)), b)
                end
            end
      | None =>
          let '(base, b') := legal_moves_for_piece sha1_key gs b r c in
          (inr base, b')
      end
  end.

(** [all_legal_moves_for_color] (line 2256); the name
    [legal_moves_for_piece] it calls is bound to the wrapper, which is
    asked about occupied squares only and so does not raise here. *)
Definition all_legal_moves_for_color (gs : option GameState.t) (b : Board.t)
    (color : PColor) : list Move4 * Board.t :=
  List.fold_left (fun '(moves, b) '(r, c) =>
      match Board.get b r c with
      | Some p =>
          if is_color color p then
            match legal_moves_for_piece_override gs b r c (Some color) with
            | (inr plist, b') => (moves ++ plist, b')
            | (inl _, b') => (moves, b')
            end
          else (moves, b)
      | None => (moves, b)
      end) all_squares ([], b).

End DuelRules.

(** [Board()] builds twelve rows of twelve cells and nothing changes the
    shape afterwards. *)
Definition wf_grid (g : Board.Grid) : Prop :=
  length g = 12%nat /\ Forall (fun row => length row = 12%nat) g.


(** ** Positions used in the examples *)

(** The board of the test helper [_empty_board()]: a [Board()] whose cells
    were all cleared through [set]. *)
Definition Board_empty : Board.t := Board.Build empty_grid (PerSeat.all None).

(** [b.set(r, c, p)] for each entry of the list. *)
Definition place_all (l : list (Z * Z * Piece.t)) (b : Board.t) : Board.t :=
  List.fold_left (fun b '(r, c, p) => Board.set b r c (Some p)) l b.

(** A hash for the examples in which no position key is computed. *)
Definition no_key (_ : string) : Z := 0.

(** The game right after the duel was seeded on a host without
    python-chess: standard position, [chess_lock] set, no engine board. *)
Definition duel_start : Board.t * GameState.t :=
  _enter_duel_kqbb false WHITE None 64 (Board_init 0) GameState.init.

(** A duel position: White king e1 at (9,6), checked along the file by the
    Black rook at (5,6). *)
Definition duel_check_position : Board.t :=
  place_all [(9, 6, Piece.Build 0 King WHITE true);
             (2, 6, Piece.Build 1 King BLACK true);
             (5, 6, Piece.Build 2 Rook BLACK true)] Board_empty.

(** Survival phase, White has just moved its queen to (5,5): it checks the
    Grey king along row 5 and the Black king along column 5. *)
Definition double_check_position : Board.t :=
  place_all [(11, 6, Piece.new 0 King WHITE);
             (5, 0, Piece.Build 1 King GREY true);
             (0, 5, Piece.Build 2 King BLACK true);
             (6, 11, Piece.new 3 King PINK);
             (5, 5, Piece.Build 4 Queen WHITE true)] Board_empty.

(** The position of [test_king_corner_immunity] (tools/auto_exercise.py). *)
Definition corner_test_position : Board.t :=
  place_all [(10, 1, Piece.new 0 King WHITE);
             (6, 6, Piece.new 1 Bishop WHITE);
             (7, 7, Piece.new 2 Bishop WHITE);
             (11, 5, Piece.new 3 Rook BLACK)] Board_empty.

(** Four seats alive; the White king is about to step from (10,2) into its
    home corner while both White bishops are on the board. *)
Definition corner_entry_position : Board.t :=
  place_all [(10, 2, Piece.new 0 King WHITE);
             (6, 6, Piece.new 1 Bishop WHITE);
             (7, 7, Piece.new 2 Bishop WHITE);
             (0, 6, Piece.new 3 King BLACK);
             (6, 0, Piece.new 4 King GREY);
             (6, 11, Piece.new 5 King PINK)] Board_empty.

(** The White king sits in its home corner at (11,1) with three White
    queens on the board; the Black rook at (5,5) can reach (11,5). *)
Definition sanctuary_position : Board.t :=
  place_all [(11, 1, Piece.Build 0 King WHITE true);
             (4, 8, Piece.Build 1 Queen WHITE true);
             (7, 7, Piece.Build 2 Queen WHITE true);
             (8, 3, Piece.Build 3 Queen WHITE true);
             (0, 6, Piece.new 4 King BLACK);
             (5, 5, Piece.Build 5 Rook BLACK true);
             (6, 0, Piece.new 6 King GREY);
             (6, 11, Piece.new 7 King PINK)] Board_empty.

(** A White pawn on column 10, one step below row [CH_MIN]. *)
Definition flank_pawn_position : Board.t :=
  place_all [(3, 10, Piece.Build 0 Pawn WHITE true);
             (11, 6, Piece.new 1 King WHITE);
             (0, 6, Piece.new 2 King BLACK);
             (6, 0, Piece.new 3 King GREY)] Board_empty.


(** The board left by [activate_two_stage_if_needed]: it depends on the
    state only through [two_stage_active]. *)
Definition activate_board (b : Board.t) (active : bool) : Board.t :=
  let '(alive, b1) := Board.alive_colors b in
  match alive with
  | [_; _] => if active then b1 else purge_outside b1
  | _ => b1
  end.


(** [gs.pos_counts.get(key, 0)] *)
Definition pos_count (g : GameState.t) (key : Z) : Z :=
  match GameState.pos_counts g !! key with Some n => n | None => 0 end.

(** Every position counted three times or more has raised the draw flag. *)
Definition repetition_flagged (g : GameState.t) : Prop :=
  forall key n, GameState.pos_counts g !! key = Some n -> 3 <= n ->
                GameState._draw_by_repetition g = true.

(** ** The string of the position key, part by part *)

(** What a cell shows of its piece: kind, seat and has-moved flag. *)
Definition piece_view (p : Piece.t) : Kind * PColor * bool :=
  (Piece.kind p, Piece.color p, Piece.has_moved p).

(** The entry of an occupied square in the string [_position_key] hashes,
    and the part of that string on the state. *)
Definition cell_string (r c : Z) (p : Piece.t) : string :=
  pretty r +:+ "," +:+ pretty c +:+ "," +:+ kind_letter (Piece.kind p)
  +:+ "," +:+ pretty (PColor_value (Piece.color p)) +:+ ","
  +:+ (if Piece.has_moved p then "1" else "0") +:+ ";".

Definition state_string (g : GameState.t) : string :=
  "two_stage:" +:+ (if GameState.two_stage_active g then "1" else "0") +:+ ";"
  +:+ "pawn_dir:"
  +:+ String.concat ","
        (List.map (fun col => pretty (PerSeat.get (GameState.pawn_dir g) col))
           TURN_ORDER) +:+ ";"
  +:+ "turnpar:" +:+ pretty (GameState.turn_counter g mod 2) +:+ ";".

Definition cell_strings (b : Board.t) (l : list Square) : list string :=
  List.flat_map (fun '(r, c) =>
      match Board.get b r c with
      | Some p => [cell_string r c p]
      | None => []
      end) l.

(** The characters [str(n)] writes for an integer [n]. *)
Definition numeric (a : ascii) : Prop :=
  In a (String.list_ascii_of_string "-0123456789").

(** What [_position_key] reads of a position: the piece on every square
    (kind, seat and has-moved flag), the two-stage flag, the pawn direction
    of the four seats and the parity of the turn counter. *)
Definition same_position (g1 : GameState.t) (b1 : Board.t)
    (g2 : GameState.t) (b2 : Board.t) : Prop :=
  (forall r c, option_map piece_view (Board.get b1 r c)
               = option_map piece_view (Board.get b2 r c)) /\
  GameState.two_stage_active g1 = GameState.two_stage_active g2 /\
  (forall col, PerSeat.get (GameState.pawn_dir g1) col
               = PerSeat.get (GameState.pawn_dir g2) col) /\
  GameState.turn_counter g1 mod 2 = GameState.turn_counter g2 mod 2.

(** A hash without collisions, for the examples: the string read as a
    number in base 256, lowest digit first, closed by a 1. *)
Fixpoint string_code (s : string) : Z :=
  match s with
  | EmptyString => 1
  | String a t => Z.of_N (N_of_ascii a) + 256 * string_code t
  end.

(** ** The standard chess position, as the duel claim states it *)

Definition grid_view (g : Board.Grid) : list (list (option (Kind * PColor * bool))) :=
  List.map (List.map (option_map piece_view)) g.

(** Rows 2 and 3 hold Black's back rank and pawns, rows 8 and 9 White's
    pawns and back rank, all on columns 2 to 9 and all unmoved; the other
    cells are empty. *)
Definition standard_chess_position : list (list (option (Kind * PColor * bool))) :=
  let margin := [None; None] in
  let empty_row := replicate 12 None in
  let back col := margin ++ List.map (fun k => Some (k, col, false)) back_std ++ margin in
  let pawns col := margin ++ replicate 8 (Some (Pawn, col, false)) ++ margin in
  [empty_row; empty_row; back BLACK; pawns BLACK;
   empty_row; empty_row; empty_row; empty_row;
   pawns WHITE; back WHITE; empty_row; empty_row].

(** [len([p for row in grid for p in row if p])] *)
Definition piece_count (g : Board.Grid) : nat :=
  length (List.filter is_Some_b (List.concat g)).

(** The space-separated fields of a FEN record. *)
Fixpoint fen_fields (s cur : string) : list string :=
  match s with
  | EmptyString => [cur]
  | String a s' =>
      if Ascii.eqb a " "%char then cur :: fen_fields s' ""
      else fen_fields s' (cur +:+ String a EmptyString)
  end.


(** ** Sorting as [list.sort(key=..., reverse=True)] does

    The sort is stable, also when reversed: elements with equal keys keep
    their order. *)
Section StableSort.
Context {A K : Type} (key_lt : K -> K -> bool).

(** [x] goes before the first element whose key is smaller. *)
Fixpoint insert_desc (x : K * A) (l : list (K * A)) : list (K * A) :=
  match l with
  | [] => [x]
  | y :: l' => if key_lt (fst y) (fst x) then x :: l else y :: insert_desc x l'
  end.

Definition sort_desc (l : list (K * A)) : list (K * A) :=
  List.fold_left (fun acc x => insert_desc x acc) l [].
End StableSort.

(** ** The duel search (lines 2340-2694) *)

Definition _DUEL_PAWN_TABLE : list Z :=
  [0; 0; 0; 0; 0; 0; 0; 0;
   50; 50; 50; 50; 50; 50; 50; 50;
   10; 10; 20; 30; 30; 20; 10; 10;
   5; 5; 10; 25; 25; 10; 5; 5;
   0; 0; 0; 20; 20; 0; 0; 0;
   5; (-5); (-10); 0; 0; (-10); (-5); 5;
   5; 10; 10; (-20); (-20); 10; 10; 5;
   0; 0; 0; 0; 0; 0; 0; 0].

Definition _DUEL_KNIGHT_TABLE : list Z :=
  [(-50); (-40); (-30); (-30); (-30); (-30); (-40); (-50);
   (-40); (-20); 0; 5; 5; 0; (-20); (-40);
   (-30); 5; 10; 15; 15; 10; 5; (-30);
   (-30); 0; 15; 20; 20; 15; 0; (-30);
   (-30); 5; 15; 20; 20; 15; 5; (-30);
   (-30); 0; 10; 15; 15; 10; 0; (-30);
   (-40); (-20); 0; 0; 0; 0; (-20); (-40);
   (-50); (-40); (-30); (-30); (-30); (-30); (-40); (-50)].

Definition _DUEL_BISHOP_TABLE : list Z :=
  [(-20); (-10); (-10); (-10); (-10); (-10); (-10); (-20);
   (-10); 5; 0; 0; 0; 0; 5; (-10);
   (-10); 10; 10; 10; 10; 10; 10; (-10);
   (-10); 0; 10; 10; 10; 10; 0; (-10);
   (-10); 5; 5; 10; 10; 5; 5; (-10);
   (-10); 0; 5; 10; 10; 5; 0; (-10);
   (-10); 0; 0; 0; 0; 0; 0; (-10);
   (-20); (-10); (-10); (-10); (-10); (-10); (-10); (-20)].

Definition _DUEL_ROOK_TABLE : list Z :=
  [0; 0; 0; 5; 5; 0; 0; 0;
   (-5); 0; 0; 0; 0; 0; 0; (-5);
   (-5); 0; 0; 0; 0; 0; 0; (-5);
   (-5); 0; 0; 0; 0; 0; 0; (-5);
   (-5); 0; 0; 0; 0; 0; 0; (-5);
   (-5); 0; 0; 0; 0; 0; 0; (-5);
   5; 10; 10; 10; 10; 10; 10; 5;
   0; 0; 0; 0; 0; 0; 0; 0].

Definition _DUEL_QUEEN_TABLE : list Z :=
  [(-20); (-10); (-10); (-5); (-5); (-10); (-10); (-20);
   (-10); 0; 0; 0; 0; 0; 0; (-10);
   (-10); 0; 5; 5; 5; 5; 0; (-10);
   (-5); 0; 5; 5; 5; 5; 0; (-5);
   0; 0; 5; 5; 5; 5; 0; (-5);
   (-10); 5; 5; 5; 5; 5; 0; (-10);
   (-10); 0; 5; 0; 0; 0; 0; (-10);
   (-20); (-10); (-10); (-5); (-5); (-10); (-10); (-20)].

Definition _DUEL_KING_TABLE : list Z :=
  [(-30); (-40); (-40); (-50); (-50); (-40); (-40); (-30);
   (-30); (-40); (-40); (-50); (-50); (-40); (-40); (-30);
   (-30); (-40); (-40); (-50); (-50); (-40); (-40); (-30);
   (-30); (-40); (-40); (-50); (-50); (-40); (-40); (-30);
   (-20); (-30); (-30); (-40); (-40); (-30); (-30); (-20);
   (-10); (-20); (-20); (-20); (-20); (-20); (-20); (-10);
   20; 20; 0; 0; 0; 0; 20; 20;
   20; 30; 10; 0; 0; 10; 30; 20].

Definition DUEL_PIECE_VALUES (symbol : Kind) : Z :=
  match symbol with
  | Pawn => 100 | Knight => 320 | Bishop => 330
  | Rook => 500 | Queen => 900 | King => 0
  end.

Definition DUEL_PST (symbol : Kind) : list Z :=
  match symbol with
  | Pawn => _DUEL_PAWN_TABLE | Knight => _DUEL_KNIGHT_TABLE
  | Bishop => _DUEL_BISHOP_TABLE | Rook => _DUEL_ROOK_TABLE
  | Queen => _DUEL_QUEEN_TABLE | King => _DUEL_KING_TABLE
  end.

Definition DUEL_CHECK_BONUS : Z := 45.
Definition DUEL_MOBILITY_WEIGHT : Z := 4.

Definition _mirror_square_index (sq : Z) : Z := Z.lxor sq 56.

(** The outcome of a search that [_DuelSearchTimeout] may interrupt. *)
Inductive Search (A : Type) := Timeout | Finished (x : A).
Arguments Timeout {A}.
Arguments Finished {A}.

Section DuelSearch.

Variable _CHESS_OK : bool.
Variable lib : ChessLib.

(** [_duel_evaluate_board]; python-chess is importable whenever the search
    runs. *)
Definition _duel_evaluate_board (cb : ChessBoard.t) (root_white : bool)
    (eval_bias : Z) : Z :=
  let material :=
    List.fold_left (fun (score : Z) '((sq, (symbol, white)) : Z * (Kind * bool)) =>
        let idx := if white then sq else _mirror_square_index sq in
        let base := DUEL_PIECE_VALUES symbol
                    + List.nth (Z.to_nat idx) (DUEL_PST symbol) 0 in
        if white then score + base else score - base)
      (cb_piece_map lib cb) 0 in
  let mobility := DUEL_MOBILITY_WEIGHT * Z.of_nat (length (cb_legal_moves lib cb)) in
  let score := material + (if cb_turn lib cb then mobility else - mobility) in
  let score :=
    if cb_has_kingside_castling_rights lib cb true
       || cb_has_queenside_castling_rights lib cb true
    then score + 25 else score in
  let score :=
    if cb_has_kingside_castling_rights lib cb false
       || cb_has_queenside_castling_rights lib cb false
    then score - 25 else score in
  let score :=
    if cb_is_check lib cb
    then score + (if cb_turn lib cb then - DUEL_CHECK_BONUS else DUEL_CHECK_BONUS)
    else score in
  (if root_white then score else - score) + eval_bias.

(** The score [_duel_order_moves] gives a move.  A legal move starts from
    an occupied square; for an empty one the source would raise. *)
Definition duel_move_score (cb : ChessBoard.t) (pv_move : option ChessBoard.EngineMove)
    (mv : ChessBoard.EngineMove) : Z :=
  let s0 := if bool_decide (pv_move = Some mv) then 10000 else 0 in
  let s1 :=
    if cb_is_capture lib cb mv then
      let captured := cb_piece_at lib cb (ChessBoard.to_square mv) in
      let captured_value :=
        match captured with
        | None => if cb_is_en_passant lib cb mv then DUEL_PIECE_VALUES Pawn else 0
        | Some (symbol, _) => DUEL_PIECE_VALUES symbol
        end in
      let attacker :=
        match cb_piece_at lib cb (ChessBoard.from_square mv) with
        | Some (symbol, _) => DUEL_PIECE_VALUES symbol
        | None => 0
        end in
      s0 + (500 + captured_value - attacker)
    else s0 in
  let s2 :=
    match ChessBoard.promotion mv with
    | Some promo => s1 + (800 + DUEL_PIECE_VALUES promo)
    | None => s1
    end in
  let s3 := if cb_gives_check lib cb mv then s2 + 80 else s2 in
  if cb_is_castling lib cb mv then s3 + 60 else s3.

Definition _duel_order_moves (cb : ChessBoard.t) (moves : list ChessBoard.EngineMove)
    (pv_move : option ChessBoard.EngineMove) : list ChessBoard.EngineMove :=
  List.map snd
    (sort_desc Z.ltb (List.map (fun mv => (duel_move_score cb pv_move mv, mv)) moves)).

(** The [for idx, mv in enumerate(ordered)] loop of [negamax]; [search] is
    the recursive call [negamax(depth - 1, ...)] on the shared board. *)
Fixpoint negamax_loop
    (search : ChessBoard.t -> Z -> Z -> option ChessBoard.EngineMove -> nat ->
              Search (Z * option ChessBoard.EngineMove) * ChessBoard.t * nat)
    (beta : Z) (l : list ChessBoard.EngineMove) (idx : Z)
    (cb : ChessBoard.t) (alpha value : Z)
    (best : option ChessBoard.EngineMove) (polls : nat)
    : Search (Z * option ChessBoard.EngineMove) * ChessBoard.t * nat :=
  match l with
  | [] => (Finished (value, best), cb, polls)
  | mv :: rest =>
      match search (ChessBoard.push cb mv) (- beta) (- alpha)
              (if idx =? 0 then Some mv else None) polls with
      | (Timeout, cb', polls') => (Timeout, ChessBoard.pop cb', polls')
      | (Finished (child_value, _), cb', polls') =>
          let child_value := - child_value in
          let cb'' := ChessBoard.pop cb' in
          let '(value, best) :=
            if child_value >? value then (child_value, Some mv)
            else (value, best) in
          let alpha := Z.max alpha value in
          if alpha >=? beta then (Finished (value, best), cb'', polls')
          else negamax_loop search beta rest (idx + 1) cb'' alpha value best polls'
      end
  end.

(** The nested [negamax] of [choose_duel_move].  [cb] is the board the
    closure shares: it is pushed on and popped from, so it is returned.
    [timeup k] is the outcome of the [k]-th comparison of
    [time.perf_counter()] with the deadline. *)
Fixpoint negamax (timeup : nat -> bool) (root_white : bool) (eval_bias : Z)
    (depth : nat) (cb : ChessBoard.t) (alpha beta : Z)
    (pv_hint : option ChessBoard.EngineMove) (polls : nat)
    : Search (Z * option ChessBoard.EngineMove) * ChessBoard.t * nat :=
  if timeup polls then (Timeout, cb, S polls)
  else
    let polls := S polls in
    if cb_is_checkmate lib cb
    then (Finished (- MATE_SCORE + Z.of_nat depth, None), cb, polls)
    else if cb_is_stalemate lib cb || cb_is_insufficient_material lib cb
            || cb_can_claim_fifty_moves lib cb
            || cb_can_claim_threefold_repetition lib cb
    then (Finished (0, None), cb, polls)
    else
      match depth with
      | O => (Finished (_duel_evaluate_board cb root_white eval_bias, None), cb, polls)
      | S depth' =>
          match cb_legal_moves lib cb with
          | [] => (Finished (_duel_evaluate_board cb root_white eval_bias, None), cb, polls)
          | legal =>
              negamax_loop
                (fun cb a b pv k => negamax timeup root_white eval_bias depth' cb a b pv k)
                beta (_duel_order_moves cb legal pv_hint) 0 cb alpha
                (- MATE_SCORE) None polls
          end
      end.

(** [random.choice(seq)] for the outcome [pick] of the generator. *)
Definition random_choice {A} (pick : nat) (l : list A) : option A :=
  List.nth_error l (pick mod length l)%nat.

(** The iterative deepening of [choose_duel_move]:
    [for depth in range(1, max_depth + 1)]. *)
Fixpoint deepen (timeup : nat -> bool) (root_white : bool) (eval_bias : Z)
    (depths : list nat) (cb : ChessBoard.t)
    (best_move pv_move : option ChessBoard.EngineMove) (polls : nat)
    : option ChessBoard.EngineMove * ChessBoard.t :=
  match depths with
  | [] => (best_move, cb)
  | depth :: rest =>
      match negamax timeup root_white eval_bias depth cb (- MATE_SCORE) MATE_SCORE
              pv_move polls with
      | (Timeout, cb', _) => (best_move, cb')
      | (Finished (_, Some move), cb', polls') =>
          deepen timeup root_white eval_bias rest cb' (Some move) (Some move) polls'
      | (Finished (_, None), cb', polls') =>
          deepen timeup root_white eval_bias rest cb' best_move pv_move polls'
      end
  end.

Definition engine_move_to_rc (mv : ChessBoard.EngineMove) : option Move4 :=
  match _sq_to_rc _CHESS_OK (ChessBoard.from_square mv),
        _sq_to_rc _CHESS_OK (ChessBoard.to_square mv) with
  | Some (sr, sc), Some (er, ec) => Some (sr, sc, er, ec)
  | _, _ => None
  end.

(** [choose_duel_move(board, color, base_time_ms)].  [timeup budget] is the
    behaviour of the clock against a deadline [budget] milliseconds away
    and [pick] the outcome of the random generator.  [board] is not read. *)
Definition choose_duel_move (gs : option GameState.t) (board : Board.t)
    (color : PColor) (base_time_ms : Z) (timeup : Z -> nat -> bool) (pick : nat)
    : option Move4 :=
  if negb _CHESS_OK then None
  else
    match gs with
    | None => None
    | Some g =>
        if negb (GameState.chess_lock g) then None
        else
          match GameState.chess_board g with
          | None => None
          | Some cb0 =>
              let cb := ChessBoard.copy_nostack cb0 in
              let root_white := bool_decide (color = WHITE) in
              let depth_bonus := PerSeat.get (GameState.duel_depth_bonus g) color in
              let time_bonus := PerSeat.get (GameState.duel_time_bonus g) color in
              let eval_bias := PerSeat.get (GameState.duel_eval_bias g) color in
              let max_depth :=
                Z.min DUEL_MAX_DEPTH (DUEL_BASE_DEPTH + Z.max 0 depth_bonus) in
              let time_budget_ms := Z.max 400 (base_time_ms + Z.max 0 time_bonus) in
              if cb_is_game_over lib cb then
                match random_choice pick (cb_legal_moves lib cb) with
                | Some mv => engine_move_to_rc mv
                | None => None
                end
              else
                let '(best_move, cb') :=
                  deepen (timeup time_budget_ms) root_white eval_bias
                    (List.seq 1 (Z.to_nat max_depth)) cb None None 0 in
                match best_move with
                | Some mv => engine_move_to_rc mv
                | None =>
                    match random_choice pick (cb_legal_moves lib cb') with
                    | Some mv => engine_move_to_rc mv
                    | None => None
                    end
                end
          end
    end.

End DuelSearch.

(** ** The fast policy (lines 2296-2324, 2696-2804, 3009-3361)

    Python floats are IEEE 754 doubles, here the primitive [float].
    [float(n)] rounds an integer to the nearest double and [int(x)]
    truncates toward zero. *)

Definition float_of_Z (z : Z) : float :=
  SF2Prim (binary_normalize prec emax z 0 false).

Definition int_of_float (x : float) : Z :=
  match Prim2SF x with
  | S754_finite s m e =>
      let v := if 0 <=? e then Z.pos m * 2 ^ e else Z.pos m / 2 ^ (- e) in
      if s then - v else v
  | _ => 0
  end.

(** [score += n] and [score -= n] for a float [score] and an integer [n]. *)
Definition fadd_int (score : float) (n : Z) : float :=
  PrimFloat.add score (float_of_Z n).
Definition fsub_int (score : float) (n : Z) : float :=
  PrimFloat.sub score (float_of_Z n).

Definition FAST_AI_BUDGET_MS : Z := 250.

(** [net_hanging_penalty] (line 2296) *)
Definition net_hanging_penalty (gs : option GameState.t) (b : Board.t)
    (mover_after : option Piece.t) (to_r to_c : Z) : Z * Board.t :=
  match mover_after with
  | None => (0, b)
  | Some p =>
      let me := Piece.color p in
      let '(others, b1) := others_alive b me TURN_ORDER in
      if negb (square_attacked_by_colors gs b1 to_r to_c others) then (0, b1)
      else
        let base := piece_value (Piece.kind p) in
        let base := if is_kind Queen p then base * 2 else base in
        let base := if is_kind King p then base * 3 else base in
        (- (6 + base), b1)
  end.

(** [eval_board] (line 2696); its score stays an integer. *)
Definition eval_board (gs : option GameState.t) (b : Board.t) (me : PColor)
    (two_stage : bool) : Z * Board.t :=
  let score :=
    List.fold_left (fun score '(r, c) =>
        match Board.get b r c with
        | None => score
        | Some p =>
            let val := PIECE_VALUES (Piece.kind p) in
            let score :=
              score + (if is_color me p then val
                       else - int_of_float (PrimFloat.mul (float_of_Z val) 0.3)) in
            if two_stage && is_color me p
            then score + (if in_chess_area r c then 2 else -2)
            else score
        end) all_squares 0 in
  let central :=
    List.fold_left (fun central '(r, c) =>
        match Board.get b r c with
        | Some p =>
            central + (if two_stage then 2 else 1) * (if is_color me p then 1 else -1)
        | None => central
        end) arena_squares 0 in
  let score := score + central in
  let '(chk, b1) := king_in_check gs b me in
  let score := if chk then score - 3 else score in
  let chess_locked := gs_chess_lock gs in
  let white_boost :=
    match gs with Some g => GameState.white_duel_boost g | None => false end in
  if two_stage && chess_locked then
    let opp := if bool_decide (me = WHITE) then BLACK else WHITE in
    let '(kp, b2) := Board.find_king b1 opp in
    match kp with
    | None => (score, b2)
    | Some (kr, kc) =>
        let ring :=
          List.fold_left (fun ring '(dr, dc) =>
              let rr := kr + dr in let cc := kc + dc in
              if Board.in_bounds rr cc && square_attacked_by_colors gs b2 rr cc [me]
              then ring + 1 else ring) KING_STEPS 0 in
        let '(atk_w, ring_w) :=
          if white_boost && bool_decide (me = WHITE) then (8, 4) else (4, 2) in
        let '(chk_opp, b3) := king_in_check gs b2 opp in
        let score := if chk_opp then score + atk_w else score in
        (score + ring * ring_w, b3)
    end
  else (score, b1).

(** [_approach_terms] (line 3009) *)
Definition _approach_terms (b : Board.t) (sr sc er ec : Z) : Z * Z :=
  let is_king :=
    match Board.get b sr sc with Some m => is_kind King m | None => false end in
  let start_d := dist_to_chess sr sc in
  let end_d := dist_to_chess er ec in
  let improve := start_d - end_d in
  let kfactor := if is_king then 3 else 1 in
  (kfactor * improve, - (if is_king then 3 else 1) * (if end_d >? 0 then 1 else 0)).

(** [[c for c in TURN_ORDER if c not in (color, target_left) and
      board.find_king(c) is not None]] *)
Fixpoint alive_except (b : Board.t) (excluded cols : list PColor)
    : list PColor * Board.t :=
  match cols with
  | [] => ([], b)
  | col :: rest =>
      if color_in col excluded then alive_except b excluded rest
      else
        let '(kp, b1) := Board.find_king b col in
        let '(l, b2) := alive_except b1 excluded rest in
        (match kp with Some _ => col :: l | None => l end, b2)
  end.

(** [for oc in others: if king_in_check(board, oc): score -= 4; break] *)
Fixpoint any_in_check (gs : option GameState.t) (b : Board.t) (cols : list PColor)
    : bool * Board.t :=
  match cols with
  | [] => (false, b)
  | oc :: rest =>
      let '(chk, b1) := king_in_check gs b oc in
      if chk then (true, b1) else any_in_check gs b1 rest
  end.

(** The callback [grace_block_fn(m, opponent)]; it is handed the board of
    the caller. *)
Definition GraceBlock : Type := Move4 -> option PColor -> Board.t -> bool * Board.t.

(** [[m for m in legal if not grace_block_fn(m, opponent)]] *)
Fixpoint grace_filter (f : GraceBlock) (opponent : option PColor)
    (legal : list Move4) (b : Board.t) : list Move4 * Board.t :=
  match legal with
  | [] => ([], b)
  | m :: rest =>
      let '(blocked, b1) := f m opponent b in
      let '(out, b2) := grace_filter f opponent rest b1 in
      (if blocked then out else m :: out, b2)
  end.

(** Tuples of integers compare lexicographically. *)
Definition key_lt (k1 k2 : Z * Z * Z) : bool :=
  let '(a1, b1, c1) := k1 in
  let '(a2, b2, c2) := k2 in
  (a1 <? a2) || ((a1 =? a2) && ((b1 <? b2) || ((b1 =? b2) && (c1 <? c2)))).

(** Does the entry of [gs.recent_moves] go from [(r1, c1)] to [(r2, c2)]? *)
Definition goes (e : RecentMove) (r1 c1 r2 c2 : Z) : bool :=
  let '(_, a, b, c, d) := e in (a =? r1) && (b =? c1) && (c =? r2) && (d =? c2).

Section FastPolicy.

Variable sha1_key : string -> Z.
Variable _CHESS_OK : bool.
Variable lib : ChessLib.

(** The readings of [pygame.time.get_ticks()] during one call, in order,
    and the outcomes of [random.random()], one for each scored move. *)
Variable get_ticks : nat -> Z.
Variable random : nat -> float.

(** The nested [move_order_key] (line 3077). *)
Definition move_order_key (gs : option GameState.t) (color : PColor)
    (two_stage : bool) (b : Board.t) (m : Move4) : (Z * Z * Z) * Board.t :=
  let '(sr, sc, er, ec) := m in
  let capv :=
    match Board.get b er ec with
    | Some tgt => if negb (is_color color tgt) then PIECE_VALUES (Piece.kind tgt) else 0
    | None => 0
    end in
  let '(app, pen) := if two_stage then _approach_terms b sr sc er ec else (0, 0) in
  match Board.get b sr sc with
  | None => ((capv, app, 0), b)
  | Some _ =>
      match board_do_move sha1_key gs b sr sc er ec true with
      | (inr mr, b1, _) =>
          let '(cheap_mob, b2) :=
            match Board.get b1 er ec with
            | Some _ =>
                let '(l, b2) := gen_moves gs b1 er ec in (Z.of_nat (length l), b2)
            | None => (0, b1)
            end in
          ((capv, app, cheap_mob), board_undo_move b2 sr sc er ec mr)
      | (inl _, b1, _) => ((capv, app, 0), b1)
      end
  end.

(** The keys [legal.sort(key=move_order_key, ...)] computes, in list order. *)
Fixpoint keyed_moves (gs : option GameState.t) (color : PColor) (two_stage : bool)
    (legal : list Move4) (b : Board.t) : list ((Z * Z * Z) * Move4) * Board.t :=
  match legal with
  | [] => ([], b)
  | m :: rest =>
      let '(k, b1) := move_order_key gs color two_stage b m in
      let '(out, b2) := keyed_moves gs color two_stage rest b1 in
      ((k, m) :: out, b2)
  end.

(** The score of a candidate on the board on which it has been played
    (lines 3157-3351); [cap] is the captured piece and [rnd] the outcome of
    [random.random()]. *)
Definition score_after (gs : option GameState.t) (color : PColor) (two_stage : bool)
    (target_left : option PColor) (rnd : float) (b : Board.t) (m : Move4)
    (cap : option Piece.t) : float * Board.t :=
  let '(sr, sc, er, ec) := m in
  let '(score, b) := eval_board gs b color two_stage in
  let moved := Board.get b er ec in
  let score :=
    match moved with
    | Some p =>
        if two_stage then
          let score :=
            if is_kind Bishop p && negb (Piece.has_moved p) then score + 6 else score in
          if is_kind Pawn p && negb (Piece.has_moved p) then score + 2 else score
        else score
    | None => score
    end in
  let score :=
    match cap with
    | Some cp =>
        if negb (is_color color cp) then
          let cap_val := PIECE_VALUES (Piece.kind cp) in
          if negb two_stage && bool_decide (target_left = Some (Piece.color cp))
          then score + cap_val * 10
          else score + cap_val * 8
        else score
    | None => score
    end in
  let '(score, b) :=
    match target_left with
    | Some tl =>
        if negb two_stage then
          let '(gives_check_target, b1) := king_in_check gs b tl in
          let score := if gives_check_target then score + 14 else score in
          let '(others, b2) := alive_except b1 [color; tl] TURN_ORDER in
          let '(hit, b3) := any_in_check gs b2 others in
          (if hit then score - 4 else score, b3)
        else (score, b)
    | None => (score, b)
    end in
  let '(cheap_mob, b) :=
    match moved with
    | Some _ => let '(l, b1) := gen_moves gs b er ec in (Z.of_nat (length l), b1)
    | None => (0, b)
    end in
  let score : float :=
    PrimFloat.add (float_of_Z score) (PrimFloat.mul (float_of_Z cheap_mob) 0.5) in
  let score :=
    match gs with
    | Some g =>
        let recent := List.rev (GameState.recent_moves g) in
        let score :=
          match recent with
          | last :: _ => if goes last er ec sr sc then fsub_int score 12 else score
          | [] => score
          end in
        match recent with
        | _ :: b_ :: c_ :: _ =>
            if goes b_ er ec sr sc && goes c_ sr sc er ec then fsub_int score 8 else score
        | _ => score
        end
    | None => score
    end in
  let score :=
    match moved with
    | Some p =>
        if is_kind Pawn p
        then fadd_int score (Z.max 0 (dist_to_chess sr sc - dist_to_chess er ec) * 3)
        else score
    | None => score
    end in
  let '(hanging, b) := net_hanging_penalty gs b moved er ec in
  let score := fadd_int score (hanging * 2) in
  let score :=
    match moved with
    | Some p =>
        if is_kind Queen p then
          let leap := Z.max (Z.abs (er - sr)) (Z.abs (ec - sc)) in
          let score := fsub_int score (if leap >=? 3 then 6 else 0) in
          if two_stage && negb (is_Some_b cap) then fsub_int score 4 else score
        else score
    | None => score
    end in
  let score :=
    match moved with
    | Some p =>
        if is_kind Knight p || is_kind Bishop p
        then fadd_int score (4 + (if two_stage && is_kind Bishop p then 3 else 0))
        else score
    | None => score
    end in
  let '(app, pen) := _approach_terms b sr sc er ec in
  let cent :=
    if in_chess_area er ec && two_stage then 2
    else if in_chess_area er ec then 1 else 0 in
  let score := fadd_int score (if two_stage then app * 2 + pen * 2 + cent * 2 else 0) in
  let score := PrimFloat.add score (PrimFloat.mul rnd 0.001) in
  let makes_threefold :=
    match gs with
    | Some g =>
        3 <=? default 0 (GameState.pos_counts g !! _position_key sha1_key g b) + 1
    | None => false
    end in
  let score := if makes_threefold then fsub_int score 100 else score in
  (score, b).

(** One candidate: play it, score the position, take it back. *)
Definition score_move (gs : option GameState.t) (color : PColor) (two_stage : bool)
    (target_left : option PColor) (rnd : float) (b : Board.t) (m : Move4)
    : float * Board.t :=
  let '(sr, sc, er, ec) := m in
  match board_do_move sha1_key gs b sr sc er ec true with
  | (inr mr, b1, _) =>
      let '(score, b2) :=
        score_after gs color two_stage target_left rnd b1 m (captured mr) in
      (score, board_undo_move b2 sr sc er ec mr)
  | (inl _, b1, _) => (float_of_Z 0, b1)
  end.

(** The test of lines 3357-3359: a candidate scored [score] enters [best],
    alone or beside the others, when it beats the best score so far or
    comes within 1e-6 of it. *)
Definition enters_best (best_score score : float) : bool :=
  PrimFloat.ltb best_score score
  || PrimFloat.ltb (PrimFloat.abs (PrimFloat.sub score best_score)) 1e-6.

(** The loop of line 3131; [k] counts the readings of the clock. *)
Fixpoint fast_loop (gs : option GameState.t) (color : PColor) (two_stage : bool)
    (target_left : option PColor) (start_ts : Z) (legal : list Move4) (k : nat)
    (b : Board.t) (best : list Move4) (best_score : float)
    : list Move4 * Board.t :=
  match legal with
  | [] => (best, b)
  | m :: rest =>
      if get_ticks k - start_ts >? FAST_AI_BUDGET_MS then (best, b)
      else
        let '(score, b1) := score_move gs color two_stage target_left (random k) b m in
        let '(best_score, best) :=
          if PrimFloat.ltb best_score score then (score, [m])
          else if PrimFloat.ltb (PrimFloat.abs (PrimFloat.sub score best_score)) 1e-6
               then (best_score, best ++ [m])
               else (best_score, best) in
        fast_loop gs color two_stage target_left start_ts rest (S k) b1 best best_score
  end.

(** The two filters of lines 3041-3059. *)
Definition stay_inside (gs : option GameState.t) (color : PColor) (two_stage : bool)
    (legal : list Move4) : list Move4 :=
  let inside := List.filter (fun '(_, _, er, ec) => in_chess_area er ec) in
  match gs with
  | Some g =>
      let legal :=
        if two_stage
           && (bool_decide (GameState.final_a g = Some color)
               || bool_decide (GameState.final_b g = Some color))
           && PerSeat.get (GameState.entered g) color
           && negb (GameState.chess_lock g)
        then inside legal else legal in
      if GameState.chess_lock g then inside legal else legal
  | None => legal
  end.

(** [choose_ai_move_fast(board, color, two_stage, must_enter_filter,
    grace_block_fn, opponent)]; [must_enter_filter] is never read and
    [pick] is the outcome of [random.choice]. *)
Definition choose_ai_move_fast (gs : option GameState.t) (board : Board.t)
    (color : PColor) (two_stage : bool) (grace_block_fn : option GraceBlock)
    (opponent : option PColor) (pick : nat) : option Move4 * Board.t :=
  let '(legal, b) := all_legal_moves_for_color sha1_key _CHESS_OK lib gs board color in
  match legal with
  | [] => (None, b)
  | _ :: _ =>
      let legal := stay_inside gs color two_stage legal in
      let '(legal, b) :=
        match grace_block_fn with
        | Some f =>
            if two_stage then
              let '(non_check, b1) := grace_filter f opponent legal b in
              (match non_check with [] => legal | _ :: _ => non_check end, b1)
            else (legal, b)
        | None => (legal, b)
        end in
      match legal with
      | [] => (None, b)
      | _ :: _ =>
          let start_ts := get_ticks 0 in
          let '(keyed, b) := keyed_moves gs color two_stage legal b in
          let legal := List.map snd (sort_desc key_lt keyed) in
          let '(target_left, b) :=
            if negb two_stage then
              let '(t, b1) := _alive_next_color b color in (Some t, b1)
            else (None, b) in
          let '(best, b) :=
            fast_loop gs color two_stage target_left start_ts legal 1 b []
              (float_of_Z (- 10 ^ 9)) in
          (random_choice pick best, b)
      end
  end.

(** The candidates the loop of line 3131 walks through: the legal moves
    left by the filters of lines 3041-3065 in the order of line 3111, the
    target of line 3117 and the board as it stands then; no candidate when
    one of the two [return None] is taken. *)
Definition fast_candidates (gs : option GameState.t) (board : Board.t)
    (color : PColor) (two_stage : bool) (grace_block_fn : option GraceBlock)
    (opponent : option PColor) : list Move4 * option PColor * Board.t :=
  let '(legal, b) := all_legal_moves_for_color sha1_key _CHESS_OK lib gs board color in
  match legal with
  | [] => ([], None, b)
  | _ :: _ =>
      let legal := stay_inside gs color two_stage legal in
      let '(legal, b) :=
        match grace_block_fn with
        | Some f =>
            if two_stage then
              let '(non_check, b1) := grace_filter f opponent legal b in
              (match non_check with [] => legal | _ :: _ => non_check end, b1)
            else (legal, b)
        | None => (legal, b)
        end in
      match legal with
      | [] => ([], None, b)
      | _ :: _ =>
          let '(keyed, b) := keyed_moves gs color two_stage legal b in
          let legal := List.map snd (sort_desc key_lt keyed) in
          let '(target_left, b) :=
            if negb two_stage then
              let '(t, b1) := _alive_next_color b color in (Some t, b1)
            else (None, b) in
          (legal, target_left, b)
      end
  end.
End FastPolicy.

(** ** Shapes used in the statements *)

(** What a search on the shared board must satisfy: it hands the board
    back as it got it, also when it times out. *)
Definition restores_board
    (search : ChessBoard.t -> Z -> Z -> option ChessBoard.EngineMove -> nat ->
              Search (Z * option ChessBoard.EngineMove) * ChessBoard.t * nat) : Prop :=
  forall cb a b pv k, snd (fst (search cb a b pv k)) = cb.

(** A candidate of the fast policy: it starts on an occupied cell and ends
    on the board, and under the duel lock both cells lie in the 8x8. *)
Definition move_ok (gs : option GameState.t) (g : Board.Grid) (m : Move4) : Prop :=
  let '(sr, sc, er, ec) := m in
  Board.in_bounds sr sc = true /\ is_Some (Board.grid_get g sr sc) /\
  Board.in_bounds er ec = true /\
  (gs_chess_lock gs = true -> _in8 sr sc = true /\ _in8 er ec = true).

(** The squares python-chess names are 0..63. *)
Definition engine_squares_ok (lib : ChessLib) (cb : ChessBoard.t) : Prop :=
  Forall (fun mv => 0 <= ChessBoard.to_square mv < 64) (cb_legal_moves lib cb).

(** A callback that hands the board back with its cells as they were, for
    the candidates [legal] on a board with the cells [g]. *)
Definition keeps_cells (f : GraceBlock) (g : Board.Grid) (legal : list Move4) : Prop :=
  forall m opponent b,
    In m legal -> Board.grid b = g -> Board.grid (snd (f m opponent b)) = g.


(** python-chess missing ([_CHESS_OK] false): nothing consults the library. *)
Definition absent_lib : ChessLib :=
  MkChessLib (fun _ => true) (fun _ => []) (fun _ => []) (fun _ _ => None)
    (fun _ _ => false) (fun _ _ => false) (fun _ => false) (fun _ => false)
    (fun _ => false) (fun _ => false) (fun _ => false) (fun _ => false)
    (fun _ => false) (fun _ _ => false) (fun _ _ => false) (fun _ _ => false)
    (fun _ _ => false).

(** A clock that advances by 300 ms between two readings, and one that
    stands still. *)
Definition slow_clock (k : nat) : Z := 300 * Z.of_nat k.
Definition still_clock (_ : nat) : Z := 0.

(** 1. e4, from square 12 to square 28. *)
Definition e2e4 : ChessBoard.EngineMove := ChessBoard.Move 12 28 None.

(** The twenty first moves of Black: the pawn steps of one and two squares
    and the four knight moves. *)
Definition black_first_moves : list ChessBoard.EngineMove :=
  List.flat_map (fun f => [ChessBoard.Move (48 + f) (40 + f) None;
                           ChessBoard.Move (48 + f) (32 + f) None]) (zrange 0 8)
  ++ [ChessBoard.Move 57 40 None; ChessBoard.Move 57 42 None;
      ChessBoard.Move 62 45 None; ChessBoard.Move 62 47 None].

(** What python-chess answers about the position after 1. e4: Black is to
    move and has its twenty first moves, none of them a capture, a check or
    castling; both sides keep their castling rights; the game is not over.
    The piece map is left out. *)
Definition after_e4_lib : ChessLib :=
  MkChessLib (fun _ => false) (fun _ => black_first_moves) (fun _ => []) (fun _ _ => None)
    (fun _ _ => true) (fun _ _ => true) (fun _ => false) (fun _ => false)
    (fun _ => false) (fun _ => false) (fun _ => false) (fun _ => false)
    (fun _ => false) (fun _ _ => false) (fun _ _ => false) (fun _ _ => false)
    (fun _ _ => false).

(** The duel with python-chess after White has opened 1. e4: the pawn went
    from (8,6) to (6,6) and the move was pushed on the engine position. *)
Definition duel_after_e4 : Board.t * GameState.t :=
  let '(b, g) := _enter_duel_kqbb true WHITE None 64 (Board_init 0) GameState.init in
  (fst (fst (relocate b 8 6 6 6)),
   GameState.set_chess_board
     (Some (ChessBoard.push (ChessBoard.of_fen DUEL_START_FEN) e2e4)) g).

(** A deadline that has passed at the second reading of the clock. *)
Definition first_poll_only (_ : Z) (k : nat) : bool := (0 <? k)%nat.

(** A White king outside the 8x8, on (11,6), and a Black king on (2,6). *)
Definition lone_kings : Board.t :=
  place_all [(11, 6, Piece.Build 0 King WHITE true);
             (2, 6, Piece.Build 1 King BLACK false)] Board_empty.


(** A step of a rook, bishop, queen or castling walk, and the number of
    squares of the board left in front of (rr,cc) in that direction, the
    square itself included. *)
Definition unit_dir (dr dc : Z) : Prop :=
  -1 <= dr <= 1 /\ -1 <= dc <= 1 /\ (dr <> 0 \/ dc <> 0).

Definition room (rr cc dr dc : Z) : Z :=
  if dr =? 1 then 12 - rr
  else if dr =? -1 then rr + 1
  else if dc =? 1 then 12 - cc else cc + 1.


(** ** View rotation (lines 728-800)

    [seat] is what [_seat_for_view()] answered: the seat drawn at the bottom
    of the window, [None] when the setting names no seat. *)
Definition rot90 (rr cc : Z) : Square := (cc, BOARD_SIZE - 1 - rr).
Definition rot180 (rr cc : Z) : Square := (BOARD_SIZE - 1 - rr, BOARD_SIZE - 1 - cc).
Definition rot270 (rr cc : Z) : Square := (BOARD_SIZE - 1 - cc, rr).

Definition _transform_rc_for_view (seat : option PColor) (r c : Z) (inverse : bool)
    : Square :=
  match seat with
  | None => (r, c)
  | Some seat =>
      let apply rr cc :=
        match seat with
        | WHITE => (rr, cc)
        | GREY => rot270 rr cc
        | BLACK => rot180 rr cc
        | PINK => rot90 rr cc
        end in
      let apply_inv rr cc :=
        match seat with
        | WHITE => (rr, cc)
        | GREY => rot90 rr cc
        | BLACK => rot180 rr cc
        | PINK => rot270 rr cc
        end in
      if inverse then apply_inv r c else apply r c
  end.

(** ** The square mapping of the network adapter
    ([engine_adapter_v3.py], lines 167-183), with python-chess present. *)
Definition _engine_to_chess_square (r c : Z) : option Z :=
  if negb ((2 <=? r) && (r <=? 9) && (2 <=? c) && (c <=? 9)) then None
  else
    let file := c - 2 in
    let rank := 8 - (r - 2) in
    if negb ((0 <=? file) && (file <? 8) && (1 <=? rank) && (rank <=? 8)) then None
    else Some (chess_square file (rank - 1)).

Definition _chess_to_engine_rc (square : Z) : Square :=
  let file := chess_square_file square in
  let rank := chess_square_rank square + 1 in
  (2 + (8 - rank), 2 + file).

(** [_king_in_home_corner] (line 12733) *)
Definition _king_in_home_corner (b : Board.t) (color : PColor) : bool * Board.t :=
  let '(kp, b1) := Board.find_king b color in
  match kp with
  | None => (false, b1)
  | Some (r, c) =>
      (bool_decide ((r, c) ∈ king_home_cells color) && negb (_in8 r c), b1)
  end.


(** Does some square of the board hold a king of [col]? *)
Definition has_king (b : Board.t) (col : PColor) : bool :=
  List.existsb (fun '(r, c) => Board.is_king_of col (Board.get b r c)) all_squares.


(** ** Removing the pieces of a seat (line 2864) *)
Definition _remove_color_pieces (b : Board.t) (color : PColor) : bool * Board.t :=
  let '(removed, b1) :=
    List.fold_left (fun '(removed, b) '(rr, cc) =>
        match Board.get b rr cc with
        | Some piece =>
            if is_color color piece then (true, Board.set b rr cc None)
            else (removed, b)
        | None => (removed, b)
        end) all_squares (false, b) in
  if removed then (true, Board.set_cache b1 color None) else (false, b1).

(** ** Material (class MaterialTracker, line 5914) *)
Module MaterialTracker.
Record t := Build { captured_points : PerSeat.t Z }.

(** [MaterialTracker()] *)
Definition init : t := Build (PerSeat.all 0).

Definition on_capture (m : t) (victim : option Piece.t) : t :=
  match victim with
  | Some v =>
      Build (PerSeat.set (captured_points m) (Piece.color v)
               (PerSeat.get (captured_points m) (Piece.color v)
                + PIECE_VALUES (Piece.kind v)))
  | None => m
  end.

(** The dictionary is walked in its insertion order. *)
Definition should_eliminate (m : t) (b : Board.t) (threshold : Z)
    : option PColor * Board.t :=
  let '(alive, b1) := Board.alive_colors b in
  if Z.of_nat (length alive) <=? 2 then (None, b1)
  else
    let thr := Z.max 0 threshold in
    if thr <=? 0 then (None, b1)
    else
      (List.find (fun col =>
           color_in col alive && (thr <=? PerSeat.get (captured_points m) col))
         [WHITE; GREY; BLACK; PINK], b1).
End MaterialTracker.

(** ** Snapshots of the board ([dump_board] and [load_board], lines 6237-6273) *)

(** An item of a dump: [(rr, cc, kind, color.value, has_moved)]. *)
Definition BoardItem : Type := Z * Z * Kind * Z * bool.

Definition dump_board (b : Board.t) : list BoardItem :=
  List.flat_map (fun '(rr, cc) =>
      match Board.get b rr cc with
      | Some p =>
          [(rr, cc, Piece.kind p, PColor_value (Piece.color p), Piece.has_moved p)]
      | None => []
      end) all_squares.

(** [PColor(colv)]; a value that names no seat raises [ValueError]. *)
Definition PColor_of_value (v : Z) : option PColor :=
  match v with
  | 0 => Some WHITE | 1 => Some GREY | 2 => Some BLACK | 3 => Some PINK
  | _ => None
  end.

(** [for rr ...: for cc ...: nb.set(rr, cc, None)] *)
Definition clear_board (b : Board.t) : Board.t :=
  List.fold_left (fun b '(rr, cc) => Board.set b rr cc None) all_squares b.

(** The second loop of [load_board]; [fresh] is the identity of the next
    [Piece] object created. *)
Fixpoint place_items (fresh : nat) (items : list BoardItem) (nb : Board.t)
    : PyError + Board.t :=
  match items with
  | [] => inr nb
  | (rr, cc, kind, colv, moved) :: rest =>
      match PColor_of_value colv with
      | None => inl ValueError
      | Some col =>
          let q := Piece.Build fresh kind col moved in
          place_items (S fresh) rest (Board.set nb rr cc (Some q))
      end
  end.

(** [load_board(items)]: [Board()] creates sixty-four pieces of its own
    before the cells are cleared. *)
Definition load_board (fresh : nat) (items : list BoardItem) : PyError + Board.t :=
  place_items (fresh + 64) items (clear_board (Board_init fresh)).

(** ** Shapes used in the statements of the sweeps *)

(** The cells left by a loop that empties the squares whose piece is
    [doomed]. *)
Definition swept (doomed : Z -> Z -> Piece.t -> bool) (b : Board.t) (r c : Z)
    : option Piece.t :=
  match Board.get b r c with
  | Some p => if doomed r c p then None else Some p
  | None => None
  end.

(** The pieces of a board that are [doomed]. *)
Definition count_doomed (doomed : Z -> Z -> Piece.t -> bool) (b : Board.t) : Z :=
  Z.of_nat (length (List.filter (fun '(r, c) =>
      match Board.get b r c with Some p => doomed r c p | None => false end)
    all_squares)).

(** The item of the last write of a dump on (r,c), if any. *)
Fixpoint last_item (r c : Z) (items : list BoardItem) : option BoardItem :=
  match items with
  | [] => None
  | it :: rest =>
      match last_item r c rest with
      | Some x => Some x
      | None =>
          let '(rr, cc, _, _, _) := it in
          if bool_decide ((rr, cc) = (r, c)) then Some it else None
      end
  end.


(** The loop of the sweeps, without their counters. *)
Definition sweep (doomed : Z -> Z -> Piece.t -> bool) (l : list Square) (b : Board.t)
    : Board.t :=
  List.fold_left (fun b '(rr, cc) =>
      match Board.get b rr cc with
      | Some p => if doomed rr cc p then Board.set b rr cc None else b
      | None => b
      end) l b.

(** Does the piece of a cell, if any, satisfy [doomed]? *)
Definition doomed_at (doomed : Z -> Z -> Piece.t -> bool) (b : Board.t)
    (sq : Square) : bool :=
  match Board.get b (fst sq) (snd sq) with
  | Some p => doomed (fst sq) (snd sq) p
  | None => false
  end.

(** The points a list of victims costs a seat. *)
Definition points_lost (col : PColor) (victims : list (option Piece.t)) : Z :=
  List.fold_right (fun v acc =>
      match v with
      | Some p => if is_color col p then PIECE_VALUES (Piece.kind p) + acc else acc
      | None => acc
      end) 0 victims.


(** The item [dump_board] writes for the piece [p] on (rr,cc). *)
Definition item_of (rr cc : Z) (p : Piece.t) : BoardItem :=
  (rr, cc, Piece.kind p, PColor_value (Piece.color p), Piece.has_moved p).

(** The colour value of an item. *)
Definition item_colv (it : BoardItem) : Z := let '(_, _, _, colv, _) := it in colv.


(** ** Shape used in the statements about move generation *)

(** A cell a piece [p] may be sent to: on the board, empty or held by a
    piece of another seat that is not a king, and outside the corners (a
    king may also stand in the corner of its own seat). *)
Definition playable (b : Board.t) (p : Piece.t) (sq : Square) : bool :=
  let '(er, ec) := sq in
  Board.in_bounds er ec
  && (if is_kind King p
      then negb (foreign_corner (Piece.color p) (corner_owner_at er ec))
      else no_corner er ec)
  && match Board.get b er ec with
     | Some tgt => capturable (Piece.color p) tgt
     | None => true
     end.


(** ** Shape used in the statements about sorting *)

(** Keys do not increase along the list. *)
Definition descending {A} (l : list (Z * A)) : Prop :=
  StronglySorted (fun a b => fst b <= fst a) l.


(** ** The queen reduction of the two-stage endgame (line 6980)

    [apply_queen_reduction_if_needed] is a closure of the game loop over
    [board] and [gs]. *)

(** [abs(5.5-rc[0]) + abs(5.5-rc[1])] *)
Definition queen_key (rc : Square) : float :=
  PrimFloat.add (PrimFloat.abs (PrimFloat.sub 5.5%float (float_of_Z (fst rc))))
                (PrimFloat.abs (PrimFloat.sub 5.5%float (float_of_Z (snd rc)))).

(** The list [q_locs]. *)
Definition queen_squares (b : Board.t) (color : PColor) : list Square :=
  List.flat_map (fun '(r, c) =>
      match Board.get b r c with
      | Some p => if is_color color p && is_kind Queen p then [(r, c)] else []
      | None => []
      end) all_squares.

(** [for (r,c) in pick: p = board.get(r,c); if p and p.kind == 'Q': p.kind = 'B'] *)
Definition demote_queens (pick : list Square) (b : Board.t) : Board.t :=
  List.fold_left (fun b '(r, c) =>
      match Board.get b r c with
      | Some p =>
          if is_kind Queen p
          then mutate_piece b r c (Piece.pid p) (fun q => Piece.set_kind q Bishop)
          else b
      | None => b
      end) pick b.

Definition apply_queen_reduction_if_needed (b : Board.t) (g : GameState.t)
    (color : PColor) : option (list Square) * Board.t * GameState.t :=
  if negb (GameState.two_stage_active g)
     || PerSeat.get (GameState.reduced_applied g) color
  then (None, b, g)
  else if negb (PerSeat.get (GameState.entered g) color) then (None, b, g)
  else
    let q_locs := queen_squares b color in
    let pick :=
      if (3 <=? length q_locs)%nat then
        firstn 2 (List.map snd
                    (sort_desc PrimFloat.ltb
                       (List.map (fun rc => (queen_key rc, rc)) q_locs)))
      else if (length q_locs =? 2)%nat then q_locs
      else [] in
    let b' := demote_queens pick b in
    match pick with
    | [] => (None, b', g)
    | _ =>
        (Some pick, b',
         GameState.set_reduced_applied
           (PerSeat.set (GameState.reduced_applied g) color true) g)
    end.

(** Twice the distance of a square from the centre of the board, counted
    along the rows and the columns. *)
Definition centre_distance2 (rc : Square) : Z :=
  Z.abs (11 - 2 * fst rc) + Z.abs (11 - 2 * snd rc).


(** ** Entering and leaving the two-player stage (line 6854)

    [ensure_two_stage_state] is a closure of the game loop over [board] and
    [gs]. *)

Definition DUEL_TELEPORT_ON_TWO : bool := true.

(** [any(board.get(r,c) and board.get(r,c).color == col and
    in_chess_area(r,c) for r ... for c ...)] *)
Definition has_piece_inside (b : Board.t) (col : PColor) : bool :=
  List.existsb (fun '(r, c) =>
      match Board.get b r c with
      | Some p => is_color col p && in_chess_area r c
      | None => false
      end) all_squares.

Definition ensure_two_stage_state (b : Board.t) (g : GameState.t)
    : Board.t * GameState.t :=
  let '(alive_real, b1) := Board.alive_colors b in
  let flashing := GameState.elim_flash_color g in
  let alive_effective :=
    List.filter (fun c => negb (bool_decide (Some c = flashing))) alive_real in
  let is_two := (length alive_effective =? 2)%nat in
  if is_two && negb (GameState.two_stage_active g) then
    match alive_effective with
    | [a; c] =>
        let g1 := GameState.set_two_stage_active true g in
        let g2 := GameState.set_final_b (Some c) (GameState.set_final_a (Some a) g1) in
        let '(b2, g3) := perform_two_stage_migration b1 g2 a c in
        let g4 :=
          List.fold_left (fun g col =>
              GameState.set_entered
                (PerSeat.set (GameState.entered g) col (has_piece_inside b2 col)) g)
            alive_effective g3 in
        let g5 :=
          if DUEL_TELEPORT_ON_TWO then
            GameState.set_grace_turns_remaining 0 (GameState.set_grace_active false g4)
          else if PerSeat.get (GameState.entered g4) a
                  && PerSeat.get (GameState.entered g4) c
          then GameState.set_grace_turns_remaining 2
                 (GameState.set_grace_active true g4)
          else g4 in
        (b2, g5)
    | _ => (b1, g)
    end
  else if negb is_two && GameState.two_stage_active g then
    let g1 := GameState.set_two_stage_active false g in
    let g2 := GameState.set_final_b None (GameState.set_final_a None g1) in
    let g3 := GameState.set_entered (PerSeat.all false) g2 in
    let g4 := GameState.set_reduced_applied (PerSeat.all false) g3 in
    let g5 := GameState.set_grace_turns_remaining 0
                (GameState.set_grace_active false g4) in
    (b1, GameState.set_chess_lock false g5)
  else (b1, g).

(** * Properties *)

(** ** Per-seat dictionaries *)

Lemma PerSeat_get_set_eq {A} (d : PerSeat.t A) c v :
  PerSeat.get (PerSeat.set d c v) c = v.
Proof. by destruct c. Qed.

Lemma PerSeat_get_set_ne {A} (d : PerSeat.t A) c c' v :
  c <> c' -> PerSeat.get (PerSeat.set d c v) c' = PerSeat.get d c'.
Proof. by destruct c, c'. Qed.

Lemma PerSeat_get_all {A} (v : A) c : PerSeat.get (PerSeat.all v) c = v.
Proof. by destruct c. Qed.

Lemma PerSeat_ext {A} (d1 d2 : PerSeat.t A) :
  (forall c, PerSeat.get d1 c = PerSeat.get d2 c) -> d1 = d2.
Proof.
  destruct d1, d2; intros H.
  pose proof (H WHITE); pose proof (H GREY);
    pose proof (H BLACK); pose proof (H PINK); simpl in *; congruence.
Qed.

(** ** Cells of a well-formed grid *)

Lemma in_bounds_spec r c :
  Board.in_bounds r c = true <-> (0 <= r < 12 /\ 0 <= c < 12).
Proof. unfold Board.in_bounds, BOARD_SIZE. lia. Qed.

Lemma in_bounds_false r c :
  Board.in_bounds r c = false <-> ~ (0 <= r < 12 /\ 0 <= c < 12).
Proof. rewrite <- in_bounds_spec. destruct (Board.in_bounds r c); naive_solver. Qed.

Lemma in8_in_bounds r c : _in8 r c = true -> Board.in_bounds r c = true.
Proof. rewrite in_bounds_spec. unfold _in8, CH_MIN, CH_MAX. lia. Qed.

(** ** The bound on the walks

    The [while board.in_bounds(...)] loops of the source are modelled with
    [RAY_FUEL] iterations.  A walk by a unit step leaves the 12x12 board
    within twelve iterations, so more fuel never changes a result. *)

Lemma room_step rr cc dr dc :
  unit_dir dr dc -> Board.in_bounds rr cc = true ->
  1 <= room rr cc dr dc <= 12 /\
  room (rr + dr) (cc + dc) dr dc = room rr cc dr dc - 1.
Proof.
  intros (Hr & Hc & Hne) Hin. apply in_bounds_spec in Hin. unfold room.
  destruct (dr =? 1) eqn:E1; [lia|].
  destruct (dr =? -1) eqn:E2; [lia|].
  destruct (dc =? 1) eqn:E3; lia.
Qed.

Ltac fuel_cases fuel2 Hdir Hroom :=
  destruct fuel2 as [|fuel2]; simpl; try reflexivity;
  match goal with
  | |- context [Board.in_bounds ?r ?c] =>
      let Hin := fresh "Hin" in
      destruct (Board.in_bounds r c) eqn:Hin; [|reflexivity];
      let Hpos := fresh "Hpos" in
      let Hnext := fresh "Hnext" in
      destruct (room_step _ _ _ _ Hdir Hin) as [Hpos Hnext];
      specialize (Hroom eq_refl); try lia
  end.

Lemma ray_attacked_fuel fuel1 fuel2 b attackers hits rr cc dr dc :
  unit_dir dr dc ->
  (Board.in_bounds rr cc = true ->
   room rr cc dr dc <= Z.of_nat fuel1 /\ room rr cc dr dc <= Z.of_nat fuel2) ->
  ray_attacked fuel1 b attackers hits rr cc dr dc
  = ray_attacked fuel2 b attackers hits rr cc dr dc.
Proof.
  intros Hdir. revert fuel2 rr cc.
  induction fuel1 as [|fuel1 IH]; intros fuel2 rr cc Hroom.
  - fuel_cases fuel2 Hdir Hroom.
  - fuel_cases fuel2 Hdir Hroom.
    destruct (no_corner rr cc); [|done].
    destruct (Board.get b rr cc); [done|].
    apply IH. intros _. lia.
Qed.

Lemma slide_from_fuel fuel1 fuel2 b piece nr nc dr dc :
  unit_dir dr dc ->
  (Board.in_bounds nr nc = true ->
   room nr nc dr dc <= Z.of_nat fuel1 /\ room nr nc dr dc <= Z.of_nat fuel2) ->
  slide_from fuel1 b piece nr nc dr dc = slide_from fuel2 b piece nr nc dr dc.
Proof.
  intros Hdir. revert fuel2 nr nc.
  induction fuel1 as [|fuel1 IH]; intros fuel2 nr nc Hroom.
  - fuel_cases fuel2 Hdir Hroom.
  - fuel_cases fuel2 Hdir Hroom.
    destruct (no_corner nr nc); [|done].
    destruct (Board.get b nr nc); [done|].
    f_equal. apply IH. intros _. lia.
Qed.

Lemma first_piece_from_fuel fuel1 fuel2 b r c dr dc :
  unit_dir dr dc ->
  (Board.in_bounds r c = true ->
   room r c dr dc <= Z.of_nat fuel1 /\ room r c dr dc <= Z.of_nat fuel2) ->
  first_piece_from fuel1 b r c dr dc = first_piece_from fuel2 b r c dr dc.
Proof.
  intros Hdir. revert fuel2 r c.
  induction fuel1 as [|fuel1 IH]; intros fuel2 r c Hroom.
  - fuel_cases fuel2 Hdir Hroom.
  - fuel_cases fuel2 Hdir Hroom.
    destruct (Board.get b r c); [done|].
    apply IH. intros _. lia.
Qed.

(** With [RAY_FUEL] iterations every walk has run to its end: any larger
    bound gives the same attack test, the same slide and the same first
    piece. *)
Lemma ray_fuel_is_enough fuel b rr cc dr dc :
  unit_dir dr dc -> (RAY_FUEL <= fuel)%nat ->
  (forall attackers hits,
     ray_attacked fuel b attackers hits rr cc dr dc
     = ray_attacked RAY_FUEL b attackers hits rr cc dr dc) /\
  (forall piece,
     slide_from fuel b piece rr cc dr dc = slide_from RAY_FUEL b piece rr cc dr dc) /\
  first_piece_from fuel b rr cc dr dc = first_piece_from RAY_FUEL b rr cc dr dc.
Proof.
  intros Hdir Hfuel. unfold RAY_FUEL in *.
  assert (Hroom : Board.in_bounds rr cc = true ->
                  room rr cc dr dc <= Z.of_nat fuel /\ room rr cc dr dc <= Z.of_nat 12).
  { intros Hin. destruct (room_step _ _ _ _ Hdir Hin) as [Hpos _]. lia. }
  repeat split; intros.
  - by apply ray_attacked_fuel.
  - by apply slide_from_fuel.
  - by apply first_piece_from_fuel.
Qed.

Lemma walk_directions_are_units :
  Forall (fun '(dr, dc) => unit_dir dr dc) QUEEN_DIRS /\
  (forall color r c,
     let '(_, ((d1r, d1c), (d2r, d2c))) := castle_axis color r c in
     unit_dir d1r d1c /\ unit_dir d2r d2c).
Proof.
  split.
  - repeat constructor; unfold unit_dir; lia.
  - intros color r c. unfold castle_axis.
    destruct color; simpl; unfold unit_dir; lia.
Qed.

Lemma wf_grid_row g r :
  wf_grid g -> 0 <= r < 12 ->
  exists row, g !! Z.to_nat r = Some row /\ length row = 12%nat.
Proof.
  intros [Hlen Hrows] Hr.
  destruct (lookup_lt_is_Some_2 g (Z.to_nat r)) as [row Hrow]; [lia|].
  exists row; split; [done|].
  by apply (Forall_lookup_1 _ _ _ _ Hrows Hrow).
Qed.

Lemma grid_set_wf g r c p : wf_grid g -> wf_grid (Board.grid_set g r c p).
Proof.
  intros [Hlen Hrows]. unfold Board.grid_set.
  destruct (g !! Z.to_nat r) as [row|] eqn:Hrow; [|done].
  split; [by rewrite length_insert|].
  apply Forall_insert; [done|]. cbv beta. rewrite length_insert.
  by apply (Forall_lookup_1 _ _ _ _ Hrows Hrow).
Qed.

Lemma grid_get_set_eq g r c p :
  wf_grid g -> Board.in_bounds r c = true ->
  Board.grid_get (Board.grid_set g r c p) r c = p.
Proof.
  intros Hwf [Hr Hc]%in_bounds_spec.
  destruct (wf_grid_row g r Hwf Hr) as (row & Hrow & Hlen).
  unfold Board.grid_get, Board.grid_set. rewrite Hrow.
  rewrite list_lookup_insert_eq by (apply lookup_lt_Some in Hrow; done).
  by rewrite list_lookup_insert_eq by lia.
Qed.

Lemma grid_get_set_ne g r c r' c' p :
  0 <= r -> 0 <= c -> 0 <= r' -> 0 <= c' -> (r, c) <> (r', c') ->
  Board.grid_get (Board.grid_set g r c p) r' c' = Board.grid_get g r' c'.
Proof.
  intros Hr Hc Hr' Hc' Hne. unfold Board.grid_get, Board.grid_set.
  destruct (g !! Z.to_nat r) as [row|] eqn:Hrow; [|done].
  destruct (decide (r = r')) as [<-|Hrr].
  - rewrite list_lookup_insert_eq by (apply lookup_lt_Some in Hrow; done).
    rewrite Hrow. rewrite list_lookup_insert_ne; [done|].
    intros Heq. apply Hne. f_equal. lia.
  - rewrite list_lookup_insert_ne; [done|]. lia.
Qed.

Lemma grid_ext g g' :
  wf_grid g -> wf_grid g' ->
  (forall r c, Board.in_bounds r c = true ->
               Board.grid_get g r c = Board.grid_get g' r c) ->
  g = g'.
Proof.
  intros [Hlen Hrows] [Hlen' Hrows'] Hcells.
  apply list_eq_same_length with 12%nat; [done..|].
  intros i row row' Hi Hrow Hrow'.
  pose proof (Forall_lookup_1 _ _ _ _ Hrows Hrow) as Hl. cbv beta in Hl.
  pose proof (Forall_lookup_1 _ _ _ _ Hrows' Hrow') as Hl'. cbv beta in Hl'.
  apply list_eq_same_length with 12%nat; [done..|].
  intros j x y Hj Hx Hy.
  specialize (Hcells (Z.of_nat i) (Z.of_nat j)).
  unfold Board.grid_get in Hcells. rewrite !Nat2Z.id in Hcells.
  rewrite Hrow, Hrow', Hx, Hy in Hcells.
  apply Hcells. apply in_bounds_spec. lia.
Qed.

(** ** [Board.get] and [Board.set] *)

Lemma get_set_eq b r c p :
  wf_grid (Board.grid b) -> Board.in_bounds r c = true ->
  Board.get (Board.set b r c p) r c = p.
Proof.
  intros Hwf Hin. unfold Board.get, Board.set. rewrite Hin. simpl.
  by apply grid_get_set_eq.
Qed.

Lemma get_set_ne b r c r' c' p :
  (r, c) <> (r', c') ->
  Board.get (Board.set b r c p) r' c' = Board.get b r' c'.
Proof.
  intros Hne. unfold Board.get, Board.set.
  destruct (Board.in_bounds r c) eqn:Hin; [|done].
  destruct (Board.in_bounds r' c') eqn:Hin'; [|done]. simpl.
  apply in_bounds_spec in Hin, Hin'. apply grid_get_set_ne; lia || done.
Qed.

Lemma set_wf b r c p :
  wf_grid (Board.grid b) -> wf_grid (Board.grid (Board.set b r c p)).
Proof.
  intros Hwf. unfold Board.set. destruct (Board.in_bounds r c); [|done].
  by apply grid_set_wf.
Qed.

Lemma get_out_of_bounds b r c : Board.in_bounds r c = false -> Board.get b r c = None.
Proof. intros H. unfold Board.get. by rewrite H. Qed.

Lemma get_in_bounds b r c p : Board.get b r c = Some p -> Board.in_bounds r c = true.
Proof. unfold Board.get. by destruct (Board.in_bounds r c). Qed.

(** [mutate_piece] seen from the cells. *)
Lemma mutate_piece_get b r c pid f r' c' :
  wf_grid (Board.grid b) ->
  Board.get (mutate_piece b r c pid f) r' c' =
    if bool_decide ((r, c) = (r', c')) then
      match Board.get b r c with
      | Some p => if bool_decide (Piece.pid p = pid) then Some (f p) else Some p
      | None => None
      end
    else Board.get b r' c'.
Proof.
  intros Hwf. unfold mutate_piece, Board.get.
  case_bool_decide as Heq.
  - injection Heq as <- <-.
    destruct (Board.in_bounds r c) eqn:Hin; [|done].
    destruct (Board.grid_get (Board.grid b) r c) as [p|] eqn:Hp; [|by rewrite Hp].
    case_bool_decide; simpl; [|by rewrite Hp].
    by rewrite grid_get_set_eq.
  - destruct (Board.in_bounds r c) eqn:Hin; [|done].
    destruct (Board.grid_get (Board.grid b) r c) as [p|] eqn:Hp; [|done].
    case_bool_decide; [|done]. simpl.
    destruct (Board.in_bounds r' c') eqn:Hin'; [|done].
    apply in_bounds_spec in Hin, Hin'. apply grid_get_set_ne; lia || done.
Qed.

Lemma mutate_piece_wf b r c pid f :
  wf_grid (Board.grid b) -> wf_grid (Board.grid (mutate_piece b r c pid f)).
Proof.
  intros Hwf. unfold mutate_piece.
  destruct (Board.in_bounds r c); [|done].
  destruct (Board.grid_get _ r c); [|done].
  case_bool_decide; [|done]. by apply grid_set_wf.
Qed.

Lemma mutate_piece_cache b r c pid f :
  Board.king_positions (mutate_piece b r c pid f) = Board.king_positions b.
Proof.
  unfold mutate_piece. destruct (Board.in_bounds r c); [|done].
  destruct (Board.grid_get _ r c); [|done]. by case_bool_decide.
Qed.

(** Two boards with the same cells. *)
Lemma board_grid_ext b b' :
  wf_grid (Board.grid b) -> wf_grid (Board.grid b') ->
  (forall r c, Board.get b r c = Board.get b' r c) ->
  Board.grid b = Board.grid b'.
Proof.
  intros Hwf Hwf' Hget. apply grid_ext; [done..|].
  intros r c Hin. specialize (Hget r c). unfold Board.get in Hget.
  by rewrite Hin in Hget.
Qed.

(** ** Duel seats *)

(** C10.  For two distinct survivors, a survivor that is White keeps the
    White seat, a survivor that is Black keeps the Black seat and the other
    survivor takes the remaining seat; for the pair Grey/Pink, Pink takes
    White and Grey takes Black.  In every case the two survivors are mapped
    to the two seats and nobody else is. *)
Theorem resolve_duel_seats_keeps_native_seats (a b : PColor) :
  a <> b ->
  let '(remap, white_origin, black_origin) := _resolve_duel_seats a b in
  (a = WHITE \/ b = WHITE -> white_origin = WHITE) /\
  (a = BLACK \/ b = BLACK -> black_origin = BLACK) /\
  (a <> WHITE -> b <> WHITE -> a <> BLACK -> b <> BLACK ->
     white_origin = PINK /\ black_origin = GREY) /\
  ((white_origin = a /\ black_origin = b) \/ (white_origin = b /\ black_origin = a)) /\
  remap !! white_origin = Some WHITE /\
  remap !! black_origin = Some BLACK /\
  (forall c, c <> a -> c <> b -> remap !! c = None) /\
  _resolve_duel_seats b a = (remap, white_origin, black_origin).
Proof.
  intros Hne.
  destruct a, b; try done; vm_compute;
    (repeat split; try (intros; congruence); try tauto;
     try (intros [|]; congruence);
     try (intros [] ? ?; congruence)).
Qed.

Lemma resolve_duel_seats_keeps_native_seats_witness :
  GREY <> PINK /\
  let '(remap, white_origin, black_origin) := _resolve_duel_seats GREY PINK in
  white_origin = PINK /\ black_origin = GREY.
Proof.
  split; [discriminate|].
  pose proof (resolve_duel_seats_keeps_native_seats GREY PINK ltac:(discriminate)) as H.
  destruct (_resolve_duel_seats GREY PINK) as [[remap w] bl].
  destruct H as (_ & _ & H & _). apply H; discriminate.
Defined.

(** ** What a real move does to the game state *)

Section RealMove.

Variable sha1_key : string -> Z.

Lemma count_position_corner g b :
  let g' := count_position sha1_key g b in
  GameState.corner_immune g' = GameState.corner_immune g /\
  GameState.corner_promoted g' = GameState.corner_promoted g /\
  GameState.corner_evict_pending g' = GameState.corner_evict_pending g /\
  GameState.corner_in_corner g' = GameState.corner_in_corner g /\
  GameState.two_stage_active g' = GameState.two_stage_active g /\
  GameState.chess_lock g' = GameState.chess_lock g.
Proof. unfold count_position. by destruct (3 <=? _). Qed.

Lemma activate_two_stage_corner b g :
  let g' := snd (activate_two_stage_if_needed b g) in
  GameState.corner_immune g' = GameState.corner_immune g /\
  GameState.corner_promoted g' = GameState.corner_promoted g /\
  GameState.corner_evict_pending g' = GameState.corner_evict_pending g /\
  GameState.corner_in_corner g' = GameState.corner_in_corner g /\
  GameState.chess_lock g' = GameState.chess_lock g /\
  GameState.pos_counts g' = GameState.pos_counts g /\
  GameState._draw_by_repetition g' = GameState._draw_by_repetition g.
Proof.
  unfold activate_two_stage_if_needed.
  destruct (Board.alive_colors b) as [alive b1].
  destruct alive as [|a [|c [|? ?]]]; try done.
  destruct (GameState.two_stage_active g); [done|].
  unfold perform_two_stage_migration. by destruct (_ =? _).
Qed.

Lemma activate_two_stage_board b g :
  snd (fst (activate_two_stage_if_needed b g))
  = activate_board b (GameState.two_stage_active g).
Proof.
  unfold activate_two_stage_if_needed, activate_board.
  destruct (Board.alive_colors b) as [alive b1].
  destruct alive as [|a [|c [|? ?]]]; try done.
  destruct (GameState.two_stage_active g); [done|].
  unfold perform_two_stage_migration. by destruct (_ =? _).
Qed.

Lemma record_move_board g b mover sr sc er ec :
  fst (record_move sha1_key g b mover sr sc er ec)
  = activate_board b (GameState.two_stage_active g).
Proof.
  unfold record_move.
  set (g3 := count_position _ _ _).
  pose proof (activate_two_stage_board b g3) as H.
  destruct (activate_two_stage_if_needed b g3) as [[? b4] g4]. simpl in *.
  rewrite H. subst g3. by rewrite (proj1 (proj2 (proj2 (proj2 (proj2 (count_position_corner _ b)))))).
Qed.

Lemma record_move_corner g b mover sr sc er ec :
  let g' := snd (record_move sha1_key g b mover sr sc er ec) in
  GameState.corner_immune g' = GameState.corner_immune g /\
  GameState.corner_promoted g' = GameState.corner_promoted g /\
  GameState.corner_evict_pending g' = GameState.corner_evict_pending g /\
  GameState.corner_in_corner g' = GameState.corner_in_corner g.
Proof.
  unfold record_move.
  set (g2 := GameState.set_recent_moves _ _).
  pose proof (count_position_corner g2 b) as Hc.
  pose proof (activate_two_stage_corner b (count_position sha1_key g2 b)) as Ha.
  destruct (activate_two_stage_if_needed b _) as [[? b4] g4]. simpl in *.
  destruct Ha as (-> & -> & -> & -> & _), Hc as (-> & -> & -> & -> & _).
  done.
Qed.

(** A real move that is neither rejected by the duel lock nor a capture
    from an empty square. *)
Lemma board_do_move_real g b sr sc er ec :
  GameState.chess_lock g && (negb (_in8 sr sc) || negb (_in8 er ec)) = false ->
  is_Some_b (Board.get b er ec) && negb (is_Some_b (Board.get b sr sc)) = false ->
  board_do_move sha1_key (Some g) b sr sc er ec false =
    (inr (MkMove (Board.get b er ec)
            (match Board.get b sr sc with Some m => Piece.has_moved m | None => false end)
            (match Board.get b sr sc with Some m => Some (Piece.kind m) | None => None end)
            (snd (fst (relocate b sr sc er ec)))),
     activate_board (settle b sr sc er ec) (GameState.two_stage_active g),
     Some (snd (record_move sha1_key g (settle b sr sc er ec) (Board.get b sr sc) sr sc er ec))).
Proof.
  intros Hlock Hcap. unfold board_do_move. simpl gs_chess_lock. rewrite Hlock.
  destruct (relocate b sr sc er ec) as [[b2 eff] mv] eqn:Hrel. rewrite Hcap.
  pose proof (record_move_board g (settle b sr sc er ec) (Board.get b sr sc) sr sc er ec) as Hb.
  destruct (record_move _ _ _ _ _ _ _ _) as [b4 g4]. simpl in *. by rewrite Hb.
Qed.

(** No call of [board_do_move] writes any of the four sanctuary
    dictionaries: [_handle_corner_entry] and [_update_corner_state] are
    called only from the statements that follow [return moves] in
    [gen_moves] (lines 1628-1716), which never run. *)
Lemma board_do_move_keeps_corner_state g b sr sc er ec simulate :
  match snd (board_do_move sha1_key (Some g) b sr sc er ec simulate) with
  | Some g' =>
      GameState.corner_immune g' = GameState.corner_immune g /\
      GameState.corner_promoted g' = GameState.corner_promoted g /\
      GameState.corner_evict_pending g' = GameState.corner_evict_pending g /\
      GameState.corner_in_corner g' = GameState.corner_in_corner g
  | None => False
  end.
Proof.
  unfold board_do_move.
  destruct (gs_chess_lock _ && _); [by destruct simulate|].
  destruct (relocate b sr sc er ec) as [[b2 eff] mv].
  destruct simulate; [done|].
  destruct (is_Some_b _ && _); [done|].
  pose proof (record_move_corner g (settle b sr sc er ec) (Board.get b sr sc) sr sc er ec) as H.
  by destruct (record_move _ _ _ _ _ _ _ _) as [b4 g4].
Qed.

End RealMove.

(** ** Turn update *)

(** C8 (evaluation at the failing input).  White, moving in normal
    rotation, has checked both Grey and Black.  The drag-and-drop update
    advances [turn_i] to Grey first and then leaves Grey out of the victims:
    Black becomes the forced seat although Grey, also in check, comes first
    clockwise from the mover.  The click/AI update, which tests against the
    mover, forces Grey. *)
Theorem drag_turn_update_forces_wrong_seat :
  let gs := Some GameState.init in
  fst (king_in_check gs double_check_position GREY) = true /\
  fst (king_in_check gs double_check_position BLACK) = true /\
  fst (king_in_check gs double_check_position PINK) = false /\
  clockwise_from WHITE [GREY; BLACK] = Some GREY /\
  fst (turn_update_drag gs double_check_position (MkCursor 0 None))
    = MkCursor 1 (Some BLACK) /\
  fst (turn_update_click gs double_check_position (MkCursor 0 None))
    = MkCursor 1 (Some GREY).
Proof. vm_compute. repeat split. Qed.

(** ** Simulation under the duel lock *)

(** C2 (evaluation at the failing input).  In the seeded duel the White
    rook on (9,2) has the pseudo-legal move to (9,1), outside the 8x8.
    [board_do_move] with [simulate=True] returns [(None, False, None, {})]
    without touching the board, and [board_undo_move], given that tuple,
    moves the empty destination back onto the source: the rook is gone. *)
Theorem undo_after_locked_simulation_drops_the_mover (sha1_key : string -> Z) :
  let '(b, g) := duel_start in
  GameState.chess_lock g = true /\
  In (9, 1) (fst (gen_moves (Some g) b 9 2)) /\
  Board.get b 9 2 = Some (Piece.Build 64 Rook WHITE false) /\
  match board_do_move sha1_key (Some g) b 9 2 9 1 true with
  | (inr m, b1, _) =>
      m = MkMove None false None ∅ /\ b1 = b /\
      Board.get (board_undo_move b1 9 2 9 1 m) 9 2 = None
  | (inl _, _, _) => False
  end.
Proof. vm_compute. repeat split. tauto. Qed.

(** C1 (evaluation at the failing input).  Under the duel lock (no
    python-chess, so the original filter runs) the White king on (9,6) is
    in check.  The simulation of its first step out of the 8x8 is undone as
    above and removes the king; with no king left [king_in_check] is false,
    and the filter returns the steps to (10,6) and (10,7).  Applied to the
    position, the returned move (9,6)->(10,6) leaves the king in check. *)
Theorem locked_filter_returns_move_leaving_check (sha1_key : string -> Z) :
  let gs := Some (snd duel_start) in
  fst (king_in_check gs duel_check_position WHITE) = true /\
  fst (legal_moves_for_piece sha1_key gs duel_check_position 9 6)
    = [(9, 6, 8, 5); (9, 6, 8, 7); (9, 6, 9, 5); (9, 6, 9, 7);
       (9, 6, 10, 6); (9, 6, 10, 7)] /\
  Board.get (snd (legal_moves_for_piece sha1_key gs duel_check_position 9 6)) 9 6 = None /\
  match board_do_move sha1_key gs duel_check_position 9 6 10 6 true with
  | (inr _, b', _) => fst (king_in_check gs b' WHITE) = true
  | (inl _, _, _) => False
  end.
Proof. vm_compute. repeat split. Qed.

(** ** Promotion *)

(** C6 (counterexample).  A White pawn stepping from (3,10) to (2,10) is
    promoted although (2,10) is not a square of the 8x8 arena. *)
Lemma pawn_promotes_outside_the_arena :
  In (2, 10) (fst (gen_moves (Some GameState.init) flank_pawn_position 3 10)) /\
  in_chess_area 2 10 = false /\
  match board_do_move no_key (Some GameState.init) flank_pawn_position 3 10 2 10 true with
  | (inr m, b', _) =>
      Board.get flank_pawn_position 3 10 = Some (Piece.Build 0 Pawn WHITE true) /\
      Board.get b' 2 10 = Some (Piece.Build 0 Queen WHITE true) /\
      promoted_flag (effects m) = true
  | (inl _, _, _) => False
  end.
Proof. vm_compute. repeat split. tauto. Qed.

(** ** Repetition counting *)

Section Repetition.

Variable sha1_key : string -> Z.

Lemma count_position_counts g b :
  let key := _position_key sha1_key g b in
  let g' := count_position sha1_key g b in
  GameState.pos_counts g' = <[key := pos_count g key + 1]> (GameState.pos_counts g) /\
  (3 <= pos_count g key + 1 -> GameState._draw_by_repetition g' = true) /\
  (pos_count g key + 1 < 3 ->
     GameState._draw_by_repetition g' = GameState._draw_by_repetition g).
Proof.
  unfold count_position, pos_count.
  destruct (3 <=? _) eqn:Hge; simpl; repeat split; try done; lia.
Qed.

Lemma count_position_first g b :
  GameState.pos_counts g = ∅ ->
  count_position sha1_key g b
  = GameState.set_pos_counts {[ _position_key sha1_key g b := 1 ]} g.
Proof.
  intros Hempty. unfold count_position. rewrite Hempty, lookup_empty. simpl.
  by rewrite insert_empty.
Qed.

End Repetition.

Lemma in_zrange lo n x : lo <= x < lo + Z.of_nat n -> In x (zrange lo n).
Proof.
  intros Hx. unfold zrange. apply in_map_iff. exists (Z.to_nat (x - lo)).
  split; [lia|]. apply in_seq. lia.
Qed.

Lemma in_all_squares r c : Board.in_bounds r c = true -> In (r, c) all_squares.
Proof.
  rewrite in_bounds_spec. intros [Hr Hc]. unfold all_squares.
  apply in_flat_map. exists r. split; [apply in_zrange; lia|].
  apply in_map. apply in_zrange. lia.
Qed.

Lemma all_squares_NoDup : NoDup all_squares.
Proof.
  apply (bool_decide_eq_true_1 (NoDup all_squares)). vm_compute. reflexivity.
Qed.

(** ** The position string *)

Lemma string_app_cons a s t : String a s +:+ t = String a (s +:+ t).
Proof. reflexivity. Qed.

Lemma string_app_nil_l s : "" +:+ s = s.
Proof. reflexivity. Qed.

Lemma chars_app s t :
  String.list_ascii_of_string (s +:+ t)
  = String.list_ascii_of_string s ++ String.list_ascii_of_string t.
Proof.
  induction s as [|a s IH]; [done|]. rewrite string_app_cons. simpl. by rewrite IH.
Qed.

Lemma string_app_assoc s t u : (s +:+ t) +:+ u = s +:+ (t +:+ u).
Proof.
  induction s as [|a s IH]; [done|]. rewrite !string_app_cons. by rewrite IH.
Qed.

Lemma string_app_nil_r s : s +:+ "" = s.
Proof.
  induction s as [|a s IH]; [done|]. rewrite string_app_cons. by rewrite IH.
Qed.

(** Two strings cut at the first occurrence of a separator. *)
Lemma app_sep_inj a s1 s2 t1 t2 :
  ~ In a (String.list_ascii_of_string s1) ->
  ~ In a (String.list_ascii_of_string s2) ->
  s1 +:+ String a t1 = s2 +:+ String a t2 -> s1 = s2 /\ t1 = t2.
Proof.
  revert s2. induction s1 as [|x s1 IH]; intros [|y s2] H1 H2 Heq;
    rewrite ?string_app_cons, ?string_app_nil_l in Heq; simpl in H1, H2.
  - by injection Heq as ->.
  - injection Heq as -> _. destruct H2. by left.
  - injection Heq as -> _. destruct H1. by left.
  - injection Heq as -> Heq.
    destruct (IH s2) as [-> ->]; [tauto|tauto|done|done].
Qed.

Ltac in_list := solve [simpl; repeat (first [left; reflexivity | right])].

Ltac digit_cases :=
  first [ in_list
        | match goal with p : positive |- _ => destruct p; digit_cases end ].

Lemma pretty_N_char_numeric n : numeric (pretty_N_char n).
Proof.
  unfold pretty_N_char, numeric. destruct n as [|p]; digit_cases.
Qed.

Lemma pretty_N_go_chars x s a :
  In a (String.list_ascii_of_string (pretty_N_go x s)) ->
  numeric a \/ In a (String.list_ascii_of_string s).
Proof.
  revert s. induction (N.lt_wf_0 x) as [x _ IH]; intros s.
  destruct (decide (x = 0%N)) as [->|Hx].
  - rewrite pretty_N_go_0. auto.
  - rewrite pretty_N_go_step by lia. intros H. apply IH in H.
    + destruct H as [H|[<-|H]]; auto. left. apply pretty_N_char_numeric.
    + apply N.div_lt; lia.
Qed.

(** [str(n)] is made of digits and the minus sign. *)
Lemma pretty_Z_chars (z : Z) a :
  In a (String.list_ascii_of_string (pretty z)) -> numeric a.
Proof.
  assert (Hpos : forall p : positive,
            In a (String.list_ascii_of_string (pretty p)) -> numeric a).
  { intros p. unfold pretty, pretty_positive, pretty, pretty_N.
    destruct (decide (N.pos p = 0%N)) as [|_]; [done|].
    intros H. by apply pretty_N_go_chars in H as [H|[]]. }
  unfold pretty at 1, pretty_Z. destruct z as [|p|p].
  - intros [<-|[]]. unfold numeric. in_list.
  - exact (Hpos p).
  - rewrite string_app_cons, string_app_nil_l. simpl.
    intros [<-|H]; [unfold numeric; in_list|exact (Hpos p H)].
Qed.

Lemma comma_not_numeric : ~ numeric ",".
Proof. unfold numeric. simpl. intros H. repeat (destruct H as [H|H]; [discriminate H|]). done. Qed.

Lemma semicolon_not_numeric : ~ numeric ";".
Proof. unfold numeric. simpl. intros H. repeat (destruct H as [H|H]; [discriminate H|]). done. Qed.

Lemma t_not_numeric : ~ numeric "t".
Proof. unfold numeric. simpl. intros H. repeat (destruct H as [H|H]; [discriminate H|]). done. Qed.

Lemma pretty_sep_inj (a : ascii) (x y : Z) t1 t2 :
  ~ numeric a ->
  pretty x +:+ String a t1 = pretty y +:+ String a t2 -> x = y /\ t1 = t2.
Proof.
  intros Ha Heq. apply app_sep_inj in Heq as [Heq ->].
  - split; [|done]. by apply (inj pretty).
  - intros H. by apply pretty_Z_chars in H.
  - intros H. by apply pretty_Z_chars in H.
Qed.

Lemma position_string_parts g b :
  position_string g b
  = String.concat "" (cell_strings b all_squares) +:+ state_string g.
Proof. reflexivity. Qed.

Lemma concat_empty_cons x xs :
  String.concat "" (x :: xs) = x +:+ String.concat "" xs.
Proof.
  destruct xs as [|y ys]; [by rewrite string_app_nil_r|].
  change (String.concat "" (x :: y :: ys))
    with (x +:+ ("" +:+ String.concat "" (y :: ys))).
  by rewrite string_app_nil_l.
Qed.

Lemma PColor_value_inj c1 c2 : PColor_value c1 = PColor_value c2 -> c1 = c2.
Proof. by destruct c1, c2. Qed.

(** An entry followed by anything is read back: square, kind, seat,
    has-moved flag and what follows. *)
Lemma cell_string_inj r c p t r' c' p' t' :
  cell_string r c p +:+ t = cell_string r' c' p' +:+ t' ->
  r = r' /\ c = c' /\ piece_view p = piece_view p' /\ t = t'.
Proof.
  unfold cell_string, piece_view.
  rewrite !string_app_assoc, !string_app_cons, !string_app_nil_l.
  intros H.
  apply pretty_sep_inj in H as [-> H]; [|exact comma_not_numeric].
  apply pretty_sep_inj in H as [-> H]; [|exact comma_not_numeric].
  assert (Hk : Piece.kind p = Piece.kind p' /\
               pretty (PColor_value (Piece.color p)) +:+
                 String "," ((if Piece.has_moved p then "1" else "0") +:+ String ";" t)
               = pretty (PColor_value (Piece.color p')) +:+
                 String "," ((if Piece.has_moved p' then "1" else "0") +:+ String ";" t')).
  { destruct (Piece.kind p), (Piece.kind p');
      rewrite ?string_app_cons, ?string_app_nil_l in H;
      first [discriminate H | by injection H as H]. }
  destruct Hk as [-> Hk].
  apply pretty_sep_inj in Hk as [Hcol Hm]; [|exact comma_not_numeric].
  apply PColor_value_inj in Hcol. rewrite Hcol.
  destruct (Piece.has_moved p), (Piece.has_moved p');
    rewrite ?string_app_cons, ?string_app_nil_l in Hm;
    first [discriminate Hm | by injection Hm as ->].
Qed.

(** An entry starts with a digit, a minus sign or a comma, never with the
    [t] of [two_stage]. *)
Lemma cell_string_head r c p t s : cell_string r c p +:+ t <> String "t" s.
Proof.
  unfold cell_string. rewrite !string_app_assoc.
  destruct (pretty r) as [|a u] eqn:Hr.
  - rewrite !string_app_nil_l, !string_app_cons. discriminate.
  - rewrite string_app_cons. intros [= -> _].
    apply t_not_numeric, (pretty_Z_chars r). rewrite Hr. by left.
Qed.

Lemma state_string_head g : exists s, state_string g = String "t" s.
Proof. unfold state_string. rewrite string_app_cons. by eexists. Qed.

Lemma cell_strings_cons b r c l :
  cell_strings b ((r, c) :: l)
  = match Board.get b r c with
    | Some p => cell_string r c p :: cell_strings b l
    | None => cell_strings b l
    end.
Proof. unfold cell_strings. cbn [List.flat_map]. by destruct (Board.get b r c). Qed.

(** The entry of a square is not the start of the entries of other
    squares, nor of the part on the state. *)
Lemma cell_string_not_later r c p t b l s :
  ~ In (r, c) l ->
  cell_string r c p +:+ t <> String.concat "" (cell_strings b l) +:+ String "t" s.
Proof.
  induction l as [|[r' c'] l IH]; intros Hnot.
  - change (cell_strings b []) with (@nil string).
    change (String.concat "" []) with "". rewrite string_app_nil_l.
    apply cell_string_head.
  - rewrite cell_strings_cons.
    destruct (Board.get b r' c') as [p'|].
    + rewrite concat_empty_cons, string_app_assoc. intros H.
      apply cell_string_inj in H as (-> & -> & _). apply Hnot. by left.
    + apply IH. intros Hin. apply Hnot. by right.
Qed.

(** The entries of the squares followed by the part on the state are read
    back square by square. *)
Lemma cell_strings_inj b1 b2 l s1 s2 :
  NoDup l ->
  String.concat "" (cell_strings b1 l) +:+ String "t" s1
  = String.concat "" (cell_strings b2 l) +:+ String "t" s2 ->
  (forall r c, In (r, c) l ->
     option_map piece_view (Board.get b1 r c)
     = option_map piece_view (Board.get b2 r c)) /\
  s1 = s2.
Proof.
  induction l as [|[r c] l IH]; intros Hnd Heq.
  - change (cell_strings b1 []) with (@nil string) in Heq.
    change (cell_strings b2 []) with (@nil string) in Heq.
    change (String.concat "" []) with "" in Heq.
    rewrite !string_app_nil_l in Heq. injection Heq as ->. by split; [intros r c []|].
  - apply NoDup_cons in Hnd as [Hnot Hnd].
    assert (Hnot' : ~ In (r, c) l) by (by rewrite <- list_elem_of_In).
    rewrite !cell_strings_cons in Heq.
    destruct (Board.get b1 r c) as [p1|] eqn:H1, (Board.get b2 r c) as [p2|] eqn:H2.
    + rewrite !concat_empty_cons, !string_app_assoc in Heq.
      apply cell_string_inj in Heq as (_ & _ & Hview & Heq).
      destruct (IH Hnd Heq) as [Hall ->]. split; [|done].
      intros r' c' [[= <- <-]|Hin]; [by rewrite H1, H2; simpl; f_equal|by apply Hall].
    + rewrite concat_empty_cons, string_app_assoc in Heq.
      exact (False_ind _ (cell_string_not_later _ _ _ _ _ _ _ Hnot' Heq)).
    + rewrite concat_empty_cons, string_app_assoc in Heq. symmetry in Heq.
      exact (False_ind _ (cell_string_not_later _ _ _ _ _ _ _ Hnot' Heq)).
    + destruct (IH Hnd Heq) as [Hall ->]. split; [|done].
      intros r' c' [[= <- <-]|Hin]; [by rewrite H1, H2|by apply Hall].
Qed.

(** The part on the state is read back: flag, directions, parity. *)
Lemma state_string_inj g1 g2 :
  state_string g1 = state_string g2 ->
  GameState.two_stage_active g1 = GameState.two_stage_active g2 /\
  (forall col, PerSeat.get (GameState.pawn_dir g1) col
               = PerSeat.get (GameState.pawn_dir g2) col) /\
  GameState.turn_counter g1 mod 2 = GameState.turn_counter g2 mod 2.
Proof.
  unfold state_string.
  cbn [List.map TURN_ORDER String.concat].
  rewrite !string_app_assoc, !string_app_cons, !string_app_nil_l.
  intros H.
  assert (Hflag : GameState.two_stage_active g1 = GameState.two_stage_active g2).
  { destruct (GameState.two_stage_active g1), (GameState.two_stage_active g2);
      rewrite ?string_app_cons, ?string_app_nil_l in H;
      repeat (injection H as H); first [done|discriminate H]. }
  split; [done|]. rewrite Hflag in H.
  destruct (GameState.two_stage_active g2);
    rewrite ?string_app_cons, ?string_app_nil_l in H;
    repeat (injection H as H);
    (apply pretty_sep_inj in H as [Hw H]; [|exact comma_not_numeric]);
    (apply pretty_sep_inj in H as [Hg H]; [|exact comma_not_numeric]);
    (apply pretty_sep_inj in H as [Hb H]; [|exact comma_not_numeric]);
    (apply pretty_sep_inj in H as [Hp H]; [|exact semicolon_not_numeric]);
    repeat (injection H as H);
    (apply pretty_sep_inj in H as [Ht _]; [|exact semicolon_not_numeric]);
    (split; [by intros []|done]).
Qed.

(** The string [_position_key] hashes tells two positions apart exactly
    when they differ in what [same_position] compares. *)
Lemma position_string_inj g1 b1 g2 b2 :
  position_string g1 b1 = position_string g2 b2 <-> same_position g1 b1 g2 b2.
Proof.
  rewrite !position_string_parts. unfold same_position. split.
  - intros H.
    destruct (state_string_head g1) as [s1 Hs1], (state_string_head g2) as [s2 Hs2].
    rewrite Hs1, Hs2 in H.
    apply cell_strings_inj in H as [Hcells Hs]; [|exact all_squares_NoDup].
    split.
    { intros r c. destruct (Board.in_bounds r c) eqn:Hin.
      - by apply Hcells, in_all_squares.
      - by rewrite !get_out_of_bounds. }
    apply state_string_inj. by rewrite Hs1, Hs2, Hs.
  - intros (Hcells & Hflag & Hdir & Hpar).
    assert (Hc : cell_strings b1 all_squares = cell_strings b2 all_squares).
    { unfold cell_strings. apply flat_map_ext. intros [r c].
      specialize (Hcells r c).
      destruct (Board.get b1 r c) as [p1|], (Board.get b2 r c) as [p2|];
        try discriminate Hcells; [|done].
      injection Hcells as Hk Hcol Hm. unfold cell_string. by rewrite Hk, Hcol, Hm. }
    rewrite Hc. f_equal. unfold state_string.
    cbn [List.map TURN_ORDER]. by rewrite Hflag, !Hdir, Hpar.
Qed.

Lemma string_code_pos s : 0 < string_code s.
Proof.
  induction s as [|a s IH]; simpl; [lia|].
  pose proof (N2Z.is_nonneg (N_of_ascii a)). lia.
Qed.

Lemma string_code_inj s1 s2 : string_code s1 = string_code s2 -> s1 = s2.
Proof.
  revert s2. induction s1 as [|a s1 IH]; intros [|a' s2]; simpl; intros H.
  - done.
  - pose proof (string_code_pos s2). pose proof (N2Z.is_nonneg (N_of_ascii a')). lia.
  - pose proof (string_code_pos s1). pose proof (N2Z.is_nonneg (N_of_ascii a)). lia.
  - pose proof (N_ascii_bounded a) as Ha. pose proof (N_ascii_bounded a') as Ha'.
    assert (Hd : N_of_ascii a = N_of_ascii a') by lia.
    assert (Hs : string_code s1 = string_code s2) by lia.
    f_equal; [|by apply IH].
    by rewrite <- (ascii_N_embedding a), <- (ascii_N_embedding a'), Hd.
Qed.

(** C7.  A real move that [board_do_move] applies with a game state
    present adds one to the counter of the key of the position it produced
    (the board after the move, with the two-stage flag, the pawn directions
    and the turn parity of the state) and leaves the other counters alone;
    when that counter reaches three the draw flag is set, whoever moved; so
    a state in which every key counted three times is flagged stays so.
    The key is the hash of a string that is the same for two positions
    exactly when they agree on the piece of every square (kind, seat and
    has-moved flag), on the two-stage flag, on the pawn direction of the
    four seats and on the parity of the turn counter: such positions share
    their key, and a hash without collisions gives any other two different
    keys. *)
Theorem real_move_counts_position (sha1_key : string -> Z) g b sr sc er ec res b' g' :
  board_do_move sha1_key (Some g) b sr sc er ec false = (inr res, b', Some g') ->
  let key := _position_key sha1_key g (settle b sr sc er ec) in
  GameState.pos_counts g'
    = <[key := pos_count g key + 1]> (GameState.pos_counts g) /\
  (3 <= pos_count g key + 1 -> GameState._draw_by_repetition g' = true) /\
  (repetition_flagged g -> repetition_flagged g') /\
  (forall g1 b1 g2 b2,
     (position_string g1 b1 = position_string g2 b2 <-> same_position g1 b1 g2 b2) /\
     (same_position g1 b1 g2 b2 ->
      _position_key sha1_key g1 b1 = _position_key sha1_key g2 b2) /\
     ((forall s1 s2, sha1_key s1 = sha1_key s2 -> s1 = s2) ->
      _position_key sha1_key g1 b1 = _position_key sha1_key g2 b2 ->
      same_position g1 b1 g2 b2)).
Proof.
  intros Hdo key.
  assert (Hkey : forall g1 b1 g2 b2,
     (position_string g1 b1 = position_string g2 b2 <-> same_position g1 b1 g2 b2) /\
     (same_position g1 b1 g2 b2 ->
      _position_key sha1_key g1 b1 = _position_key sha1_key g2 b2) /\
     ((forall s1 s2, sha1_key s1 = sha1_key s2 -> s1 = s2) ->
      _position_key sha1_key g1 b1 = _position_key sha1_key g2 b2 ->
      same_position g1 b1 g2 b2)).
  { intros g1 b1 g2 b2. split; [apply position_string_inj|]. split.
    - intros Hsame. unfold _position_key. f_equal. by apply position_string_inj.
    - intros Hinj Heq. apply position_string_inj, Hinj. exact Heq. }
  unfold board_do_move in Hdo.
  destruct (gs_chess_lock _ && _); [done|].
  destruct (relocate b sr sc er ec) as [[b2 eff] mv].
  destruct (is_Some_b _ && _); [done|].
  destruct (record_move _ _ _ _ _ _ _ _) as [b4 g4] eqn:Hrec.
  injection Hdo as <- <- <-.
  unfold record_move in Hrec.
  set (g2 := GameState.set_recent_moves _ _) in Hrec.
  pose proof (count_position_counts sha1_key g2 (settle b sr sc er ec)) as Hc.
  pose proof (activate_two_stage_corner (settle b sr sc er ec)
                (count_position sha1_key g2 (settle b sr sc er ec))) as Ha.
  destruct (activate_two_stage_if_needed _ _) as [[? b5] g5].
  injection Hrec as <- <-. simpl in Hc, Ha.
  destruct Ha as (_ & _ & _ & _ & _ & Hpc & Hdraw).
  destruct Hc as (Hcnt & Hthree & Hkeep).
  change (_position_key sha1_key g2 (settle b sr sc er ec)) with key in *.
  change (pos_count g2 key) with (pos_count g key) in *.
  change (GameState.pos_counts g2) with (GameState.pos_counts g) in *.
  change (GameState._draw_by_repetition g2) with (GameState._draw_by_repetition g) in *.
  rewrite Hpc, Hdraw. split; [done|]. split; [done|]. split; [|exact Hkey].
  intros Hinv k n Hk Hn. rewrite Hpc, Hcnt in Hk. rewrite Hdraw.
  destruct (decide (3 <= pos_count g key + 1)) as [Hge|Hlt]; [by apply Hthree|].
  rewrite Hkeep by lia.
  destruct (decide (k = key)) as [->|Hne].
  - rewrite lookup_insert_eq in Hk. injection Hk as <-. lia.
  - rewrite lookup_insert_ne in Hk by done. by apply (Hinv k n).
Qed.

Lemma real_move_counts_position_witness :
  match board_do_move string_code (Some GameState.init) (Board_init 0) 10 2 9 2 false
  with
  | (inr _, _, Some g') =>
      let key := _position_key string_code GameState.init
                   (settle (Board_init 0) 10 2 9 2) in
      GameState.pos_counts g' = {[ key := 1 ]} /\
      key <> _position_key string_code GameState.init (Board_init 0)
  | _ => False
  end.
Proof.
  assert (Hshape :
    match board_do_move string_code (Some GameState.init) (Board_init 0) 10 2 9 2 false
    with (inr _, _, Some _) => true | _ => false end = true)
    by (vm_compute; reflexivity).
  destruct (board_do_move string_code (Some GameState.init) (Board_init 0) 10 2 9 2 false)
    as [[[e|res] b'] [g'|]] eqn:Hdo;
    try discriminate Hshape.
  clear Hshape.
  pose proof (real_move_counts_position string_code GameState.init (Board_init 0)
                10 2 9 2 res b' g' Hdo) as H.
  cbv zeta in H |- *.
  pose proof (proj2 (proj2 (proj2 H))) as Hkey.
  pose proof (proj1 H) as H1.
  clear H. split.
  - etransitivity; [exact H1|].
    unfold pos_count.
    change (GameState.pos_counts GameState.init) with (∅ : gmap Z Z).
    rewrite lookup_empty. apply insert_empty.
  - intros Heq.
    destruct (Hkey GameState.init (settle (Board_init 0) 10 2 9 2) GameState.init
                (Board_init 0)) as (_ & _ & Hsame).
    destruct (Hsame string_code_inj Heq) as [Hcells _].
    specialize (Hcells 10 2). vm_compute in Hcells. discriminate Hcells.
Defined.

(** ** The corner sanctuary *)

(** C4 (evaluation at the failing input).  With four seats alive the White
    king steps from (10,2), outside every corner, to (10,1) in its home
    corner, by a real move and for the first time ([corner_promoted] is
    false).  Both White bishops are still bishops afterwards, White has no
    queen and [corner_promoted] is still false.  The same holds in the
    position of the repository's own test [test_king_corner_immunity],
    whose assertions expect the immunity flag and the queens. *)
Theorem corner_entry_promotes_no_bishop (sha1_key : string -> Z) :
  corner_owner_at 10 2 = None /\ corner_owner_at 10 1 = Some WHITE /\
  In (10, 2, 10, 1)
    (fst (legal_moves_for_piece sha1_key (Some GameState.init) corner_entry_position 10 2)) /\
  match board_do_move sha1_key (Some GameState.init) corner_entry_position 10 2 10 1 false with
  | (inr _, b', Some g') =>
      Board.get b' 10 1 = Some (Piece.Build 0 King WHITE true) /\
      Board.get b' 6 6 = Some (Piece.Build 1 Bishop WHITE false) /\
      Board.get b' 7 7 = Some (Piece.Build 2 Bishop WHITE false) /\
      _pieces_of_kind b' WHITE Queen = [] /\
      PerSeat.get (GameState.corner_promoted g') WHITE = false
  | _ => False
  end /\
  match board_do_move sha1_key (Some GameState.init) corner_test_position 10 1 11 1 false with
  | (inr _, b', Some g') =>
      PerSeat.get (GameState.corner_immune g') WHITE = false /\
      _pieces_of_kind b' WHITE Queen = []
  | _ => False
  end.
Proof.
  split; [done|]. split; [done|]. split; [vm_compute; tauto|].
  rewrite !board_do_move_real by (vm_compute; reflexivity).
  split.
  - split; [vm_compute; reflexivity|]. split; [vm_compute; reflexivity|].
    split; [vm_compute; reflexivity|]. split; [vm_compute; reflexivity|].
    by rewrite (proj1 (proj2 (record_move_corner _ _ _ _ _ _ _ _))).
  - split; [|vm_compute; reflexivity].
    by rewrite (proj1 (record_move_corner _ _ _ _ _ _ _ _)).
Qed.

(** C3 (evaluation at the failing input).  The White king stands on (11,1)
    in its home corner and White has three queens.  Black plays the legal
    rook move (5,5)->(11,5).  In the state the move leaves, the king is
    still in its corner, the three queens are still there, the immunity
    flag of White is false and [king_in_check] reports White in check. *)
Theorem sanctuary_king_is_reported_in_check (sha1_key : string -> Z) :
  In (5, 5, 11, 5)
    (fst (legal_moves_for_piece sha1_key (Some GameState.init) sanctuary_position 5 5)) /\
  match board_do_move sha1_key (Some GameState.init) sanctuary_position 5 5 11 5 false with
  | (inr _, b', Some g') =>
      fst (Board.find_king b' WHITE) = Some (11, 1) /\
      corner_owner_at 11 1 = Some WHITE /\
      length (_pieces_of_kind b' WHITE Queen) = 3%nat /\
      PerSeat.get (GameState.corner_immune g') WHITE = false /\
      fst (king_in_check (Some g') b' WHITE) = true
  | _ => False
  end.
Proof.
  split; [vm_compute; tauto|].
  rewrite board_do_move_real by (vm_compute; reflexivity).
  split; [vm_compute; reflexivity|]. split; [done|].
  split; [vm_compute; reflexivity|].
  split; [by rewrite (proj1 (record_move_corner _ _ _ _ _ _ _ _))|].
  unfold record_move.
  rewrite count_position_first by reflexivity.
  vm_compute. reflexivity.
Qed.

(** ** Duel seeding *)

(** A well-formed grid is a literal of twelve rows of twelve cells. *)
Ltac explode_grid g Hwf :=
  let Hlen := fresh "Hlen" in
  let Hrows := fresh "Hrows" in
  destruct Hwf as [Hlen Hrows];
  do 12 (let row := fresh "row" in destruct g as [|row g]; [discriminate|]);
  destruct g; [|discriminate];
  repeat match goal with
         | H : Forall _ (_ :: _) |- _ => apply Forall_cons in H; destruct H as [? H]
         end;
  repeat match goal with
         | H : length ?row = 12%nat |- _ =>
             do 12 (let x := fresh "x" in destruct row as [|x row]; [discriminate|]);
             destruct row; [clear H|discriminate]
         end.

(** Every cell is written by [_enter_duel_kqbb], so the seeded cells do not
    depend on the board it received. *)
Lemma seed_duel_board_grid fresh bd :
  wf_grid (Board.grid bd) ->
  Board.grid (seed_duel_board fresh bd)
  = Board.grid (seed_duel_board fresh Board_empty).
Proof.
  intros Hwf. destruct bd as [g kp]. simpl in Hwf.
  explode_grid g Hwf. clear.
  vm_compute. reflexivity.
Qed.

Lemma seed_duel_board_white_king fresh bd :
  PerSeat.get (Board.king_positions (seed_duel_board fresh bd)) WHITE = Some (9, 6).
Proof. vm_compute. reflexivity. Qed.

Lemma coordinate_cases (r : Z) :
  0 <= r < 12 ->
  r = 0 \/ r = 1 \/ r = 2 \/ r = 3 \/ r = 4 \/ r = 5 \/
  r = 6 \/ r = 7 \/ r = 8 \/ r = 9 \/ r = 10 \/ r = 11.
Proof. lia. Qed.

(** [find_king] and the scans over the seats only refresh the cache. *)
Lemma get_same_grid b b' r c :
  Board.grid b = Board.grid b' -> Board.get b r c = Board.get b' r c.
Proof. intros H. unfold Board.get. by rewrite H. Qed.

Lemma find_king_grid b col : Board.grid (snd (Board.find_king b col)) = Board.grid b.
Proof.
  unfold Board.find_king.
  destruct (PerSeat.get _ col) as [pos|];
    [destruct (Board.is_king_of _ _); [done|]|];
    by destruct (Board.scan_king b col).
Qed.

Lemma find_king_cache_other b col col' :
  col <> col' ->
  PerSeat.get (Board.king_positions (snd (Board.find_king b col))) col'
  = PerSeat.get (Board.king_positions b) col'.
Proof.
  intros Hne. unfold Board.find_king.
  destruct (PerSeat.get _ col) as [pos|];
    [destruct (Board.is_king_of _ _); [done|]|];
    destruct (Board.scan_king b col); simpl; by rewrite PerSeat_get_set_ne.
Qed.

Lemma find_king_cached b col pos :
  PerSeat.get (Board.king_positions b) col = Some pos ->
  Board.is_king_of col (Board.get b (fst pos) (snd pos)) = true ->
  Board.find_king b col = (Some pos, b).
Proof. intros Hc Hk. unfold Board.find_king. by rewrite Hc, Hk. Qed.

Lemma alive_among_grid b cols :
  Board.grid (snd (Board.alive_among b cols)) = Board.grid b.
Proof.
  revert b. induction cols as [|col cols IH]; intros b; [done|]. simpl.
  pose proof (find_king_grid b col) as Hg.
  destruct (Board.find_king b col) as [kp b1]. simpl in Hg.
  specialize (IH b1). destruct (Board.alive_among b1 cols) as [l b2].
  simpl in *. congruence.
Qed.

(** A colour whose cached king position is right is reported alive. *)
Lemma alive_among_cached b cols col pos :
  In col cols ->
  PerSeat.get (Board.king_positions b) col = Some pos ->
  Board.is_king_of col (Board.get b (fst pos) (snd pos)) = true ->
  color_in col (fst (Board.alive_among b cols)) = true.
Proof.
  revert b. induction cols as [|c cols IH]; intros b Hin Hc Hk; [done|]. simpl.
  destruct (decide (c = col)) as [->|Hne].
  - rewrite (find_king_cached b col pos) by done.
    destruct (Board.alive_among b cols) as [l b2]. simpl.
    by rewrite bool_decide_eq_true_2.
  - destruct Hin as [?|Hin]; [done|].
    pose proof (find_king_grid b c) as Hg.
    pose proof (find_king_cache_other b c col Hne) as Hco.
    destruct (Board.find_king b c) as [kp b1]. simpl in Hg, Hco.
    specialize (IH b1 Hin). rewrite Hco, (get_same_grid b1 b) in IH by done.
    specialize (IH Hc Hk).
    destruct (Board.alive_among b1 cols) as [l b2]. simpl in *.
    destruct kp; simpl; rewrite ?IH; by rewrite ?orb_true_r.
Qed.

Lemma advance_turn_index_cached b col pos :
  PerSeat.get (Board.king_positions b) col = Some pos ->
  Board.is_king_of col (Board.get b (fst pos) (snd pos)) = true ->
  fst (_advance_turn_index b (turn_index col)) = turn_index col.
Proof.
  intros Hcache Hking. unfold _advance_turn_index.
  pose proof (alive_among_cached b TURN_ORDER col pos) as Hin.
  unfold Board.alive_colors.
  destruct (Board.alive_among b TURN_ORDER) as [alive b1]. simpl in Hin.
  assert (Hcol : color_in col alive = true)
    by (apply Hin; [destruct col; simpl; tauto|done..]).
  destruct alive as [|a l]; [done|].
  cbn [fst]. change (advance_loop 4 (a :: l) (turn_index col)) with
    (if color_in (turn_order_at (turn_index col mod 4)) (a :: l)
     then turn_index col mod 4
     else advance_loop 3 (a :: l) ((turn_index col + 1) mod 4)).
  replace (turn_order_at (turn_index col mod 4)) with col by (by destruct col).
  rewrite Hcol. by destruct col.
Qed.

(** Under the duel lock the native generator gives a king its steps of one
    square and nothing else: the castling block is skipped. *)
Lemma king_moves_locked_steps gs b p r c er ec :
  gs_chess_lock gs = true ->
  In (er, ec) (fst (king_moves gs b p r c)) ->
  Z.abs (er - r) <= 1 /\ Z.abs (ec - c) <= 1.
Proof.
  intros Hlock. unfold king_moves. rewrite Hlock. cbn [negb andb].
  match goal with
  | |- context [List.flat_map ?f KING_STEPS] => set (steps := List.flat_map f KING_STEPS)
  end.
  assert (Hsteps : In (er, ec) steps -> Z.abs (er - r) <= 1 /\ Z.abs (ec - c) <= 1).
  { intros Hin. apply in_flat_map in Hin as ([dr dc] & Hd & Hin).
    assert (Hrc : er = r + dr /\ ec = c + dc).
    { destruct (negb (Board.in_bounds (r + dr) (c + dc))); [done|].
      destruct (foreign_corner _ _); [done|].
      destruct (Board.get b (r + dr) (c + dc)) as [tgt|].
      - destruct (capturable _ tgt); [|done]. destruct Hin as [[= <- <-]|[]]. done.
      - destruct Hin as [[= <- <-]|[]]. done. }
    destruct Hrc as [-> ->].
    unfold KING_STEPS in Hd. simpl in Hd.
    repeat (destruct Hd as [[= <- <-]|Hd]; [lia|]). done. }
  destruct (_ && bool_decide (corner_owner_at r c = Some (Piece.color p))); [|exact Hsteps].
  match goal with
  | |- context [List.filter ?f steps] =>
      pose proof (fun x => proj1 (filter_In f x steps)) as Hf;
      destruct (List.filter f steps) as [|x l]
  end; [exact Hsteps|].
  cbn [fst]. intros Hin. apply Hf in Hin as [Hin _]. by apply Hsteps.
Qed.

(** C5 (as the code has it).  Whatever board and state [_enter_duel_kqbb]
    receives, the board it leaves shows the standard chess position on the
    8x8 (White's back rank R,N,B,Q,K,B,N,R on row 9 and pawns on row 8,
    Black's on rows 2 and 3), thirty-two unmoved pieces in all, and no piece
    outside the 8x8; [chess_lock] is set; the turn counter is zero and the
    turn reset the call requests makes White the seat to move, with no
    forced seat.  Castling rights exist in the engine position only: with
    python-chess the position is built from the FEN whose castling field is
    KQkq and whose side to move is w; without it the state holds no engine
    position, and under the lock the native generator gives a king, moved
    or not, nothing but steps of one square. *)
Theorem enter_duel_seeds_standard_chess
    (_CHESS_OK : bool) (strong : PColor) (ticks : option Z) (fresh : nat)
    (bd : Board.t) (state : GameState.t) :
  wf_grid (Board.grid bd) ->
  let '(bd', state') := _enter_duel_kqbb _CHESS_OK strong ticks fresh bd state in
  grid_view (Board.grid bd') = standard_chess_position /\
  piece_count (Board.grid bd') = 32%nat /\
  (forall r c, _in8 r c = false -> Board.get bd' r c = None) /\
  GameState.chess_lock state' = true /\
  (_CHESS_OK = true ->
     GameState.chess_board state' = Some (ChessBoard.of_fen DUEL_START_FEN)) /\
  fen_fields DUEL_START_FEN ""
    = ["rnbqkbnr/pppppppp/8/8/8/8/PPPPPPPP/RNBQKBNR"; "w"; "KQkq"; "-"; "0"; "1"] /\
  GameState.turn_counter state' = 0 /\
  GameState._duel_turn_reset state' = true /\
  fst (_prepare_forced_duel_reset bd') = MkCursor (turn_index WHITE) None /\
  (_CHESS_OK = false -> GameState.chess_board state' = None) /\
  (forall b p r c er ec,
     In (er, ec) (fst (king_moves (Some state') b p r c)) ->
     Z.abs (er - r) <= 1 /\ Z.abs (ec - c) <= 1).
Proof.
  intros Hwf. unfold _enter_duel_kqbb.
  pose proof (seed_duel_board_grid fresh bd Hwf) as Hgrid.
  set (bd' := seed_duel_board fresh bd) in *.
  split; [rewrite Hgrid; vm_compute; reflexivity|].
  split; [rewrite Hgrid; vm_compute; reflexivity|].
  split.
  { intros r c Hout. unfold Board.get. rewrite Hgrid.
    destruct (Board.in_bounds r c) eqn:Hin; [|done].
    apply in_bounds_spec in Hin. destruct Hin as [Hr Hc].
    apply coordinate_cases in Hr, Hc.
    destruct Hr as [-> | [-> | [-> | [-> | [-> | [-> | [-> | [-> | [-> | [-> | [-> | ->]]]]]]]]]]];
      destruct Hc as [-> | [-> | [-> | [-> | [-> | [-> | [-> | [-> | [-> | [-> | [-> | ->]]]]]]]]]]];
    try (vm_compute in Hout; discriminate Hout); vm_compute; reflexivity. }
  split; [by destruct ticks, (GameState.turn_i _)|].
  split; [intros ->; by destruct ticks, (GameState.turn_i _)|].
  split; [vm_compute; reflexivity|].
  split; [by destruct ticks, (GameState.turn_i _)|].
  split; [by destruct ticks, (GameState.turn_i _)|].
  split.
  { unfold _prepare_forced_duel_reset.
    pose proof (advance_turn_index_cached bd' WHITE (9, 6)
                  (seed_duel_board_white_king fresh bd)) as Hadv.
    destruct (_advance_turn_index bd' (turn_index WHITE)) as [i b1].
    cbn [fst snd] in Hadv. rewrite Hadv; [done|].
    unfold Board.get. rewrite Hgrid. vm_compute. reflexivity. }
  split; [intros ->; by destruct ticks, (GameState.turn_i _)|].
  intros b p r c er ec. apply king_moves_locked_steps.
  by destruct ticks, (GameState.turn_i _).
Qed.

Lemma enter_duel_seeds_standard_chess_witness :
  wf_grid (Board.grid (Board_init 0)) /\
  grid_view (Board.grid (fst (_enter_duel_kqbb true BLACK (Some 5000) 64
                                (Board_init 0) GameState.init)))
  = standard_chess_position.
Proof.
  assert (Hwf : wf_grid (Board.grid (Board_init 0))).
  { split; [reflexivity|]. vm_compute. repeat constructor. }
  split; [exact Hwf|].
  pose proof (enter_duel_seeds_standard_chess true BLACK (Some 5000) 64
                (Board_init 0) GameState.init Hwf) as H.
  destruct (_enter_duel_kqbb _ _ _ _ _ _) as [bd' state'].
  exact (proj1 H).
Defined.

(** C5, as stated, fails on a host without python-chess: the seeded duel
    has no engine position, hence no castling field; and with the squares
    between the unmoved White king (9,6) and rook (9,9) cleared the king is
    offered its steps of one square only, not the castling move to (9,8). *)
Lemma duel_without_engine_has_no_castling :
  let '(b, g) := duel_start in
  let b1 := Board.set (Board.set b 9 7 None) 9 8 None in
  GameState.chess_lock g = true /\
  GameState.chess_board g = None /\
  Board.get b1 9 6 = Some (Piece.Build 68 King WHITE false) /\
  Board.get b1 9 9 = Some (Piece.Build 71 Rook WHITE false) /\
  Board.get b1 9 7 = None /\ Board.get b1 9 8 = None /\
  fst (legal_moves_for_piece_override no_key false absent_lib (Some g) b1 9 6
         (Some WHITE))
  = inr [(9, 6, 9, 7); (9, 6, 10, 5); (9, 6, 10, 6); (9, 6, 10, 7)].
Proof. vm_compute. repeat split. Qed.


(** C6 (amended).  Whenever [board_do_move] applies the move of a pawn
    (the duel lock does not reject it), right after the square update the
    destination holds that same pawn, marked as moved, as a queen if the
    destination lies on the promotion line of its seat (row [CH_MIN] for
    White, row [CH_MAX] for Black, column [CH_MAX] for Grey, column
    [CH_MIN] for Pink, anywhere along that line of the 12x12 board) and as
    a pawn otherwise; [effects] records the promotion in exactly the first
    case; a simulated move returns that board. *)
Theorem pawn_promotes_exactly_on_its_line (sha1_key : string -> Z)
    gs b sr sc er ec simulate p res b' gs' :
  wf_grid (Board.grid b) ->
  Board.get b sr sc = Some p ->
  Piece.kind p = Pawn ->
  Board.in_bounds er ec = true ->
  (gs_chess_lock gs = true -> _in8 sr sc = true /\ _in8 er ec = true) ->
  board_do_move sha1_key gs b sr sc er ec simulate = (inr res, b', gs') ->
  let updated := fst (fst (relocate b sr sc er ec)) in
  Board.get updated er ec
    = Some (Piece.Build (Piece.pid p)
              (if promotes_at (Piece.color p) er ec then Queen else Pawn)
              (Piece.color p) true) /\
  promoted_flag (effects res) = promotes_at (Piece.color p) er ec /\
  (simulate = true -> b' = updated).
Proof.
  intros Hwf Hp Hkind Hin Hlock Hdo updated.
  assert (Hupd : Board.get updated er ec
                 = Some (Piece.Build (Piece.pid p)
                           (if promotes_at (Piece.color p) er ec then Queen else Pawn)
                           (Piece.color p) true)
                 /\ promoted_flag (snd (fst (relocate b sr sc er ec)))
                    = promotes_at (Piece.color p) er ec).
  { subst updated. unfold relocate. rewrite Hp.
    unfold is_kind. rewrite Hkind, bool_decide_eq_true_2 by done. simpl andb.
    pose proof (set_wf b sr sc None Hwf) as Hwf1.
    pose proof (set_wf _ er ec (Some p) Hwf1) as Hwf2.
    pose proof (mutate_piece_wf _ er ec (Piece.pid p)
                  (fun p => Piece.set_has_moved p true) Hwf2) as Hwf3.
    destruct (promotes_at (Piece.color p) er ec); simpl.
    - split; [|done].
      rewrite mutate_piece_get, bool_decide_eq_true_2 by done.
      rewrite mutate_piece_get, bool_decide_eq_true_2 by done.
      rewrite get_set_eq by done.
      rewrite bool_decide_eq_true_2 by done. simpl.
      by rewrite bool_decide_eq_true_2.
    - split; [|done].
      rewrite mutate_piece_get, bool_decide_eq_true_2 by done.
      rewrite get_set_eq by done.
      rewrite bool_decide_eq_true_2 by done.
      unfold Piece.set_has_moved. by rewrite Hkind. }
  destruct Hupd as [Hget Hflag]. split; [done|].
  unfold board_do_move in Hdo.
  destruct (gs_chess_lock gs) eqn:Hl.
  - destruct (Hlock eq_refl) as [H1 H2]. rewrite H1, H2 in Hdo.
    simpl in Hdo. subst updated.
    destruct (relocate b sr sc er ec) as [[b2 eff] mv].
    destruct simulate.
    + injection Hdo as <- <- <-. by split.
    + destruct (is_Some_b _ && _); [done|].
      destruct gs as [g|]; [|done].
      destruct (record_move _ _ _ _ _ _ _ _).
      injection Hdo as <- <- <-. by split.
  - simpl in Hdo. subst updated.
    destruct (relocate b sr sc er ec) as [[b2 eff] mv].
    destruct simulate.
    + injection Hdo as <- <- <-. by split.
    + destruct (is_Some_b _ && _); [done|].
      destruct gs as [g|].
      * destruct (record_move _ _ _ _ _ _ _ _).
        injection Hdo as <- <- <-. by split.
      * injection Hdo as <- <- <-. by split.
Qed.

Lemma pawn_promotes_exactly_on_its_line_witness :
  exists res b' gs',
    board_do_move no_key (Some GameState.init) (Board_init 0) 10 4 8 4 true
      = (inr res, b', gs') /\
    Board.get b' 8 4 = Some (Piece.Build 10 Pawn WHITE true) /\
    promoted_flag (effects res) = false.
Proof.
  eexists _, _, _. split; [vm_compute; reflexivity|].
  assert (Hwf : wf_grid (Board.grid (Board_init 0))).
  { split; [reflexivity|]. vm_compute. repeat constructor. }
  match goal with
  | |- Board.get ?b' _ _ = _ /\ promoted_flag (effects ?res) = _ =>
      pose proof (pawn_promotes_exactly_on_its_line no_key (Some GameState.init)
                    (Board_init 0) 10 4 8 4 true (Piece.Build 10 Pawn WHITE false)
                    res b' (Some GameState.init) Hwf
                    ltac:(vm_compute; reflexivity) ltac:(reflexivity)
                    ltac:(reflexivity) ltac:(discriminate)
                    ltac:(vm_compute; reflexivity)) as H
  end.
  destruct H as (H1 & H2 & H3).
  split; [rewrite (H3 eq_refl); exact H1 | exact H2].
Defined.

(** ** Simulation and undo outside the duel lock *)

Lemma get_set b r c p r' c' :
  wf_grid (Board.grid b) ->
  Board.get (Board.set b r c p) r' c' =
    if Board.in_bounds r c && bool_decide ((r, c) = (r', c')) then p
    else Board.get b r' c'.
Proof.
  intros Hwf. destruct (Board.in_bounds r c) eqn:Hin; simpl.
  - case_bool_decide as Heq.
    + injection Heq as <- <-. by apply get_set_eq.
    + by apply get_set_ne.
  - unfold Board.set. by rewrite Hin.
Qed.

Lemma set_same_grid b b' r c p :
  Board.grid b = Board.grid b' ->
  Board.grid (Board.set b r c p) = Board.grid (Board.set b' r c p).
Proof. intros H. unfold Board.set. destruct (Board.in_bounds r c); simpl; congruence. Qed.

Lemma mutate_piece_same_grid b b' r c pid f :
  Board.grid b = Board.grid b' ->
  Board.grid (mutate_piece b r c pid f) = Board.grid (mutate_piece b' r c pid f).
Proof.
  intros H. unfold mutate_piece. rewrite H.
  destruct (Board.in_bounds r c); [|done].
  destruct (Board.grid_get _ r c); [|done].
  by case_bool_decide.
Qed.

Lemma board_undo_move_same_grid b b' sr sc er ec m :
  Board.grid b = Board.grid b' ->
  Board.grid (board_undo_move b sr sc er ec m)
  = Board.grid (board_undo_move b' sr sc er ec m).
Proof.
  intros H. unfold board_undo_move.
  rewrite (get_same_grid b b') by done.
  pose proof (set_same_grid _ _ er ec (captured m)
                (set_same_grid b b' sr sc (Board.get b' er ec) H)) as H2.
  destruct (Board.get b' er ec) as [mv|]; [|done].
  pose proof (mutate_piece_same_grid _ _ sr sc (Piece.pid mv)
                (fun p => Piece.set_has_moved p (prev_has_moved m)) H2) as H3.
  destruct (promoted_flag _); [by apply mutate_piece_same_grid|].
  destruct (prev_kind m); [by apply mutate_piece_same_grid|done].
Qed.

Lemma relocate_wf b sr sc er ec :
  wf_grid (Board.grid b) ->
  wf_grid (Board.grid (fst (fst (relocate b sr sc er ec)))).
Proof.
  intros Hwf. unfold relocate.
  destruct (Board.get b sr sc) as [m|]; [|by apply set_wf].
  destruct (_ && _); simpl; repeat apply mutate_piece_wf; by repeat apply set_wf.
Qed.

Lemma board_undo_move_wf b sr sc er ec m :
  wf_grid (Board.grid b) -> wf_grid (Board.grid (board_undo_move b sr sc er ec m)).
Proof.
  intros Hwf. unfold board_undo_move.
  destruct (Board.get b er ec) as [mv|]; [|by repeat apply set_wf].
  destruct (promoted_flag _); [repeat apply mutate_piece_wf; by repeat apply set_wf|].
  destruct (prev_kind m); repeat apply mutate_piece_wf; by repeat apply set_wf.
Qed.

(** The cells after the square update of a move whose source is occupied. *)
Lemma relocate_get b sr sc er ec p r c :
  wf_grid (Board.grid b) ->
  Board.get b sr sc = Some p ->
  Board.in_bounds er ec = true ->
  Board.get (fst (fst (relocate b sr sc er ec))) r c =
    if bool_decide ((er, ec) = (r, c)) then
      Some (Piece.Build (Piece.pid p)
              (if is_kind Pawn p && promotes_at (Piece.color p) er ec
               then Queen else Piece.kind p)
              (Piece.color p) true)
    else if bool_decide ((sr, sc) = (r, c)) then None
    else Board.get b r c.
Proof.
  intros Hwf Hp Hin. unfold relocate. rewrite Hp.
  pose proof (get_in_bounds _ _ _ _ Hp) as Hsrc.
  pose proof (set_wf b sr sc None Hwf) as Hwf1.
  pose proof (set_wf _ er ec (Some p) Hwf1) as Hwf2.
  pose proof (mutate_piece_wf _ er ec (Piece.pid p)
                (fun p => Piece.set_has_moved p true) Hwf2) as Hwf3.
  destruct (is_kind Pawn p && promotes_at (Piece.color p) er ec); simpl.
  - rewrite !mutate_piece_get, !get_set by done. rewrite Hin, Hsrc. simpl.
    case_bool_decide as Hdst.
    + rewrite bool_decide_eq_true_2 by done. simpl.
      by rewrite !bool_decide_eq_true_2.
    + done.
  - rewrite !mutate_piece_get, !get_set by done. rewrite Hin, Hsrc. simpl.
    case_bool_decide as Hdst.
    + rewrite bool_decide_eq_true_2 by done. simpl.
      by rewrite !bool_decide_eq_true_2.
    + done.
Qed.

(** The round trip: a simulated move of an occupied square to a square of
    the board, followed by [board_undo_move] with the returned tuple, puts
    every cell back, provided the duel lock did not reject the move.  The
    board handed to the undo may differ from the one returned by the move
    in its king cache only. *)
Theorem simulate_then_undo_restores_cells (sha1_key : string -> Z)
    gs b sr sc er ec p m b1 gs1 b2 :
  wf_grid (Board.grid b) ->
  Board.get b sr sc = Some p ->
  Board.in_bounds er ec = true ->
  (gs_chess_lock gs = true -> _in8 sr sc = true /\ _in8 er ec = true) ->
  board_do_move sha1_key gs b sr sc er ec true = (inr m, b1, gs1) ->
  Board.grid b2 = Board.grid b1 ->
  Board.grid (board_undo_move b2 sr sc er ec m) = Board.grid b.
Proof.
  intros Hwf Hp Hin Hlock Hdo Hg2.
  rewrite (board_undo_move_same_grid b2 b1) by done. clear b2 Hg2.
  assert (Hb1 : b1 = fst (fst (relocate b sr sc er ec)) /\
                m = MkMove (Board.get b er ec) (Piece.has_moved p)
                      (Some (Piece.kind p))
                      (snd (fst (relocate b sr sc er ec)))).
  { unfold board_do_move in Hdo. rewrite Hp in Hdo.
    destruct (gs_chess_lock gs).
    - destruct (Hlock eq_refl) as [H1 H2]. rewrite H1, H2 in Hdo. simpl in Hdo.
      destruct (relocate b sr sc er ec) as [[b2 eff] mv].
      by injection Hdo as <- <- <-.
    - simpl in Hdo. destruct (relocate b sr sc er ec) as [[b2 eff] mv].
      by injection Hdo as <- <- <-. }
  destruct Hb1 as [-> ->].
  pose proof (relocate_wf b sr sc er ec Hwf) as Hwf1.
  pose proof (relocate_get b sr sc er ec p) as Hget.
  assert (Heff : promoted_flag (snd (fst (relocate b sr sc er ec)))
                 = is_kind Pawn p && promotes_at (Piece.color p) er ec).
  { unfold relocate. rewrite Hp. by destruct (_ && _). }
  set (b1 := fst (fst (relocate b sr sc er ec))) in *.
  pose proof (get_in_bounds _ _ _ _ Hp) as Hsrc.
  apply board_grid_ext; [by apply board_undo_move_wf | done |].
  intros r c. unfold board_undo_move. simpl captured. simpl prev_has_moved.
  simpl prev_kind. simpl effects. rewrite Heff.
  rewrite (Hget er ec) by done. rewrite bool_decide_eq_true_2 by done.
  set (p' := Piece.Build _ _ _ _).
  pose proof (set_wf b1 sr sc (Some p') Hwf1) as Hwf2.
  pose proof (set_wf _ er ec (Board.get b er ec) Hwf2) as Hwf3.
  pose proof (mutate_piece_wf _ sr sc (Piece.pid p')
                (fun q => Piece.set_has_moved q (Piece.has_moved p)) Hwf3) as Hwf4.
  assert (Hcell : forall f,
            (forall q, Piece.pid q = Piece.pid p ->
                       Piece.color q = Piece.color p ->
                       f (Piece.set_has_moved q (Piece.has_moved p)) = p) ->
            Board.get (mutate_piece
                         (mutate_piece (Board.set (Board.set b1 sr sc (Some p')) er ec
                                          (Board.get b er ec))
                            sr sc (Piece.pid p')
                            (fun q => Piece.set_has_moved q (Piece.has_moved p)))
                         sr sc (Piece.pid p') f) r c = Board.get b r c).
  { intros f Hf. rewrite !mutate_piece_get, !get_set by done.
    rewrite Hin, Hsrc. simpl andb.
    rewrite !(bool_decide_eq_true_2 ((sr, sc) = (sr, sc))) by done.
    destruct (decide ((sr, sc) = (r, c))) as [Hrc|Hrc].
    - rewrite !(bool_decide_eq_true_2 _ Hrc). injection Hrc as <- <-.
      destruct (decide ((er, ec) = (sr, sc))) as [Hsame|Hsame].
      + rewrite !(bool_decide_eq_true_2 _ Hsame). injection Hsame as -> ->.
        rewrite Hp. rewrite bool_decide_eq_true_2 by done.
        rewrite bool_decide_eq_true_2 by done. f_equal. by apply Hf.
      + rewrite !(bool_decide_eq_false_2 _ Hsame).
        rewrite bool_decide_eq_true_2 by done.
        rewrite bool_decide_eq_true_2 by done. rewrite Hp. f_equal. by apply Hf.
    - rewrite !(bool_decide_eq_false_2 _ Hrc).
      destruct (decide ((er, ec) = (r, c))) as [Hdst|Hdst].
      + rewrite (bool_decide_eq_true_2 _ Hdst). by injection Hdst as <- <-.
      + rewrite (bool_decide_eq_false_2 _ Hdst).
        rewrite (Hget r c) by done.
        rewrite (bool_decide_eq_false_2 _ Hdst).
        by rewrite (bool_decide_eq_false_2 _ Hrc). }
  destruct (is_kind Pawn p && promotes_at (Piece.color p) er ec) eqn:Hpromo.
  - apply Hcell. intros q Hq Hcol.
    apply andb_true_iff in Hpromo as [Hk _].
    apply bool_decide_eq_true in Hk.
    destruct q, p; unfold Piece.set_kind, Piece.set_has_moved; simpl in *; congruence.
  - apply Hcell. intros q Hq Hcol.
    destruct q, p; unfold Piece.set_kind, Piece.set_has_moved; simpl in *; congruence.
Qed.

Lemma simulate_then_undo_restores_cells_witness :
  exists m b1 gs1,
    board_do_move no_key (Some GameState.init) (Board_init 0) 11 3 9 4 true
      = (inr m, b1, gs1) /\
    Board.grid (board_undo_move b1 11 3 9 4 m) = Board.grid (Board_init 0).
Proof.
  eexists _, _, _. split; [vm_compute; reflexivity|].
  assert (Hwf : wf_grid (Board.grid (Board_init 0))).
  { split; [reflexivity|]. vm_compute. repeat constructor. }
  eapply (simulate_then_undo_restores_cells no_key (Some GameState.init)
            (Board_init 0) 11 3 9 4 (Piece.Build 1 Knight WHITE false));
    [exact Hwf | vm_compute; reflexivity | reflexivity | discriminate
    | vm_compute; reflexivity | reflexivity].
Defined.

(** ** Pseudo-legal moves stay on the board *)

Lemma slide_from_in_bounds fuel b piece nr nc dr dc :
  Forall (fun '(r, c) => Board.in_bounds r c = true)
    (slide_from fuel b piece nr nc dr dc).
Proof.
  revert nr nc. induction fuel as [|fuel IH]; intros nr nc; simpl; [done|].
  destruct (Board.in_bounds nr nc) eqn:Hin; [|done].
  destruct (no_corner nr nc); [|done].
  destruct (Board.get b nr nc) as [tgt|].
  - destruct (capturable _ tgt); [|done]. by repeat constructor.
  - constructor; [done|apply IH].
Qed.

Lemma flat_map_Forall {A B} (P : B -> Prop) (f : A -> list B) (l : list A) :
  (forall x, Forall P (f x)) -> Forall P (List.flat_map f l).
Proof.
  intros Hf. induction l as [|x l IH]; simpl; [done|].
  apply Forall_app. split; [apply Hf|apply IH].
Qed.

Lemma filter_Forall {A} (P : A -> Prop) (f : A -> bool) (l : list A) :
  Forall P l -> Forall P (List.filter f l).
Proof.
  induction 1 as [|x l Hx Hl IH]; simpl; [done|].
  destruct (f x); [by constructor|done].
Qed.

Lemma castle_dir_in_bounds gs b color r c drc dst b' :
  _castle_dir gs b color r c drc = (Some dst, b') ->
  Board.in_bounds (fst dst) (snd dst) = true.
Proof.
  unfold _castle_dir. destruct drc as [dr dc].
  destruct (Board.in_bounds (r + dr) (c + dc) && Board.in_bounds (r + 2 * dr) (c + 2 * dc))
    eqn:Hin; cbn [negb]; [|done].
  apply andb_true_iff in Hin as [_ Hin].
  destruct (_ || _); [done|].
  destruct (first_piece_from _ _ _ _ _ _) as [[[rr rc] rq]|]; [|done].
  destruct (negb _); [done|].
  destruct (others_alive _ _ _) as [att b1].
  destruct (king_in_check _ _ _) as [chk b2].
  destruct chk; [done|].
  destruct (is_square_attacked _ _ _ _ _); [done|].
  destruct (is_square_attacked _ _ _ _ _); [done|].
  destruct (_ || _); [done|].
  intros [= <- _]. done.
Qed.

Lemma gen_moves_in_bounds gs b r c :
  Forall (fun '(er, ec) => Board.in_bounds er ec = true) (fst (gen_moves gs b r c)).
Proof.
  unfold gen_moves. destruct (Board.get b r c) as [p|]; [|done].
  destruct (Piece.kind p).
  - (* King *)
    unfold king_moves.
    set (steps := List.flat_map _ KING_STEPS).
    assert (Hsteps : Forall (fun '(er, ec) => Board.in_bounds er ec = true) steps).
    { apply flat_map_Forall. intros [dr dc]. cbv beta iota zeta.
      destruct (Board.in_bounds (r + dr) (c + dc)) eqn:Hin; cbn [negb]; [|done].
      destruct (foreign_corner _ _); [done|].
      destruct (Board.get _ _ _) as [tgt|]; [destruct (capturable _ tgt)|];
        by repeat constructor. }
    assert (Hopt : forall d bb drc b0,
               _castle_dir gs b0 (Piece.color p) r c drc = (d, bb) ->
               Forall (fun '(er, ec) => Board.in_bounds er ec = true) (option_list d)).
    { intros [[dr' dc']|] bb drc b0 Hd; [|done].
      apply castle_dir_in_bounds in Hd. by repeat constructor. }
    match goal with
    | |- context [let '(moves, b2) := ?e in _] =>
        assert (Hmoves : Forall (fun '(er, ec) => Board.in_bounds er ec = true) (fst e))
    end.
    { destruct (negb (gs_chess_lock gs) && negb (Piece.has_moved p)); [|done].
      destruct (castle_axis _ r c) as [on_home [side_dir corner_dir]].
      destruct on_home; [|done].
      destruct (_castle_dir gs b _ r c side_dir) as [d1 b1] eqn:H1.
      destruct (_castle_dir gs b1 _ r c corner_dir) as [d2 b2] eqn:H2. simpl.
      rewrite !Forall_app. eauto. }
    match goal with
    | |- context [let '(moves, b2) := ?e in _] => destruct e as [moves b2]
    end.
    simpl in Hmoves.
    destruct (_ && bool_decide _); [|done].
    destruct (List.filter _ moves) as [|x l] eqn:Hf; [done|].
    simpl. rewrite <- Hf. by apply filter_Forall.
  - apply flat_map_Forall. intros [dr dc]. apply slide_from_in_bounds.
  - apply flat_map_Forall. intros [dr dc]. apply slide_from_in_bounds.
  - apply flat_map_Forall. intros [dr dc]. apply slide_from_in_bounds.
  - (* Knight *)
    apply flat_map_Forall. intros [dr dc]. cbv beta iota zeta.
    destruct (Board.in_bounds (r + dr) (c + dc)) eqn:Hin; [|done].
    destruct (no_corner _ _); [|done].
    destruct (Board.get _ _ _) as [tgt|]; [destruct (capturable _ tgt)|];
      by repeat constructor.
  - (* Pawn *)
    unfold pawn_moves. apply Forall_app. split.
    + set (fw := if color_in _ _ then _ else _).
      cbv beta iota zeta.
      destruct (Board.in_bounds (r + fst fw) (c + snd fw)) eqn:Hin; cbn [andb]; [|done].
      destruct (no_corner _ _ && _); [|done].
      constructor; [done|].
      destruct (negb _ && _) eqn:H2; [|done].
      apply andb_true_iff in H2 as [_ H2].
      apply andb_true_iff in H2 as [H2 _].
      apply andb_true_iff in H2 as [H2 _].
      by repeat constructor.
    + apply flat_map_Forall. intros [dr dc]. cbv beta iota zeta.
      destruct (Board.in_bounds (r + dr) (c + dc)) eqn:Hin; cbn [andb]; [|done].
      destruct (no_corner _ _); [|done].
      destruct (Board.get _ _ _) as [tgt|]; [|done].
      destruct (capturable _ tgt); [|done].
      destruct (_ && is_kind Pawn tgt); [destruct (_ && _)|]; by repeat constructor.
Qed.

(** ** Functions that refresh the king cache only *)

Lemma attackers_of_grid b color cols :
  Board.grid (snd (attackers_of b color cols)) = Board.grid b.
Proof.
  revert b. induction cols as [|col cols IH]; intros b; [done|]. simpl.
  case_bool_decide; [apply IH|].
  destruct (PerSeat.get _ col).
  - specialize (IH b). by destruct (attackers_of b color cols).
  - pose proof (find_king_grid b col) as Hg.
    destruct (Board.find_king b col) as [kp b1]. simpl in Hg.
    specialize (IH b1). destruct (attackers_of b1 color cols). simpl in *. congruence.
Qed.

Lemma others_alive_grid b color cols :
  Board.grid (snd (others_alive b color cols)) = Board.grid b.
Proof.
  revert b. induction cols as [|col cols IH]; intros b; [done|]. simpl.
  case_bool_decide; [apply IH|].
  pose proof (find_king_grid b col) as Hg.
  destruct (Board.find_king b col) as [kp b1]. simpl in Hg.
  specialize (IH b1). destruct (others_alive b1 color cols). simpl in *. congruence.
Qed.

Lemma king_in_check_grid gs b color :
  Board.grid (snd (king_in_check gs b color)) = Board.grid b.
Proof.
  unfold king_in_check.
  pose proof (find_king_grid b color) as Hg.
  destruct (Board.find_king b color) as [[[r c]|] b1]; simpl in Hg; [|done].
  destruct (match gs with Some _ => _ | None => _ end); [done|].
  pose proof (attackers_of_grid b1 color TURN_ORDER) as Ha.
  destruct (attackers_of b1 color TURN_ORDER). simpl in *. congruence.
Qed.

Lemma castle_dir_grid gs b color r c drc :
  Board.grid (snd (_castle_dir gs b color r c drc)) = Board.grid b.
Proof.
  unfold _castle_dir. destruct drc as [dr dc].
  destruct (negb _); [done|].
  destruct (_ || _); [done|].
  destruct (first_piece_from _ _ _ _ _ _) as [[[rr rc] rq]|]; [|done].
  destruct (negb _); [done|].
  pose proof (others_alive_grid b color TURN_ORDER) as H1.
  destruct (others_alive _ _ _) as [att b1].
  pose proof (king_in_check_grid gs b1 color) as H2.
  destruct (king_in_check _ _ _) as [chk b2]. simpl in *.
  assert (Board.grid b2 = Board.grid b) by congruence.
  destruct chk; [done|].
  destruct (is_square_attacked _ _ _ _ _); [done|].
  destruct (is_square_attacked _ _ _ _ _); [done|].
  by destruct (_ || _).
Qed.

Lemma gen_moves_grid gs b r c :
  Board.grid (snd (gen_moves gs b r c)) = Board.grid b.
Proof.
  unfold gen_moves. destruct (Board.get b r c) as [p|]; [|done].
  destruct (Piece.kind p); try done.
  unfold king_moves.
  set (steps := List.flat_map _ KING_STEPS).
  match goal with
  | |- context [let '(moves, b2) := ?e in _] =>
      assert (Hmoves : Board.grid (snd e) = Board.grid b)
  end.
  { destruct (negb (gs_chess_lock gs) && negb (Piece.has_moved p)); [|done].
    destruct (castle_axis _ r c) as [on_home [side_dir corner_dir]].
    destruct on_home; [|done].
    pose proof (castle_dir_grid gs b (Piece.color p) r c side_dir) as H1.
    destruct (_castle_dir gs b _ r c side_dir) as [d1 b1].
    pose proof (castle_dir_grid gs b1 (Piece.color p) r c corner_dir) as H2.
    destruct (_castle_dir gs b1 _ r c corner_dir) as [d2 b2]. simpl in *.
    congruence. }
  match goal with
  | |- context [let '(moves, b2) := ?e in _] => destruct e as [moves b2]
  end.
  simpl in Hmoves.
  destruct (_ && bool_decide _); [|done].
  by destruct (List.filter _ moves).
Qed.

Lemma wf_grid_same b b' :
  Board.grid b = Board.grid b' -> wf_grid (Board.grid b') -> wf_grid (Board.grid b).
Proof. by intros ->. Qed.

(** Outside the duel lock the loop of the legality filter hands the board
    back with every cell as it found it. *)
Lemma filter_legal_grid (sha1_key : string -> Z) gs b color r c p pseudo :
  gs_chess_lock gs = false ->
  wf_grid (Board.grid b) ->
  Board.get b r c = Some p ->
  Forall (fun '(er, ec) => Board.in_bounds er ec = true) pseudo ->
  Board.grid (snd (filter_legal sha1_key gs b color r c pseudo)) = Board.grid b.
Proof.
  intros Hlock. revert b.
  induction pseudo as [|[er ec] rest IH]; intros b Hwf Hp Hall; [done|].
  apply Forall_cons in Hall as [Hin Hall]. simpl.
  destruct (board_do_move sha1_key gs b r c er ec true) as [[[e|m] b1] gs1] eqn:Hdo.
  { unfold board_do_move in Hdo. rewrite Hlock in Hdo. simpl in Hdo.
    by destruct (relocate b r c er ec) as [[? ?] ?]. }
  pose proof (king_in_check_grid gs b1 color) as Hk.
  destruct (king_in_check gs b1 color) as [illegal b2]. simpl in Hk.
  pose proof (simulate_then_undo_restores_cells sha1_key gs b r c er ec p m b1 gs1 b2
                Hwf Hp Hin ltac:(rewrite Hlock; discriminate) Hdo Hk) as Hundo.
  set (b3 := board_undo_move b2 r c er ec m) in *.
  specialize (IH b3 (wf_grid_same _ _ Hundo Hwf)).
  rewrite (get_same_grid b3 b) in IH by done. specialize (IH Hp Hall).
  destruct (filter_legal sha1_key gs b3 color r c rest) as [out b4]. simpl in *.
  congruence.
Qed.

(** Outside the duel lock [legal_moves_for_piece] leaves every cell of the
    board as it was: each simulated move is undone. *)
Theorem legal_moves_for_piece_restores_cells (sha1_key : string -> Z) gs b r c :
  gs_chess_lock gs = false ->
  wf_grid (Board.grid b) ->
  Board.grid (snd (legal_moves_for_piece sha1_key gs b r c)) = Board.grid b.
Proof.
  intros Hlock Hwf. unfold legal_moves_for_piece.
  destruct (Board.get b r c) as [p|] eqn:Hp; [|done].
  pose proof (gen_moves_grid gs b r c) as Hg.
  pose proof (gen_moves_in_bounds gs b r c) as Hin.
  destruct (gen_moves gs b r c) as [pseudo b1]. simpl in Hg, Hin.
  rewrite (filter_legal_grid sha1_key gs b1 (Piece.color p) r c p); try done.
  - by apply (wf_grid_same b1 b).
  - by rewrite (get_same_grid b1 b).
Qed.

(** ** The duel search *)

Lemma insert_desc_In {A K} (key_lt : K -> K -> bool) (x y : K * A) l :
  In y (insert_desc key_lt x l) <-> y = x \/ In y l.
Proof.
  induction l as [|z l IH]; simpl; [intuition congruence|].
  destruct (key_lt z.1 x.1); simpl; [intuition congruence|].
  rewrite IH. intuition congruence.
Qed.

Lemma sort_desc_In {A K} (key_lt : K -> K -> bool) (y : K * A) l :
  In y (sort_desc key_lt l) <-> In y l.
Proof.
  unfold sort_desc.
  assert (H : forall acc, In y (List.fold_left (fun acc x => insert_desc key_lt x acc) l acc)
                          <-> In y acc \/ In y l).
  { induction l as [|x l IH]; intros acc; simpl; [tauto|].
    rewrite IH, insert_desc_In. intuition congruence. }
  rewrite H. simpl. tauto.
Qed.

Lemma pop_push cb mv : ChessBoard.pop (ChessBoard.push cb mv) = cb.
Proof.
  destruct cb as [fen played stack]. unfold ChessBoard.pop, ChessBoard.push. simpl.
  by rewrite removelast_last.
Qed.

Section DuelSearchFacts.

Variable _CHESS_OK : bool.
Variable lib : ChessLib.

Lemma duel_order_moves_In cb moves pv mv :
  In mv (_duel_order_moves lib cb moves pv) <-> In mv moves.
Proof.
  unfold _duel_order_moves. rewrite in_map_iff. split.
  - intros [[k mv'] [<- Hin]]. apply sort_desc_In, in_map_iff in Hin.
    destruct Hin as [mv'' [[= _ <-] Hin]]. done.
  - intros Hin. exists (duel_move_score lib cb pv mv, mv). split; [done|].
    apply sort_desc_In, in_map_iff. by exists mv.
Qed.

Lemma negamax_loop_sound search beta l idx cb alpha value best polls :
  restores_board search ->
  let '(r, cb', _) := negamax_loop search beta l idx cb alpha value best polls in
  cb' = cb /\
  match r with
  | Finished (_, Some mv) => In mv l \/ best = Some mv
  | _ => True
  end.
Proof.
  intros Hs. revert idx cb alpha value best polls.
  induction l as [|mv rest IH]; intros idx cb alpha value best polls; simpl.
  { split; [done|]. destruct best; naive_solver. }
  pose proof (Hs (ChessBoard.push cb mv) (- beta) (- alpha)
                (if idx =? 0 then Some mv else None) polls) as Hcb.
  destruct (search _ _ _ _ _) as [[[|[child_value ?]] cb'] polls']; simpl in Hcb;
    subst cb'; rewrite pop_push; [done|].
  destruct (- child_value >? value).
  - destruct (_ >=? beta); [naive_solver|].
    specialize (IH (idx + 1) cb (Z.max alpha (- child_value)) (- child_value)
                  (Some mv) polls').
    destruct (negamax_loop _ _ _ _ _ _ _ _ _) as [[[|[v [m|]]] cb2] p2]; intuition congruence.
  - destruct (_ >=? beta); [destruct best; naive_solver|].
    specialize (IH (idx + 1) cb (Z.max alpha value) value best polls').
    destruct (negamax_loop _ _ _ _ _ _ _ _ _) as [[[|[v [m|]]] cb2] p2]; intuition congruence.
Qed.

(** [negamax] returns the shared board as it got it, and the move it
    reports is a legal move of that position. *)
Lemma negamax_sound timeup root_white eval_bias depth cb alpha beta pv polls :
  let '(r, cb', _) := negamax lib timeup root_white eval_bias depth cb alpha beta pv polls in
  cb' = cb /\
  match r with
  | Finished (_, Some mv) => In mv (cb_legal_moves lib cb)
  | _ => True
  end.
Proof.
  revert cb alpha beta pv polls.
  induction depth as [|depth IH]; intros cb alpha beta pv polls; simpl.
  - destruct (timeup polls); [done|].
    destruct (cb_is_checkmate lib cb); [done|]. by destruct (_ || _).
  - destruct (timeup polls); [done|].
    destruct (cb_is_checkmate lib cb); [done|].
    destruct (_ || _); [done|].
    destruct (cb_legal_moves lib cb) as [|m0 legal] eqn:Hlegal; [done|].
    pose proof (negamax_loop_sound
                  (fun cb a b pv k => negamax lib timeup root_white eval_bias depth cb a b pv k)
                  beta (_duel_order_moves lib cb (m0 :: legal) pv) 0 cb alpha
                  (- MATE_SCORE) None (S polls)) as Hloop.
    destruct (negamax_loop _ _ _ _ _ _ _ _ _) as [[r cb'] p'].
    destruct Hloop as [-> Hr].
    { intros cb1 a b pv1 k. specialize (IH cb1 a b pv1 k).
      destruct (negamax _ _ _ _ _ _ _ _ _ _) as [[? ?] ?]. simpl. tauto. }
    split; [done|].
    destruct r as [|[v [mv|]]]; try done.
    destruct Hr as [Hin|?]; [|done]. by apply duel_order_moves_In in Hin.
Qed.

Lemma deepen_sound timeup root_white eval_bias depths cb best pv polls :
  let '(r, cb') := deepen lib timeup root_white eval_bias depths cb best pv polls in
  cb' = cb /\
  forall mv, r = Some mv -> In mv (cb_legal_moves lib cb) \/ best = Some mv.
Proof.
  revert cb best pv polls.
  induction depths as [|depth rest IH]; intros cb best pv polls; simpl.
  { split; [done|]. naive_solver. }
  pose proof (negamax_sound timeup root_white eval_bias depth cb (- MATE_SCORE)
                MATE_SCORE pv polls) as Hn.
  destruct (negamax _ _ _ _ _ _ _ _ _ _) as [[[|[v [move|]]] cb1] p1];
    destruct Hn as [-> Hn]; [naive_solver| |].
  - specialize (IH cb (Some move) (Some move) p1).
    destruct (deepen _ _ _ _ _ _ _ _ _) as [r cb2]. destruct IH as [-> IH].
    split; [done|]. intros mv Hr. destruct (IH mv Hr) as [?|[= <-]]; tauto.
  - specialize (IH cb best pv p1).
    by destruct (deepen _ _ _ _ _ _ _ _ _) as [r cb2].
Qed.

Lemma random_choice_In {A} pick (l : list A) x :
  random_choice pick l = Some x -> In x l.
Proof. unfold random_choice. apply nth_error_In. Qed.

Lemma random_choice_nonempty {A} pick (l : list A) :
  l <> [] -> exists x, random_choice pick l = Some x.
Proof.
  intros Hne. unfold random_choice.
  destruct (nth_error l (pick mod length l)%nat) eqn:E; [eauto|].
  apply nth_error_None in E.
  assert (length l <> 0%nat) by (destruct l; simpl; [done|lia]).
  pose proof (Nat.mod_upper_bound pick (length l)). lia.
Qed.

(** The duel policy is sound for the engine: a move it returns is the pair
    of board squares of a legal move of the (copied) engine position. *)
Theorem choose_duel_move_returns_engine_move gs board color base_time_ms timeup pick m :
  choose_duel_move _CHESS_OK lib gs board color base_time_ms timeup pick = Some m ->
  exists g cb0 mv,
    _CHESS_OK = true /\ gs = Some g /\ GameState.chess_lock g = true /\
    GameState.chess_board g = Some cb0 /\
    In mv (cb_legal_moves lib (ChessBoard.copy_nostack cb0)) /\
    engine_move_to_rc _CHESS_OK mv = Some m.
Proof.
  unfold choose_duel_move.
  destruct _CHESS_OK eqn:Hok; [|done]. simpl.
  destruct gs as [g|]; [|done].
  destruct (GameState.chess_lock g) eqn:Hlock; [|done]. simpl.
  destruct (GameState.chess_board g) as [cb0|] eqn:Hcb; [|done].
  set (cb := ChessBoard.copy_nostack cb0).
  destruct (cb_is_game_over lib cb).
  - destruct (random_choice pick _) as [mv|] eqn:Hpick; [|done].
    intros Hm. exists g, cb0, mv. repeat split; try done.
    by apply random_choice_In in Hpick.
  - match goal with
    | |- context [deepen ?l ?t ?w ?e ?d ?c ?b ?p ?k] =>
        pose proof (deepen_sound t w e d c b p k) as Hd;
        destruct (deepen l t w e d c b p k) as [best cb']
    end.
    destruct Hd as [-> Hd].
    destruct best as [mv|].
    + intros Hm. exists g, cb0, mv. repeat split; try done.
      by destruct (Hd mv eq_refl).
    + destruct (random_choice pick _) as [mv|] eqn:Hpick; [|done].
      intros Hm. exists g, cb0, mv. repeat split; try done.
      by apply random_choice_In in Hpick.
Qed.

(** Under its guards the duel policy answers [None] only for an engine
    position without legal move. *)
Lemma choose_duel_move_none g cb0 board color base_time_ms timeup pick :
  _CHESS_OK = true -> GameState.chess_lock g = true ->
  GameState.chess_board g = Some cb0 ->
  choose_duel_move _CHESS_OK lib (Some g) board color base_time_ms timeup pick = None ->
  cb_legal_moves lib (ChessBoard.copy_nostack cb0) = [].
Proof.
  intros Hok Hlock Hcb. unfold choose_duel_move. rewrite Hok, Hlock, Hcb. simpl.
  set (cb := ChessBoard.copy_nostack cb0).
  assert (Hrc : forall mv, engine_move_to_rc true mv <> None).
  { intros mv. unfold engine_move_to_rc, _sq_to_rc. simpl. done. }
  assert (Hpick : random_choice pick (cb_legal_moves lib cb) = None ->
                  cb_legal_moves lib cb = []).
  { intros Hnone. destruct (cb_legal_moves lib cb) as [|x l] eqn:E; [done|].
    destruct (random_choice_nonempty pick (x :: l)) as [y Hy]; [done|]. congruence. }
  destruct (cb_is_game_over lib cb).
  - destruct (random_choice pick _) as [mv|] eqn:E; [|by intros _; apply Hpick].
    intros H. by destruct (Hrc mv).
  - match goal with
    | |- context [deepen ?l ?t ?w ?e ?d ?c ?b ?p ?k] =>
        pose proof (deepen_sound t w e d c b p k) as Hd;
        destruct (deepen l t w e d c b p k) as [best cb']
    end.
    destruct Hd as [-> _].
    destruct best as [mv|]; [intros H; by destruct (Hrc mv)|].
    destruct (random_choice pick _) as [mv|] eqn:E; [|by intros _; apply Hpick].
    intros H. by destruct (Hrc mv).
Qed.

End DuelSearchFacts.

(** ** The fast policy *)

Lemma filter_legal_In sha1_key gs b color r c pseudo m :
  In m (fst (filter_legal sha1_key gs b color r c pseudo)) ->
  exists er ec, m = (r, c, er, ec) /\ In (er, ec) pseudo.
Proof.
  revert b. induction pseudo as [|[er ec] rest IH]; intros b; simpl; [done|].
  destruct (board_do_move sha1_key gs b r c er ec true) as [[[e|mr] b1] gs1]; [done|].
  destruct (king_in_check gs b1 color) as [illegal b2].
  specialize (IH (board_undo_move b2 r c er ec mr)).
  destruct (filter_legal sha1_key gs _ color r c rest) as [out b4]. simpl in *.
  intros H.
  assert (Hcase : m = (r, c, er, ec) \/ In m out).
  { destruct illegal; [by right|]. destruct H as [<-|H]; [by left|by right]. }
  destruct Hcase as [->|Hin]; [by exists er, ec; auto|].
  destruct (IH Hin) as (er' & ec' & -> & Hin'). exists er', ec'. auto.
Qed.

Lemma move_ok_get gs b sr sc er ec p :
  Board.get b sr sc = Some p -> Board.in_bounds er ec = true ->
  (gs_chess_lock gs = true -> _in8 sr sc = true /\ _in8 er ec = true) ->
  move_ok gs (Board.grid b) (sr, sc, er, ec).
Proof.
  intros Hp Hin Hfit. pose proof (get_in_bounds _ _ _ _ Hp) as Hsrc.
  unfold Board.get in Hp. rewrite Hsrc in Hp.
  split; [done|]. split; [by rewrite Hp|]. by split.
Qed.

Lemma move_ok_source gs b sr sc er ec :
  move_ok gs (Board.grid b) (sr, sc, er, ec) ->
  exists p, Board.get b sr sc = Some p.
Proof.
  intros (Hsrc & [p Hp] & _). exists p. unfold Board.get. by rewrite Hsrc.
Qed.

(** Every move of [legal_moves_for_piece] starts on the occupied cell it
    was asked about and ends on the board. *)
Lemma legal_moves_for_piece_ok sha1_key gs b r c :
  gs_chess_lock gs = false ->
  Forall (move_ok gs (Board.grid b)) (fst (legal_moves_for_piece sha1_key gs b r c)).
Proof.
  intros Hlock. unfold legal_moves_for_piece.
  destruct (Board.get b r c) as [p|] eqn:Hp; [|by constructor].
  pose proof (gen_moves_in_bounds gs b r c) as Hin.
  destruct (gen_moves gs b r c) as [pseudo b1]. simpl in Hin.
  apply List.Forall_forall. intros m Hm.
  apply filter_legal_In in Hm as (er & ec & -> & Hm).
  rewrite List.Forall_forall in Hin. specialize (Hin _ Hm). simpl in Hin.
  apply (move_ok_get gs b r c er ec p); [done|done|].
  rewrite Hlock. discriminate.
Qed.

Lemma alive_except_grid b excluded cols :
  Board.grid (snd (alive_except b excluded cols)) = Board.grid b.
Proof.
  revert b. induction cols as [|col cols IH]; intros b; [done|]. simpl.
  destruct (color_in col excluded); [apply IH|].
  pose proof (find_king_grid b col) as Hg.
  destruct (Board.find_king b col) as [kp b1]. simpl in Hg.
  specialize (IH b1). destruct (alive_except b1 excluded cols). simpl in *. congruence.
Qed.

Lemma any_in_check_grid gs b cols :
  Board.grid (snd (any_in_check gs b cols)) = Board.grid b.
Proof.
  revert b. induction cols as [|col cols IH]; intros b; [done|]. simpl.
  pose proof (king_in_check_grid gs b col) as Hg.
  destruct (king_in_check gs b col) as [chk b1]. simpl in Hg.
  destruct chk; [done|]. rewrite IH. done.
Qed.

Lemma alive_next_color_grid b color :
  Board.grid (snd (_alive_next_color b color)) = Board.grid b.
Proof.
  unfold _alive_next_color. simpl.
  repeat match goal with
  | |- context [Board.find_king ?b0 ?c] =>
      let H := fresh "Hg" in
      pose proof (find_king_grid b0 c) as H;
      destruct (Board.find_king b0 c) as [[?|] ?]; simpl in H
  end; simpl; congruence.
Qed.

Lemma net_hanging_penalty_grid gs b mover to_r to_c :
  Board.grid (snd (net_hanging_penalty gs b mover to_r to_c)) = Board.grid b.
Proof.
  unfold net_hanging_penalty. destruct mover as [p|]; [|done].
  pose proof (others_alive_grid b (Piece.color p) TURN_ORDER) as Hg.
  destruct (others_alive b (Piece.color p) TURN_ORDER) as [others b1]. simpl in Hg.
  by destruct (negb _).
Qed.

Lemma eval_board_grid gs b me two_stage :
  Board.grid (snd (eval_board gs b me two_stage)) = Board.grid b.
Proof.
  unfold eval_board.
  pose proof (king_in_check_grid gs b me) as H1.
  destruct (king_in_check gs b me) as [chk b1]. simpl in H1.
  destruct (two_stage && gs_chess_lock gs); [|done].
  set (opp := if bool_decide (me = WHITE) then BLACK else WHITE).
  pose proof (find_king_grid b1 opp) as H2.
  destruct (Board.find_king b1 opp) as [[[kr kc]|] b2]; simpl in H2; [|simpl; congruence].
  destruct (if _ && _ then _ else _) as [atk_w ring_w].
  pose proof (king_in_check_grid gs b2 opp) as H3.
  destruct (king_in_check gs b2 opp) as [chk_opp b3]. simpl in *. congruence.
Qed.


(** The wrapper raises on an empty square only. *)
Lemma override_total_on_pieces sha1_key _CHESS_OK lib gs b r c p active :
  Board.get b r c = Some p ->
  exists plist,
    fst (legal_moves_for_piece_override sha1_key _CHESS_OK lib gs b r c active)
    = inr plist.
Proof.
  intros Hp. unfold legal_moves_for_piece_override. rewrite Hp.
  destruct active as [col|];
    (destruct (if _CHESS_OK then _ else _) as [cb|];
     [|destruct (legal_moves_for_piece sha1_key gs b r c); by eexists]);
    (destruct (negb (is_kind King p) && _); [by eexists|]);
    (destruct (_rc_to_sq _CHESS_OK r c);
     [destruct (negb _); by eexists
     |destruct (is_kind King p && _); by eexists]).
Qed.

Section FastPolicyFacts.

Variable sha1_key : string -> Z.
Variable _CHESS_OK : bool.
Variable lib : ChessLib.
Variable get_ticks : nat -> Z.
Variable random : nat -> float.

Lemma override_unlocked gs b r c col :
  gs_chess_lock gs = false ->
  legal_moves_for_piece_override sha1_key _CHESS_OK lib gs b r c (Some col)
  = (inr (fst (legal_moves_for_piece sha1_key gs b r c)),
     snd (legal_moves_for_piece sha1_key gs b r c)).
Proof.
  intros Hlock. unfold legal_moves_for_piece_override.
  assert (Hcb : (if _CHESS_OK
                 then match gs with
                      | Some g => if GameState.chess_lock g then GameState.chess_board g
                                  else None
                      | None => None
                      end
                 else None) = None).
  { destruct _CHESS_OK; [|done]. destruct gs as [g|]; [|done].
    simpl in Hlock. by rewrite Hlock. }
  rewrite Hcb. by destruct (legal_moves_for_piece sha1_key gs b r c).
Qed.

(** Outside the duel lock the legal moves of a seat are collected with the
    cells of the board left as they were, and each of them starts on an
    occupied cell and ends on the board. *)
Lemma all_legal_moves_unlocked gs b color :
  gs_chess_lock gs = false ->
  wf_grid (Board.grid b) ->
  Board.grid (snd (all_legal_moves_for_color sha1_key _CHESS_OK lib gs b color))
    = Board.grid b /\
  Forall (move_ok gs (Board.grid b))
    (fst (all_legal_moves_for_color sha1_key _CHESS_OK lib gs b color)).
Proof.
  intros Hlock Hwf. unfold all_legal_moves_for_color.
  assert (Hgen : forall l moves b0,
            Board.grid b0 = Board.grid b -> Forall (move_ok gs (Board.grid b)) moves ->
            let res := List.fold_left (fun '(moves, b) '(r, c) =>
                match Board.get b r c with
                | Some p =>
                    if is_color color p then
                      match legal_moves_for_piece_override sha1_key _CHESS_OK lib gs
                              b r c (Some color) with
                      | (inr plist, b') => (moves ++ plist, b')
                      | (inl _, b') => (moves, b')
                      end
                    else (moves, b)
                | None => (moves, b)
                end) l (moves, b0) in
            Board.grid (snd res) = Board.grid b /\
            Forall (move_ok gs (Board.grid b)) (fst res)).
  { induction l as [|[r c] l IH]; intros moves b0 Hg Hok; [done|]. simpl.
    destruct (Board.get b0 r c) as [p|]; [|by apply IH].
    destruct (is_color color p); [|by apply IH].
    rewrite override_unlocked by done.
    apply IH.
    - rewrite legal_moves_for_piece_restores_cells; [done|done|].
      by apply (wf_grid_same b0 b).
    - apply Forall_app. split; [done|].
      rewrite <- Hg. by apply legal_moves_for_piece_ok. }
  by apply Hgen.
Qed.

(** The scoring of a played candidate refreshes the king cache only. *)
Lemma score_after_grid gs color two_stage target_left rnd b m cap :
  Board.grid (snd (score_after sha1_key gs color two_stage target_left rnd b m cap))
    = Board.grid b.
Proof.
  unfold score_after. destruct m as [[[sr sc] er] ec].
  pose proof (eval_board_grid gs b color two_stage) as H1.
  destruct (eval_board gs b color two_stage) as [score b1]. simpl in H1.
  set (moved := Board.get b1 er ec).
  match goal with
  | |- context [match target_left with Some tl => @?f tl | None => ?g end] =>
      assert (H2 : Board.grid (snd (match target_left with
                                    | Some tl => f tl | None => g end))
                   = Board.grid b1)
  end.
  { destruct target_left as [tl|]; [|done]. destruct (negb two_stage); [|done].
    pose proof (king_in_check_grid gs b1 tl) as Ha.
    destruct (king_in_check gs b1 tl) as [gives ba]. simpl in Ha.
    pose proof (alive_except_grid ba [color; tl] TURN_ORDER) as Hb.
    destruct (alive_except ba [color; tl] TURN_ORDER) as [others bb]. simpl in Hb.
    pose proof (any_in_check_grid gs bb others) as Hc.
    destruct (any_in_check gs bb others) as [hit bc]. simpl in *. congruence. }
  match goal with
  | |- context [let '(x, y) := ?e in _] => destruct e as [score2 b2]
  end.
  simpl in H2.
  assert (H3 : Board.grid (snd (match moved with
                | Some _ => let '(l, b3) := gen_moves gs b2 er ec in
                            (Z.of_nat (length l), b3)
                | None => (0, b2)
                end)) = Board.grid b2).
  { destruct moved; [|done].
    pose proof (gen_moves_grid gs b2 er ec) as Ha.
    by destruct (gen_moves gs b2 er ec). }
  match goal with
  | |- context [let '(x, y) := ?e in _] => destruct e as [cheap_mob b3]
  end.
  simpl in H3. cbv zeta.
  pose proof (net_hanging_penalty_grid gs b3 moved er ec) as H4.
  destruct (net_hanging_penalty gs b3 moved er ec) as [hanging b4]. simpl in H4.
  destruct (_approach_terms b4 sr sc er ec) as [app pen].
  cbn [snd]. congruence.
Qed.

Lemma simulate_never_raises gs b sr sc er ec :
  exists mr b1 gs1, board_do_move sha1_key gs b sr sc er ec true = (inr mr, b1, gs1).
Proof.
  unfold board_do_move.
  destruct (gs_chess_lock gs && _); [eauto|].
  destruct (relocate b sr sc er ec) as [[b2 eff] mv]. eauto.
Qed.

Lemma score_move_grid gs color two_stage target_left rnd b m :
  wf_grid (Board.grid b) -> move_ok gs (Board.grid b) m ->
  Board.grid (snd (score_move sha1_key gs color two_stage target_left rnd b m))
    = Board.grid b.
Proof.
  intros Hwf Hok. unfold score_move. destruct m as [[[sr sc] er] ec].
  destruct (simulate_never_raises gs b sr sc er ec) as (mr & b1 & gs1 & Hdo).
  rewrite Hdo.
  pose proof (score_after_grid gs color two_stage target_left rnd b1
                (sr, sc, er, ec) (captured mr)) as Hs.
  destruct (score_after _ _ _ _ _ _ _ _ _) as [score b2]. simpl in *.
  destruct (move_ok_source _ _ _ _ _ _ Hok) as [p Hp].
  destruct Hok as (_ & _ & Hin & Hfit).
  eapply (simulate_then_undo_restores_cells sha1_key gs b sr sc er ec p mr b1 gs1 b2);
    done.
Qed.

Lemma move_order_key_grid gs color two_stage b m :
  wf_grid (Board.grid b) -> move_ok gs (Board.grid b) m ->
  Board.grid (snd (move_order_key sha1_key gs color two_stage b m)) = Board.grid b.
Proof.
  intros Hwf Hok. unfold move_order_key. destruct m as [[[sr sc] er] ec].
  destruct (if two_stage then _ else _) as [app pen].
  destruct (move_ok_source _ _ _ _ _ _ Hok) as [p Hp]. rewrite Hp.
  destruct (simulate_never_raises gs b sr sc er ec) as (mr & b1 & gs1 & Hdo).
  rewrite Hdo.
  assert (H3 : Board.grid (snd (match Board.get b1 er ec with
                | Some _ => let '(l, b3) := gen_moves gs b1 er ec in
                            (Z.of_nat (length l), b3)
                | None => (0, b1)
                end)) = Board.grid b1).
  { destruct (Board.get b1 er ec); [|done].
    pose proof (gen_moves_grid gs b1 er ec) as Ha.
    by destruct (gen_moves gs b1 er ec). }
  match goal with
  | |- context [let '(x, y) := ?e in _] => destruct e as [cheap_mob b2]
  end.
  simpl in *. destruct Hok as (_ & _ & Hin & Hfit).
  eapply (simulate_then_undo_restores_cells sha1_key gs b sr sc er ec p mr b1 gs1 b2);
    done.
Qed.

Lemma keyed_moves_grid gs color two_stage legal b :
  wf_grid (Board.grid b) -> Forall (move_ok gs (Board.grid b)) legal ->
  Board.grid (snd (keyed_moves sha1_key gs color two_stage legal b)) = Board.grid b.
Proof.
  revert b. induction legal as [|m rest IH]; intros b Hwf Hall; [done|].
  apply Forall_cons in Hall as [Hm Hall]. simpl.
  pose proof (move_order_key_grid gs color two_stage b m Hwf Hm) as Hk.
  destruct (move_order_key sha1_key gs color two_stage b m) as [k b1]. simpl in Hk.
  specialize (IH b1). rewrite Hk in IH. specialize (IH Hwf Hall).
  destruct (keyed_moves sha1_key gs color two_stage rest b1) as [out b2].
  simpl in *. congruence.
Qed.

Lemma fast_loop_grid gs color two_stage target_left start_ts legal k b best best_score :
  wf_grid (Board.grid b) -> Forall (move_ok gs (Board.grid b)) legal ->
  Board.grid (snd (fast_loop sha1_key get_ticks random gs color two_stage target_left
                     start_ts legal k b best best_score)) = Board.grid b.
Proof.
  revert k b best best_score.
  induction legal as [|m rest IH]; intros k b best best_score Hwf Hall; [done|].
  apply Forall_cons in Hall as [Hm Hall]. simpl.
  destruct (_ >? FAST_AI_BUDGET_MS); [done|].
  pose proof (score_move_grid gs color two_stage target_left (random k) b m Hwf Hm) as Hs.
  destruct (score_move _ _ _ _ _ _ _ _) as [score b1]. simpl in Hs.
  destruct (if PrimFloat.ltb best_score score then _ else _) as [best_score' best'].
  rewrite IH; [done| |]; by rewrite Hs.
Qed.

Lemma keyed_moves_In gs color two_stage legal b m :
  In m (List.map snd (fst (keyed_moves sha1_key gs color two_stage legal b)))
  <-> In m legal.
Proof.
  revert b. induction legal as [|x rest IH]; intros b; [done|]. simpl.
  destruct (move_order_key sha1_key gs color two_stage b x) as [k b1].
  specialize (IH b1).
  destruct (keyed_moves sha1_key gs color two_stage rest b1) as [out b2].
  simpl in *. by rewrite IH.
Qed.

Lemma sorted_moves_In {K} (lt : K -> K -> bool) (l : list (K * Move4)) m :
  In m (List.map snd (sort_desc lt l)) <-> In m (List.map snd l).
Proof.
  rewrite !in_map_iff. split; intros [x [Hx Hin]]; exists x; split; try done;
    by apply (sort_desc_In lt x l).
Qed.

Lemma fast_loop_In gs color two_stage target_left start_ts legal k b best best_score m :
  In m (fst (fast_loop sha1_key get_ticks random gs color two_stage target_left
               start_ts legal k b best best_score)) ->
  In m legal \/ In m best.
Proof.
  revert k b best best_score.
  induction legal as [|x rest IH]; intros k b best best_score; simpl; [by right|].
  destruct (_ >? FAST_AI_BUDGET_MS); [by right|].
  destruct (score_move _ _ _ _ _ _ _ _) as [score b1].
  destruct (PrimFloat.ltb best_score score).
  - intros H. apply IH in H as [H|[<-|[]]]; auto.
  - destruct (PrimFloat.ltb _ _); intros H; apply IH in H as [H|H]; auto.
    apply in_app_or in H as [H|[<-|[]]]; auto.
Qed.

Lemma grace_filter_In f opponent legal b m :
  In m (fst (grace_filter f opponent legal b)) -> In m legal.
Proof.
  revert b. induction legal as [|x rest IH]; intros b; simpl; [done|].
  destruct (f x opponent b) as [blocked b1]. specialize (IH b1).
  destruct (grace_filter f opponent rest b1) as [out b2]. simpl in *.
  destruct blocked; [by right; apply IH|].
  intros [<-|H]; [by left|by right; apply IH].
Qed.

Lemma grace_filter_grid f opponent g legal l b :
  keeps_cells f g legal -> (forall m, In m l -> In m legal) -> Board.grid b = g ->
  Board.grid (snd (grace_filter f opponent l b)) = g.
Proof.
  intros Hf. revert b. induction l as [|x rest IH]; intros b Hsub Hg; [done|]. simpl.
  pose proof (Hf x opponent b (Hsub x (or_introl eq_refl)) Hg) as Hx.
  destruct (f x opponent b) as [blocked b1]. simpl in Hx.
  specialize (IH b1 (fun m Hm => Hsub m (or_intror Hm)) Hx).
  by destruct (grace_filter f opponent rest b1) as [out b2].
Qed.

Lemma stay_inside_In gs color two_stage legal m :
  In m (stay_inside gs color two_stage legal) -> In m legal.
Proof.
  unfold stay_inside. destruct gs as [g|]; [|done].
  destruct (_ && negb (GameState.chess_lock g)), (GameState.chess_lock g);
    rewrite ?filter_In; tauto.
Qed.

(** *** The legal moves of a seat when python-chess drives the duel *)


Lemma has_outside_false b color r c p :
  has_outside b color = false -> Board.get b r c = Some p ->
  is_color color p = true -> _in8 r c = true.
Proof.
  intros Hout Hp Hcol. destruct (_in8 r c) eqn:Hin; [done|].
  assert (Htrue : has_outside b color = true); [|congruence].
  unfold has_outside. apply existsb_exists. exists (r, c).
  split; [by apply in_all_squares, (get_in_bounds b r c p)|].
  by rewrite Hp, Hcol, Hin.
Qed.

Lemma sq_to_rc_in8 sq :
  0 <= sq < 64 ->
  exists er ec, _sq_to_rc true sq = Some (er, ec) /\ _in8 er ec = true.
Proof.
  intros Hsq. unfold _sq_to_rc. simpl. eexists _, _. split; [done|].
  unfold _in8, chess_square_rank, chess_square_file, CH_MIN, CH_MAX.
  rewrite Z.shiftr_div_pow2 by lia.
  change 7 with (Z.ones 3). rewrite Z.land_ones by lia.
  change (2 ^ 3) with 8.
  pose proof (Z.mod_pos_bound sq 8). 
  assert (0 <= sq / 8 < 8) by (split; [apply Z.div_pos; lia|apply Z.div_lt_upper_bound; lia]).
  lia.
Qed.

Lemma override_engine g cb b r c p color :
  _CHESS_OK = true -> GameState.chess_lock g = true ->
  GameState.chess_board g = Some cb ->
  has_outside b color = false -> engine_squares_ok lib cb ->
  Board.get b r c = Some p -> is_color color p = true ->
  exists plist,
    legal_moves_for_piece_override sha1_key _CHESS_OK lib (Some g) b r c (Some color)
      = (inr plist, b) /\
    Forall (move_ok (Some g) (Board.grid b)) plist.
Proof.
  intros Hok Hlock Hcb Hout Hsq Hp Hcol.
  pose proof (has_outside_false b color r c p Hout Hp Hcol) as Hin.
  unfold legal_moves_for_piece_override. rewrite Hok, Hlock, Hcb, Hp, Hout.
  rewrite andb_false_r.
  assert (Hrc : _rc_to_sq true r c = Some (chess_square (c - CH_MIN) (CH_MAX - r))).
  { unfold _rc_to_sq. change (in_chess_area r c) with (_in8 r c). by rewrite Hin. }
  rewrite Hrc.
  destruct (negb (Bool.eqb (is_color WHITE p) (cb_turn lib cb)));
    [by exists []; split; [|constructor]|].
  eexists. split; [done|].
  apply List.Forall_forall. intros m Hm.
  apply in_flat_map in Hm as (mv & Hmv & Hm).
  destruct (bool_decide _); [|done].
  unfold engine_squares_ok in Hsq. rewrite List.Forall_forall in Hsq.
  destruct (sq_to_rc_in8 _ (Hsq mv Hmv)) as (er & ec & Hto & Hto8).
  rewrite Hto in Hm. destruct Hm as [<-|[]].
  apply (move_ok_get (Some g) b r c er ec p); [done|by apply in8_in_bounds|done].
Qed.

(** With the engine driving the duel and the seat's pieces inside the 8x8
    the legal moves are read off the engine: the board is not touched. *)
Lemma all_legal_moves_engine g cb b color :
  _CHESS_OK = true -> GameState.chess_lock g = true ->
  GameState.chess_board g = Some cb ->
  has_outside b color = false -> engine_squares_ok lib cb ->
  snd (all_legal_moves_for_color sha1_key _CHESS_OK lib (Some g) b color) = b /\
  Forall (move_ok (Some g) (Board.grid b))
    (fst (all_legal_moves_for_color sha1_key _CHESS_OK lib (Some g) b color)).
Proof.
  intros Hok Hlock Hcb Hout Hsq. unfold all_legal_moves_for_color.
  generalize (@nil Move4) (List.Forall_nil (move_ok (Some g) (Board.grid b))).
  induction all_squares as [|[r c] l IH]; intros moves Hmoves; [done|]. simpl.
  destruct (Board.get b r c) as [p|] eqn:Hp; [|by apply IH].
  destruct (is_color color p) eqn:Hcol; [|by apply IH].
  destruct (override_engine g cb b r c p color Hok Hlock Hcb Hout Hsq Hp Hcol)
    as (plist & -> & Hplist).
  apply IH. apply Forall_app. by split.
Qed.

End FastPolicyFacts.


Section FastPolicySound.

Variable sha1_key : string -> Z.
Variable _CHESS_OK : bool.
Variable lib : ChessLib.
Variable get_ticks : nat -> Z.
Variable random : nat -> float.

Lemma choose_ai_move_fast_In gs board color two_stage grace_block_fn opponent pick m :
  fst (choose_ai_move_fast sha1_key _CHESS_OK lib get_ticks random gs board color
         two_stage grace_block_fn opponent pick) = Some m ->
  In m (fst (all_legal_moves_for_color sha1_key _CHESS_OK lib gs board color)).
Proof.
  unfold choose_ai_move_fast.
  destruct (all_legal_moves_for_color sha1_key _CHESS_OK lib gs board color)
    as [legal b0].
  destruct legal as [|m0 legal0]; [done|].
  set (legal := m0 :: legal0). cbn [fst].
  set (legal1 := stay_inside gs color two_stage legal).
  assert (H1 : forall x, In x legal1 -> In x legal) by apply stay_inside_In.
  match goal with
  | |- context [let '(x, y) := ?e in _] =>
      assert (H2 : forall x, In x (fst e) -> In x legal1);
      [|destruct e as [legal2 b1]]
  end.
  { destruct grace_block_fn as [f|]; [|done]. destruct two_stage; [|done].
    pose proof (grace_filter_In f opponent legal1 b0) as Hf.
    destruct (grace_filter f opponent legal1 b0) as [[|x non_check] b1]; [done|].
    exact Hf. }
  cbn [fst] in H2.
  destruct legal2 as [|m2 legal2']; [done|].
  set (legal3 := m2 :: legal2') in *.
  pose proof (keyed_moves_In sha1_key gs color two_stage legal3 b1) as H3.
  destruct (keyed_moves sha1_key gs color two_stage legal3 b1) as [keyed b2].
  cbn [fst] in H3.
  destruct (if negb two_stage then _ else _) as [target_left b3].
  match goal with
  | |- context [fast_loop ?a ?b ?c ?d ?e ?f ?g ?h ?l ?k ?bb ?best ?bs] =>
      pose proof (fun x => fast_loop_In a b c d e f g h l k bb best bs x) as H4;
      destruct (fast_loop a b c d e f g h l k bb best bs) as [best_moves b4]
  end.
  cbn [fst] in *. intros Hpick. apply random_choice_In in Hpick.
  apply H4 in Hpick as [Hpick|[]].
  apply sorted_moves_In, H3 in Hpick. auto.
Qed.

Lemma choose_ai_move_fast_no_move gs board color two_stage grace_block_fn opponent pick :
  fst (all_legal_moves_for_color sha1_key _CHESS_OK lib gs board color) = [] ->
  fst (choose_ai_move_fast sha1_key _CHESS_OK lib get_ticks random gs board color
         two_stage grace_block_fn opponent pick) = None.
Proof.
  unfold choose_ai_move_fast.
  destruct (all_legal_moves_for_color sha1_key _CHESS_OK lib gs board color)
    as [legal b0].
  cbn [fst]. by intros ->.
Qed.

Lemma Forall_sub {A} (P : A -> Prop) (l l' : list A) :
  (forall x, In x l' -> In x l) -> Forall P l -> Forall P l'.
Proof.
  rewrite !List.Forall_forall. auto.
Qed.

Lemma choose_ai_move_fast_grid_from gs board color two_stage grace_block_fn opponent
    pick :
  wf_grid (Board.grid board) ->
  Board.grid (snd (all_legal_moves_for_color sha1_key _CHESS_OK lib gs board color))
    = Board.grid board ->
  Forall (move_ok gs (Board.grid board))
    (fst (all_legal_moves_for_color sha1_key _CHESS_OK lib gs board color)) ->
  (forall f, grace_block_fn = Some f ->
     keeps_cells f (Board.grid board)
       (fst (all_legal_moves_for_color sha1_key _CHESS_OK lib gs board color))) ->
  Board.grid (snd (choose_ai_move_fast sha1_key _CHESS_OK lib get_ticks random gs
                     board color two_stage grace_block_fn opponent pick))
  = Board.grid board.
Proof.
  intros Hwf. unfold choose_ai_move_fast.
  destruct (all_legal_moves_for_color sha1_key _CHESS_OK lib gs board color)
    as [legal b0].
  cbn [fst snd]. intros Hg0 Hok0 Hgrace.
  destruct legal as [|m0 legal0]; [done|].
  set (legal := m0 :: legal0) in *.
  set (legal1 := stay_inside gs color two_stage legal).
  assert (H1 : forall x, In x legal1 -> In x legal) by apply stay_inside_In.
  match goal with
  | |- context [let '(x, y) := ?e in _] =>
      assert (H2 : (forall x, In x (fst e) -> In x legal1) /\
                   Board.grid (snd e) = Board.grid board);
      [|destruct e as [legal2 b1]]
  end.
  { destruct grace_block_fn as [f|]; [|done]. destruct two_stage; [|done].
    pose proof (grace_filter_In f opponent legal1 b0) as Hf.
    pose proof (grace_filter_grid f opponent (Board.grid board) legal legal1 b0
                  (Hgrace f eq_refl) H1 Hg0) as Hfg.
    destruct (grace_filter f opponent legal1 b0) as [[|x non_check] b1]; [done|].
    split; [exact Hf|exact Hfg]. }
  cbn [fst snd] in H2. destruct H2 as [H2 Hg1].
  destruct legal2 as [|m2 legal2']; [done|].
  set (legal3 := m2 :: legal2') in *.
  assert (Hok3 : Forall (move_ok gs (Board.grid b1)) legal3).
  { rewrite Hg1. apply (Forall_sub _ legal); [|done]. auto. }
  assert (Hwf1 : wf_grid (Board.grid b1)) by (by rewrite Hg1).
  pose proof (keyed_moves_grid sha1_key gs color two_stage legal3 b1 Hwf1 Hok3)
    as Hg2.
  pose proof (keyed_moves_In sha1_key gs color two_stage legal3 b1) as H3.
  destruct (keyed_moves sha1_key gs color two_stage legal3 b1) as [keyed b2].
  cbn [fst snd] in Hg2, H3.
  assert (Hg3 : Board.grid (snd (if negb two_stage
                  then let '(t, b3) := _alive_next_color b2 color in (Some t, b3)
                  else (None, b2))) = Board.grid b2).
  { destruct (negb two_stage); [|done].
    pose proof (alive_next_color_grid b2 color) as Ha.
    by destruct (_alive_next_color b2 color). }
  destruct (if negb two_stage then _ else _) as [target_left b3].
  cbn [snd] in Hg3.
  match goal with
  | |- context [fast_loop ?a ?b ?c ?d ?e ?f ?g ?h ?l ?k ?bb ?best ?bs] =>
      pose proof (fast_loop_grid a b c d e f g h l k bb best bs) as H4;
      destruct (fast_loop a b c d e f g h l k bb best bs) as [best_moves b4]
  end.
  cbn [snd] in *. rewrite H4; [congruence| |].
  - rewrite Hg3, Hg2. done.
  - rewrite Hg3, Hg2. apply (Forall_sub _ legal3); [|done].
    intros x Hx. by apply sorted_moves_In, H3 in Hx.
Qed.

End FastPolicySound.

Section FastPolicyComplete.

Variable sha1_key : string -> Z.
Variable _CHESS_OK : bool.
Variable lib : ChessLib.
Variable get_ticks : nat -> Z.
Variable random : nat -> float.

Lemma random_choice_nil {A} pick : @random_choice A pick [] = None.
Proof. unfold random_choice. by destruct (pick mod length (@nil A))%nat. Qed.

(** The policy is its scoring loop run over [fast_candidates]. *)
Lemma choose_ai_move_fast_loop gs board color two_stage grace_block_fn opponent pick :
  let cands :=
    fast_candidates sha1_key _CHESS_OK lib gs board color two_stage grace_block_fn
      opponent in
  fst (choose_ai_move_fast sha1_key _CHESS_OK lib get_ticks random gs board color
         two_stage grace_block_fn opponent pick)
  = random_choice pick
      (fst (fast_loop sha1_key get_ticks random gs color two_stage (snd (fst cands))
              (get_ticks 0) (fst (fst cands)) 1 (snd cands) []
              (float_of_Z (- 10 ^ 9)))).
Proof.
  cbv zeta. unfold fast_candidates, choose_ai_move_fast.
  destruct (all_legal_moves_for_color sha1_key _CHESS_OK lib gs board color)
    as [legal b0].
  destruct legal as [|m0 legal0]; [cbn [fast_loop fst snd]; by rewrite random_choice_nil|].
  match goal with
  | |- context [match grace_block_fn with Some f => @?X f | None => ?Y end] =>
      destruct (match grace_block_fn with Some f => X f | None => Y end)
        as [legal2 b1]
  end.
  destruct legal2 as [|m2 legal2'];
    [cbn [fast_loop fst snd]; by rewrite random_choice_nil|].
  destruct (keyed_moves sha1_key gs color two_stage (m2 :: legal2') b1) as [keyed b2].
  destruct (if negb two_stage then _ else _) as [target_left b3].
  cbn [fst snd].
  by destruct (fast_loop _ _ _ _ _ _ _ _ _ _ _ _ _) as [best b4].
Qed.

(** Once a candidate is in [best] the list never becomes empty again. *)
Lemma fast_loop_keeps_best gs color two_stage tl start_ts legal k b best best_score :
  best <> [] ->
  fst (fast_loop sha1_key get_ticks random gs color two_stage tl start_ts legal k b
         best best_score) <> [].
Proof.
  revert k b best best_score.
  induction legal as [|m rest IH]; intros k b best best_score Hne; [done|]. simpl.
  destruct (_ >? FAST_AI_BUDGET_MS); [done|].
  destruct (score_move _ _ _ _ _ _ _ _) as [score b1].
  destruct (PrimFloat.ltb best_score score); [by apply IH|].
  destruct (PrimFloat.ltb _ _); apply IH; [|done].
  by destruct best.
Qed.

Lemma fast_loop_first gs color two_stage tl start_ts m rest k b best_score :
  get_ticks k - start_ts <= FAST_AI_BUDGET_MS ->
  enters_best best_score
    (fst (score_move sha1_key gs color two_stage tl (random k) b m)) = true ->
  fst (fast_loop sha1_key get_ticks random gs color two_stage tl start_ts (m :: rest)
         k b [] best_score) <> [].
Proof.
  intros Hclock Hscore. simpl.
  assert (Hgt : (get_ticks k - start_ts >? FAST_AI_BUDGET_MS) = false).
  { rewrite Z.gtb_ltb. apply Z.ltb_ge. lia. }
  rewrite Hgt.
  destruct (score_move _ _ _ _ _ _ _ _) as [score b1]. cbn [fst] in Hscore.
  unfold enters_best in Hscore.
  destruct (PrimFloat.ltb best_score score); [by apply fast_loop_keeps_best|].
  cbn [orb] in Hscore. rewrite Hscore. by apply fast_loop_keeps_best.
Qed.

Lemma fast_loop_out_of_time gs color two_stage tl start_ts legal k b best best_score :
  get_ticks k - start_ts > FAST_AI_BUDGET_MS ->
  fst (fast_loop sha1_key get_ticks random gs color two_stage tl start_ts legal k b
         best best_score) = best.
Proof.
  intros Hclock. destruct legal as [|m rest]; [done|]. simpl.
  assert (Hgt : (get_ticks k - start_ts >? FAST_AI_BUDGET_MS) = true).
  { rewrite Z.gtb_ltb. apply Z.ltb_lt. lia. }
  by rewrite Hgt.
Qed.

Lemma sort_desc_nil {A K} (key_lt : K -> K -> bool) (l : list (K * A)) :
  sort_desc key_lt l = [] -> l = [].
Proof.
  intros Hnil. destruct l as [|x l]; [done|].
  assert (Hin : In x (sort_desc key_lt (x :: l))) by (apply sort_desc_In; by left).
  rewrite Hnil in Hin. destruct Hin.
Qed.

(** There is a candidate exactly when a legal move passes the stay-inside
    filter: the grace filter falls back on the list it was given. *)
Lemma fast_candidates_nil gs board color two_stage grace_block_fn opponent :
  fst (fst (fast_candidates sha1_key _CHESS_OK lib gs board color two_stage
              grace_block_fn opponent)) = [] <->
  stay_inside gs color two_stage
    (fst (all_legal_moves_for_color sha1_key _CHESS_OK lib gs board color)) = [].
Proof.
  unfold fast_candidates.
  destruct (all_legal_moves_for_color sha1_key _CHESS_OK lib gs board color)
    as [legal b0].
  cbn [fst].
  destruct legal as [|m0 legal0].
  { split; [|done]. intros _. unfold stay_inside.
    destruct gs as [g|]; [|done].
    by destruct (_ && negb (GameState.chess_lock g)), (GameState.chess_lock g). }
  set (legal1 := stay_inside gs color two_stage (m0 :: legal0)).
  match goal with
  | |- context [match grace_block_fn with Some f => @?X f | None => ?Y end] =>
      assert (H2 : fst (match grace_block_fn with Some f => X f | None => Y end) = []
                   <-> legal1 = []);
      [|destruct (match grace_block_fn with Some f => X f | None => Y end)
          as [legal2 b1]]
  end.
  { destruct grace_block_fn as [f|]; [|done]. destruct two_stage; [|done].
    pose proof (grace_filter_In f opponent legal1 b0) as Hin.
    destruct (grace_filter f opponent legal1 b0) as [[|x non_check] b1]; [done|].
    cbn [fst] in *. split; [done|]. intros Hnil.
    specialize (Hin x (or_introl eq_refl)). rewrite Hnil in Hin. destruct Hin. }
  cbn [fst] in H2. rewrite <- H2.
  destruct legal2 as [|m2 legal2']; [done|].
  pose proof (keyed_moves_In sha1_key gs color two_stage (m2 :: legal2') b1 m2) as H3.
  destruct (keyed_moves sha1_key gs color two_stage (m2 :: legal2') b1) as [keyed b2].
  destruct (if negb two_stage then _ else _) as [target_left b3].
  cbn [fst] in *. split; [|done]. intros Hnil.
  apply map_eq_nil, sort_desc_nil in Hnil. subst keyed.
  destruct (proj2 H3 (or_introl eq_refl)).
Qed.

End FastPolicyComplete.

Section DuelSeat.

Variable sha1_key : string -> Z.
Variable _CHESS_OK : bool.
Variable lib : ChessLib.

Lemma rc_to_sq_to_rc sq r c :
  _sq_to_rc true sq = Some (r, c) -> _in8 r c = true -> _rc_to_sq true r c = Some sq.
Proof.
  unfold _sq_to_rc, _rc_to_sq. cbn [negb orb]. intros [= <- <-] Hin.
  change (in_chess_area (CH_MAX - chess_square_rank sq) (CH_MIN + chess_square_file sq))
    with (_in8 (CH_MAX - chess_square_rank sq) (CH_MIN + chess_square_file sq)).
  rewrite Hin. cbn [negb]. f_equal.
  unfold chess_square, chess_square_rank, chess_square_file.
  rewrite Z.shiftr_div_pow2 by lia.
  change 7 with (Z.ones 3). rewrite Z.land_ones by lia.
  change (2 ^ 3) with 8. pose proof (Z.div_mod sq 8). lia.
Qed.

(** What the wrapper answers for a piece of the seat when python-chess
    drives the duel and the seat has no piece outside the 8x8: nothing
    unless the piece is of the side to move, and then the engine's legal
    moves from its square; the board is not touched. *)
Lemma override_engine_moves g cb b r c p color :
  _CHESS_OK = true -> GameState.chess_lock g = true ->
  GameState.chess_board g = Some cb ->
  has_outside b color = false ->
  Board.get b r c = Some p -> is_color color p = true ->
  exists plist,
    legal_moves_for_piece_override sha1_key _CHESS_OK lib (Some g) b r c (Some color)
      = (inr plist, b) /\
    (is_color WHITE p = cb_turn lib cb ->
     forall mv er ec,
       In mv (cb_legal_moves lib cb) ->
       engine_move_to_rc _CHESS_OK mv = Some (r, c, er, ec) ->
       In (r, c, er, ec) plist) /\
    (is_color WHITE p <> cb_turn lib cb -> plist = []).
Proof.
  intros Hok Hlock Hcb Hout Hp Hcol.
  pose proof (has_outside_false b color r c p Hout Hp Hcol) as Hin.
  unfold legal_moves_for_piece_override. rewrite Hok, Hlock, Hcb, Hp, Hout.
  rewrite andb_false_r.
  assert (Hrc : _rc_to_sq true r c = Some (chess_square (c - CH_MIN) (CH_MAX - r))).
  { unfold _rc_to_sq. change (in_chess_area r c) with (_in8 r c). by rewrite Hin. }
  rewrite Hrc.
  destruct (Bool.eqb (is_color WHITE p) (cb_turn lib cb)) eqn:Hturn; cbn [negb].
  - eexists. split; [done|]. split.
    + intros _ mv er ec Hmv Hm. apply in_flat_map. exists mv. split; [done|].
      unfold engine_move_to_rc in Hm.
      destruct (_sq_to_rc true (ChessBoard.from_square mv)) as [[sr sc]|] eqn:Hfrom;
        [|done].
      destruct (_sq_to_rc true (ChessBoard.to_square mv)) as [[er' ec']|] eqn:Hto;
        [|done].
      injection Hm as -> -> -> ->.
      pose proof (rc_to_sq_to_rc _ _ _ Hfrom Hin) as Hsq.
      rewrite Hrc in Hsq. injection Hsq as Hsq.
      rewrite bool_decide_eq_true_2 by done. by left.
    + apply Bool.eqb_prop in Hturn. done.
  - exists []. split; [done|]. split; [|done].
    intros Heq. rewrite Heq, Bool.eqb_reflx in Hturn. done.
Qed.

(** A legal move of the engine position whose from-square holds a piece of
    the seat, that side being to move, is among the legal moves of the
    seat. *)
Lemma all_legal_moves_engine_In g cb b color sr sc er ec p mv :
  _CHESS_OK = true -> GameState.chess_lock g = true ->
  GameState.chess_board g = Some cb ->
  has_outside b color = false ->
  Board.get b sr sc = Some p -> is_color color p = true ->
  is_color WHITE p = cb_turn lib cb ->
  In mv (cb_legal_moves lib cb) ->
  engine_move_to_rc _CHESS_OK mv = Some (sr, sc, er, ec) ->
  In (sr, sc, er, ec)
    (fst (all_legal_moves_for_color sha1_key _CHESS_OK lib (Some g) b color)).
Proof.
  intros Hok Hlock Hcb Hout Hp Hcol Hturn Hmv Hm.
  unfold all_legal_moves_for_color.
  assert (Hsq : In (sr, sc) all_squares).
  { by apply in_all_squares, (get_in_bounds b sr sc p). }
  revert Hsq. generalize (@nil Move4).
  assert (Hkeep : forall l moves x, In x moves ->
            In x (fst (List.fold_left (fun '(moves, b) '(r, c) =>
                match Board.get b r c with
                | Some p =>
                    if is_color color p then
                      match legal_moves_for_piece_override sha1_key _CHESS_OK lib
                              (Some g) b r c (Some color) with
                      | (inr plist, b') => (moves ++ plist, b')
                      | (inl _, b') => (moves, b')
                      end
                    else (moves, b)
                | None => (moves, b)
                end) l (moves, b)))).
  { induction l as [|[r c] l IH]; intros moves x Hx; [done|]. simpl.
    destruct (Board.get b r c) as [q|] eqn:Hq; [|by apply IH].
    destruct (is_color color q) eqn:Hqc; [|by apply IH].
    destruct (override_engine_moves g cb b r c q color Hok Hlock Hcb Hout Hq Hqc)
      as (plist & -> & _).
    apply IH. apply in_or_app. by left. }
  induction all_squares as [|[r c] l IH]; intros moves Hsq; [destruct Hsq|]. simpl.
  destruct Hsq as [[= -> ->]|Hsq].
  - rewrite Hp, Hcol.
    destruct (override_engine_moves g cb b sr sc p color Hok Hlock Hcb Hout Hp Hcol)
      as (plist & -> & Hall & _).
    apply Hkeep. apply in_or_app. right. by apply (Hall Hturn mv).
  - destruct (Board.get b r c) as [q|] eqn:Hq; [|by apply IH].
    destruct (is_color color q) eqn:Hqc; [|by apply IH].
    destruct (override_engine_moves g cb b r c q color Hok Hlock Hcb Hout Hq Hqc)
      as (plist & -> & _).
    by apply IH.
Qed.

End DuelSeat.




(** Under the duel lock on a host without python-chess the fast policy
    inherits the loss of the simulate/undo pair: on the seeded duel position
    the call for White leaves 24 of the 32 pieces on the board. *)
Lemma fast_policy_under_lock_without_engine_loses_pieces :
  let '(b, g) := duel_start in
  piece_count (Board.grid b) = 32%nat /\
  piece_count (Board.grid (snd (choose_ai_move_fast no_key false absent_lib
                                  still_clock (fun _ => 0%float) (Some g) b WHITE
                                  true None None 0))) = 24%nat.
Proof. vm_compute. split; reflexivity. Qed.


(** * Further properties of the engine *)

(** ** Geometry of the board *)

(** X1.  The rotation that puts a seat at the bottom of the window is undone
    by the same call with [inverse=True], and the other way round; a square
    is on the board after the rotation exactly when it was before. *)
Theorem view_rotation_round_trip (seat : option PColor) (r c : Z) :
  let '(vr, vc) := _transform_rc_for_view seat r c false in
  let '(br, bc) := _transform_rc_for_view seat r c true in
  _transform_rc_for_view seat vr vc true = (r, c) /\
  _transform_rc_for_view seat br bc false = (r, c) /\
  Board.in_bounds vr vc = Board.in_bounds r c /\
  Board.in_bounds br bc = Board.in_bounds r c.
Proof.
  assert (Hb : forall x y x' y',
            (0 <= x < 12 /\ 0 <= y < 12 <-> 0 <= x' < 12 /\ 0 <= y' < 12) ->
            Board.in_bounds x y = Board.in_bounds x' y').
  { intros x y x' y' H.
    destruct (Board.in_bounds x' y') eqn:E.
    - apply in_bounds_spec. apply H. by apply in_bounds_spec.
    - apply in_bounds_false. apply in_bounds_false in E. tauto. }
  destruct seat as [[]|];
    cbv beta iota zeta delta [_transform_rc_for_view rot90 rot180 rot270 BOARD_SIZE];
    repeat split; first [f_equal; lia | apply Hb; lia].
Qed.

(** X2.  With python-chess present, [_rc_to_sq] maps the squares of the 8x8,
    and only those, to the engine's squares 0..63, and [_sq_to_rc] is its
    inverse in both directions; the network adapter's own pair of functions
    computes the same mapping. *)
Theorem square_mapping_round_trip :
  (forall r c,
     match _rc_to_sq true r c with
     | Some sq =>
         in_chess_area r c = true /\ 0 <= sq < 64 /\ _sq_to_rc true sq = Some (r, c)
     | None => in_chess_area r c = false
     end) /\
  (forall sq, 0 <= sq < 64 ->
     exists r c, _sq_to_rc true sq = Some (r, c) /\ _rc_to_sq true r c = Some sq) /\
  (forall r c, _engine_to_chess_square r c = _rc_to_sq true r c) /\
  (forall sq, Some (_chess_to_engine_rc sq) = _sq_to_rc true sq) /\
  (forall r c sq, _rc_to_sq false r c = None /\ _sq_to_rc false sq = None).
Proof.
  assert (Hfile : forall f k, 0 <= f < 8 -> 0 <= k < 8 ->
            chess_square_file (chess_square f k) = f /\
            chess_square_rank (chess_square f k) = k).
  { intros f k Hf Hk. unfold chess_square_file, chess_square_rank, chess_square.
    change 7 with (Z.ones 3). rewrite Z.land_ones, Z.shiftr_div_pow2 by lia.
    change (2 ^ 3) with 8. split.
    - symmetry. apply Z.mod_unique_pos with (q := k); lia.
    - symmetry. apply Z.div_unique_pos with (r := f); lia. }
  assert (Hsq : forall sq, 0 <= sq < 64 ->
            0 <= chess_square_file sq < 8 /\ 0 <= chess_square_rank sq < 8 /\
            chess_square (chess_square_file sq) (chess_square_rank sq) = sq).
  { intros sq Hs. unfold chess_square_file, chess_square_rank, chess_square.
    change 7 with (Z.ones 3). rewrite Z.land_ones, Z.shiftr_div_pow2 by lia.
    change (2 ^ 3) with 8.
    pose proof (Z.mod_pos_bound sq 8 ltac:(lia)).
    pose proof (Z.div_mod sq 8 ltac:(lia)).
    assert (0 <= sq / 8 < 8)
      by (split; [apply Z.div_pos; lia|apply Z.div_lt_upper_bound; lia]).
    lia. }
  repeat split.
  - intros r c. unfold _rc_to_sq. simpl.
    destruct (in_chess_area r c) eqn:Hin; simpl; [|done].
    assert (Hr : 0 <= c - CH_MIN < 8 /\ 0 <= CH_MAX - r < 8)
      by (unfold in_chess_area, CH_MIN, CH_MAX in *; lia).
    destruct (Hfile _ _ (proj1 Hr) (proj2 Hr)) as [Hf Hk].
    split; [done|]. split.
    + unfold chess_square. lia.
    + unfold _sq_to_rc. simpl. rewrite Hf, Hk. f_equal. f_equal; lia.
  - intros sq Hs. destruct (Hsq sq Hs) as (Hf & Hk & Hback).
    eexists _, _. split; [reflexivity|].
    unfold _rc_to_sq. simpl.
    assert (Hin : in_chess_area (CH_MAX - chess_square_rank sq)
                    (CH_MIN + chess_square_file sq) = true)
      by (unfold in_chess_area, CH_MIN, CH_MAX; lia).
    rewrite Hin. simpl. f_equal. rewrite <- Hback at 3. f_equal; lia.
  - intros r c. unfold _engine_to_chess_square, _rc_to_sq, in_chess_area, CH_MIN, CH_MAX.
    simpl.
    destruct ((2 <=? r) && (r <=? 9) && (2 <=? c) && (c <=? 9)) eqn:Hin; simpl; [|done].
    assert (Hok : (0 <=? c - 2) && (c - 2 <? 8) && (1 <=? 8 - (r - 2))
                  && (8 - (r - 2) <=? 8) = true) by lia.
    rewrite Hok. simpl. f_equal. f_equal; lia.
  - intros sq. unfold _chess_to_engine_rc, _sq_to_rc, CH_MIN, CH_MAX. simpl.
    f_equal. f_equal; lia.
  - unfold _rc_to_sq. simpl. by rewrite orb_true_r.
Qed.


Lemma corner_owner_at_rect r c col :
  corner_owner_at r c = Some col <->
  (fst (corner_rect col) <= r <= fst (corner_rect col) + 1 /\
   snd (corner_rect col) <= c <= snd (corner_rect col) + 1).
Proof.
  unfold corner_owner_at, CORNER_RECTS. simpl.
  repeat match goal with
         | |- context [if ?b then _ else _] => destruct b eqn:?
         end;
    destruct col; simpl; split; intros H;
    first [reflexivity | discriminate | lia | exfalso; lia].
Qed.

Lemma home_cells_rect r c col :
  In (r, c) (king_home_cells col) <->
  (fst (corner_rect col) <= r <= fst (corner_rect col) + 1 /\
   snd (corner_rect col) <= c <= snd (corner_rect col) + 1).
Proof.
  unfold king_home_cells. destruct (corner_rect col) as [r0 c0]. simpl. split.
  - intros [H|[H|[H|[H|[]]]]]; injection H as <- <-; lia.
  - intros [Hr Hc].
    assert (Hr' : r = r0 \/ r = r0 + 1) by lia.
    assert (Hc' : c = c0 \/ c = c0 + 1) by lia.
    destruct Hr' as [-> | ->], Hc' as [-> | ->]; auto 10.
Qed.

(** X3.  [corner_owner_at] and [king_home_cells] describe the same four
    2x2 corners: a square belongs to the corner of a seat exactly when it is
    one of that seat's home cells.  Every corner square is on the board and
    outside the 8x8, so the second test of [_king_in_home_corner] never
    decides: the function answers whether the king found stands on a home
    cell of its seat. *)
Theorem corners_are_the_home_cells (r c : Z) (color : PColor) :
  (corner_owner_at r c = Some color <-> In (r, c) (king_home_cells color)) /\
  (corner_owner_at r c <> None ->
     Board.in_bounds r c = true /\ in_chess_area r c = false /\ _in8 r c = false) /\
  (forall b,
     fst (_king_in_home_corner b color)
     = match fst (Board.find_king b color) with
       | Some (kr, kc) => bool_decide (corner_owner_at kr kc = Some color)
       | None => false
       end).
Proof.
  split; [by rewrite corner_owner_at_rect, home_cells_rect|].
  split.
  - destruct (corner_owner_at r c) as [col|] eqn:E; [intros _|done].
    apply corner_owner_at_rect in E. rewrite in_bounds_spec.
    unfold in_chess_area, _in8, CH_MIN, CH_MAX. destruct col; simpl in E; lia.
  - intros b. unfold _king_in_home_corner.
    destruct (Board.find_king b color) as [[[kr kc]|] b1]; [|done]. simpl.
    destruct (decide (corner_owner_at kr kc = Some color)) as [Hown|Hown].
    + rewrite (bool_decide_eq_true_2 (corner_owner_at kr kc = Some color)) by done.
      pose proof (proj1 (corner_owner_at_rect kr kc color) Hown) as Hrect.
      rewrite bool_decide_eq_true_2
        by (apply list_elem_of_In; by apply home_cells_rect).
      unfold _in8, CH_MIN, CH_MAX. destruct color; simpl in Hrect; lia.
    + rewrite (bool_decide_eq_false_2 (corner_owner_at kr kc = Some color)) by done.
      rewrite bool_decide_eq_false_2; [done|].
      intros Hin. apply list_elem_of_In, home_cells_rect in Hin.
      by apply Hown, corner_owner_at_rect.
Qed.

(** X4.  [dist_to_chess] is zero exactly on the 8x8, never negative, at
    most 4 on the board, and moving a square by (dr,dc) changes it by at
    most |dr| + |dc|: one king step changes the distance by at most 2. *)
Theorem dist_to_chess_is_a_distance (r c dr dc : Z) :
  (dist_to_chess r c = 0 <-> in_chess_area r c = true) /\
  0 <= dist_to_chess r c /\
  (Board.in_bounds r c = true -> dist_to_chess r c <= 4) /\
  Z.abs (dist_to_chess (r + dr) (c + dc) - dist_to_chess r c) <= Z.abs dr + Z.abs dc.
Proof.
  unfold dist_to_chess, in_chess_area, CH_MIN, CH_MAX.
  rewrite in_bounds_spec.
  repeat match goal with
         | |- context [if ?b then _ else _] => destruct b eqn:?
         end; repeat split; intros; try lia.
Qed.

(** X5.  [_mirror_square_index] flips the rank of an engine square and
    keeps its file; applied twice it gives the square back. *)
Theorem mirror_square_flips_the_rank (sq : Z) :
  0 <= sq < 64 ->
  0 <= _mirror_square_index sq < 64 /\
  _mirror_square_index (_mirror_square_index sq) = sq /\
  chess_square_file (_mirror_square_index sq) = chess_square_file sq /\
  chess_square_rank (_mirror_square_index sq) = 7 - chess_square_rank sq.
Proof.
  intros Hsq.
  assert (Hall : forallb (fun s =>
            (0 <=? _mirror_square_index s) && (_mirror_square_index s <? 64)
            && (_mirror_square_index (_mirror_square_index s) =? s)
            && (chess_square_file (_mirror_square_index s) =? chess_square_file s)
            && (chess_square_rank (_mirror_square_index s) =? 7 - chess_square_rank s))
            (zrange 0 64) = true) by (vm_compute; reflexivity).
  rewrite forallb_forall in Hall.
  specialize (Hall sq (in_zrange 0 64 sq ltac:(lia))). lia.
Qed.

Lemma mirror_square_flips_the_rank_witness :
  _mirror_square_index 12 = 52 /\ chess_square_rank 52 = 6.
Proof.
  destruct (mirror_square_flips_the_rank 12 ltac:(lia)) as (_ & _ & _ & Hrank).
  split; [reflexivity|]. exact Hrank.
Defined.


(** ** The board and its king cache *)

Lemma in_zrange_iff lo n x : In x (zrange lo n) <-> lo <= x < lo + Z.of_nat n.
Proof.
  split; [|apply in_zrange].
  unfold zrange. rewrite in_map_iff. intros (i & <- & Hi). apply in_seq in Hi. lia.
Qed.

Lemma all_squares_spec r c : In (r, c) all_squares <-> Board.in_bounds r c = true.
Proof.
  split; [|apply in_all_squares].
  unfold all_squares. rewrite in_flat_map. intros (r' & Hr & Hc).
  apply in_map_iff in Hc as (c' & [= <- <-] & Hc).
  apply in_zrange_iff in Hr, Hc. apply in_bounds_spec. lia.
Qed.

Lemma is_king_of_on_board col b r c :
  Board.is_king_of col (Board.get b r c) = true -> In (r, c) all_squares.
Proof.
  intros Hk. apply all_squares_spec.
  destruct (Board.get b r c) as [p|] eqn:Hp; [|done].
  by apply (get_in_bounds b r c p).
Qed.

Lemma scan_king_spec b col :
  match Board.scan_king b col with
  | Some (r, c) => Board.is_king_of col (Board.get b r c) = true
  | None => forall r c, Board.is_king_of col (Board.get b r c) = false
  end.
Proof.
  unfold Board.scan_king.
  destruct (List.find (fun '(r, c) => Board.is_king_of col (Board.get b r c))
              all_squares) as [[r c]|] eqn:Hfind.
  - by apply find_some in Hfind as [_ Hk].
  - intros r c. destruct (Board.is_king_of col (Board.get b r c)) eqn:Hk; [|done].
    pose proof (find_none _ _ Hfind (r, c) (is_king_of_on_board col b r c Hk)) as Hn.
    simpl in Hn. congruence.
Qed.

Lemma has_king_spec b col :
  has_king b col = true <-> exists r c, Board.is_king_of col (Board.get b r c) = true.
Proof.
  unfold has_king. rewrite existsb_exists. split.
  - intros ([r c] & _ & Hk). eauto.
  - intros (r & c & Hk). exists (r, c). split; [|done].
    by apply (is_king_of_on_board col b).
Qed.

Lemma has_king_same_grid b b' col :
  Board.grid b = Board.grid b' -> has_king b col = has_king b' col.
Proof.
  intros Hg. unfold has_king. generalize all_squares.
  induction l as [|[r c] l IH]; simpl; [done|].
  by rewrite (get_same_grid b b'), IH.
Qed.

Lemma find_king_is_Some b col :
  is_Some_b (fst (Board.find_king b col)) = has_king b col.
Proof.
  unfold Board.find_king.
  pose proof (scan_king_spec b col) as Hscan.
  assert (Hs : is_Some_b (fst (match Board.scan_king b col with
                | Some pos => (Some pos, Board.set_cache b col (Some pos))
                | None => (None, Board.set_cache b col None)
                end)) = has_king b col).
  { destruct (Board.scan_king b col) as [[r c]|]; simpl.
    - symmetry. apply has_king_spec. eauto.
    - destruct (has_king b col) eqn:E; [|done].
      apply has_king_spec in E as (r & c & Hk). by rewrite Hscan in Hk. }
  destruct (PerSeat.get _ col) as [[r c]|]; [|exact Hs].
  simpl. destruct (Board.is_king_of col (Board.get b r c)) eqn:Hk; [|exact Hs].
  simpl. symmetry. apply has_king_spec. eauto.
Qed.

(** X6.  [find_king] answers from the grid whatever the cache holds: a
    position it returns carries a king of the colour, and [None] means that
    no square of the board does.  The cells are not touched, the cache entry
    of the colour is left equal to the answer and the entries of the other
    colours are left alone. *)
Theorem find_king_answers_from_the_grid (b : Board.t) (col : PColor) :
  let '(kp, b') := Board.find_king b col in
  Board.grid b' = Board.grid b /\
  PerSeat.get (Board.king_positions b') col = kp /\
  (forall col', col <> col' ->
     PerSeat.get (Board.king_positions b') col'
     = PerSeat.get (Board.king_positions b) col') /\
  match kp with
  | Some (r, c) => Board.is_king_of col (Board.get b r c) = true
  | None => forall r c, Board.is_king_of col (Board.get b r c) = false
  end.
Proof.
  pose proof (find_king_grid b col) as Hg.
  pose proof (fun col' => find_king_cache_other b col col') as Hother.
  pose proof (scan_king_spec b col) as Hscan.
  unfold Board.find_king in *.
  destruct (PerSeat.get (Board.king_positions b) col) as [[r c]|] eqn:Hc.
  - simpl in *. destruct (Board.is_king_of col (Board.get b r c)) eqn:Hk.
    + by repeat split.
    + destruct (Board.scan_king b col) as [[r' c']|]; simpl in *;
        (split; [done|]; split; [by rewrite PerSeat_get_set_eq|]; by split).
  - destruct (Board.scan_king b col) as [[r' c']|]; simpl in *;
      (split; [done|]; split; [by rewrite PerSeat_get_set_eq|]; by split).
Qed.

Lemma alive_among_spec b cols :
  fst (Board.alive_among b cols) = List.filter (has_king b) cols.
Proof.
  revert b. induction cols as [|col cols IH]; intros b; [done|]. simpl.
  pose proof (find_king_is_Some b col) as Hk.
  pose proof (find_king_grid b col) as Hg.
  destruct (Board.find_king b col) as [kp b1]. simpl in *.
  specialize (IH b1).
  destruct (Board.alive_among b1 cols) as [l b2]. simpl in *.
  rewrite IH, <- Hk.
  rewrite (filter_ext (has_king b1) (has_king b))
    by (intros x; by apply has_king_same_grid).
  by destruct kp.
Qed.

(** X7.  [alive_colors] lists, in turn order, exactly the seats that have
    a king somewhere on the board, and leaves the cells alone; the other
    ways of asking ([_alive_by_kings], and [_alive_effective] up to the
    flashing seat) give the same seats. *)
Theorem alive_colors_are_the_seats_with_a_king (b : Board.t) (state : GameState.t) :
  fst (Board.alive_colors b) = List.filter (has_king b) TURN_ORDER /\
  Board.grid (snd (Board.alive_colors b)) = Board.grid b /\
  fst (_alive_by_kings b) = fst (Board.alive_colors b) /\
  fst (_alive_effective b state)
  = List.filter (fun c => negb (bool_decide (Some c = GameState.elim_flash_color state)))
      (fst (Board.alive_colors b)).
Proof.
  split; [apply alive_among_spec|].
  split; [apply alive_among_grid|].
  split; [done|].
  unfold _alive_effective. by destruct (Board.alive_colors b).
Qed.

(** X8.  [Board.set] writes one cell: afterwards [get] returns the new
    content there and the old content everywhere else, and a write outside
    the board changes nothing.  The cache follows the write: a king written
    is recorded for its colour; any other write clears the entries that
    pointed at the cell and leaves the rest. *)
Theorem board_set_then_get (b : Board.t) (r c : Z) (p : option Piece.t) :
  wf_grid (Board.grid b) ->
  let b' := Board.set b r c p in
  wf_grid (Board.grid b') /\
  (forall r' c',
     Board.get b' r' c'
     = if Board.in_bounds r c && bool_decide ((r, c) = (r', c')) then p
       else Board.get b r' c') /\
  (Board.in_bounds r c = false -> b' = b) /\
  (Board.in_bounds r c = true ->
   forall col,
     PerSeat.get (Board.king_positions b') col
     = match p with
       | Some pc =>
           if is_kind King pc then
             if bool_decide (Piece.color pc = col) then Some (r, c)
             else PerSeat.get (Board.king_positions b) col
           else if bool_decide (PerSeat.get (Board.king_positions b) col = Some (r, c))
                then None else PerSeat.get (Board.king_positions b) col
       | None =>
           if bool_decide (PerSeat.get (Board.king_positions b) col = Some (r, c))
           then None else PerSeat.get (Board.king_positions b) col
       end).
Proof.
  intros Hwf b'. subst b'.
  split; [by apply set_wf|].
  split; [intros r' c'; by apply get_set|].
  split; [intros Hin; unfold Board.set; by rewrite Hin|].
  intros Hin col. unfold Board.set, Board.cache_after_set. rewrite Hin. simpl.
  destruct p as [pc|]; [destruct (is_kind King pc)|].
  - case_bool_decide as Hcol.
    + subst col. by rewrite PerSeat_get_set_eq.
    + by rewrite PerSeat_get_set_ne.
  - by destruct (Board.king_positions b), col.
  - by destruct (Board.king_positions b), col.
Qed.

Lemma board_set_then_get_witness :
  Board.get (Board.set (Board_init 0) 5 5 (Some (Piece.new 99 Rook WHITE))) 5 5
  = Some (Piece.new 99 Rook WHITE).
Proof.
  assert (Hwf : wf_grid (Board.grid (Board_init 0))).
  { split; [reflexivity|]. vm_compute. repeat constructor. }
  destruct (board_set_then_get (Board_init 0) 5 5 (Some (Piece.new 99 Rook WHITE)) Hwf)
    as (_ & Hget & _).
  rewrite Hget. reflexivity.
Defined.


(** ** Turn order *)

Lemma color_in_In col l : color_in col l = true <-> In col l.
Proof.
  unfold color_in. rewrite existsb_exists. split.
  - intros (x & Hx & Heq). apply bool_decide_eq_true in Heq. by subst.
  - intros Hin. exists col. split; [done|]. by apply bool_decide_eq_true.
Qed.

Lemma turn_order_at_index col : turn_order_at (turn_index col mod 4) = col.
Proof. by destruct col. Qed.

Lemma seat_reached (col : PColor) (idx : Z) :
  exists k, 0 <= k < 4 /\ turn_order_at ((idx + k) mod 4) = col.
Proof.
  exists ((turn_index col - idx) mod 4).
  split; [apply Z.mod_pos_bound; lia|].
  rewrite Z.add_mod_idemp_r by lia.
  replace (idx + (turn_index col - idx)) with (turn_index col) by lia.
  apply turn_order_at_index.
Qed.

Lemma advance_loop_spec n alive idx :
  (exists k, 0 <= k < Z.of_nat n /\ In (turn_order_at ((idx + k) mod 4)) alive) ->
  exists k, 0 <= k < Z.of_nat n /\
    advance_loop n alive idx = (idx + k) mod 4 /\
    In (turn_order_at ((idx + k) mod 4)) alive /\
    forall j, 0 <= j < k -> ~ In (turn_order_at ((idx + j) mod 4)) alive.
Proof.
  revert idx. induction n as [|n IH]; intros idx (k & Hk & Hin); [lia|].
  simpl advance_loop.
  destruct (color_in (turn_order_at (idx mod 4)) alive) eqn:Hhere.
  - exists 0. rewrite Z.add_0_r. split; [lia|]. split; [done|].
    split; [by apply color_in_In|]. intros j Hj. lia.
  - assert (Hk0 : k <> 0).
    { intros ->. rewrite Z.add_0_r in Hin. apply color_in_In in Hin. congruence. }
    assert (Hshift : forall j, (((idx + 1) mod 4) + j) mod 4 = (idx + (j + 1)) mod 4).
    { intros j. rewrite Z.add_mod_idemp_l by lia. f_equal. lia. }
    destruct (IH ((idx + 1) mod 4)) as (k' & Hk' & Hres & Hin' & Hfirst).
    { exists (k - 1). split; [lia|]. rewrite Hshift.
      by replace (k - 1 + 1) with k by lia. }
    exists (k' + 1). split; [lia|]. rewrite Hshift in Hres, Hin'.
    split; [done|]. split; [done|].
    intros j Hj. destruct (decide (j = 0)) as [->|Hj0].
    + rewrite Z.add_0_r. intros Hc. apply color_in_In in Hc. congruence.
    + specialize (Hfirst (j - 1) ltac:(lia)). rewrite Hshift in Hfirst.
      by replace (j - 1 + 1) with j in Hfirst by lia.
Qed.

(** X9.  [_advance_turn_index] leaves the cells alone; with no seat alive it
    returns its argument, and otherwise the index of the first living seat
    met when walking clockwise from the seat of the argument, that seat
    included: a living seat is never skipped and a dead one never chosen. *)
Theorem advance_turn_index_finds_the_next_living_seat (b : Board.t) (idx : Z) :
  let '(i, b') := _advance_turn_index b idx in
  let alive := fst (Board.alive_colors b) in
  Board.grid b' = Board.grid b /\
  (alive = [] -> i = idx) /\
  (alive <> [] ->
   exists k, 0 <= k < 4 /\ i = (idx + k) mod 4 /\
     In (turn_order_at i) alive /\
     forall j, 0 <= j < k -> ~ In (turn_order_at ((idx + j) mod 4)) alive).
Proof.
  unfold _advance_turn_index.
  pose proof (alive_among_grid b TURN_ORDER) as Hg.
  unfold Board.alive_colors in *.
  destruct (Board.alive_among b TURN_ORDER) as [alive b1]. cbn [fst snd] in *.
  destruct alive as [|a l].
  - by repeat split.
  - split; [done|]. split; [done|]. intros _.
    destruct (advance_loop_spec 4 (a :: l) idx) as (k & Hk & Hres & Hin & Hfirst).
    { destruct (seat_reached a idx) as (k & Hk & Hseat).
      exists k. split; [lia|]. rewrite Hseat. by left. }
    exists k. rewrite Hres. repeat split; try done; lia.
Qed.

(** X10.  [clockwise_from] answers [None] for an empty candidate list
    only; otherwise it returns the first candidate met when walking
    clockwise from the seat after [color] ([color] itself comes last).  Its
    fallback to [candidates[0]] is never what decides. *)
Theorem clockwise_from_picks_the_first_candidate
    (color : PColor) (candidates : list PColor) :
  match clockwise_from color candidates with
  | None => candidates = []
  | Some nxt =>
      exists i, 1 <= i <= 4 /\
        nxt = turn_order_at ((turn_index color + i) mod 4) /\
        In nxt candidates /\
        forall j, 1 <= j < i ->
          ~ In (turn_order_at ((turn_index color + j) mod 4)) candidates
  end.
Proof.
  unfold clockwise_from. destruct candidates as [|first rest]; [done|].
  set (cands := first :: rest).
  assert (Hsome : exists k, 0 <= k < 4 /\
            In (turn_order_at ((turn_index color + 1 + k) mod 4)) cands).
  { destruct (seat_reached first (turn_index color + 1)) as (k & Hk & Hseat).
    exists k. split; [done|]. rewrite Hseat. by left. }
  destruct Hsome as (k & Hk & Hin).
  assert (Hcase : k = 0 \/ k = 1 \/ k = 2 \/ k = 3) by lia.
  cbn [List.map List.find].
  destruct (color_in (turn_order_at ((turn_index color + 1) mod 4)) cands) eqn:H1.
  { cbv beta iota. exists 1. apply color_in_In in H1. repeat split; try done; lia. }
  destruct (color_in (turn_order_at ((turn_index color + 2) mod 4)) cands) eqn:H2.
  { cbv beta iota. exists 2. apply color_in_In in H2. repeat split; try done; try lia.
    intros j Hj Hc. replace j with 1 in Hc by lia.
    apply color_in_In in Hc. congruence. }
  destruct (color_in (turn_order_at ((turn_index color + 3) mod 4)) cands) eqn:H3.
  { cbv beta iota. exists 3. apply color_in_In in H3. repeat split; try done; try lia.
    intros j Hj Hc. apply color_in_In in Hc.
    assert (Hj' : j = 1 \/ j = 2) by lia. destruct Hj' as [-> | ->]; congruence. }
  destruct (color_in (turn_order_at ((turn_index color + 4) mod 4)) cands) eqn:H4.
  { cbv beta iota. exists 4. apply color_in_In in H4. repeat split; try done; try lia.
    intros j Hj Hc. apply color_in_In in Hc.
    assert (Hj' : j = 1 \/ j = 2 \/ j = 3) by lia.
    destruct Hj' as [-> | [-> | ->]]; congruence. }
  exfalso. apply color_in_In in Hin.
  destruct Hcase as [-> | [-> | [-> | ->]]];
    [replace (turn_index color + 1 + 0) with (turn_index color + 1) in Hin by lia
    |replace (turn_index color + 1 + 1) with (turn_index color + 2) in Hin by lia
    |replace (turn_index color + 1 + 2) with (turn_index color + 3) in Hin by lia
    |replace (turn_index color + 1 + 3) with (turn_index color + 4) in Hin by lia];
    congruence.
Qed.

(** X11.  [_alive_next_color] is [clockwise_from] over the living seats:
    the first seat after [color], clockwise, that still has a king ([color]
    itself when it is the only one), and [color] when no seat has one.  The
    cells are left alone. *)
Theorem alive_next_color_is_clockwise_from (b : Board.t) (color : PColor) :
  fst (_alive_next_color b color)
  = match clockwise_from color (fst (Board.alive_colors b)) with
    | Some nxt => nxt
    | None => color
    end /\
  Board.grid (snd (_alive_next_color b color)) = Board.grid b.
Proof.
  split; [|apply alive_next_color_grid].
  unfold Board.alive_colors. rewrite alive_among_spec.
  assert (Hstep : forall b0 col,
            Board.grid b0 = Board.grid b ->
            is_Some_b (fst (Board.find_king b0 col)) = has_king b col /\
            Board.grid (snd (Board.find_king b0 col)) = Board.grid b).
  { intros b0 col Hg. rewrite find_king_is_Some, find_king_grid.
    split; [by apply has_king_same_grid|done]. }
  assert (Hin : forall col, color_in col (List.filter (has_king b) TURN_ORDER)
                            = has_king b col).
  { intros col. destruct (has_king b col) eqn:E.
    - apply color_in_In, filter_In. split; [destruct col; simpl; auto|done].
    - destruct (color_in col _) eqn:E'; [|done].
      apply color_in_In, filter_In in E' as [_ E']. congruence. }
  assert (Hmem : forall col, In col (List.filter (has_king b) TURN_ORDER) ->
                             has_king b col = true).
  { intros col Hc. by apply filter_In in Hc as [_ Hc]. }
  remember (List.filter (has_king b) TURN_ORDER) as alive eqn:Hf. clear Hf.
  unfold _alive_next_color, clockwise_from. cbn [List.map List.find].
  destruct alive as [|first rest].
  - cbv zeta.
    repeat match goal with
    | |- context [Board.find_king ?b0 ?c] =>
        let H := fresh "Hk" in
        let Hg := fresh "Hg" in
        destruct (Hstep b0 c ltac:(first [reflexivity|assumption])) as [H Hg];
        rewrite <- Hin in H;
        destruct (Board.find_king b0 c) as [[?|] ?]; cbn [fst snd] in H, Hg;
        [discriminate H|]
    end.
    done.
  - set (cands := first :: rest) in *. rewrite !Hin. cbv zeta.
    repeat match goal with
    | |- context [Board.find_king ?b0 ?c] =>
        let H := fresh "Hk" in
        let Hg := fresh "Hg" in
        destruct (Hstep b0 c ltac:(first [reflexivity|assumption])) as [H Hg];
        rewrite <- H;
        destruct (Board.find_king b0 c) as [[?|] ?]; cbn [fst snd is_Some_b] in *;
        [done|]
    end.
    exfalso.
    assert (Hfirst : has_king b first = true) by (apply Hmem; by left).
    destruct color, first; simpl in *; congruence.
Qed.


(** ** Sweeps over the board *)


Lemma swept_get doomed b r c :
  swept doomed b r c
  = match Board.get b r c with
    | Some p => if doomed r c p then None else Some p
    | None => None
    end.
Proof. done. Qed.

Lemma sweep_wf doomed l b :
  wf_grid (Board.grid b) -> wf_grid (Board.grid (sweep doomed l b)).
Proof.
  revert b. induction l as [|[rr cc] l IH]; intros b Hwf; [done|]. simpl.
  apply IH. destruct (Board.get b rr cc) as [p|]; [|done].
  destruct (doomed rr cc p); [by apply set_wf|done].
Qed.

Lemma sweep_get doomed l b r c :
  wf_grid (Board.grid b) ->
  Board.get (sweep doomed l b) r c
  = if List.existsb (fun sq => bool_decide (sq = (r, c))) l
    then swept doomed b r c else Board.get b r c.
Proof.
  revert b. induction l as [|[rr cc] l IH]; intros b Hwf; [done|].
  cbn [sweep List.fold_left List.existsb].
  set (b1 := match Board.get b rr cc with
             | Some p => if doomed rr cc p then Board.set b rr cc None else b
             | None => b
             end).
  assert (Hwf1 : wf_grid (Board.grid b1)).
  { subst b1. destruct (Board.get b rr cc) as [p|]; [|done].
    destruct (doomed rr cc p); [by apply set_wf|done]. }
  assert (Hb1 : Board.get b1 r c
                = if bool_decide ((rr, cc) = (r, c)) then swept doomed b r c
                  else Board.get b r c).
  { subst b1. unfold swept. case_bool_decide as Heq.
    - injection Heq as -> ->.
      destruct (Board.get b r c) as [p|] eqn:Hp; [|done].
      destruct (doomed r c p); [|done].
      rewrite get_set by done. rewrite (get_in_bounds b r c p Hp).
      by rewrite bool_decide_eq_true_2.
    - destruct (Board.get b rr cc) as [p|]; [|done].
      destruct (doomed rr cc p); [|done].
      by rewrite get_set_ne. }
  transitivity (Board.get (sweep doomed l b1) r c); [reflexivity|].
  rewrite (IH b1 Hwf1).
  assert (Hs1 : swept doomed b1 r c = swept doomed b r c).
  { unfold swept at 1. rewrite Hb1. unfold swept. case_bool_decide; [|done].
    destruct (Board.get b r c) as [p|]; [|done].
    destruct (doomed r c p) eqn:Hd; [done|]. by rewrite Hd. }
  rewrite Hs1, Hb1.
  destruct (bool_decide ((rr, cc) = (r, c))); simpl; [|done].
  by match goal with |- context [existsb ?f l] => destruct (existsb f l) end.
Qed.

Lemma all_squares_existsb r c :
  List.existsb (fun sq => bool_decide (sq = (r, c))) all_squares = Board.in_bounds r c.
Proof.
  destruct (Board.in_bounds r c) eqn:Hin.
  - apply existsb_exists. exists (r, c). split; [by apply in_all_squares|].
    by apply bool_decide_eq_true.
  - destruct (existsb (fun sq => bool_decide (sq = (r, c))) all_squares) eqn:E; [|done].
    apply existsb_exists in E as (sq & Hsq & Heq).
    apply bool_decide_eq_true in Heq. subst sq.
    apply all_squares_spec in Hsq. congruence.
Qed.

(** A sweep over all the squares empties exactly the doomed cells. *)
Lemma sweep_all_get doomed b r c :
  wf_grid (Board.grid b) ->
  Board.get (sweep doomed all_squares b) r c = swept doomed b r c.
Proof.
  intros Hwf. rewrite sweep_get, all_squares_existsb by done.
  destruct (Board.in_bounds r c) eqn:Hin; [done|].
  unfold swept. by rewrite get_out_of_bounds.
Qed.

Lemma sweep_keeps_kings doomed b col :
  wf_grid (Board.grid b) ->
  (forall r c p, is_kind King p = true -> is_color col p = true ->
                 doomed r c p = false) ->
  has_king (sweep doomed all_squares b) col = has_king b col.
Proof.
  intros Hwf Hspare. unfold has_king.
  set (b1 := sweep doomed all_squares b).
  assert (Hb1 : forall r c, Board.get b1 r c = swept doomed b r c)
    by (intros; by apply sweep_all_get).
  clearbody b1. generalize all_squares as l.
  induction l as [|[r c] l IH]; simpl; [done|].
  rewrite IH, Hb1. f_equal.
  unfold swept. destruct (Board.get b r c) as [p|]; [|done].
  destruct (doomed r c p) eqn:Hd; [|done]. simpl.
  destruct (is_color col p) eqn:Hc, (is_kind King p) eqn:Hk; try done.
  by rewrite Hspare in Hd.
Qed.

Lemma sweep_count (doomed : Z -> Z -> Piece.t -> bool) (l : list Square) (n : Z)
    (b : Board.t) :
  NoDup l -> wf_grid (Board.grid b) ->
  List.fold_left (fun '(removed, b) '(rr, cc) =>
      match Board.get b rr cc with
      | Some p =>
          if doomed rr cc p then (removed + 1, Board.set b rr cc None)
          else (removed, b)
      | None => (removed, b)
      end) l (n, b)
  = (n + Z.of_nat (length (List.filter (doomed_at doomed b) l)), sweep doomed l b).
Proof.
  intros Hnd. revert n b.
  induction Hnd as [|[rr cc] l Hnotin Hnd IH]; intros n b Hwf.
  { simpl. f_equal. lia. }
  cbn [List.fold_left sweep List.filter].
  assert (Hsame : forall b1,
            (forall r c, (rr, cc) <> (r, c) -> Board.get b1 r c = Board.get b r c) ->
            List.filter (doomed_at doomed b1) l = List.filter (doomed_at doomed b) l).
  { intros b1 Hb1. apply filter_ext_in. intros [r c] Hin.
    unfold doomed_at. simpl. rewrite Hb1; [done|].
    intros Heq. injection Heq as <- <-. by apply Hnotin, list_elem_of_In. }
  unfold doomed_at at 1. simpl.
  destruct (Board.get b rr cc) as [p|] eqn:Hp; [destruct (doomed rr cc p) eqn:Hd|].
  - rewrite IH by (by apply set_wf).
    rewrite (Hsame (Board.set b rr cc None)) by (intros; by apply get_set_ne).
    f_equal. simpl length. lia.
  - by rewrite IH.
  - by rewrite IH.
Qed.

Lemma sweep_flag (doomed : Z -> Z -> Piece.t -> bool) (l : list Square)
    (flag : bool) (b : Board.t) :
  List.fold_left (fun '(removed, b) '(rr, cc) =>
      match Board.get b rr cc with
      | Some p =>
          if doomed rr cc p then (true, Board.set b rr cc None) else (removed, b)
      | None => (removed, b)
      end) l (flag, b)
  = (flag || List.existsb (doomed_at doomed b) l, sweep doomed l b).
Proof.
  revert flag b. induction l as [|[rr cc] l IH]; intros flag b.
  { simpl. by rewrite orb_false_r. }
  cbn [List.fold_left sweep List.existsb]. unfold doomed_at at 1. simpl.
  destruct (Board.get b rr cc) as [p|] eqn:Hp; [destruct (doomed rr cc p) eqn:Hd|].
  - rewrite IH. simpl. by rewrite orb_true_r.
  - by rewrite IH.
  - by rewrite IH.
Qed.


(** X12.  [_remove_color_pieces] empties exactly the cells that hold a
    piece of the seat and leaves every other cell as it was.  It answers
    whether there was such a piece; afterwards the seat has no king, a
    search for it finds none, and the kings of the other seats are where
    they were. *)
Theorem remove_color_pieces_removes_exactly_the_seat (b : Board.t) (color : PColor) :
  wf_grid (Board.grid b) ->
  let '(removed, b') := _remove_color_pieces b color in
  (forall r c,
     Board.get b' r c
     = match Board.get b r c with
       | Some p => if is_color color p then None else Some p
       | None => None
       end) /\
  (removed = true <->
     exists r c p, Board.get b r c = Some p /\ Piece.color p = color) /\
  has_king b' color = false /\
  fst (Board.find_king b' color) = None /\
  (forall col, col <> color -> has_king b' col = has_king b col).
Proof.
  intros Hwf. unfold _remove_color_pieces.
  rewrite (sweep_flag (fun _ _ p => is_color color p)), orb_false_l.
  set (doomed := fun (_ _ : Z) p => is_color color p).
  set (b1 := sweep doomed all_squares b).
  assert (Hget1 : forall r c, Board.get b1 r c = swept doomed b r c)
    by (intros; by apply sweep_all_get).
  assert (Hex : List.existsb (doomed_at doomed b) all_squares = true <->
                exists r c p, Board.get b r c = Some p /\ Piece.color p = color).
  { rewrite existsb_exists. split.
    - intros ([r c] & _ & Hd). unfold doomed_at, doomed in Hd. simpl in Hd.
      destruct (Board.get b r c) as [p|] eqn:Hp; [|done].
      exists r, c, p. split; [done|]. by apply bool_decide_eq_true in Hd.
    - intros (r & c & p & Hp & Hc). exists (r, c).
      split; [by apply in_all_squares, (get_in_bounds b r c p)|].
      unfold doomed_at, doomed. simpl. rewrite Hp. by apply bool_decide_eq_true. }
  assert (Hgone : forall b2, Board.grid b2 = Board.grid b1 -> has_king b2 color = false).
  { intros b2 Hg. destruct (has_king b2 color) eqn:E; [|done].
    apply has_king_spec in E as (r & c & Hk).
    rewrite (get_same_grid b2 b1), Hget1 in Hk by done. unfold swept, doomed in Hk.
    destruct (Board.get b r c) as [p|]; [|done].
    destruct (is_color color p) eqn:Hc; [done|]. simpl in Hk. by rewrite Hc in Hk. }
  assert (Hothers : forall b2 col, Board.grid b2 = Board.grid b1 -> col <> color ->
                      has_king b2 col = has_king b col).
  { intros b2 col Hg Hne. rewrite (has_king_same_grid b2 b1) by done.
    apply sweep_keeps_kings; [done|].
    intros r c p _ Hc. unfold doomed.
    apply bool_decide_eq_true in Hc. apply bool_decide_eq_false_2. congruence. }
  assert (Hfind : forall b2, Board.grid b2 = Board.grid b1 ->
                    fst (Board.find_king b2 color) = None).
  { intros b2 Hg. pose proof (find_king_is_Some b2 color) as Hs.
    rewrite (Hgone b2 Hg) in Hs. by destruct (fst (Board.find_king b2 color)). }
  destruct (List.existsb (doomed_at doomed b) all_squares) eqn:Hany.
  - cbv beta iota zeta.
    split; [intros r c; by rewrite (get_same_grid _ b1), Hget1|].
    split; [by rewrite <- Hex|].
    split; [by apply Hgone|]. split; [by apply Hfind|].
    intros col Hne. by apply Hothers.
  - cbv beta iota zeta.
    split; [intros r c; by rewrite Hget1|].
    split; [rewrite <- Hex; split; intros; congruence|].
    split; [by apply Hgone|]. split; [by apply Hfind|].
    intros col Hne. by apply Hothers.
Qed.

Lemma remove_color_pieces_removes_exactly_the_seat_witness :
  fst (_remove_color_pieces (Board_init 0) PINK) = true /\
  piece_count (Board.grid (snd (_remove_color_pieces (Board_init 0) PINK))) = 48%nat /\
  has_king (snd (_remove_color_pieces (Board_init 0) PINK)) PINK = false.
Proof.
  assert (Hwf : wf_grid (Board.grid (Board_init 0))).
  { split; [reflexivity|]. vm_compute. repeat constructor. }
  pose proof (remove_color_pieces_removes_exactly_the_seat (Board_init 0) PINK Hwf) as H.
  destruct (_remove_color_pieces (Board_init 0) PINK) as [removed b'] eqn:E.
  destruct H as (_ & _ & Hk & _).
  split; [by rewrite <- (f_equal fst E)|].
  split; [by rewrite <- (f_equal snd E)|exact Hk].
Defined.

Lemma purge_outside_8x8_sweep (b : Board.t) :
  wf_grid (Board.grid b) ->
  _purge_outside_8x8 b
  = (0 + Z.of_nat (length (List.filter
        (doomed_at (fun r c p => negb (_in8 r c) && negb (is_kind King p)) b)
        all_squares)),
     sweep (fun r c p => negb (_in8 r c) && negb (is_kind King p)) all_squares b).
Proof.
  intros Hwf.
  exact (sweep_count (fun r c p => negb (_in8 r c) && negb (is_kind King p))
           all_squares 0 b all_squares_NoDup Hwf).
Qed.

(** X13.  [_purge_outside_8x8] empties exactly the cells outside the 8x8
    that hold a piece other than a king and returns how many there were;
    kings, wherever they stand, and every cell of the 8x8 are left as they
    were. *)
Theorem purge_outside_spares_kings_and_the_arena (b : Board.t) :
  wf_grid (Board.grid b) ->
  let '(removed, b') := _purge_outside_8x8 b in
  (forall r c,
     Board.get b' r c
     = match Board.get b r c with
       | Some p => if negb (_in8 r c) && negb (is_kind King p) then None else Some p
       | None => None
       end) /\
  removed = count_doomed (fun r c p => negb (_in8 r c) && negb (is_kind King p)) b /\
  (forall r c, _in8 r c = true -> Board.get b' r c = Board.get b r c) /\
  (forall col, has_king b' col = has_king b col).
Proof.
  intros Hwf. rewrite purge_outside_8x8_sweep by done.
  set (doomed := fun r c p => negb (_in8 r c) && negb (is_kind King p)).
  assert (Hget : forall r c,
            Board.get (sweep doomed all_squares b) r c = swept doomed b r c)
    by (intros; by apply sweep_all_get).
  cbv beta iota zeta.
  split; [intros r c; rewrite Hget; reflexivity|].
  split.
  { unfold count_doomed. rewrite Z.add_0_l.
    rewrite (filter_ext (doomed_at doomed b)
               (fun '(r, c) =>
                  match Board.get b r c with Some p => doomed r c p | None => false end));
      [reflexivity|]. by intros [r c]. }
  split.
  - intros r c Hin. rewrite Hget. unfold swept, doomed. rewrite Hin. simpl.
    by destruct (Board.get b r c).
  - intros col. apply sweep_keeps_kings; [done|].
    intros r c p Hk _. unfold doomed. rewrite Hk. by rewrite andb_false_r.
Qed.

Lemma purge_outside_spares_kings_and_the_arena_witness :
  fst (_purge_outside_8x8 (Board_init 0)) = 60 /\
  has_king (snd (_purge_outside_8x8 (Board_init 0))) GREY = true.
Proof.
  assert (Hwf : wf_grid (Board.grid (Board_init 0))).
  { split; [reflexivity|]. vm_compute. repeat constructor. }
  pose proof (purge_outside_spares_kings_and_the_arena (Board_init 0) Hwf) as H.
  destruct (_purge_outside_8x8 (Board_init 0)) as [removed b'].
  destruct H as (_ & Hcount & _ & Hkings).
  split; [rewrite Hcount; vm_compute; reflexivity|].
  cbn [snd]. rewrite Hkings. vm_compute. reflexivity.
Defined.

Lemma purge_outside_sweep (b : Board.t) :
  purge_outside b
  = sweep (fun r c p => negb (is_kind King p) && negb (in_chess_area r c))
      all_squares b.
Proof. unfold purge_outside, sweep. reflexivity. Qed.

(** X14.  [perform_two_stage_migration] leaves the cells that
    [_purge_outside_8x8] leaves: no piece but a king stays outside the 8x8.
    Of the state it changes the pawn directions only: those of the two
    finalists are reversed when the finalists are not opposite each other,
    and nothing changes when they are. *)
Theorem migration_purges_and_flips_adjacent_finalists
    (b : Board.t) (g : GameState.t) (a c : PColor) :
  wf_grid (Board.grid b) -> a <> c ->
  let '(b', g') := perform_two_stage_migration b g a c in
  let opposite := bool_decide ((turn_index a + 2) mod 4 = turn_index c) in
  Board.grid b' = Board.grid (snd (_purge_outside_8x8 b)) /\
  (forall r k p, Board.get b' r k = Some p -> _in8 r k = false ->
                 Piece.kind p = King) /\
  g' = (if opposite then g else GameState.set_pawn_dir (GameState.pawn_dir g') g) /\
  (forall col,
     PerSeat.get (GameState.pawn_dir g') col
     = if negb opposite && (bool_decide (col = a) || bool_decide (col = c))
       then - PerSeat.get (GameState.pawn_dir g) col
       else PerSeat.get (GameState.pawn_dir g) col).
Proof.
  intros Hwf Hne.
  assert (Hcells : forall r k,
            Board.get (purge_outside b) r k
            = swept (fun r c p => negb (_in8 r c) && negb (is_kind King p)) b r k).
  { intros r k. rewrite purge_outside_sweep, sweep_all_get by done. unfold swept.
    destruct (Board.get b r k) as [p|]; [|reflexivity].
    change (in_chess_area r k) with (_in8 r k). by rewrite andb_comm. }
  assert (Hpurge : Board.grid (purge_outside b)
                   = Board.grid (snd (_purge_outside_8x8 b))).
  { rewrite purge_outside_8x8_sweep by done. cbn [snd].
    apply board_grid_ext.
    - rewrite purge_outside_sweep. by apply sweep_wf.
    - by apply sweep_wf.
    - intros r k. by rewrite Hcells, sweep_all_get. }
  assert (Hout : forall r k p, Board.get (purge_outside b) r k = Some p ->
                               _in8 r k = false -> Piece.kind p = King).
  { intros r k p Hp Hin. rewrite Hcells in Hp. unfold swept in Hp.
    rewrite Hin in Hp. simpl in Hp.
    destruct (Board.get b r k) as [q|]; [|done].
    destruct (is_kind King q) eqn:Hk; simpl in Hp; [|done].
    injection Hp as <-. by apply bool_decide_eq_true in Hk. }
  unfold perform_two_stage_migration.
  destruct ((turn_index a + 2) mod 4 =? turn_index c) eqn:Hopp.
  - apply Z.eqb_eq in Hopp. rewrite bool_decide_eq_true_2 by done.
    cbv beta iota zeta. cbn [negb andb].
    split; [exact Hpurge|]. split; [exact Hout|]. split; reflexivity.
  - apply Z.eqb_neq in Hopp. rewrite bool_decide_eq_false_2 by done.
    cbv beta iota zeta. cbn [negb andb].
    split; [exact Hpurge|]. split; [exact Hout|]. split; [reflexivity|].
    intros col. cbn [GameState.pawn_dir GameState.set_pawn_dir].
    destruct (decide (col = c)) as [->|Hc].
    + rewrite PerSeat_get_set_eq, PerSeat_get_set_ne by done.
      rewrite (bool_decide_eq_true_2 (c = c)) by done. by rewrite orb_true_r.
    + rewrite PerSeat_get_set_ne by done.
      rewrite (bool_decide_eq_false_2 (col = c)) by done. rewrite orb_false_r.
      destruct (decide (col = a)) as [->|Ha].
      * rewrite PerSeat_get_set_eq. by rewrite bool_decide_eq_true_2.
      * rewrite PerSeat_get_set_ne by done. by rewrite bool_decide_eq_false_2.
Qed.

Lemma migration_purges_and_flips_adjacent_finalists_witness :
  PerSeat.get (GameState.pawn_dir
                 (snd (perform_two_stage_migration (Board_init 0) GameState.init
                         WHITE GREY))) GREY = -1.
Proof.
  assert (Hwf : wf_grid (Board.grid (Board_init 0))).
  { split; [reflexivity|]. vm_compute. repeat constructor. }
  pose proof (migration_purges_and_flips_adjacent_finalists (Board_init 0)
                GameState.init WHITE GREY Hwf ltac:(discriminate)) as H.
  destruct (perform_two_stage_migration (Board_init 0) GameState.init WHITE GREY)
    as [b' g'].
  destruct H as (_ & _ & _ & Hdir). cbn [snd]. rewrite Hdir. reflexivity.
Defined.


(** ** Material *)

Lemma on_capture_tally (victims : list (option Piece.t)) (m : MaterialTracker.t)
    (col : PColor) :
  PerSeat.get (MaterialTracker.captured_points
                 (List.fold_left MaterialTracker.on_capture victims m)) col
  = PerSeat.get (MaterialTracker.captured_points m) col + points_lost col victims.
Proof.
  revert m. induction victims as [|v victims IH]; intros m.
  { simpl. lia. }
  cbn [List.fold_left points_lost List.fold_right]. rewrite IH.
  fold (points_lost col victims).
  destruct v as [p|]; [|simpl; lia].
  unfold MaterialTracker.on_capture, is_color. cbn [MaterialTracker.captured_points].
  case_bool_decide as Hc.
  - subst col. rewrite PerSeat_get_set_eq. lia.
  - rewrite PerSeat_get_set_ne by done. lia.
Qed.

(** X15.  A [MaterialTracker] that has seen a series of captures holds,
    for every seat, the summed value of the victims of that seat.
    [should_eliminate] names a seat only when more than two seats have a
    king, the threshold is positive and the named seat has a king and has
    lost at least the threshold; it names the first such seat in the order
    white, grey, black, pink, and none when there is no such seat. *)
Theorem material_tracker_tallies_the_victims
    (victims : list (option Piece.t)) (b : Board.t) (threshold : Z) :
  let m := List.fold_left MaterialTracker.on_capture victims MaterialTracker.init in
  let alive := List.filter (has_king b) TURN_ORDER in
  let due := fun col => has_king b col && (threshold <=? points_lost col victims) in
  (forall col,
     PerSeat.get (MaterialTracker.captured_points m) col = points_lost col victims) /\
  fst (MaterialTracker.should_eliminate m b threshold)
  = (if (length alive <=? 2)%nat || (threshold <=? 0) then None
     else List.find due [WHITE; GREY; BLACK; PINK]) /\
  Board.grid (snd (MaterialTracker.should_eliminate m b threshold)) = Board.grid b.
Proof.
  intros m alive due.
  assert (Htally : forall col,
            PerSeat.get (MaterialTracker.captured_points m) col
            = points_lost col victims).
  { intros col. unfold m. rewrite on_capture_tally. by destruct col. }
  split; [exact Htally|].
  unfold MaterialTracker.should_eliminate.
  pose proof (alive_among_spec b TURN_ORDER) as Halive.
  pose proof (alive_among_grid b TURN_ORDER) as Hgrid.
  change (Board.alive_among b TURN_ORDER) with (Board.alive_colors b) in Halive, Hgrid.
  destruct (Board.alive_colors b) as [l b1]. cbn [fst snd] in Halive, Hgrid.
  subst l. fold alive.
  assert (Hlen : (Z.of_nat (length alive) <=? 2) = (length alive <=? 2)%nat).
  { destruct (Nat.leb_spec (length alive) 2); [apply Z.leb_le|apply Z.leb_gt]; lia. }
  rewrite Hlen. destruct (length alive <=? 2)%nat eqn:Hfew; [done|].
  cbn [orb].
  assert (Hthr : (Z.max 0 threshold <=? 0) = (threshold <=? 0)).
  { destruct (Z.leb_spec threshold 0); [apply Z.leb_le|apply Z.leb_gt]; lia. }
  rewrite Hthr. destruct (threshold <=? 0) eqn:Hpos; [done|]. cbn [fst snd].
  split; [|done].
  apply Z.leb_gt in Hpos.
  assert (Hdue : forall col,
            color_in col alive
            && (Z.max 0 threshold <=? PerSeat.get (MaterialTracker.captured_points m) col)
            = due col).
  { intros col. unfold due. rewrite Htally, Z.max_r by lia. f_equal.
    destruct (has_king b col) eqn:Hk.
    - apply color_in_In. apply filter_In. split; [by destruct col; simpl; tauto|done].
    - destruct (color_in col alive) eqn:Hin; [|done].
      apply color_in_In, filter_In in Hin. destruct Hin as [_ Hin]. congruence. }
  cbn [List.find]. rewrite !Hdue. reflexivity.
Qed.


(** ** Snapshots of the board *)

Lemma setup_side_wf fresh col back_at pawn_at g :
  wf_grid g -> wf_grid (setup_side fresh col back_at pawn_at g).
Proof.
  intros Hwf. unfold setup_side.
  assert (Hfold : forall (A : Type) (f : Board.Grid -> A -> Board.Grid) (l : list A) g0,
            (forall g1 x, wf_grid g1 -> wf_grid (f g1 x)) ->
            wf_grid g0 -> wf_grid (List.fold_left f l g0)).
  { intros A f l. induction l as [|x l IH]; intros g0 Hf Hg0; [done|].
    simpl. apply IH; [done|]. by apply Hf. }
  apply Hfold.
  - intros g1 i Hg1. destruct (pawn_at i). by apply grid_set_wf.
  - apply Hfold; [|done]. intros g1 [i k] Hg1. destruct (back_at i).
    by apply grid_set_wf.
Qed.

Lemma Board_init_grid fresh : Board.grid (Board_init fresh) = setup_grid fresh.
Proof.
  unfold Board_init.
  assert (H : forall cols b,
            Board.grid (List.fold_left (fun b col =>
                let '(kp, b') := Board.find_king b col in Board.set_cache b' col kp)
              cols b) = Board.grid b).
  { induction cols as [|col cols IH]; intros b; [done|].
    cbn [List.fold_left]. rewrite IH.
    pose proof (find_king_grid b col) as Hg.
    by destruct (Board.find_king b col). }
  by rewrite H.
Qed.

Lemma Board_init_wf fresh : wf_grid (Board.grid (Board_init fresh)).
Proof.
  rewrite Board_init_grid. unfold setup_grid.
  repeat apply setup_side_wf.
  split; [reflexivity|]. unfold empty_grid. repeat constructor.
Qed.

Lemma clear_cells_get l b r c :
  wf_grid (Board.grid b) ->
  let b' := List.fold_left (fun b '(rr, cc) => Board.set b rr cc None) l b in
  wf_grid (Board.grid b') /\
  Board.get b' r c
  = if List.existsb (fun sq => bool_decide (sq = (r, c))) l then None
    else Board.get b r c.
Proof.
  revert b. induction l as [|[rr cc] l IH]; intros b Hwf; [done|].
  cbn [List.fold_left List.existsb].
  destruct (IH (Board.set b rr cc None) (set_wf b rr cc None Hwf)) as [Hwf' Hget].
  split; [exact Hwf'|]. rewrite Hget, get_set by done.
  destruct (Board.in_bounds rr cc) eqn:Hin; simpl.
  - by destruct (bool_decide ((rr, cc) = (r, c))),
         (existsb (fun sq => bool_decide (sq = (r, c))) l).
  - case_bool_decide as Heq; [|done]. injection Heq as -> ->.
    rewrite get_out_of_bounds by done.
    by destruct (existsb (fun sq => bool_decide (sq = (r, c))) l).
Qed.

Lemma clear_board_get b r c :
  wf_grid (Board.grid b) ->
  wf_grid (Board.grid (clear_board b)) /\ Board.get (clear_board b) r c = None.
Proof.
  intros Hwf. destruct (clear_cells_get all_squares b r c Hwf) as [Hwf' Hget].
  split; [exact Hwf'|]. unfold clear_board. rewrite Hget, all_squares_existsb.
  destruct (Board.in_bounds r c) eqn:Hin; [done|]. by apply get_out_of_bounds.
Qed.

Lemma PColor_of_value_inv v col : PColor_of_value v = Some col -> PColor_value col = v.
Proof.
  unfold PColor_of_value. intros H.
  destruct v as [|[[|[]|]|[|[]|]|]|]; try discriminate; by injection H as <-.
Qed.

Lemma PColor_of_value_value col : PColor_of_value (PColor_value col) = Some col.
Proof. by destruct col. Qed.

(** The second loop of [load_board] from any board. *)
Lemma place_items_spec items :
  forall fresh nb, wf_grid (Board.grid nb) ->
  match place_items fresh items nb with
  | inl e =>
      e = ValueError /\
      exists it, In it items /\ PColor_of_value (item_colv it) = None
  | inr nb' =>
      wf_grid (Board.grid nb') /\
      (forall it, In it items -> PColor_of_value (item_colv it) <> None) /\
      (forall r c, Board.in_bounds r c = true ->
         option_map (item_of r c) (Board.get nb' r c)
         = match last_item r c items with
           | Some it => Some it
           | None => option_map (item_of r c) (Board.get nb r c)
           end)
  end.
Proof.
  induction items as [|[[[[rr cc] kind] colv] moved] items IH]; intros fresh nb Hwf.
  { simpl. split; [done|]. split; [by intros it []|done]. }
  cbn [place_items].
  destruct (PColor_of_value colv) as [col|] eqn:Hcol.
  2:{ split; [done|]. exists (rr, cc, kind, colv, moved). split; [by left|done]. }
  set (q := Piece.Build fresh kind col moved).
  specialize (IH (S fresh) (Board.set nb rr cc (Some q)) (set_wf nb rr cc (Some q) Hwf)).
  destruct (place_items (S fresh) items (Board.set nb rr cc (Some q))) as [e|nb'].
  - destruct IH as [He (it & Hin & Hbad)]. split; [done|].
    exists it. split; [by right|done].
  - destruct IH as (Hwf' & Hgood & Hcells). split; [done|]. split.
    + intros it [<-|Hin]; [simpl; congruence|by apply Hgood].
    + intros r c Hin. rewrite Hcells by done. cbn [last_item].
      destruct (last_item r c items) as [it|]; [done|].
      rewrite get_set by done. case_bool_decide as Heq.
      * injection Heq as -> ->. rewrite Hin. simpl.
        unfold item_of, q. simpl. by rewrite (PColor_of_value_inv colv col).
      * by rewrite andb_false_r.
Qed.

(** The dump has one item for each occupied cell. *)
Lemma last_item_dump_cells b r c l :
  NoDup l ->
  last_item r c
    (List.flat_map (fun '(rr, cc) =>
         match Board.get b rr cc with
         | Some p => [item_of rr cc p]
         | None => []
         end) l)
  = if List.existsb (fun sq => bool_decide (sq = (r, c))) l
    then option_map (item_of r c) (Board.get b r c) else None.
Proof.
  induction 1 as [|[rr cc] l Hnotin Hnd IH]; [done|].
  cbn [List.flat_map List.existsb].
  destruct (existsb (fun sq => bool_decide (sq = (r, c))) l) eqn:Hex.
  - rewrite orb_true_r.
    assert (Hne : (rr, cc) <> (r, c)).
    { intros Heq. apply Hnotin. apply existsb_exists in Hex as (sq & Hsq & Hd).
      apply bool_decide_eq_true in Hd. subst sq. rewrite Heq.
      by apply list_elem_of_In. }
    destruct (Board.get b rr cc) as [p|]; [|done].
    cbn [app last_item]. rewrite IH.
    destruct (option_map (item_of r c) (Board.get b r c)); [done|].
    unfold item_of. by rewrite bool_decide_eq_false_2.
  - rewrite orb_false_r.
    destruct (Board.get b rr cc) as [p|] eqn:Hp.
    + cbn [app last_item]. rewrite IH. unfold item_of at 1.
      case_bool_decide as Heq; [|done]. injection Heq as -> ->. by rewrite Hp.
    + cbn [app]. rewrite IH. case_bool_decide as Heq; [|done].
      injection Heq as -> ->. by rewrite Hp.
Qed.

Lemma last_item_dump b r c :
  last_item r c (dump_board b) = option_map (item_of r c) (Board.get b r c).
Proof.
  unfold dump_board.
  pose proof (last_item_dump_cells b r c all_squares all_squares_NoDup) as H.
  rewrite all_squares_existsb in H. unfold item_of in H at 1.
  etransitivity; [exact H|].
  destruct (Board.in_bounds r c) eqn:Hin; [done|].
  by rewrite get_out_of_bounds.
Qed.

Lemma dump_board_ext b b' :
  (forall r c, option_map (item_of r c) (Board.get b r c)
               = option_map (item_of r c) (Board.get b' r c)) ->
  dump_board b = dump_board b'.
Proof.
  intros Hsame. unfold dump_board. apply flat_map_ext. intros [r c].
  specialize (Hsame r c). unfold item_of in Hsame.
  destruct (Board.get b r c), (Board.get b' r c); simpl in Hsame; congruence.
Qed.

(** X16.  [load_board] raises [ValueError] when an item carries a colour
    value that names no seat.  Otherwise every cell of the board it returns
    holds what the last item written on that cell says (kind, seat and moved
    flag), and is empty when no item names the cell; items that name a cell
    outside the board are ignored. *)
Theorem load_board_places_the_last_item (fresh : nat) (items : list BoardItem) :
  match load_board fresh items with
  | inl e =>
      e = ValueError /\
      exists it, In it items /\ PColor_of_value (item_colv it) = None
  | inr nb =>
      wf_grid (Board.grid nb) /\
      (forall it, In it items -> PColor_of_value (item_colv it) <> None) /\
      (forall r c, Board.in_bounds r c = true ->
         option_map (item_of r c) (Board.get nb r c) = last_item r c items) /\
      (forall r c, Board.in_bounds r c = false -> Board.get nb r c = None)
  end.
Proof.
  unfold load_board.
  destruct (clear_board_get (Board_init fresh) 0 0 (Board_init_wf fresh)) as [Hwf _].
  pose proof (place_items_spec items (fresh + 64) (clear_board (Board_init fresh)) Hwf)
    as Hspec.
  destruct (place_items (fresh + 64) items (clear_board (Board_init fresh))) as [e|nb];
    [exact Hspec|].
  destruct Hspec as (Hwf' & Hgood & Hcells).
  split; [done|]. split; [done|]. split.
  - intros r c Hin. rewrite Hcells by done.
    destruct (last_item r c items); [done|].
    by destruct (clear_board_get (Board_init fresh) r c (Board_init_wf fresh)) as [_ ->].
  - intros r c Hin. by apply get_out_of_bounds.
Qed.

(** X17.  Loading the dump of a board never fails and gives a board with
    the same pieces (kind, seat and moved flag) on the same cells, whatever
    the board; dumping the loaded board gives the same dump again. *)
Theorem dump_then_load_round_trip (fresh : nat) (b : Board.t) :
  exists nb,
    load_board fresh (dump_board b) = inr nb /\
    (forall r c,
       option_map (item_of r c) (Board.get nb r c)
       = option_map (item_of r c) (Board.get b r c)) /\
    dump_board nb = dump_board b.
Proof.
  unfold load_board.
  destruct (clear_board_get (Board_init fresh) 0 0 (Board_init_wf fresh)) as [Hwf _].
  pose proof (place_items_spec (dump_board b) (fresh + 64)
                (clear_board (Board_init fresh)) Hwf) as Hspec.
  destruct (place_items (fresh + 64) (dump_board b) (clear_board (Board_init fresh)))
    as [e|nb].
  { destruct Hspec as [_ (it & Hin & Hbad)]. exfalso.
    unfold dump_board in Hin. apply in_flat_map in Hin as ([r c] & _ & Hin).
    destruct (Board.get b r c) as [p|]; [|done].
    destruct Hin as [<-|[]]. simpl in Hbad.
    by rewrite PColor_of_value_value in Hbad. }
  destruct Hspec as (Hwf' & _ & Hcells).
  assert (Hsame : forall r c,
            option_map (item_of r c) (Board.get nb r c)
            = option_map (item_of r c) (Board.get b r c)).
  { intros r c. destruct (Board.in_bounds r c) eqn:Hin.
    - rewrite Hcells, last_item_dump by done.
      destruct (option_map (item_of r c) (Board.get b r c)); [done|].
      by destruct (clear_board_get (Board_init fresh) r c (Board_init_wf fresh))
        as [_ ->].
    - by rewrite !get_out_of_bounds. }
  exists nb. split; [done|]. split; [exact Hsame|]. by apply dump_board_ext.
Qed.


(** ** Where the pseudo-legal moves lead *)

Lemma slide_from_playable fuel b piece nr nc dr dc :
  is_kind King piece = false ->
  Forall (fun sq => playable b piece sq = true) (slide_from fuel b piece nr nc dr dc).
Proof.
  intros Hk. revert nr nc. induction fuel as [|fuel IH]; intros nr nc; simpl; [done|].
  destruct (Board.in_bounds nr nc) eqn:Hin; [|done].
  destruct (no_corner nr nc) eqn:Hcor; [|done].
  destruct (Board.get b nr nc) as [tgt|] eqn:Hget.
  - destruct (capturable _ tgt) eqn:Hcap; [|done].
    constructor; [|done]. unfold playable. by rewrite Hin, Hk, Hcor, Hget, Hcap.
  - constructor; [|apply IH]. unfold playable. by rewrite Hin, Hk, Hcor, Hget.
Qed.

Lemma castle_dir_playable gs b color r c drc dst b' :
  _castle_dir gs b color r c drc = (Some dst, b') ->
  Board.in_bounds (fst dst) (snd dst) = true /\
  Board.get b (fst dst) (snd dst) = None /\
  foreign_corner color (corner_owner_at (fst dst) (snd dst)) = false.
Proof.
  unfold _castle_dir. destruct drc as [dr dc].
  destruct (Board.in_bounds (r + dr) (c + dc) && Board.in_bounds (r + 2 * dr) (c + 2 * dc))
    eqn:Hin; cbn [negb]; [|done].
  apply andb_true_iff in Hin as [_ Hin].
  destruct (is_Some_b (Board.get b (r + dr) (c + dc))
            || is_Some_b (Board.get b (r + 2 * dr) (c + 2 * dc))) eqn:Hocc; [done|].
  apply orb_false_iff in Hocc as [_ Hocc].
  destruct (first_piece_from _ _ _ _ _ _) as [[[rr rc] rq]|]; [|done].
  destruct (negb _); [done|].
  destruct (others_alive _ _ _) as [att b1].
  destruct (king_in_check _ _ _) as [chk b2].
  destruct chk; [done|].
  destruct (is_square_attacked _ _ _ _ _); [done|].
  destruct (is_square_attacked _ _ _ _ _); [done|].
  destruct (foreign_corner color (corner_owner_at (r + dr) (c + dc))
            || foreign_corner color (corner_owner_at (r + 2 * dr) (c + 2 * dc)))
    eqn:Hcor; [done|].
  apply orb_false_iff in Hcor as [_ Hcor].
  intros [= <- _]. cbn [fst snd]. split; [done|]. split; [|done].
  by destruct (Board.get b (r + 2 * dr) (c + 2 * dc)).
Qed.

Lemma gen_moves_playable gs b r c p :
  Board.get b r c = Some p ->
  Forall (fun sq => playable b p sq = true) (fst (gen_moves gs b r c)).
Proof.
  intros Hp. unfold gen_moves. rewrite Hp.
  assert (Hnk : Piece.kind p <> King -> is_kind King p = false)
    by (intros H; by apply bool_decide_eq_false_2).
  destruct (Piece.kind p) eqn:Hkind.
  - (* King *)
    assert (Hk : is_kind King p = true) by (by apply bool_decide_eq_true_2).
    unfold king_moves.
    set (steps := List.flat_map _ KING_STEPS).
    assert (Hsteps : Forall (fun sq => playable b p sq = true) steps).
    { apply flat_map_Forall. intros [dr dc]. cbv beta iota zeta.
      destruct (Board.in_bounds (r + dr) (c + dc)) eqn:Hin; cbn [negb]; [|done].
      destruct (foreign_corner _ _) eqn:Hcor; [done|].
      destruct (Board.get b (r + dr) (c + dc)) as [tgt|] eqn:Hget;
        [destruct (capturable _ tgt) eqn:Hcap; [|done]|];
        constructor; try done; unfold playable;
        by rewrite Hin, Hk, Hcor, Hget, ?Hcap. }
    assert (Hopt : forall d bb drc b0,
               Board.grid b0 = Board.grid b ->
               _castle_dir gs b0 (Piece.color p) r c drc = (d, bb) ->
               Forall (fun sq => playable b p sq = true) (option_list d)).
    { intros [[dr' dc']|] bb drc b0 Hg Hd; [|done].
      apply castle_dir_playable in Hd as (Hin & Hget & Hcor). cbn [fst snd] in *.
      rewrite (get_same_grid b0 b) in Hget by done.
      constructor; [|done]. unfold playable. by rewrite Hin, Hk, Hcor, Hget. }
    match goal with
    | |- context [let '(moves, b2) := ?e in _] =>
        assert (Hmoves : Forall (fun sq => playable b p sq = true) (fst e))
    end.
    { destruct (negb (gs_chess_lock gs) && negb (Piece.has_moved p)); [|done].
      destruct (castle_axis _ r c) as [on_home [side_dir corner_dir]].
      destruct on_home; [|done].
      pose proof (castle_dir_grid gs b (Piece.color p) r c side_dir) as Hg1.
      destruct (_castle_dir gs b _ r c side_dir) as [d1 b1] eqn:H1.
      destruct (_castle_dir gs b1 _ r c corner_dir) as [d2 b2] eqn:H2. simpl.
      rewrite !Forall_app. eauto. }
    match goal with
    | |- context [let '(moves, b2) := ?e in _] => destruct e as [moves b2]
    end.
    simpl in Hmoves.
    destruct (_ && bool_decide _); [|done].
    destruct (List.filter _ moves) as [|x l] eqn:Hf; [done|].
    simpl. rewrite <- Hf. by apply filter_Forall.
  - apply flat_map_Forall. intros [dr dc]. apply slide_from_playable, Hnk. congruence.
  - apply flat_map_Forall. intros [dr dc]. apply slide_from_playable, Hnk. congruence.
  - apply flat_map_Forall. intros [dr dc]. apply slide_from_playable, Hnk. congruence.
  - (* Knight *)
    assert (Hk : is_kind King p = false) by (apply Hnk; congruence).
    apply flat_map_Forall. intros [dr dc]. cbv beta iota zeta.
    destruct (Board.in_bounds (r + dr) (c + dc)) eqn:Hin; [|done].
    destruct (no_corner _ _) eqn:Hcor; [|done].
    destruct (Board.get b (r + dr) (c + dc)) as [tgt|] eqn:Hget;
      [destruct (capturable _ tgt) eqn:Hcap; [|done]|];
      constructor; try done; unfold playable;
      by rewrite Hin, Hk, Hcor, Hget, ?Hcap.
  - (* Pawn *)
    assert (Hk : is_kind King p = false) by (apply Hnk; congruence).
    unfold pawn_moves. apply Forall_app. split.
    + set (fw := if color_in _ _ then _ else _).
      cbv beta iota zeta.
      destruct (Board.in_bounds (r + fst fw) (c + snd fw)) eqn:Hin; cbn [andb]; [|done].
      destruct (no_corner (r + fst fw) (c + snd fw)) eqn:Hcor; cbn [andb]; [|done].
      destruct (Board.get b (r + fst fw) (c + snd fw)) eqn:Hget; cbn [is_Some_b negb];
        [done|].
      constructor; [unfold playable; by rewrite Hin, Hk, Hcor, Hget|].
      destruct (negb (Piece.has_moved p)); cbn [andb]; [|done].
      destruct (Board.in_bounds (r + fst fw + fst fw) (c + snd fw + snd fw)) eqn:Hin2;
        cbn [andb]; [|done].
      destruct (no_corner (r + fst fw + fst fw) (c + snd fw + snd fw)) eqn:Hcor2;
        cbn [andb]; [|done].
      destruct (Board.get b (r + fst fw + fst fw) (c + snd fw + snd fw)) eqn:Hget2;
        cbn [is_Some_b negb]; [done|].
      constructor; [|done]. unfold playable. by rewrite Hin2, Hk, Hcor2, Hget2.
    + apply flat_map_Forall. intros [dr dc]. cbv beta iota zeta.
      destruct (Board.in_bounds (r + dr) (c + dc)) eqn:Hin; cbn [andb]; [|done].
      destruct (no_corner _ _) eqn:Hcor; [|done].
      destruct (Board.get b (r + dr) (c + dc)) as [tgt|] eqn:Hget; [|done].
      destruct (capturable _ tgt) eqn:Hcap; [|done].
      assert (Hok : playable b p (r + dr, c + dc) = true)
        by (unfold playable; by rewrite Hin, Hk, Hcor, Hget, Hcap).
      destruct (_ && is_kind Pawn tgt); [destruct (_ && _)|]; by repeat constructor.
Qed.

(** X18.  Every move [gen_moves] proposes for a piece leads to a cell of
    the board other than the one the piece stands on, which is empty or
    holds a piece of another seat that is not a king: no move captures a
    king or a piece of the mover's seat.  A piece other than a king is never
    sent into a corner, and a king never into the corner of another seat.
    An empty cell has no moves. *)
Theorem gen_moves_targets_are_playable
    (gs : option GameState.t) (b : Board.t) (r c er ec : Z) (p : Piece.t) :
  Board.get b r c = Some p ->
  In (er, ec) (fst (gen_moves gs b r c)) ->
  Board.in_bounds er ec = true /\
  (er, ec) <> (r, c) /\
  (forall tgt, Board.get b er ec = Some tgt ->
     Piece.color tgt <> Piece.color p /\ Piece.kind tgt <> King) /\
  (Piece.kind p <> King -> corner_owner_at er ec = None) /\
  (forall col, corner_owner_at er ec = Some col ->
     Piece.kind p = King /\ col = Piece.color p) /\
  (forall r0 c0, Board.get b r0 c0 = None -> fst (gen_moves gs b r0 c0) = []).
Proof.
  intros Hp Hin.
  pose proof (gen_moves_playable gs b r c p Hp) as Hall.
  rewrite List.Forall_forall in Hall. specialize (Hall _ Hin).
  unfold playable in Hall.
  apply andb_true_iff in Hall as [Hall Htgt].
  apply andb_true_iff in Hall as [Hbounds Hcorner].
  assert (Htarget : forall tgt, Board.get b er ec = Some tgt ->
            Piece.color tgt <> Piece.color p /\ Piece.kind tgt <> King).
  { intros tgt Hget. rewrite Hget in Htgt. unfold capturable in Htgt.
    apply andb_true_iff in Htgt as [Hc Hk].
    apply negb_true_iff, bool_decide_eq_false in Hc.
    apply negb_true_iff, bool_decide_eq_false in Hk. done. }
  split; [done|]. split.
  { intros [= -> ->]. by destruct (Htarget p Hp). }
  split; [exact Htarget|]. split.
  { intros Hk. unfold is_kind in Hcorner.
    rewrite bool_decide_eq_false_2 in Hcorner by done.
    unfold no_corner in Hcorner. by destruct (corner_owner_at er ec). }
  split.
  { intros col Hcol. unfold is_kind in Hcorner. case_bool_decide as Hk.
    - split; [done|]. rewrite Hcol in Hcorner. simpl in Hcorner.
      apply negb_true_iff, negb_false_iff, bool_decide_eq_true in Hcorner. done.
    - unfold no_corner in Hcorner. by rewrite Hcol in Hcorner. }
  intros r0 c0 Hnone. unfold gen_moves. by rewrite Hnone.
Qed.

Lemma gen_moves_targets_are_playable_witness :
  Board.in_bounds 9 4 = true /\ corner_owner_at 9 4 = None.
Proof.
  destruct (gen_moves_targets_are_playable (Some GameState.init) (Board_init 0)
              11 3 9 4 (Piece.Build 1 Knight WHITE false))
    as (Hin & _ & _ & Hcor & _).
  - vm_compute. reflexivity.
  - vm_compute. tauto.
  - split; [exact Hin|]. apply Hcor. discriminate.
Defined.


(** ** Attacks on the corner squares *)

Lemma existsb_none {A} (f : A -> bool) (l : list A) :
  (forall x, f x = false) -> List.existsb f l = false.
Proof. intros Hf. induction l as [|x l IH]; simpl; [done|]. by rewrite Hf, IH. Qed.

Lemma pawn_attacks_corner gs b r c col :
  no_corner r c = false -> pawn_attacks gs b r c col = false.
Proof.
  intros Hcor. unfold pawn_attacks.
  assert (Hcell : forall (rr cc : Z) (test : bool) (p : Piece.t),
            is_color col p && is_kind Pawn p && no_corner r c && test = false).
  { intros. by rewrite Hcor, andb_false_r. }
  destruct (color_in col [WHITE; BLACK]).
  - destruct (pawn_dir_for gs col =? -1); cbn [List.existsb];
      repeat match goal with
      | |- context [Board.get b ?rr ?cc] =>
          destruct (Board.get b rr cc); rewrite ?Hcell, ?andb_false_r
      end; done.
  - destruct (pawn_dir_for gs col =? 1); cbn [List.existsb];
      repeat match goal with
      | |- context [Board.get b ?rr ?cc] =>
          destruct (Board.get b rr cc); rewrite ?Hcell, ?andb_false_r
      end; done.
Qed.

(** From a corner square only the two sliding loops can answer. *)
Lemma is_square_attacked_corner gs b r c attackers :
  no_corner r c = false ->
  is_square_attacked gs b r c attackers
  = List.existsb (fun '(dr, dc) =>
        ray_attacked RAY_FUEL b attackers
          (fun p => is_kind Rook p || is_kind Queen p) (r + dr) (c + dc) dr dc)
      ROOK_DIRS
    || List.existsb (fun '(dr, dc) =>
        ray_attacked RAY_FUEL b attackers
          (fun p => is_kind Bishop p || is_kind Queen p) (r + dr) (c + dc) dr dc)
      BISHOP_DIRS.
Proof.
  intros Hcor. unfold is_square_attacked.
  assert (Hpawns : List.existsb (pawn_attacks gs b r c) attackers = false).
  { apply existsb_none. intros col. by apply pawn_attacks_corner. }
  assert (Hsteps : forall (k : Kind) (steps : list (Z * Z)),
            List.existsb (fun '(dr, dc) =>
                let rr := r + dr in let cc := c + dc in
                Board.in_bounds rr cc && no_corner r c &&
                match Board.get b rr cc with
                | Some p => color_in (Piece.color p) attackers && is_kind k p
                | None => false
                end) steps = false).
  { intros k steps. apply existsb_none. intros [dr dc]. cbv zeta.
    by rewrite Hcor, andb_false_r. }
  rewrite Hpawns, !Hsteps. cbn [orb]. by rewrite orb_false_r.
Qed.

(** A ray that answers found a piece. *)
Lemma ray_attacked_found fuel b attackers hits rr cc dr dc :
  ray_attacked fuel b attackers hits rr cc dr dc = true ->
  exists (n : nat) (p : Piece.t),
    Board.get b (rr + Z.of_nat n * dr) (cc + Z.of_nat n * dc) = Some p /\
    color_in (Piece.color p) attackers = true /\ hits p = true /\
    no_corner (rr + Z.of_nat n * dr) (cc + Z.of_nat n * dc) = true /\
    (forall j : nat, (j < n)%nat ->
       Board.get b (rr + Z.of_nat j * dr) (cc + Z.of_nat j * dc) = None).
Proof.
  revert rr cc. induction fuel as [|fuel IH]; intros rr cc; simpl; [done|].
  destruct (Board.in_bounds rr cc); [|done].
  destruct (no_corner rr cc) eqn:Hcor; [|done].
  destruct (Board.get b rr cc) as [p|] eqn:Hget.
  - intros Hhit. apply andb_true_iff in Hhit as [Hcol Hhits].
    exists 0%nat, p. rewrite !Z.mul_0_l, !Z.add_0_r.
    repeat split; try done. intros j Hj. lia.
  - intros Hray. apply IH in Hray as (n & p & Hp & Hcol & Hhits & Hnc & Hfree).
    exists (S n), p.
    replace (rr + Z.of_nat (S n) * dr) with (rr + dr + Z.of_nat n * dr) by lia.
    replace (cc + Z.of_nat (S n) * dc) with (cc + dc + Z.of_nat n * dc) by lia.
    repeat split; try done. intros [|j] Hj.
    + by rewrite !Z.mul_0_l, !Z.add_0_r.
    + replace (rr + Z.of_nat (S j) * dr) with (rr + dr + Z.of_nat j * dr) by lia.
      replace (cc + Z.of_nat (S j) * dc) with (cc + dc + Z.of_nat j * dc) by lia.
      apply Hfree. lia.
Qed.

(** X19.  A square of a corner is attacked only along a rank, file or
    diagonal: when [is_square_attacked] answers yes for it, a rook or queen
    (on a rank or file) or a bishop or queen (on a diagonal) of an attacking
    seat stands outside the corners on that line, with empty cells between.
    Pawns, knights and kings never attack a corner square, and the four
    outermost cells of the board are never attacked. *)
Theorem corner_squares_are_attacked_by_sliders_only
    (gs : option GameState.t) (b : Board.t) (r c : Z) (attackers : list PColor)
    (owner : PColor) :
  corner_owner_at r c = Some owner ->
  (is_square_attacked gs b r c attackers = true ->
   exists (dr dc k : Z) (p : Piece.t),
     In (dr, dc) QUEEN_DIRS /\ 0 < k /\
     Board.get b (r + k * dr) (c + k * dc) = Some p /\
     In (Piece.color p) attackers /\
     (Piece.kind p = Queen \/
      (Piece.kind p = Rook /\ In (dr, dc) ROOK_DIRS) \/
      (Piece.kind p = Bishop /\ In (dr, dc) BISHOP_DIRS)) /\
     corner_owner_at (r + k * dr) (c + k * dc) = None /\
     (forall j, 0 < j < k -> Board.get b (r + j * dr) (c + j * dc) = None)) /\
  (In (r, c) [(0, 0); (0, 11); (11, 0); (11, 11)] ->
   is_square_attacked gs b r c attackers = false).
Proof.
  intros Hown.
  assert (Hcor : no_corner r c = false) by (unfold no_corner; by rewrite Hown).
  rewrite is_square_attacked_corner by done.
  assert (Hray : forall dr dc hits,
            ray_attacked RAY_FUEL b attackers hits (r + dr) (c + dc) dr dc = true ->
            exists (k : Z) (p : Piece.t),
              0 < k /\ Board.get b (r + k * dr) (c + k * dc) = Some p /\
              In (Piece.color p) attackers /\ hits p = true /\
              corner_owner_at (r + k * dr) (c + k * dc) = None /\
              (forall j, 0 < j < k -> Board.get b (r + j * dr) (c + j * dc) = None)).
  { intros dr dc hits H.
    apply ray_attacked_found in H as (n & p & Hp & Hcol & Hhits & Hnc & Hfree).
    exists (Z.of_nat n + 1), p.
    replace (r + (Z.of_nat n + 1) * dr) with (r + dr + Z.of_nat n * dr) by lia.
    replace (c + (Z.of_nat n + 1) * dc) with (c + dc + Z.of_nat n * dc) by lia.
    split; [lia|]. split; [done|]. split; [by apply color_in_In|]. split; [done|].
    split.
    { revert Hnc. unfold no_corner.
      by destruct (corner_owner_at (r + dr + Z.of_nat n * dr) (c + dc + Z.of_nat n * dc)). }
    intros j Hj. specialize (Hfree (Z.to_nat (j - 1)) ltac:(lia)).
    rewrite Z2Nat.id in Hfree by lia.
    replace (r + j * dr) with (r + dr + (j - 1) * dr) by lia.
    replace (c + j * dc) with (c + dc + (j - 1) * dc) by lia.
    done. }
  split.
  - intros Hatt. apply orb_true_iff in Hatt as [Hatt|Hatt];
      apply existsb_exists in Hatt as ([dr dc] & Hdir & Hatt);
      apply Hray in Hatt as (k & p & Hk & Hp & Hcol & Hhits & Hnc & Hfree);
      exists dr, dc, k, p;
      (split; [unfold QUEEN_DIRS; apply in_or_app; tauto|]);
      repeat (split; [done|]);
      (split; [|done]);
      apply orb_true_iff in Hhits as [Hhits|Hhits];
      apply bool_decide_eq_true in Hhits; tauto.
  - intros Hin.
    destruct Hin as [[= <- <-]|[[= <- <-]|[[= <- <-]|[[= <- <-]|[]]]]];
      vm_compute; reflexivity.
Qed.

Lemma corner_squares_are_attacked_by_sliders_only_witness :
  is_square_attacked None
    (place_all [(1, 1, Piece.new 0 King GREY); (1, 5, Piece.new 1 Rook WHITE)]
       Board_empty) 0 0 [WHITE] = false.
Proof.
  apply (corner_squares_are_attacked_by_sliders_only None
           (place_all [(1, 1, Piece.new 0 King GREY); (1, 5, Piece.new 1 Rook WHITE)]
              Board_empty) 0 0 [WHITE] GREY).
  - vm_compute. reflexivity.
  - simpl. tauto.
Defined.


(** ** What a simulated move does *)

(** X20.  A simulated move ([simulate=True]) of an occupied square to a
    square of the board that the duel lock does not reject never raises and
    leaves the game state untouched.  It empties the source, puts the mover
    on the destination marked as moved (a pawn on its promotion line as a
    queen) and changes no other cell: no rook is moved for a castling king.
    The tuple it returns records the piece that stood on the destination and
    the mover's former kind and flag. *)
Theorem simulated_move_moves_one_piece (sha1_key : string -> Z)
    (gs : option GameState.t) (b : Board.t) (sr sc er ec : Z) (p : Piece.t) :
  wf_grid (Board.grid b) ->
  Board.get b sr sc = Some p ->
  Board.in_bounds er ec = true ->
  (gs_chess_lock gs = true -> _in8 sr sc = true /\ _in8 er ec = true) ->
  exists (m : MoveRecord) (b1 : Board.t),
    board_do_move sha1_key gs b sr sc er ec true = (inr m, b1, gs) /\
    captured m = Board.get b er ec /\
    prev_has_moved m = Piece.has_moved p /\
    prev_kind m = Some (Piece.kind p) /\
    promoted_flag (effects m) = is_kind Pawn p && promotes_at (Piece.color p) er ec /\
    wf_grid (Board.grid b1) /\
    (forall r c,
       Board.get b1 r c
       = if bool_decide ((er, ec) = (r, c)) then
           Some (Piece.Build (Piece.pid p)
                   (if is_kind Pawn p && promotes_at (Piece.color p) er ec
                    then Queen else Piece.kind p)
                   (Piece.color p) true)
         else if bool_decide ((sr, sc) = (r, c)) then None
         else Board.get b r c).
Proof.
  intros Hwf Hp Hin Hlock.
  exists (MkMove (Board.get b er ec) (Piece.has_moved p) (Some (Piece.kind p))
            (snd (fst (relocate b sr sc er ec)))),
         (fst (fst (relocate b sr sc er ec))).
  split.
  { unfold board_do_move. rewrite Hp.
    destruct (gs_chess_lock gs).
    - destruct (Hlock eq_refl) as [H1 H2]. rewrite H1, H2. simpl.
      by destruct (relocate b sr sc er ec) as [[b2 eff] mv].
    - simpl. by destruct (relocate b sr sc er ec) as [[b2 eff] mv]. }
  split; [done|]. split; [done|]. split; [done|]. split.
  { cbn [effects]. unfold relocate. rewrite Hp. by destruct (_ && _). }
  split; [by apply relocate_wf|].
  intros r c. by apply relocate_get.
Qed.

Lemma simulated_move_moves_one_piece_witness :
  exists m b1,
    board_do_move no_key (Some GameState.init) (Board_init 0) 11 3 9 4 true
    = (inr m, b1, Some GameState.init) /\
    Board.get b1 11 3 = None /\
    Board.get b1 9 4 = Some (Piece.Build 1 Knight WHITE true).
Proof.
  assert (Hwf : wf_grid (Board.grid (Board_init 0))).
  { split; [reflexivity|]. vm_compute. repeat constructor. }
  destruct (simulated_move_moves_one_piece no_key (Some GameState.init) (Board_init 0)
              11 3 9 4 (Piece.Build 1 Knight WHITE false) Hwf)
    as (m & b1 & Hdo & _ & _ & _ & _ & _ & Hcells).
  - vm_compute. reflexivity.
  - reflexivity.
  - discriminate.
  - exists m, b1. split; [exact Hdo|]. split.
    + rewrite Hcells. reflexivity.
    + rewrite Hcells. reflexivity.
Defined.


(** ** Legal moves outside the duel lock *)

Lemma playable_same_grid b b' p sq :
  Board.grid b = Board.grid b' -> playable b p sq = playable b' p sq.
Proof.
  intros Hg. destruct sq as [er ec]. unfold playable.
  by rewrite (get_same_grid b b').
Qed.

Lemma legal_moves_for_piece_playable sha1_key gs b r c p m :
  Board.get b r c = Some p ->
  In m (fst (legal_moves_for_piece sha1_key gs b r c)) ->
  exists er ec, m = (r, c, er, ec) /\ playable b p (er, ec) = true.
Proof.
  intros Hp Hm. unfold legal_moves_for_piece in Hm. rewrite Hp in Hm.
  pose proof (gen_moves_playable gs b r c p Hp) as Hall.
  destruct (gen_moves gs b r c) as [pseudo b1]. cbn [fst] in Hall.
  apply filter_legal_In in Hm as (er & ec & -> & Hin).
  rewrite List.Forall_forall in Hall. exists er, ec. split; [done|].
  by apply Hall.
Qed.

(** X21.  While the duel lock is off, [all_legal_moves_for_color] hands
    the board back with every cell as it was, and each move it lists starts
    on a piece of the seat asked for and ends on a cell that piece may be
    sent to: on the board, empty or held by a piece of another seat that is
    not a king, and outside the corners (a king may enter its own). *)
Theorem legal_moves_outside_the_lock_are_playable
    (sha1_key : string -> Z) (_CHESS_OK : bool) (lib : ChessLib)
    (gs : option GameState.t) (b : Board.t) (color : PColor) :
  gs_chess_lock gs = false ->
  wf_grid (Board.grid b) ->
  let '(moves, b') := all_legal_moves_for_color sha1_key _CHESS_OK lib gs b color in
  Board.grid b' = Board.grid b /\
  (forall sr sc er ec, In (sr, sc, er, ec) moves ->
     exists p, Board.get b sr sc = Some p /\ Piece.color p = color /\
               playable b p (er, ec) = true).
Proof.
  intros Hlock Hwf. unfold all_legal_moves_for_color.
  set (good := fun m : Move4 =>
         let '(sr, sc, er, ec) := m in
         exists p, Board.get b sr sc = Some p /\ Piece.color p = color /\
                   playable b p (er, ec) = true).
  assert (Hgen : forall l moves b0,
            Board.grid b0 = Board.grid b -> Forall good moves ->
            let res := List.fold_left (fun '(moves, b) '(r, c) =>
                match Board.get b r c with
                | Some p =>
                    if is_color color p then
                      match legal_moves_for_piece_override sha1_key _CHESS_OK lib gs
                              b r c (Some color) with
                      | (inr plist, b') => (moves ++ plist, b')
                      | (inl _, b') => (moves, b')
                      end
                    else (moves, b)
                | None => (moves, b)
                end) l (moves, b0) in
            Board.grid (snd res) = Board.grid b /\ Forall good (fst res)).
  { induction l as [|[r c] l IH]; intros moves b0 Hg Hok; [done|]. simpl.
    destruct (Board.get b0 r c) as [p|] eqn:Hp; [|by apply IH].
    destruct (is_color color p) eqn:Hcol; [|by apply IH].
    rewrite override_unlocked by done.
    apply IH.
    - rewrite legal_moves_for_piece_restores_cells; [done|done|].
      by apply (wf_grid_same b0 b).
    - apply Forall_app. split; [done|].
      apply List.Forall_forall. intros m Hm.
      apply (legal_moves_for_piece_playable sha1_key gs b0 r c p) in Hm
        as (er & ec & -> & Hplay); [|done].
      exists p. split; [by rewrite <- (get_same_grid b0 b)|].
      split; [by apply bool_decide_eq_true in Hcol|].
      by rewrite <- (playable_same_grid b0 b). }
  specialize (Hgen all_squares [] b eq_refl (List.Forall_nil _)).
  cbv zeta in Hgen.
  match goal with
  | |- let '(_, _) := ?e in _ => destruct e as [moves b']
  end.
  destruct Hgen as [Hgrid Hgood]. split; [exact Hgrid|].
  intros sr sc er ec Hin. rewrite List.Forall_forall in Hgood.
  exact (Hgood _ Hin).
Qed.

Lemma legal_moves_outside_the_lock_are_playable_witness :
  Board.grid (snd (all_legal_moves_for_color no_key false absent_lib
                     (Some GameState.init) (Board_init 0) WHITE))
  = Board.grid (Board_init 0).
Proof.
  assert (Hwf : wf_grid (Board.grid (Board_init 0))).
  { split; [reflexivity|]. vm_compute. repeat constructor. }
  pose proof (legal_moves_outside_the_lock_are_playable no_key false absent_lib
                (Some GameState.init) (Board_init 0) WHITE eq_refl Hwf) as H.
  destruct (all_legal_moves_for_color no_key false absent_lib
              (Some GameState.init) (Board_init 0) WHITE) as [moves b'].
  exact (proj1 H).
Defined.


(** ** The guardian promotion of the corner *)

Lemma promote_cells_get (b0 : Board.t) (color : PColor) (l : list Square) :
  NoDup l ->
  Forall (fun '(r, c) => Board.in_bounds r c = true) l ->
  forall b r c,
    wf_grid (Board.grid b) ->
    (forall rr cc, In (rr, cc) l -> Board.get b rr cc = Board.get b0 rr cc) ->
    let b' :=
      List.fold_left (fun b '(rr, cc, piece) =>
          mutate_piece b rr cc (Piece.pid piece) (fun p => Piece.set_kind p Queen))
        (List.flat_map (fun '(rr, cc) =>
             match Board.grid_get (Board.grid b0) rr cc with
             | Some piece =>
                 if is_color color piece && is_kind Bishop piece
                 then [(rr, cc, piece)] else []
             | None => []
             end) l) b in
    wf_grid (Board.grid b') /\
    Board.get b' r c
    = if List.existsb (fun sq => bool_decide (sq = (r, c))) l then
        match Board.get b0 r c with
        | Some p =>
            if is_color color p && is_kind Bishop p
            then Some (Piece.set_kind p Queen) else Some p
        | None => None
        end
      else Board.get b r c.
Proof.
  induction 1 as [|[rr cc] l Hnotin Hnd IH]; intros Hbounds b r c Hwf Hagree;
    [done|].
  apply Forall_cons in Hbounds as [Hin Hbounds].
  cbn [List.flat_map List.existsb]. rewrite fold_left_app.
  assert (Hcell : Board.get b0 rr cc = Board.grid_get (Board.grid b0) rr cc)
    by (unfold Board.get; by rewrite Hin).
  rewrite <- Hcell.
  assert (Hhere : Board.get b rr cc = Board.get b0 rr cc)
    by (apply Hagree; by left).
  set (step := fun (b : Board.t) '(rr, cc, piece) =>
         mutate_piece b rr cc (Piece.pid piece) (fun p => Piece.set_kind p Queen)).
  set (b1 := List.fold_left step
               match Board.get b0 rr cc with
               | Some piece =>
                   if is_color color piece && is_kind Bishop piece
                   then [(rr, cc, piece)] else []
               | None => []
               end b).
  assert (Hb1 : wf_grid (Board.grid b1) /\
                forall r' c',
                  Board.get b1 r' c'
                  = if bool_decide ((rr, cc) = (r', c')) then
                      match Board.get b0 rr cc with
                      | Some p =>
                          if is_color color p && is_kind Bishop p
                          then Some (Piece.set_kind p Queen) else Some p
                      | None => None
                      end
                    else Board.get b r' c').
  { subst b1. destruct (Board.get b0 rr cc) as [piece|] eqn:Hp.
    - destruct (is_color color piece && is_kind Bishop piece).
      + cbn [List.fold_left step]. split; [by apply mutate_piece_wf|].
        intros r' c'. rewrite mutate_piece_get by done. rewrite Hhere.
        by rewrite (bool_decide_eq_true_2 (Piece.pid piece = Piece.pid piece)).
      + cbn [List.fold_left]. split; [done|]. intros r' c'.
        case_bool_decide as Heq; [|done]. injection Heq as <- <-. congruence.
    - cbn [List.fold_left]. split; [done|]. intros r' c'.
      case_bool_decide as Heq; [|done]. injection Heq as <- <-. congruence. }
  destruct Hb1 as [Hwf1 Hget1].
  assert (Hagree1 : forall r' c', In (r', c') l ->
                      Board.get b1 r' c' = Board.get b0 r' c').
  { intros r' c' Hl. rewrite Hget1. rewrite bool_decide_eq_false_2.
    - apply Hagree. by right.
    - intros [= <- <-]. by apply Hnotin, list_elem_of_In. }
  destruct (IH Hbounds b1 r c Hwf1 Hagree1) as [Hwf' Hget'].
  split; [exact Hwf'|]. etransitivity; [exact Hget'|]. rewrite Hget1.
  case_bool_decide as Heq.
  - injection Heq as <- <-. cbn [orb].
    by destruct (existsb (fun sq => bool_decide (sq = (rr, cc))) l).
  - done.
Qed.

Lemma promote_bishops_get b color r c :
  wf_grid (Board.grid b) ->
  wf_grid (Board.grid (promote_bishops b color)) /\
  Board.get (promote_bishops b color) r c
  = match Board.get b r c with
    | Some p =>
        if is_color color p && is_kind Bishop p
        then Some (Piece.set_kind p Queen) else Some p
    | None => None
    end.
Proof.
  intros Hwf.
  assert (Hbounds : Forall (fun '(r, c) => Board.in_bounds r c = true) all_squares).
  { apply List.Forall_forall. intros [r' c'] Hin. by apply all_squares_spec. }
  destruct (promote_cells_get b color all_squares all_squares_NoDup Hbounds b r c Hwf
              ltac:(done)) as [Hwf' Hget].
  split; [exact Hwf'|].
  unfold promote_bishops, _pieces_of_kind. rewrite Hget, all_squares_existsb.
  destruct (Board.in_bounds r c) eqn:Hin; [done|].
  by rewrite get_out_of_bounds.
Qed.

Lemma update_corner_state_flags b g color :
  let '(b', g') := _update_corner_state b g color in
  Board.grid b' = Board.grid b /\
  GameState.corner_promoted g' = GameState.corner_promoted g /\
  (PerSeat.get (GameState.corner_immune g') color = true ->
   PerSeat.get (GameState.corner_in_corner g') color = true /\
   PerSeat.get (GameState.corner_evict_pending g') color = false) /\
  (PerSeat.get (GameState.corner_evict_pending g') color = true ->
   PerSeat.get (GameState.corner_in_corner g') color = true /\
   PerSeat.get (GameState.corner_promoted g) color = true) /\
  (forall col, col <> color ->
     PerSeat.get (GameState.corner_immune g') col
     = PerSeat.get (GameState.corner_immune g) col /\
     PerSeat.get (GameState.corner_in_corner g') col
     = PerSeat.get (GameState.corner_in_corner g) col /\
     PerSeat.get (GameState.corner_evict_pending g') col
     = PerSeat.get (GameState.corner_evict_pending g) col).
Proof.
  unfold _update_corner_state.
  pose proof (find_king_grid b color) as Hg.
  destruct (Board.find_king b color) as [kp b1]. cbn [snd] in Hg.
  set (in_corner := match kp with
                    | Some (r, c) => bool_decide (corner_owner_at r c = Some color)
                    | None => false
                    end).
  set (queens := Z.of_nat (length (_pieces_of_kind b1 color Queen))).
  cbv zeta.
  cbn [GameState.corner_promoted GameState.corner_immune GameState.corner_in_corner
       GameState.corner_evict_pending GameState.set_corner_in_corner
       GameState.set_corner_immune GameState.set_corner_evict_pending].
  rewrite !PerSeat_get_set_eq.
  split; [exact Hg|]. split; [reflexivity|]. split.
  { intros Himm. apply andb_true_iff in Himm as [Hin Hq]. split; [done|].
    apply Z.leb_le in Hq. rewrite Hin. cbn [andb].
    replace (queens <=? 1) with false by (symmetry; apply Z.leb_gt; lia).
    by rewrite andb_false_r. }
  split.
  { intros Hev. apply andb_true_iff in Hev as [Hev _].
    apply andb_true_iff in Hev as [Hin Hpr]. done. }
  intros col Hne. by rewrite !PerSeat_get_set_ne.
Qed.

(** X22.  [_handle_corner_entry] makes every bishop of the seat a queen
    the first time it is called for that seat, changes no other piece, and
    marks the seat as promoted; once the seat is marked it changes no cell.
    The flags it leaves are consistent: a seat is immune or under eviction
    only when its king is in its own corner, never both, and the flags of
    the other seats are as they were. *)
Theorem corner_entry_promotes_the_bishops_once
    (b : Board.t) (g : GameState.t) (color : PColor) :
  wf_grid (Board.grid b) ->
  let '(b', g') := _handle_corner_entry b g color in
  let first := negb (PerSeat.get (GameState.corner_promoted g) color) in
  (forall r c,
     Board.get b' r c
     = match Board.get b r c with
       | Some p =>
           if first && is_color color p && is_kind Bishop p
           then Some (Piece.set_kind p Queen) else Some p
       | None => None
       end) /\
  PerSeat.get (GameState.corner_promoted g') color = true /\
  (PerSeat.get (GameState.corner_immune g') color = true ->
   PerSeat.get (GameState.corner_in_corner g') color = true /\
   PerSeat.get (GameState.corner_evict_pending g') color = false) /\
  (PerSeat.get (GameState.corner_evict_pending g') color = true ->
   PerSeat.get (GameState.corner_in_corner g') color = true) /\
  (forall col, col <> color ->
     PerSeat.get (GameState.corner_promoted g') col
     = PerSeat.get (GameState.corner_promoted g) col /\
     PerSeat.get (GameState.corner_immune g') col
     = PerSeat.get (GameState.corner_immune g) col /\
     PerSeat.get (GameState.corner_in_corner g') col
     = PerSeat.get (GameState.corner_in_corner g) col /\
     PerSeat.get (GameState.corner_evict_pending g') col
     = PerSeat.get (GameState.corner_evict_pending g) col).
Proof.
  intros Hwf. unfold _handle_corner_entry.
  destruct (PerSeat.get (GameState.corner_promoted g) color) eqn:Hpr; cbn [negb].
  - pose proof (update_corner_state_flags b g color) as Hup.
    destruct (_update_corner_state b g color) as [b' g'].
    destruct Hup as (Hg & Hprom & Himm & Hev & Hothers). cbv zeta. cbn [andb].
    split.
    { intros r c. rewrite (get_same_grid b' b) by done.
      by destruct (Board.get b r c). }
    split; [by rewrite Hprom|]. split; [exact Himm|].
    split; [intros H; by destruct (Hev H)|].
    intros col Hne. rewrite Hprom. split; [done|]. by apply Hothers.
  - set (g1 := GameState.set_corner_promoted
                 (PerSeat.set (GameState.corner_promoted g) color true) g).
    pose proof (update_corner_state_flags (promote_bishops b color) g1 color) as Hup.
    destruct (_update_corner_state (promote_bishops b color) g1 color) as [b' g'].
    destruct Hup as (Hg & Hprom & Himm & Hev & Hothers). cbv zeta. cbn [andb].
    split.
    { intros r c. rewrite (get_same_grid b' (promote_bishops b color)) by done.
      by destruct (promote_bishops_get b color r c Hwf) as [_ ->]. }
    split; [rewrite Hprom; apply PerSeat_get_set_eq|].
    split; [exact Himm|].
    split; [intros H; by destruct (Hev H)|].
    intros col Hne. rewrite Hprom. split.
    { unfold g1. cbn [GameState.corner_promoted GameState.set_corner_promoted].
      by rewrite PerSeat_get_set_ne. }
    by apply Hothers.
Qed.

Lemma corner_entry_promotes_the_bishops_once_witness :
  Board.get (fst (_handle_corner_entry corner_entry_position GameState.init WHITE)) 6 6
  = Some (Piece.Build 1 Queen WHITE false) /\
  PerSeat.get (GameState.corner_promoted
                 (snd (_handle_corner_entry corner_entry_position GameState.init WHITE)))
    WHITE = true.
Proof.
  assert (Hwf : wf_grid (Board.grid corner_entry_position)).
  { split; [reflexivity|]. vm_compute. repeat constructor. }
  pose proof (corner_entry_promotes_the_bishops_once corner_entry_position
                GameState.init WHITE Hwf) as H.
  destruct (_handle_corner_entry corner_entry_position GameState.init WHITE)
    as [b' g'].
  destruct H as (Hcells & Hprom & _). cbn [fst snd].
  split; [rewrite Hcells; reflexivity|exact Hprom].
Defined.


(** ** Sorting *)

Lemma insert_desc_Permutation {A K} (key_lt : K -> K -> bool) (x : K * A) l :
  Permutation (insert_desc key_lt x l) (x :: l).
Proof.
  induction l as [|y l IH]; simpl; [done|].
  destruct (key_lt y.1 x.1); [done|].
  rewrite IH. apply perm_swap.
Qed.

Lemma sort_desc_Permutation {A K} (key_lt : K -> K -> bool) (l : list (K * A)) :
  Permutation (sort_desc key_lt l) l.
Proof.
  unfold sort_desc.
  assert (H : forall acc,
            Permutation (List.fold_left (fun acc x => insert_desc key_lt x acc) l acc)
              (acc ++ l)).
  { induction l as [|x l IH]; intros acc; simpl; [by rewrite app_nil_r|].
    rewrite IH, insert_desc_Permutation. simpl. apply Permutation_middle. }
  by rewrite H.
Qed.


Lemma insert_desc_descending {A} (x : Z * A) l :
  descending l -> descending (insert_desc Z.ltb x l).
Proof.
  unfold descending. induction 1 as [|y l Hl IH Hy]; simpl.
  { by repeat constructor. }
  destruct (Z.ltb_spec y.1 x.1) as [Hlt|Hge].
  - constructor; [by constructor|].
    constructor; [lia|]. eapply List.Forall_impl; [|exact Hy].
    intros z Hz. simpl in Hz. lia.
  - constructor; [done|].
    apply List.Forall_forall. intros z Hz.
    apply insert_desc_In in Hz as [->|Hz]; [done|].
    rewrite List.Forall_forall in Hy. by apply Hy.
Qed.

Lemma sort_desc_descending {A} (l : list (Z * A)) : descending (sort_desc Z.ltb l).
Proof.
  unfold sort_desc.
  assert (H : forall acc, descending acc ->
            descending (List.fold_left (fun acc x => insert_desc Z.ltb x acc) l acc)).
  { induction l as [|x l IH]; intros acc Hacc; simpl; [done|].
    by apply IH, insert_desc_descending. }
  apply H. constructor.
Qed.

(** Equal keys keep their order. *)
Lemma insert_desc_stable {A} (k : Z) (x : Z * A) l :
  descending l ->
  List.filter (fun p => fst p =? k) (insert_desc Z.ltb x l)
  = List.filter (fun p => fst p =? k) l ++ (if fst x =? k then [x] else []).
Proof.
  unfold descending. induction 1 as [|y l Hl IH Hy]; simpl; [done|].
  destruct (Z.ltb_spec y.1 x.1) as [Hlt|Hge].
  - simpl. destruct (Z.eqb_spec x.1 k) as [Hk|Hk]; [|by rewrite app_nil_r].
    assert (Hnone : List.filter (fun p => fst p =? k) l = []).
    { rewrite List.Forall_forall in Hy. clear IH Hl.
      induction l as [|z l IHl]; [done|]. simpl.
      destruct (Z.eqb_spec z.1 k) as [Hz|Hz].
      - specialize (Hy z ltac:(by left)). simpl in Hy. lia.
      - apply IHl. intros w Hw. apply Hy. by right. }
    rewrite Hnone. destruct (Z.eqb_spec y.1 k); [lia|done].
  - simpl. rewrite IH. by destruct (y.1 =? k).
Qed.

Lemma sort_desc_stable {A} (k : Z) (l : list (Z * A)) :
  List.filter (fun p => fst p =? k) (sort_desc Z.ltb l)
  = List.filter (fun p => fst p =? k) l.
Proof.
  unfold sort_desc.
  assert (H : forall acc, descending acc ->
            List.filter (fun p => fst p =? k)
              (List.fold_left (fun acc x => insert_desc Z.ltb x acc) l acc)
            = List.filter (fun p => fst p =? k) acc
              ++ List.filter (fun p => fst p =? k) l).
  { induction l as [|x l IH]; intros acc Hacc; simpl; [by rewrite app_nil_r|].
    rewrite IH by (by apply insert_desc_descending).
    rewrite insert_desc_stable by done. rewrite <- app_assoc.
    by destruct (x.1 =? k). }
  rewrite H by constructor. done.
Qed.


(** ** The move ordering of the duel search *)

Lemma map_snd_descending {A} (f : A -> Z) (l : list (Z * A)) :
  descending l ->
  Forall (fun p => fst p = f (snd p)) l ->
  StronglySorted (fun a b => f b <= f a) (List.map snd l).
Proof.
  unfold descending. induction 1 as [|y l Hl IH Hy]; intros Hkeys; simpl.
  { constructor. }
  apply Forall_cons in Hkeys as [Hky Hkeys].
  constructor; [by apply IH|].
  apply List.Forall_forall. intros z Hz.
  apply in_map_iff in Hz as (p & <- & Hp).
  rewrite List.Forall_forall in Hy, Hkeys.
  specialize (Hy p Hp). specialize (Hkeys p Hp). simpl in Hy. lia.
Qed.

Lemma DUEL_PIECE_VALUES_range k : 0 <= DUEL_PIECE_VALUES k <= 900.
Proof. destruct k; simpl; lia. Qed.

Lemma duel_move_score_range lib cb pv mv :
  if bool_decide (pv = Some mv)
  then 9600 <= duel_move_score lib cb pv mv
  else duel_move_score lib cb pv mv <= 3240.
Proof.
  unfold duel_move_score.
  pose proof (DUEL_PIECE_VALUES_range Pawn) as HP.
  destruct (cb_piece_at lib cb (ChessBoard.to_square mv)) as [[k1 ?]|];
    destruct (cb_piece_at lib cb (ChessBoard.from_square mv)) as [[k2 ?]|];
    try pose proof (DUEL_PIECE_VALUES_range k1);
    try pose proof (DUEL_PIECE_VALUES_range k2);
    destruct (ChessBoard.promotion mv) as [k3|];
    try pose proof (DUEL_PIECE_VALUES_range k3);
    destruct (bool_decide (pv = Some mv)), (cb_is_capture lib cb mv),
      (cb_is_en_passant lib cb mv), (cb_gives_check lib cb mv),
      (cb_is_castling lib cb mv); lia.
Qed.



(** ** The queen reduction *)

(** On the board the float key orders the squares as the integer distance
    does. *)
Lemma queen_key_order a b :
  In a all_squares -> In b all_squares ->
  PrimFloat.ltb (queen_key a) (queen_key b)
  = (centre_distance2 a <? centre_distance2 b).
Proof.
  assert (H : List.forallb (fun a =>
                List.forallb (fun b =>
                    Bool.eqb (PrimFloat.ltb (queen_key a) (queen_key b))
                             (centre_distance2 a <? centre_distance2 b))
                  all_squares) all_squares = true)
    by (vm_compute; reflexivity).
  intros Ha Hb. rewrite forallb_forall in H. specialize (H a Ha).
  rewrite forallb_forall in H. specialize (H b Hb).
  by apply Bool.eqb_prop.
Qed.

Lemma insert_desc_sorted_by {A K} (key_lt : K -> K -> bool) (m : K * A -> Z)
    (x : K * A) l :
  (forall y, In y l -> key_lt (fst y) (fst x) = (m y <? m x)) ->
  StronglySorted (fun a b => m b <= m a) l ->
  StronglySorted (fun a b => m b <= m a) (insert_desc key_lt x l).
Proof.
  intros Hcmp. induction 1 as [|y l Hl IH Hy]; simpl.
  { by repeat constructor. }
  rewrite (Hcmp y) by (by left).
  destruct (Z.ltb_spec (m y) (m x)) as [Hlt|Hge].
  - constructor; [by constructor|].
    constructor; [lia|]. eapply List.Forall_impl; [|exact Hy].
    intros z Hz. simpl in Hz. lia.
  - constructor; [apply IH; intros z Hz; apply Hcmp; by right|].
    apply List.Forall_forall. intros z Hz.
    apply insert_desc_In in Hz as [->|Hz]; [done|].
    rewrite List.Forall_forall in Hy. by apply Hy.
Qed.

Lemma sort_desc_sorted_by {A K} (key_lt : K -> K -> bool) (m : K * A -> Z)
    (l : list (K * A)) :
  (forall x y, In x l -> In y l -> key_lt (fst y) (fst x) = (m y <? m x)) ->
  StronglySorted (fun a b => m b <= m a) (sort_desc key_lt l).
Proof.
  intros Hcmp. unfold sort_desc.
  assert (H : forall l' acc,
            (forall x, In x l' -> In x l) -> (forall x, In x acc -> In x l) ->
            StronglySorted (fun a b => m b <= m a) acc ->
            StronglySorted (fun a b => m b <= m a)
              (List.fold_left (fun acc x => insert_desc key_lt x acc) l' acc)).
  { induction l' as [|x l' IH]; intros acc Hl' Hacc Hsorted; simpl; [done|].
    apply IH.
    - intros y Hy. apply Hl'. by right.
    - intros y Hy. apply insert_desc_In in Hy as [->|Hy];
        [apply Hl'; by left|by apply Hacc].
    - apply insert_desc_sorted_by; [|done].
      intros y Hy. apply Hcmp; [apply Hl'; by left|by apply Hacc]. }
  apply H; [done|by intros x []|constructor].
Qed.

Lemma queen_squares_spec b color r c :
  In (r, c) (queen_squares b color) <->
  exists p, Board.get b r c = Some p /\ Piece.color p = color /\ Piece.kind p = Queen.
Proof.
  unfold queen_squares. rewrite in_flat_map. split.
  - intros ([r' c'] & _ & Hin).
    destruct (Board.get b r' c') as [p|] eqn:Hp; [|done].
    destruct (is_color color p && is_kind Queen p) eqn:Hq; [|done].
    destruct Hin as [[= <- <-]|[]]. exists p. split; [done|].
    apply andb_true_iff in Hq as [Hc Hk].
    apply bool_decide_eq_true in Hc, Hk. done.
  - intros (p & Hp & Hc & Hk). exists (r, c).
    split; [by apply in_all_squares, (get_in_bounds b r c p)|].
    rewrite Hp. unfold is_color, is_kind.
    rewrite !bool_decide_eq_true_2 by done. by left.
Qed.

Lemma flat_map_NoDup {A B} (f : A -> list B) (l : list A) :
  NoDup l ->
  (forall x, NoDup (f x)) ->
  (forall x y z, In x l -> In y l -> In z (f x) -> In z (f y) -> x = y) ->
  NoDup (List.flat_map f l).
Proof.
  intros Hnd Hf Hdisj. induction Hnd as [|x l Hx Hnd IH]; simpl; [constructor|].
  apply NoDup_app. split; [apply Hf|]. split.
  - intros z Hz Hz'. apply list_elem_of_In in Hz, Hz'.
    apply in_flat_map in Hz' as (y & Hy & Hzy).
    assert (x = y) by (apply (Hdisj x y z); [by left|by right|done|done]).
    subst y. by apply Hx, list_elem_of_In.
  - apply IH. intros a c z Ha Hc. apply Hdisj; by right.
Qed.

Lemma queen_squares_NoDup b color : NoDup (queen_squares b color).
Proof.
  unfold queen_squares. apply flat_map_NoDup; [apply all_squares_NoDup| |].
  - intros [r c]. destruct (Board.get b r c) as [p|]; [|constructor].
    destruct (_ && _); [|constructor]. apply NoDup_singleton.
  - intros [r c] [r' c'] z _ _ Hz Hz'.
    destruct (Board.get b r c) as [p|]; [|done].
    destruct (is_color color p && is_kind Queen p); [|done].
    destruct (Board.get b r' c') as [p'|]; [|done].
    destruct (is_color color p' && is_kind Queen p'); [|done].
    destruct Hz as [<-|[]]. by destruct Hz' as [<-|[]].
Qed.

(** The cells after the demotion of two distinct squares. *)
Lemma demote_two_get b s1 s2 r c :
  wf_grid (Board.grid b) -> s1 <> s2 ->
  Board.get (demote_queens [s1; s2] b) r c
  = match Board.get b r c with
    | Some p =>
        if (bool_decide (s1 = (r, c)) || bool_decide (s2 = (r, c)))
           && is_kind Queen p
        then Some (Piece.set_kind p Bishop) else Some p
    | None => None
    end.
Proof.
  intros Hwf Hne. destruct s1 as [r1 c1], s2 as [r2 c2].
  unfold demote_queens. cbn [List.fold_left].
  set (b1 := match Board.get b r1 c1 with
             | Some p =>
                 if is_kind Queen p
                 then mutate_piece b r1 c1 (Piece.pid p)
                        (fun q => Piece.set_kind q Bishop)
                 else b
             | None => b
             end).
  assert (Hb1 : wf_grid (Board.grid b1) /\
                forall r' c',
                  Board.get b1 r' c'
                  = match Board.get b r' c' with
                    | Some p =>
                        if bool_decide ((r1, c1) = (r', c')) && is_kind Queen p
                        then Some (Piece.set_kind p Bishop) else Some p
                    | None => None
                    end).
  { subst b1. destruct (Board.get b r1 c1) as [p|] eqn:Hp.
    - destruct (is_kind Queen p) eqn:Hq.
      + split; [by apply mutate_piece_wf|]. intros r' c'.
        rewrite mutate_piece_get by done. rewrite Hp.
        rewrite (bool_decide_eq_true_2 (Piece.pid p = Piece.pid p)) by done.
        case_bool_decide as Heq.
        * injection Heq as <- <-. by rewrite Hp, Hq.
        * by destruct (Board.get b r' c').
      + split; [done|]. intros r' c'. case_bool_decide as Heq.
        * injection Heq as <- <-. by rewrite Hp, Hq.
        * by destruct (Board.get b r' c').
    - split; [done|]. intros r' c'. case_bool_decide as Heq.
      + injection Heq as <- <-. by rewrite Hp.
      + by destruct (Board.get b r' c'). }
  destruct Hb1 as [Hwf1 Hget1].
  assert (Hsame : Board.get b1 r2 c2 = Board.get b r2 c2).
  { rewrite Hget1. rewrite bool_decide_eq_false_2 by done.
    by destruct (Board.get b r2 c2). }
  rewrite Hsame.
  destruct (decide ((r2, c2) = (r, c))) as [Heq|Heq].
  - injection Heq as <- <-.
    rewrite !(bool_decide_eq_true_2 ((r2, c2) = (r2, c2))) by done.
    rewrite (bool_decide_eq_false_2 ((r1, c1) = (r2, c2))) by done.
    destruct (Board.get b r2 c2) as [p|] eqn:Hp; [|by rewrite Hget1, Hp].
    destruct (is_kind Queen p) eqn:Hq.
    + rewrite mutate_piece_get by done. rewrite Hsame.
      rewrite (bool_decide_eq_true_2 ((r2, c2) = (r2, c2))) by done.
      by rewrite (bool_decide_eq_true_2 (Piece.pid p = Piece.pid p)).
    + rewrite Hget1, Hp, Hq. by rewrite andb_false_r.
  - rewrite !(bool_decide_eq_false_2 ((r2, c2) = (r, c))) by done.
    assert (Hgoal : Board.get b1 r c
                    = match Board.get b r c with
                      | Some p =>
                          if (bool_decide ((r1, c1) = (r, c)) || false)
                             && is_kind Queen p
                          then Some (Piece.set_kind p Bishop) else Some p
                      | None => None
                      end).
    { rewrite Hget1. destruct (Board.get b r c) as [p0|]; [|done].
      by rewrite orb_false_r. }
    destruct (Board.get b r2 c2) as [p|] eqn:Hp; [|exact Hgoal].
    destruct (is_kind Queen p) eqn:Hq; [|exact Hgoal].
    rewrite mutate_piece_get by done.
    rewrite (bool_decide_eq_false_2 ((r2, c2) = (r, c))) by done.
    exact Hgoal.
Qed.


(** X24.  [apply_queen_reduction_if_needed] acts once per seat: when the
    two-stage endgame is on, the seat has entered the 8x8, no reduction was
    applied to it yet and it has at least two queens, two of its queens
    become bishops, no other cell changes, the squares of the two are
    returned and the seat is marked as reduced.  With more than two queens
    the two chosen are the ones farthest from the centre of the board.  In
    every other case nothing changes and the answer is [None]. *)
Theorem queen_reduction_demotes_the_two_outermost_queens
    (b : Board.t) (g : GameState.t) (color : PColor) :
  wf_grid (Board.grid b) ->
  let queens := queen_squares b color in
  let due :=
    GameState.two_stage_active g
    && negb (PerSeat.get (GameState.reduced_applied g) color)
    && PerSeat.get (GameState.entered g) color
    && (2 <=? length queens)%nat in
  let '(res, b', g') := apply_queen_reduction_if_needed b g color in
  if due then
    exists s1 s2,
      res = Some [s1; s2] /\ s1 <> s2 /\ In s1 queens /\ In s2 queens /\
      (forall q, In q queens -> q <> s1 -> q <> s2 ->
         centre_distance2 q <= centre_distance2 s1 /\
         centre_distance2 q <= centre_distance2 s2) /\
      (forall r c,
         Board.get b' r c
         = match Board.get b r c with
           | Some p =>
               if bool_decide (s1 = (r, c)) || bool_decide (s2 = (r, c))
               then Some (Piece.set_kind p Bishop) else Some p
           | None => None
           end) /\
      g' = GameState.set_reduced_applied
             (PerSeat.set (GameState.reduced_applied g) color true) g
  else res = None /\ b' = b /\ g' = g.
Proof.
  intros Hwf queens due. subst due. unfold apply_queen_reduction_if_needed.
  fold queens.
  destruct (GameState.two_stage_active g); cbn [negb orb andb]; [|done].
  destruct (PerSeat.get (GameState.reduced_applied g) color); cbn [negb andb]; [done|].
  destruct (PerSeat.get (GameState.entered g) color); cbn [negb andb]; [|done].
  (* the cells once two distinct queens were picked *)
  assert (Hcells : forall s1 s2, s1 <> s2 -> In s1 queens -> In s2 queens ->
            forall r c,
              Board.get (demote_queens [s1; s2] b) r c
              = match Board.get b r c with
                | Some p =>
                    if bool_decide (s1 = (r, c)) || bool_decide (s2 = (r, c))
                    then Some (Piece.set_kind p Bishop) else Some p
                | None => None
                end).
  { intros s1 s2 Hne H1 H2 r c. rewrite demote_two_get by done.
    destruct (Board.get b r c) as [p|] eqn:Hp; [|done].
    destruct (bool_decide (s1 = (r, c)) || bool_decide (s2 = (r, c))) eqn:Hor;
      [|done].
    assert (Hq : In (r, c) queens).
    { apply orb_true_iff in Hor as [H|H]; apply bool_decide_eq_true in H; by subst. }
    apply queen_squares_spec in Hq as (p' & Hp' & _ & Hk).
    assert (p' = p) by congruence. subst p'.
    unfold is_kind. by rewrite bool_decide_eq_true_2. }
  pose proof (queen_squares_NoDup b color) as Hnd. fold queens in Hnd.
  destruct (Nat.leb_spec 3 (length queens)) as [H3|H3].
  - (* three queens or more: the two with the largest keys *)
    replace (2 <=? length queens)%nat with true by (symmetry; apply Nat.leb_le; lia).
    set (scored := List.map (fun rc => (queen_key rc, rc)) queens).
    set (m := fun p : float * Square => centre_distance2 (snd p)).
    assert (Hsorted : StronglySorted (fun a b => m b <= m a)
                        (sort_desc PrimFloat.ltb scored)).
    { apply sort_desc_sorted_by. intros x y Hx Hy. unfold scored in Hx, Hy.
      apply in_map_iff in Hx as (rx & <- & Hrx).
      apply in_map_iff in Hy as (ry & <- & Hry). unfold m. cbn [fst snd].
      assert (Hall : forall rc, In rc queens -> In rc all_squares).
      { intros [r c] Hin. apply queen_squares_spec in Hin as (p & Hp & _).
        by apply in_all_squares, (get_in_bounds b r c p). }
      apply queen_key_order; by apply Hall. }
    assert (Hperm : Permutation (List.map snd (sort_desc PrimFloat.ltb scored)) queens).
    { etransitivity; [apply Permutation_map, sort_desc_Permutation|].
      unfold scored. rewrite List.map_map. simpl. by rewrite List.map_id. }
    destruct (sort_desc PrimFloat.ltb scored) as [|p1 [|p2 rest]] eqn:Hsort.
    { apply Permutation_length in Hperm. simpl in Hperm. lia. }
    { apply Permutation_length in Hperm. simpl in Hperm. lia. }
    cbn [List.map firstn].
    cbn [List.map] in Hperm.
    assert (Hnd' : NoDup (snd p1 :: snd p2 :: List.map snd rest)).
    { by rewrite Hperm. }
    apply NoDup_cons in Hnd' as [Hp1 Hnd']. apply NoDup_cons in Hnd' as [Hp2 _].
    assert (Hne : snd p1 <> snd p2).
    { intros Heq. apply Hp1. rewrite Heq. by left. }
    assert (H1 : In (snd p1) queens).
    { eapply Permutation_in; [exact Hperm|by left]. }
    assert (H2 : In (snd p2) queens).
    { eapply Permutation_in; [exact Hperm|right; by left]. }
    exists (snd p1), (snd p2).
    split; [done|]. split; [done|]. split; [done|]. split; [done|]. split.
    + intros q Hq Hq1 Hq2.
      assert (Hin : In q (snd p1 :: snd p2 :: List.map snd rest)).
      { eapply Permutation_in; [symmetry; exact Hperm|done]. }
      destruct Hin as [|[|Hin]]; [congruence|congruence|].
      apply in_map_iff in Hin as (p & <- & Hp).
      apply StronglySorted_inv in Hsorted as [Hsorted Hfirst].
      apply StronglySorted_inv in Hsorted as [_ Hsecond].
      rewrite List.Forall_forall in Hfirst, Hsecond.
      pose proof (Hfirst p ltac:(by right)) as Ha.
      pose proof (Hsecond p Hp) as Hb. unfold m in Ha, Hb. lia.
    + split; [by apply Hcells|done].
  - destruct (Nat.eqb_spec (length queens) 2) as [H2|H2].
    + (* exactly two queens: both *)
      replace (2 <=? length queens)%nat with true
        by (symmetry; apply Nat.leb_le; lia).
      destruct queens as [|s1 [|s2 [|]]] eqn:Hq; try done.
      apply NoDup_cons in Hnd as [Hs1 _].
      assert (Hne : s1 <> s2) by (intros ->; apply Hs1; by left).
      exists s1, s2. split; [done|]. split; [done|].
      split; [by left|]. split; [right; by left|]. split.
      * intros q [|[|[]]] Hq1 Hq2; congruence.
      * split; [apply Hcells; [done|by left|right; by left]|done].
    + replace (2 <=? length queens)%nat with false
        by (symmetry; apply Nat.leb_gt; lia).
      done.
Qed.

Lemma queen_reduction_demotes_the_two_outermost_queens_witness :
  exists s1 s2,
    fst (fst (apply_queen_reduction_if_needed
                (place_all [(9, 6, Piece.new 0 King WHITE);
                            (5, 5, Piece.new 1 Queen WHITE);
                            (2, 9, Piece.new 2 Queen WHITE);
                            (9, 2, Piece.new 3 Queen WHITE)] Board_empty)
                (GameState.set_two_stage_active true
                   (GameState.set_entered (PerSeat.all true) GameState.init))
                WHITE))
    = Some [s1; s2] /\ s1 <> s2.
Proof.
  set (b := place_all [(9, 6, Piece.new 0 King WHITE);
                       (5, 5, Piece.new 1 Queen WHITE);
                       (2, 9, Piece.new 2 Queen WHITE);
                       (9, 2, Piece.new 3 Queen WHITE)] Board_empty).
  set (g := GameState.set_two_stage_active true
              (GameState.set_entered (PerSeat.all true) GameState.init)).
  assert (Hwf : wf_grid (Board.grid b)).
  { split; [reflexivity|]. vm_compute. repeat constructor. }
  pose proof (queen_reduction_demotes_the_two_outermost_queens b g WHITE Hwf) as H.
  cbv zeta in H.
  destruct (apply_queen_reduction_if_needed b g WHITE) as [[res b'] g'].
  match type of H with
  | (if ?d then _ else _) =>
      replace d with true in H by (vm_compute; reflexivity)
  end.
  destruct H as (s1 & s2 & Hres & Hne & _).
  exists s1, s2. cbn [fst]. split; done.
Defined.


(** ** Entering and leaving the two-player stage *)

Lemma purge_outside_keeps_kings b col :
  wf_grid (Board.grid b) -> has_king (purge_outside b) col = has_king b col.
Proof.
  intros Hwf. rewrite purge_outside_sweep. apply sweep_keeps_kings; [done|].
  intros r c p Hk _. by rewrite Hk.
Qed.

Lemma purge_outside_cells b r c :
  wf_grid (Board.grid b) ->
  Board.get (purge_outside b) r c
  = match Board.get b r c with
    | Some p => if negb (is_kind King p) && negb (_in8 r c) then None else Some p
    | None => None
    end.
Proof. intros Hwf. rewrite purge_outside_sweep. by apply sweep_all_get. Qed.

(** X25.  [ensure_two_stage_state] leaves [two_stage_active] true exactly
    when two seats are effectively alive (seats with a king, the flashing
    seat not counted).  Kings and the cells of the 8x8 are never touched,
    and when the flag does not change nothing changes.  On entering the
    stage the two seats become the finalists in turn order, grace is off
    and no piece but a king is left outside the 8x8; on leaving it the
    finalists, the entered and reduced marks, grace and the duel lock are
    all cleared.  A second call changes nothing. *)
Theorem ensure_two_stage_state_tracks_the_living_seats
    (b : Board.t) (g : GameState.t) :
  wf_grid (Board.grid b) ->
  let seats :=
    List.filter (fun c => negb (bool_decide (Some c = GameState.elim_flash_color g)))
      (List.filter (has_king b) TURN_ORDER) in
  let '(b', g') := ensure_two_stage_state b g in
  GameState.two_stage_active g' = bool_decide (length seats = 2%nat) /\
  (forall col, has_king b' col = has_king b col) /\
  (forall r c, _in8 r c = true -> Board.get b' r c = Board.get b r c) /\
  (GameState.two_stage_active g' = GameState.two_stage_active g ->
   Board.grid b' = Board.grid b /\ g' = g) /\
  (GameState.two_stage_active g = false -> GameState.two_stage_active g' = true ->
   exists a c,
     seats = [a; c] /\
     GameState.final_a g' = Some a /\ GameState.final_b g' = Some c /\
     GameState.grace_active g' = false /\
     PerSeat.get (GameState.entered g') a = has_piece_inside b' a /\
     PerSeat.get (GameState.entered g') c = has_piece_inside b' c /\
     (forall r k p, Board.get b' r k = Some p -> _in8 r k = false ->
                    Piece.kind p = King)) /\
  (GameState.two_stage_active g = true -> GameState.two_stage_active g' = false ->
   GameState.final_a g' = None /\ GameState.final_b g' = None /\
   GameState.entered g' = PerSeat.all false /\
   GameState.reduced_applied g' = PerSeat.all false /\
   GameState.grace_active g' = false /\ GameState.chess_lock g' = false) /\
  Board.grid (fst (ensure_two_stage_state b' g')) = Board.grid b' /\
  snd (ensure_two_stage_state b' g') = g'.
Proof.
  intros Hwf seats.
  (* the function on any board with the same kings and a state with the
     same flashing seat *)
  assert (Hshape : forall b0 g0,
            (forall col, has_king b0 col = has_king b col) ->
            GameState.elim_flash_color g0 = GameState.elim_flash_color g ->
            let '(alive_real, b1) := Board.alive_colors b0 in
            Board.grid b1 = Board.grid b0 /\
            List.filter (fun c => negb (bool_decide
                                          (Some c = GameState.elim_flash_color g0)))
              alive_real = seats).
  { intros b0 g0 Hk Hf.
    pose proof (alive_among_spec b0 TURN_ORDER) as Ha.
    pose proof (alive_among_grid b0 TURN_ORDER) as Hg.
    change (Board.alive_among b0 TURN_ORDER) with (Board.alive_colors b0) in Ha, Hg.
    destruct (Board.alive_colors b0) as [alive_real b1]. cbn [fst snd] in Ha, Hg.
    split; [done|]. subst alive_real. rewrite Hf. unfold seats. f_equal.
    apply filter_ext. intros col. apply Hk. }
  assert (Hlen : (length seats =? 2)%nat = bool_decide (length seats = 2%nat)).
  { destruct (Nat.eqb_spec (length seats) 2);
      [by rewrite bool_decide_eq_true_2|by rewrite bool_decide_eq_false_2]. }
  (* a call that finds the flag already right changes nothing *)
  assert (Hstable : forall b0 g0,
            (forall col, has_king b0 col = has_king b col) ->
            GameState.elim_flash_color g0 = GameState.elim_flash_color g ->
            GameState.two_stage_active g0 = bool_decide (length seats = 2%nat) ->
            Board.grid (fst (ensure_two_stage_state b0 g0)) = Board.grid b0 /\
            snd (ensure_two_stage_state b0 g0) = g0).
  { intros b0 g0 Hk Hf Hact. unfold ensure_two_stage_state.
    pose proof (Hshape b0 g0 Hk Hf) as Hs.
    destruct (Board.alive_colors b0) as [alive_real b1]. destruct Hs as [Hg ->].
    rewrite Hlen, Hact.
    by destruct (bool_decide (length seats = 2%nat)). }
  pose proof (Hshape b g ltac:(done) eq_refl) as Hs.
  destruct (ensure_two_stage_state b g) as [b' g'] eqn:Hrun.
  unfold ensure_two_stage_state in Hrun. revert Hrun.
  destruct (Board.alive_colors b) as [alive_real b1]. destruct Hs as [Hg1 Hseats].
  rewrite Hseats, Hlen.
  assert (Hwf1 : wf_grid (Board.grid b1)) by (by rewrite Hg1).
  assert (Hk1 : forall col, has_king b1 col = has_king b col)
    by (intros; by apply has_king_same_grid).
  destruct (bool_decide (length seats = 2%nat)) eqn:Htwo;
    destruct (GameState.two_stage_active g) eqn:Hact; cbn [andb negb].
  - (* already in the stage *)
    intros [= <- <-].
    split; [done|]. split; [done|].
    split; [intros; by apply get_same_grid|]. split; [done|].
    split; [done|]. split; [intros; congruence|].
    apply Hstable; [done|done|by rewrite Hact].
  - (* entering the stage *)
    apply bool_decide_eq_true in Htwo.
    destruct seats as [|a [|c [|]]] eqn:Hs; try done.
    unfold perform_two_stage_migration.
    set (b2 := purge_outside b1).
    assert (Hk2 : forall col, has_king b2 col = has_king b col).
    { intros col. unfold b2. by rewrite purge_outside_keeps_kings. }
    assert (Hcells : forall r k,
              Board.get b2 r k
              = match Board.get b r k with
                | Some p =>
                    if negb (is_kind King p) && negb (_in8 r k) then None else Some p
                | None => None
                end).
    { intros r k. unfold b2. rewrite purge_outside_cells by done.
      by rewrite (get_same_grid b1 b). }
    assert (Hin8 : forall r k, _in8 r k = true -> Board.get b2 r k = Board.get b r k).
    { intros r k Hin. rewrite Hcells, Hin. cbn [negb].
      destruct (Board.get b r k) as [p|]; [|done]. by rewrite andb_false_r. }
    assert (Hout : forall r k p, Board.get b2 r k = Some p -> _in8 r k = false ->
                                 Piece.kind p = King).
    { intros r k p Hp Hin. rewrite Hcells, Hin in Hp. cbn [negb] in Hp.
      destruct (Board.get b r k) as [q|]; [|done]. rewrite andb_true_r in Hp.
      destruct (is_kind King q) eqn:Hq; cbn [negb] in Hp; [|done].
      injection Hp as <-. by apply bool_decide_eq_true in Hq. }
    assert (Hac : a <> c).
    { intros ->.
      assert (Hnd : NoDup [c; c]).
      { rewrite <- Hs. unfold seats. apply NoDup_ListNoDup.
        apply List.NoDup_filter, List.NoDup_filter.
        unfold TURN_ORDER. repeat constructor; simpl; intuition discriminate. }
      apply NoDup_cons in Hnd as [Hnd _]. apply Hnd. by left. }
    destruct ((turn_index a + 2) mod 4 =? turn_index c);
      cbv beta iota zeta; cbn [List.fold_left DUEL_TELEPORT_ON_TWO];
      intros [= <- <-];
      cbn [GameState.two_stage_active GameState.final_a GameState.final_b
           GameState.entered GameState.grace_active GameState.elim_flash_color
           GameState.set_two_stage_active GameState.set_final_a GameState.set_final_b
           GameState.set_entered GameState.set_grace_active
           GameState.set_grace_turns_remaining GameState.set_pawn_dir];
      (split; [done|]); (split; [exact Hk2|]); (split; [exact Hin8|]);
      (split; [intros; congruence|]);
      (split;
       [intros _ _; exists a, c; split; [done|]; split; [done|]; split; [done|];
        split; [done|];
        split; [by rewrite PerSeat_get_set_ne, PerSeat_get_set_eq by done|];
        split; [by rewrite PerSeat_get_set_eq|exact Hout]|]);
      (split; [intros; congruence|]);
      (apply Hstable; [exact Hk2|done|]);
      cbn [GameState.two_stage_active]; done.
  - (* leaving the stage *)
    intros [= <- <-].
    cbn [GameState.two_stage_active GameState.final_a GameState.final_b
         GameState.entered GameState.reduced_applied GameState.grace_active
         GameState.chess_lock GameState.elim_flash_color
         GameState.set_two_stage_active GameState.set_final_a GameState.set_final_b
         GameState.set_entered GameState.set_reduced_applied
         GameState.set_grace_active GameState.set_grace_turns_remaining
         GameState.set_chess_lock].
    split; [done|]. split; [done|].
    split; [intros; by apply get_same_grid|]. split; [intros; congruence|].
    split; [intros; congruence|]. split; [done|].
    apply Hstable; [done|done|]. cbn [GameState.two_stage_active]. done.
  - (* outside the stage *)
    intros [= <- <-].
    split; [done|]. split; [done|].
    split; [intros; by apply get_same_grid|]. split; [done|].
    split; [intros; congruence|]. split; [intros; congruence|].
    apply Hstable; [done|done|by rewrite Hact].
Qed.

Lemma ensure_two_stage_state_tracks_the_living_seats_witness :
  GameState.two_stage_active
    (snd (ensure_two_stage_state duel_check_position GameState.init)) = true.
Proof.
  assert (Hwf : wf_grid (Board.grid duel_check_position)).
  { split; [reflexivity|]. vm_compute. repeat constructor. }
  pose proof (ensure_two_stage_state_tracks_the_living_seats duel_check_position
                GameState.init Hwf) as H.
  cbv zeta in H.
  destruct (ensure_two_stage_state duel_check_position GameState.init) as [b' g'].
  destruct H as [Hact _]. cbn [snd]. rewrite Hact. vm_compute. reflexivity.
Defined.
